(** * A shallow embedding of the explicit-free-list allocator (mm.c and its
    two sibling iterations) and the verification of its specification.

    The heap is a byte-addressed memory; header, footer and link words are
    32-bit little-endian words; [size_t] is 64 bits wide and pointers are
    mathematical integers.  Every access outside the region handed out by
    the address provider is a fault. *)

From Stdlib Require Import ZArith List Lia Bool Permutation.
Import ListNotations.
Open Scope Z_scope.

(** ** Machine constants *)

Definition WSIZE : Z := 4.

Definition DSIZE : Z := 8.

Definition ESIZE : Z := 2 * DSIZE.

Definition NULL : Z := 0.

(** [(void * )-1], the failure value of [mem_sbrk]. *)
Definition SBRK_FAIL : Z := -1.

(** Width of [unsigned int] and of [size_t]. *)
Definition W32 : Z := 2 ^ 32.

Definition W64 : Z := 2 ^ 64.

(** [~0x7] and [~0x2] converted to [unsigned int]. *)
Definition MASK_SIZE : Z := 4294967288.

Definition MASK_NOPRE : Z := 4294967293.

Definition MAX (x y : Z) : Z := if x <? y then y else x.

Definition MIN (x y : Z) : Z := if x <? y then x else y.

Definition PACK (size alloc : Z) : Z := Z.lor size alloc.

(** ** Byte memory and 32-bit words *)

Definition memory := Z -> Z.

Definition byte_at (m : memory) (a : Z) : Z := m a mod 256.

Definition store_byte (m : memory) (a v : Z) : memory :=
  fun x => if x =? a then v mod 256 else m x.

(** [*(unsigned int * )p] as a read. *)
Definition rd (m : memory) (a : Z) : Z :=
  byte_at m a + 256 * byte_at m (a + 1) + 65536 * byte_at m (a + 2)
  + 16777216 * byte_at m (a + 3).

(** [*(unsigned int * )p = v]: the value is truncated to 32 bits. *)
Definition wr (m : memory) (a v : Z) : memory :=
  store_byte (store_byte (store_byte (store_byte m a v) (a + 1) (v / 256))
                (a + 2) (v / 65536)) (a + 3) (v / 16777216).

(** ** Program state

    The three globals of the allocator together with the state of the
    address provider.  [F] is the type of the free-list index: one head
    pointer in the single-list programs, an array of heads in the
    segregated one. *)

Record state (F : Type) : Type := mkState {
  mem : memory;
  mem_lo : Z;      (* first byte of the provider's region *)
  mem_brk : Z;     (* one past its last byte *)
  mem_max : Z;     (* the provider refuses to grow past this address *)
  heap_ptr : Z;
  heap_end : Z;
  free_blks : F
}.

Arguments mkState {F}.

Arguments mem {F}.

Arguments mem_lo {F}.

Arguments mem_brk {F}.

Arguments mem_max {F}.

Arguments heap_ptr {F}.

Arguments heap_end {F}.

Arguments free_blks {F}.

Definition set_mem {F} (s : state F) (m : memory) : state F :=
  mkState m (mem_lo s) (mem_brk s) (mem_max s) (heap_ptr s) (heap_end s) (free_blks s).

Definition set_brk {F} (s : state F) (b : Z) : state F :=
  mkState (mem s) (mem_lo s) b (mem_max s) (heap_ptr s) (heap_end s) (free_blks s).

Definition set_heap_ptr {F} (s : state F) (p : Z) : state F :=
  mkState (mem s) (mem_lo s) (mem_brk s) (mem_max s) p (heap_end s) (free_blks s).

Definition set_heap_end {F} (s : state F) (p : Z) : state F :=
  mkState (mem s) (mem_lo s) (mem_brk s) (mem_max s) (heap_ptr s) p (free_blks s).

Definition set_free_blks {F} (s : state F) (f : F) : state F :=
  mkState (mem s) (mem_lo s) (mem_brk s) (mem_max s) (heap_ptr s) (heap_end s) f.

(** ** The monad of allocator code: state, faults and fuel *)

Inductive outcome (F A : Type) : Type :=
| Done (a : A) (s : state F)
| Fault
| OutOfFuel.

Arguments Done {F A}.

Arguments Fault {F A}.

Arguments OutOfFuel {F A}.

Definition M (F A : Type) : Type := state F -> outcome F A.

Definition ret {F A} (a : A) : M F A := fun s => Done a s.

Definition bind {F A B} (c : M F A) (k : A -> M F B) : M F B :=
  fun s => match c s with
           | Done a s' => k a s'
           | Fault => Fault
           | OutOfFuel => OutOfFuel
           end.

Notation "x <- c ;; k" := (bind c (fun x => k))
  (at level 61, c at next level, right associativity).

Notation "c ;;; k" := (bind c (fun _ => k))
  (at level 61, right associativity).

Definition get_heap_ptr {F} : M F Z := fun s => Done (heap_ptr s) s.

Definition get_heap_end {F} : M F Z := fun s => Done (heap_end s) s.

Definition get_free_blks {F} : M F F := fun s => Done (free_blks s) s.

Definition put_heap_ptr {F} (p : Z) : M F unit := fun s => Done tt (set_heap_ptr s p).

Definition put_heap_end {F} (p : Z) : M F unit := fun s => Done tt (set_heap_end s p).

Definition put_free_blks {F} (f : F) : M F unit := fun s => Done tt (set_free_blks s f).

(** A word access is legal when the whole word lies in the region. *)
Definition in_heap {F} (s : state F) (p n : Z) : bool :=
  (mem_lo s <=? p) && (p + n <=? mem_brk s).

Definition READ {F} (p : Z) : M F Z :=
  fun s => if in_heap s p 4 then Done (rd (mem s) p) s else Fault.

Definition WRITE {F} (p v : Z) : M F unit :=
  fun s => if in_heap s p 4 then Done tt (set_mem s (wr (mem s) p v)) else Fault.

(** Modelled from the spec: the address provider [mem_sbrk] (memlib is not
    part of the sources).  [extend(bytes)] appends [bytes] to the region and
    returns the address of the first new byte, or fails; the provider's
    bound [mem_max] decides. *)
Definition mem_sbrk {F} (incr : Z) : M F Z :=
  fun s => if (0 <=? incr) && (mem_brk s + incr <=? mem_max s)
           then Done (mem_brk s) (set_brk s (mem_brk s + incr))
           else Done SBRK_FAIL s.

(** [memcpy] and [memset] on bytes. *)
Fixpoint copy_bytes (n : nat) (m : memory) (dst src : Z) : memory :=
  match n with
  | O => m
  | S k => copy_bytes k (store_byte m dst (m src)) (dst + 1) (src + 1)
  end.

Fixpoint fill_bytes (n : nat) (m : memory) (dst c : Z) : memory :=
  match n with
  | O => m
  | S k => fill_bytes k (store_byte m dst c) (dst + 1) c
  end.

Definition memcpy {F} (dst src n : Z) : M F unit :=
  fun s => if n =? 0 then Done tt s
           else if in_heap s dst n && in_heap s src n
                then Done tt (set_mem s (copy_bytes (Z.to_nat n) (mem s) dst src))
                else Fault.

Definition memset {F} (dst c n : Z) : M F unit :=
  fun s => if n =? 0 then Done tt s
           else if in_heap s dst n
                then Done tt (set_mem s (fill_bytes (Z.to_nat n) (mem s) dst c))
                else Fault.

(** ** The macro layer shared by the three programs *)

Section Macros.
Context {F : Type}.

Definition GET_SIZE (p : Z) : M F Z := w <- READ p ;; ret (Z.land w MASK_SIZE).
Definition GET_ALLOC (p : Z) : M F Z := w <- READ p ;; ret (Z.land w 1).
Definition GET_PREALLOC (p : Z) : M F Z := w <- READ p ;; ret (Z.land w 2).

Definition SET_PREALLOC (p : Z) : M F unit :=
  w <- READ p ;; WRITE p (Z.lor w 2).
Definition RESET_PREALLOC (p : Z) : M F unit :=
  w <- READ p ;; WRITE p (Z.land w MASK_NOPRE).

Definition GET_HEADER (bp : Z) : Z := bp - WSIZE.
Definition GET_FOOTER (bp : Z) : M F Z :=
  sz <- GET_SIZE (GET_HEADER bp) ;; ret (bp + sz - DSIZE).

Definition PRED_FOOTER (bp : Z) : Z := bp - DSIZE.
Definition SUCC_HEADER (bp : Z) : M F Z :=
  sz <- GET_SIZE (GET_HEADER bp) ;; ret (bp + sz - WSIZE).
Definition PRED_BLK (bp : Z) : M F Z :=
  sz <- GET_SIZE (PRED_FOOTER bp) ;; ret (bp - sz).
Definition SUCC_BLK (bp : Z) : M F Z :=
  sz <- GET_SIZE (GET_HEADER bp) ;; ret (bp + sz).

(** A link word holds the offset from [heap_ptr]; 0 encodes [NULL]. *)
Definition PRED_FREE (bp : Z) : M F Z :=
  w <- READ bp ;;
  if w =? 0 then ret NULL else hp <- get_heap_ptr ;; ret (w + hp).
Definition SUCC_FREE (bp : Z) : M F Z :=
  w <- READ (bp + WSIZE) ;;
  if w =? 0 then ret NULL else hp <- get_heap_ptr ;; ret (w + hp).
Definition SET_PRED_FREE (bp val : Z) : M F unit :=
  hp <- get_heap_ptr ;; WRITE bp (if val =? 0 then 0 else val - hp).
Definition SET_SUCC_FREE (bp val : Z) : M F unit :=
  hp <- get_heap_ptr ;; WRITE (bp + WSIZE) (if val =? 0 then 0 else val - hp).
End Macros.

(** ** mm.c: one explicit free list, footers only on free blocks,
    best of the first [MAX_FIT] fits *)

Module Mm.

Definition MAX_FIT : Z := 6.
Definition MAX_NFIT : Z := 28.

Definition st := state Z.
Definition prog := M Z.

Definition _insert_free_block (ptr : Z) : prog unit :=
  if ptr =? NULL then ret tt
  else
    fb <- get_free_blks ;;
    if fb =? NULL then
      put_free_blks ptr ;;;
      SET_PRED_FREE ptr 0 ;;;
      SET_SUCC_FREE ptr 0
    else
      SET_SUCC_FREE ptr fb ;;;
      SET_PRED_FREE fb ptr ;;;
      put_free_blks ptr ;;;
      SET_PRED_FREE ptr 0.

Definition _delete_free_block (ptr : Z) : prog unit :=
  if ptr =? NULL then ret tt
  else
    succ_free <- SUCC_FREE ptr ;;
    fb <- get_free_blks ;;
    if fb =? ptr then
      if succ_free =? NULL then put_free_blks NULL
      else
        put_free_blks succ_free ;;;
        SET_PRED_FREE succ_free 0
    else
      pred_free <- PRED_FREE ptr ;;
      if succ_free =? NULL then SET_SUCC_FREE pred_free 0
      else
        SET_SUCC_FREE pred_free succ_free ;;;
        SET_PRED_FREE succ_free pred_free.

(** Sums of two [GET_SIZE] results are computed in [unsigned int].  The
    common tail of the four cases, [_insert_free_block(ptr); return ptr;],
    is written out at the end of each. *)
Definition _merge_free_blocks (ptr : Z) : prog Z :=
  pred_alloc <- GET_PREALLOC (GET_HEADER ptr) ;;
  sh <- SUCC_HEADER ptr ;;
  succ_alloc <- GET_ALLOC sh ;;
  if negb (pred_alloc =? 0) && negb (succ_alloc =? 0) then
    sb <- SUCC_BLK ptr ;;
    RESET_PREALLOC (GET_HEADER sb) ;;;
    _insert_free_block ptr ;;;
    ret ptr
  else if negb (pred_alloc =? 0) then
    sb <- SUCC_BLK ptr ;;
    _delete_free_block sb ;;;
    sz <- GET_SIZE (GET_HEADER ptr) ;;
    sh <- SUCC_HEADER ptr ;;
    ssz <- GET_SIZE sh ;;
    let newsize := (sz + ssz) mod W32 in
    WRITE (GET_HEADER ptr) (PACK newsize pred_alloc) ;;;
    ft <- GET_FOOTER ptr ;;
    WRITE ft (PACK newsize 0) ;;;
    _insert_free_block ptr ;;;
    ret ptr
  else if negb (succ_alloc =? 0) then
    pb <- PRED_BLK ptr ;;
    _delete_free_block pb ;;;
    sz <- GET_SIZE (GET_HEADER ptr) ;;
    psz <- GET_SIZE (PRED_FOOTER ptr) ;;
    let newsize := (sz + psz) mod W32 in
    pb <- PRED_BLK ptr ;;
    pred_alloc <- GET_PREALLOC (GET_HEADER pb) ;;
    pb <- PRED_BLK ptr ;;
    WRITE (GET_HEADER pb) (PACK newsize pred_alloc) ;;;
    ft <- GET_FOOTER ptr ;;
    WRITE ft (PACK newsize 0) ;;;
    sb <- SUCC_BLK ptr ;;
    RESET_PREALLOC (GET_HEADER sb) ;;;
    ptr <- PRED_BLK ptr ;;
    _insert_free_block ptr ;;;
    ret ptr
  else
    pb <- PRED_BLK ptr ;;
    _delete_free_block pb ;;;
    sb <- SUCC_BLK ptr ;;
    _delete_free_block sb ;;;
    sz <- GET_SIZE (GET_HEADER ptr) ;;
    psz <- GET_SIZE (PRED_FOOTER ptr) ;;
    sh <- SUCC_HEADER ptr ;;
    ssz <- GET_SIZE sh ;;
    let newsize := (((sz + psz) mod W32) + ssz) mod W32 in
    pb <- PRED_BLK ptr ;;
    pred_alloc <- GET_PREALLOC (GET_HEADER pb) ;;
    pb <- PRED_BLK ptr ;;
    WRITE (GET_HEADER pb) (PACK newsize pred_alloc) ;;;
    sb <- SUCC_BLK ptr ;;
    ft <- GET_FOOTER sb ;;
    WRITE ft (PACK newsize 0) ;;;
    ptr <- PRED_BLK ptr ;;
    _insert_free_block ptr ;;;
    ret ptr.

Definition _build (ptr size : Z) : prog unit :=
  if ptr =? NULL then ret tt
  else
    _delete_free_block ptr ;;;
    blksize <- GET_SIZE (GET_HEADER ptr) ;;
    prealloc <- GET_PREALLOC (GET_HEADER ptr) ;;
    if ESIZE <? (blksize - size) mod W64 then
      WRITE (GET_HEADER ptr) (PACK size (Z.lor prealloc 1)) ;;;
      ft <- GET_FOOTER ptr ;;
      WRITE ft (PACK size 1) ;;;
      split <- SUCC_BLK ptr ;;
      let blksize := (blksize - size) mod W64 in
      WRITE (GET_HEADER split) (PACK blksize 2) ;;;
      ft <- GET_FOOTER split ;;
      WRITE ft (PACK blksize 0) ;;;
      _merge_free_blocks split ;;;
      ret tt
    else
      WRITE (GET_HEADER ptr) (PACK blksize (Z.lor prealloc 1)) ;;;
      ft <- GET_FOOTER ptr ;;
      WRITE ft (PACK blksize 1) ;;;
      succ <- SUCC_BLK ptr ;;
      SET_PREALLOC (GET_HEADER succ).

(** The byte count [_extend_heap] asks for: the word count rounded up
    to an even number, times the word size, in [size_t] arithmetic. *)
Definition extend_bytes (extend_size : Z) : Z :=
  if negb (Z.land extend_size 1 =? 0)
  then ((extend_size + 1) mod W64 * WSIZE) mod W64
  else (extend_size * WSIZE) mod W64.

Definition _extend_heap (extend_size : Z) : prog Z :=
  let extend_size := extend_bytes extend_size in
  ptr <- mem_sbrk extend_size ;;
  if ptr =? SBRK_FAIL then ret NULL
  else
    he <- get_heap_end ;;
    prealloc <- GET_PREALLOC he ;;
    WRITE (GET_HEADER ptr) (PACK extend_size prealloc) ;;;
    ft <- GET_FOOTER ptr ;;
    WRITE ft (PACK extend_size 0) ;;;
    sb <- SUCC_BLK ptr ;;
    put_heap_end (GET_HEADER sb) ;;;
    he <- get_heap_end ;;
    WRITE he (PACK 0 1) ;;;
    _merge_free_blocks ptr.

(** The search loop of [_allocate]; [fuel] bounds the number of list
    nodes visited.  The two counters are C [int]s; they stay far below
    [2^31] because a heap of less than [2^32] bytes holds fewer than
    [2^28] blocks. *)
Fixpoint _allocate_loop (fuel : nat) (size ptr best_fit best_fit_size
                         fit_cnt nfit_cnt : Z) : prog Z :=
  if ptr =? NULL then
    if negb (best_fit =? NULL) then ret best_fit else ret NULL
  else
    match fuel with
    | O => fun _ => OutOfFuel
    | S fuel' =>
        now_size <- GET_SIZE (GET_HEADER ptr) ;;
        if size <=? now_size then
          let upd := (best_fit =? NULL) || (now_size <? best_fit_size) in
          let best_fit := if upd then ptr else best_fit in
          let best_fit_size := if upd then now_size else best_fit_size in
          let fit_cnt := fit_cnt + 1 in
          if fit_cnt =? MAX_FIT then ret best_fit
          else
            next <- SUCC_FREE ptr ;;
            _allocate_loop fuel' size next best_fit best_fit_size fit_cnt nfit_cnt
        else
          let nfit_cnt := nfit_cnt + 1 in
          if (MAX_NFIT <? nfit_cnt) && negb (fit_cnt =? 0) then ret best_fit
          else
            next <- SUCC_FREE ptr ;;
            _allocate_loop fuel' size next best_fit best_fit_size fit_cnt nfit_cnt
    end.

Definition _allocate (fuel : nat) (size : Z) : prog Z :=
  fb <- get_free_blks ;;
  _allocate_loop fuel size fb NULL 0 0 0.

Definition mm_init : prog Z :=
  p <- mem_sbrk (6 * WSIZE) ;;
  put_heap_ptr p ;;;
  if p =? SBRK_FAIL then ret (-1)
  else
    WRITE p 0 ;;;
    WRITE (p + 1 * WSIZE) (PACK ESIZE 1) ;;;
    WRITE (p + 2 * WSIZE) 0 ;;;
    WRITE (p + 3 * WSIZE) 0 ;;;
    WRITE (p + 4 * WSIZE) (PACK ESIZE 1) ;;;
    WRITE (p + 5 * WSIZE) (PACK 0 3) ;;;
    put_heap_end (p + 5 * WSIZE) ;;;
    put_heap_ptr (p + ESIZE) ;;;
    put_free_blks NULL ;;;
    ret 0.

(** The adjusted block size of a request. *)
Definition adjust (size : Z) : Z :=
  MAX ESIZE ((DSIZE * (((size + WSIZE + DSIZE - 1) mod W64) / DSIZE)) mod W64).

Definition malloc (fuel : nat) (size : Z) : prog Z :=
  if size =? 0 then ret NULL
  else
    let size := adjust size in
    ptr <- _allocate fuel size ;;
    if negb (ptr =? NULL) then
      _build ptr size ;;;
      ret ptr
    else
      ptr <- _extend_heap (size / WSIZE) ;;
      if ptr =? NULL then ret NULL
      else
        _build ptr size ;;;
        ret ptr.

Definition free (ptr : Z) : prog unit :=
  if ptr =? NULL then ret tt
  else
    size <- GET_SIZE (GET_HEADER ptr) ;;
    prealloc <- GET_PREALLOC (GET_HEADER ptr) ;;
    WRITE (GET_HEADER ptr) (PACK size prealloc) ;;;
    ft <- GET_FOOTER ptr ;;
    WRITE ft (PACK size 0) ;;;
    _merge_free_blocks ptr ;;;
    ret tt.

(** The number of bytes [realloc] hands to [memcpy]. *)
Definition copy_length (oldsize newsize : Z) : Z :=
  (MIN oldsize newsize - WSIZE) mod W64.

Definition realloc (fuel : nat) (oldptr size : Z) : prog Z :=
  if size =? 0 then
    free oldptr ;;;
    ret 0
  else if oldptr =? NULL then malloc fuel size
  else
    newptr <- malloc fuel size ;;
    oldsize <- GET_SIZE (GET_HEADER oldptr) ;;
    newsize <- GET_SIZE (GET_HEADER newptr) ;;
    memcpy newptr oldptr (copy_length oldsize newsize) ;;;
    free oldptr ;;;
    ret newptr.

Definition calloc (fuel : nat) (nmemb size : Z) : prog Z :=
  let bytes := (nmemb * size) mod W64 in
  newptr <- malloc fuel bytes ;;
  memset newptr 0 bytes ;;;
  ret newptr.

End Mm.

(** A fresh process image: the provider owns nothing yet and the globals
    hold their static initial value. *)
Definition boot (m : memory) (lo max : Z) : state Z :=
  mkState m lo lo max 0 0 0.

(** ** part_000: the basic program.  One explicit free list, a footer in
    every block, no PREV_ALLOC bit, best of the first 42 fits *)

Module Basic.

(** [1 << 12] *)
Definition CHUNKSIZE : Z := 4096.

Definition prog := M Z.

Definition _insert_free_block (ptr : Z) : prog unit :=
  if ptr =? NULL then ret tt
  else
    fb <- get_free_blks ;;
    if fb =? NULL then
      put_free_blks ptr ;;;
      SET_PRED_FREE ptr 0 ;;;
      SET_SUCC_FREE ptr 0
    else
      SET_SUCC_FREE ptr fb ;;;
      SET_PRED_FREE fb ptr ;;;
      put_free_blks ptr ;;;
      SET_PRED_FREE ptr 0.

Definition _delete_free_block (ptr : Z) : prog unit :=
  if ptr =? NULL then ret tt
  else
    succ_free <- SUCC_FREE ptr ;;
    fb <- get_free_blks ;;
    if fb =? ptr then
      if succ_free =? NULL then put_free_blks NULL
      else
        put_free_blks succ_free ;;;
        SET_PRED_FREE succ_free 0
    else
      pred_free <- PRED_FREE ptr ;;
      if succ_free =? NULL then SET_SUCC_FREE pred_free 0
      else
        SET_SUCC_FREE pred_free succ_free ;;;
        SET_PRED_FREE succ_free pred_free.

(** The neighbour below is judged by its footer. *)
Definition _merge_free_blocks (ptr : Z) : prog Z :=
  pred_alloc <- GET_ALLOC (PRED_FOOTER ptr) ;;
  sh <- SUCC_HEADER ptr ;;
  succ_alloc <- GET_ALLOC sh ;;
  ptr <-
    (if negb (pred_alloc =? 0) && negb (succ_alloc =? 0) then ret ptr
     else if negb (pred_alloc =? 0) then
       sb <- SUCC_BLK ptr ;;
       _delete_free_block sb ;;;
       sz <- GET_SIZE (GET_HEADER ptr) ;;
       sh <- SUCC_HEADER ptr ;;
       ssz <- GET_SIZE sh ;;
       let newsize := (sz + ssz) mod W32 in
       WRITE (GET_HEADER ptr) (PACK newsize 0) ;;;
       ft <- GET_FOOTER ptr ;;
       WRITE ft (PACK newsize 0) ;;;
       ret ptr
     else if negb (succ_alloc =? 0) then
       pb <- PRED_BLK ptr ;;
       _delete_free_block pb ;;;
       sz <- GET_SIZE (GET_HEADER ptr) ;;
       psz <- GET_SIZE (PRED_FOOTER ptr) ;;
       let newsize := (sz + psz) mod W32 in
       pb <- PRED_BLK ptr ;;
       WRITE (GET_HEADER pb) (PACK newsize 0) ;;;
       ft <- GET_FOOTER ptr ;;
       WRITE ft (PACK newsize 0) ;;;
       PRED_BLK ptr
     else
       pb <- PRED_BLK ptr ;;
       _delete_free_block pb ;;;
       sb <- SUCC_BLK ptr ;;
       _delete_free_block sb ;;;
       sz <- GET_SIZE (GET_HEADER ptr) ;;
       psz <- GET_SIZE (PRED_FOOTER ptr) ;;
       sh <- SUCC_HEADER ptr ;;
       ssz <- GET_SIZE sh ;;
       let newsize := (((sz + psz) mod W32) + ssz) mod W32 in
       pb <- PRED_BLK ptr ;;
       WRITE (GET_HEADER pb) (PACK newsize 0) ;;;
       sb <- SUCC_BLK ptr ;;
       ft <- GET_FOOTER sb ;;
       WRITE ft (PACK newsize 0) ;;;
       PRED_BLK ptr) ;;
  _insert_free_block ptr ;;;
  ret ptr.

Definition _build (ptr size : Z) : prog unit :=
  if ptr =? NULL then ret tt
  else
    _delete_free_block ptr ;;;
    blksize <- GET_SIZE (GET_HEADER ptr) ;;
    if ESIZE <? (blksize - size) mod W64 then
      WRITE (GET_HEADER ptr) (PACK size 1) ;;;
      ft <- GET_FOOTER ptr ;;
      WRITE ft (PACK size 1) ;;;
      split <- SUCC_BLK ptr ;;
      let blksize := (blksize - size) mod W64 in
      WRITE (GET_HEADER split) (PACK blksize 0) ;;;
      ft <- GET_FOOTER split ;;
      WRITE ft (PACK blksize 0) ;;;
      SET_PRED_FREE split 0 ;;;
      SET_SUCC_FREE split 0 ;;;
      _merge_free_blocks split ;;;
      ret tt
    else
      WRITE (GET_HEADER ptr) (PACK blksize 1) ;;;
      ft <- GET_FOOTER ptr ;;
      WRITE ft (PACK blksize 1).

Definition _extend_heap (extend_size : Z) : prog Z :=
  let extend_size := Mm.extend_bytes extend_size in
  ptr <- mem_sbrk extend_size ;;
  if ptr =? SBRK_FAIL then ret NULL
  else
    WRITE (GET_HEADER ptr) (PACK extend_size 0) ;;;
    ft <- GET_FOOTER ptr ;;
    WRITE ft (PACK extend_size 0) ;;;
    SET_PRED_FREE ptr 0 ;;;
    SET_SUCC_FREE ptr 0 ;;;
    sb <- SUCC_BLK ptr ;;
    WRITE (GET_HEADER sb) (PACK 0 1) ;;;
    _merge_free_blocks ptr.

(** The search loop: only the count of fitting blocks stops it early. *)
Fixpoint _allocate_loop (fuel : nat) (size ptr best_fit best_fit_size
                         fit_cnt : Z) : prog Z :=
  if ptr =? NULL then
    if negb (best_fit =? NULL) then ret best_fit else ret NULL
  else
    match fuel with
    | O => fun _ => OutOfFuel
    | S fuel' =>
        now_size <- GET_SIZE (GET_HEADER ptr) ;;
        if size <=? now_size then
          let upd := (best_fit =? NULL) || (now_size <? best_fit_size) in
          let best_fit := if upd then ptr else best_fit in
          let best_fit_size := if upd then now_size else best_fit_size in
          let fit_cnt := fit_cnt + 1 in
          if fit_cnt =? 42 then ret best_fit
          else
            next <- SUCC_FREE ptr ;;
            _allocate_loop fuel' size next best_fit best_fit_size fit_cnt
        else
          next <- SUCC_FREE ptr ;;
          _allocate_loop fuel' size next best_fit best_fit_size fit_cnt
    end.

Definition _allocate (fuel : nat) (size : Z) : prog Z :=
  fb <- get_free_blks ;;
  _allocate_loop fuel size fb NULL 0 0.

Definition mm_init : prog Z :=
  p <- mem_sbrk (6 * WSIZE) ;;
  put_heap_ptr p ;;;
  if p =? SBRK_FAIL then ret (-1)
  else
    WRITE p 0 ;;;
    WRITE (p + 1 * WSIZE) (PACK ESIZE 1) ;;;
    WRITE (p + 2 * WSIZE) 0 ;;;
    WRITE (p + 3 * WSIZE) 0 ;;;
    WRITE (p + 4 * WSIZE) (PACK ESIZE 1) ;;;
    WRITE (p + 5 * WSIZE) (PACK 0 1) ;;;
    put_heap_ptr (p + ESIZE) ;;;
    put_free_blks NULL ;;;
    r <- _extend_heap (CHUNKSIZE / WSIZE) ;;
    if r =? NULL then ret (-1) else ret 0.

(** The adjusted block size of a request: room for header and footer. *)
Definition adjust (size : Z) : Z :=
  (DSIZE * ((((size + DSIZE - 1) mod W64) / DSIZE + 1) mod W64)) mod W64.

Definition malloc (fuel : nat) (size : Z) : prog Z :=
  if size =? 0 then ret NULL
  else
    let size := adjust size in
    ptr <- _allocate fuel size ;;
    if negb (ptr =? NULL) then
      _build ptr size ;;;
      ret ptr
    else
      ptr <- _extend_heap (MAX size CHUNKSIZE / WSIZE) ;;
      if ptr =? NULL then ret NULL
      else
        _build ptr size ;;;
        ret ptr.

Definition free (ptr : Z) : prog unit :=
  if ptr =? NULL then ret tt
  else
    size <- GET_SIZE (GET_HEADER ptr) ;;
    WRITE (GET_HEADER ptr) (PACK size 0) ;;;
    ft <- GET_FOOTER ptr ;;
    WRITE ft (PACK size 0) ;;;
    SET_PRED_FREE ptr 0 ;;;
    SET_SUCC_FREE ptr 0 ;;;
    _merge_free_blocks ptr ;;;
    ret tt.

(** The number of bytes [realloc] hands to [memcpy]. *)
Definition copy_length (oldsize newsize : Z) : Z :=
  (MIN oldsize newsize - DSIZE) mod W64.

Definition realloc (fuel : nat) (oldptr size : Z) : prog Z :=
  if size =? 0 then
    free oldptr ;;;
    ret 0
  else if oldptr =? NULL then malloc fuel size
  else
    newptr <- malloc fuel size ;;
    oldsize <- GET_SIZE (GET_HEADER oldptr) ;;
    newsize <- GET_SIZE (GET_HEADER newptr) ;;
    memcpy newptr oldptr (copy_length oldsize newsize) ;;;
    free oldptr ;;;
    ret newptr.

Definition calloc (fuel : nat) (nmemb size : Z) : prog Z :=
  let bytes := (nmemb * size) mod W64 in
  newptr <- malloc fuel bytes ;;
  memset newptr 0 bytes ;;;
  ret newptr.

End Basic.

(** ** part_001: the segregated program.  Eighteen free lists by size
    class, footers only on free blocks, best of the first 42 fits of the
    first class that has a fit *)

Module Seg.

Definition max_level : nat := 17.

(** [threshold[20]]: seventeen bounds, the rest of the array is zero. *)
Definition threshold : list Z :=
  [32; 48; 64; 128; 256; 512; 1024; 2048; 4096; 8192; 16384; 32768; 65536;
   131072; 262144; 524288; 1048576; 0; 0; 0].

(** The array [free_blks[20]] is the free-list index of the state. *)
Definition heads := list Z.
Definition prog := M heads.

Definition head_at (fb : heads) (level : nat) : Z := nth level fb NULL.

(** [free_blks[level] = v]; every level the program computes is below 20. *)
Fixpoint set_head (fb : heads) (level : nat) (v : Z) : heads :=
  match fb, level with
  | [], _ => []
  | _ :: r, O => v :: r
  | x :: r, S k => x :: set_head r k v
  end.

(** The loop of [_get_level] from index [i], with [n] indices to go. *)
Fixpoint _get_level_from (n i : nat) (size : Z) : nat :=
  match n with
  | O => max_level
  | S k => if size <=? nth i threshold 0 then i
           else _get_level_from k (S i) size
  end.

Definition _get_level (size : Z) : nat := _get_level_from max_level 0 size.

Definition _insert_free_block (ptr : Z) : prog unit :=
  if ptr =? NULL then ret tt
  else
    sz <- GET_SIZE (GET_HEADER ptr) ;;
    let level := _get_level sz in
    fb <- get_free_blks ;;
    if head_at fb level =? NULL then
      put_free_blks (set_head fb level ptr) ;;;
      SET_PRED_FREE ptr 0 ;;;
      SET_SUCC_FREE ptr 0
    else
      SET_SUCC_FREE ptr (head_at fb level) ;;;
      SET_PRED_FREE (head_at fb level) ptr ;;;
      put_free_blks (set_head fb level ptr) ;;;
      SET_PRED_FREE ptr 0.

Definition _delete_free_block (ptr : Z) : prog unit :=
  if ptr =? NULL then ret tt
  else
    sz <- GET_SIZE (GET_HEADER ptr) ;;
    let level := _get_level sz in
    succ_free <- SUCC_FREE ptr ;;
    fb <- get_free_blks ;;
    if head_at fb level =? ptr then
      if succ_free =? NULL then put_free_blks (set_head fb level NULL)
      else
        put_free_blks (set_head fb level succ_free) ;;;
        SET_PRED_FREE succ_free 0
    else
      pred_free <- PRED_FREE ptr ;;
      if succ_free =? NULL then SET_SUCC_FREE pred_free 0
      else
        SET_SUCC_FREE pred_free succ_free ;;;
        SET_PRED_FREE succ_free pred_free.

(** [if (GET_PREALLOC(h)) WRITE(h, READ(h) ^ 2)] on the header of the
    block after [ptr]. *)
Definition clear_succ_prealloc (ptr : Z) : prog unit :=
  sb <- SUCC_BLK ptr ;;
  pa <- GET_PREALLOC (GET_HEADER sb) ;;
  if negb (pa =? 0) then
    sb <- SUCC_BLK ptr ;;
    sb' <- SUCC_BLK ptr ;;
    w <- READ (GET_HEADER sb') ;;
    WRITE (GET_HEADER sb) (Z.lxor w 2)
  else ret tt.

Definition _merge_free_blocks (ptr : Z) : prog Z :=
  pred_alloc <- GET_PREALLOC (GET_HEADER ptr) ;;
  sh <- SUCC_HEADER ptr ;;
  succ_alloc <- GET_ALLOC sh ;;
  ptr <-
    (if negb (pred_alloc =? 0) && negb (succ_alloc =? 0) then
       clear_succ_prealloc ptr ;;;
       ret ptr
     else if negb (pred_alloc =? 0) then
       sb <- SUCC_BLK ptr ;;
       _delete_free_block sb ;;;
       sz <- GET_SIZE (GET_HEADER ptr) ;;
       sh <- SUCC_HEADER ptr ;;
       ssz <- GET_SIZE sh ;;
       let newsize := (sz + ssz) mod W32 in
       WRITE (GET_HEADER ptr) (PACK newsize pred_alloc) ;;;
       ft <- GET_FOOTER ptr ;;
       WRITE ft (PACK newsize 0) ;;;
       ret ptr
     else if negb (succ_alloc =? 0) then
       pb <- PRED_BLK ptr ;;
       _delete_free_block pb ;;;
       sz <- GET_SIZE (GET_HEADER ptr) ;;
       psz <- GET_SIZE (PRED_FOOTER ptr) ;;
       let newsize := (sz + psz) mod W32 in
       pb <- PRED_BLK ptr ;;
       pred_alloc <- GET_PREALLOC (GET_HEADER pb) ;;
       pb <- PRED_BLK ptr ;;
       WRITE (GET_HEADER pb) (PACK newsize pred_alloc) ;;;
       ft <- GET_FOOTER ptr ;;
       WRITE ft (PACK newsize 0) ;;;
       clear_succ_prealloc ptr ;;;
       PRED_BLK ptr
     else
       pb <- PRED_BLK ptr ;;
       _delete_free_block pb ;;;
       sb <- SUCC_BLK ptr ;;
       _delete_free_block sb ;;;
       sz <- GET_SIZE (GET_HEADER ptr) ;;
       psz <- GET_SIZE (PRED_FOOTER ptr) ;;
       sh <- SUCC_HEADER ptr ;;
       ssz <- GET_SIZE sh ;;
       let newsize := (((sz + psz) mod W32) + ssz) mod W32 in
       pb <- PRED_BLK ptr ;;
       pred_alloc <- GET_PREALLOC (GET_HEADER pb) ;;
       pb <- PRED_BLK ptr ;;
       WRITE (GET_HEADER pb) (PACK newsize pred_alloc) ;;;
       sb <- SUCC_BLK ptr ;;
       ft <- GET_FOOTER sb ;;
       WRITE ft (PACK newsize 0) ;;;
       PRED_BLK ptr) ;;
  _insert_free_block ptr ;;;
  ret ptr.

Definition _build (ptr size : Z) : prog unit :=
  if ptr =? NULL then ret tt
  else
    _delete_free_block ptr ;;;
    blksize <- GET_SIZE (GET_HEADER ptr) ;;
    prealloc <- GET_PREALLOC (GET_HEADER ptr) ;;
    if ESIZE <? (blksize - size) mod W64 then
      WRITE (GET_HEADER ptr) (PACK size (Z.lor prealloc 1)) ;;;
      ft <- GET_FOOTER ptr ;;
      WRITE ft (PACK size 1) ;;;
      split <- SUCC_BLK ptr ;;
      let blksize := (blksize - size) mod W64 in
      WRITE (GET_HEADER split) (PACK blksize 2) ;;;
      ft <- GET_FOOTER split ;;
      WRITE ft (PACK blksize 0) ;;;
      _merge_free_blocks split ;;;
      ret tt
    else
      WRITE (GET_HEADER ptr) (PACK blksize (Z.lor prealloc 1)) ;;;
      ft <- GET_FOOTER ptr ;;
      WRITE ft (PACK blksize 1) ;;;
      succ <- SUCC_BLK ptr ;;
      w <- READ (GET_HEADER succ) ;;
      WRITE (GET_HEADER succ) (Z.lor w 2).

Definition _extend_heap (extend_size : Z) : prog Z :=
  let extend_size := Mm.extend_bytes extend_size in
  ptr <- mem_sbrk extend_size ;;
  if ptr =? SBRK_FAIL then ret NULL
  else
    he <- get_heap_end ;;
    prealloc <- GET_PREALLOC he ;;
    WRITE (GET_HEADER ptr) (PACK extend_size prealloc) ;;;
    ft <- GET_FOOTER ptr ;;
    WRITE ft (PACK extend_size 0) ;;;
    sb <- SUCC_BLK ptr ;;
    put_heap_end (GET_HEADER sb) ;;;
    he <- get_heap_end ;;
    WRITE he (PACK 0 1) ;;;
    _merge_free_blocks ptr.

(** The inner loop of [_allocate] over one class.  It yields the
    running best, its size and the count of fits, and says whether the
    42nd fit made the function return. *)
Fixpoint _allocate_list (fuel : nat) (size ptr best_fit best_fit_size
                         fit_cnt : Z) : prog (bool * (Z * Z * Z)) :=
  if ptr =? NULL then ret (false, (best_fit, best_fit_size, fit_cnt))
  else
    match fuel with
    | O => fun _ => OutOfFuel
    | S fuel' =>
        now_size <- GET_SIZE (GET_HEADER ptr) ;;
        if size <=? now_size then
          let upd := (best_fit =? NULL) || (now_size <? best_fit_size) in
          let best_fit := if upd then ptr else best_fit in
          let best_fit_size := if upd then now_size else best_fit_size in
          let fit_cnt := fit_cnt + 1 in
          if fit_cnt =? 42 then ret (true, (best_fit, best_fit_size, fit_cnt))
          else
            next <- SUCC_FREE ptr ;;
            _allocate_list fuel' size next best_fit best_fit_size fit_cnt
        else
          next <- SUCC_FREE ptr ;;
          _allocate_list fuel' size next best_fit best_fit_size fit_cnt
    end.

(** The outer loop from class [i], with [n] classes to go. *)
Fixpoint _allocate_levels (fuel : nat) (n i : nat) (size best_fit
                           best_fit_size fit_cnt : Z) : prog Z :=
  match n with
  | O => ret NULL
  | S n' =>
      fb <- get_free_blks ;;
      r <- _allocate_list fuel size (head_at fb i) best_fit best_fit_size fit_cnt ;;
      let '(returned, (best_fit, best_fit_size, fit_cnt)) := r in
      if returned then ret best_fit
      else if negb (best_fit =? NULL) then ret best_fit
      else _allocate_levels fuel n' (S i) size best_fit best_fit_size fit_cnt
  end.

Definition _allocate (fuel : nat) (size : Z) : prog Z :=
  let i := _get_level size in
  _allocate_levels fuel (S max_level - i) i size NULL 0 0.

(** [for (i = 0; i <= max_level; ++i) free_blks[i] = NULL] *)
Fixpoint clear_heads (n i : nat) (fb : heads) : heads :=
  match n with
  | O => fb
  | S k => clear_heads k (S i) (set_head fb i NULL)
  end.

Definition mm_init : prog Z :=
  p <- mem_sbrk (6 * WSIZE) ;;
  put_heap_ptr p ;;;
  if p =? SBRK_FAIL then ret (-1)
  else
    WRITE p 0 ;;;
    WRITE (p + 1 * WSIZE) (PACK ESIZE 1) ;;;
    WRITE (p + 2 * WSIZE) 0 ;;;
    WRITE (p + 3 * WSIZE) 0 ;;;
    WRITE (p + 4 * WSIZE) (PACK ESIZE 1) ;;;
    WRITE (p + 5 * WSIZE) (PACK 0 3) ;;;
    put_heap_end (p + 5 * WSIZE) ;;;
    put_heap_ptr (p + ESIZE) ;;;
    fb <- get_free_blks ;;
    put_free_blks (clear_heads (S max_level) 0 fb) ;;;
    ret 0.

Definition malloc (fuel : nat) (size : Z) : prog Z :=
  if size =? 0 then ret NULL
  else
    let size := Mm.adjust size in
    ptr <- _allocate fuel size ;;
    if negb (ptr =? NULL) then
      _build ptr size ;;;
      ret ptr
    else
      ptr <- _extend_heap (size / WSIZE) ;;
      if ptr =? NULL then ret NULL
      else
        _build ptr size ;;;
        ret ptr.

Definition free (ptr : Z) : prog unit :=
  if ptr =? NULL then ret tt
  else
    size <- GET_SIZE (GET_HEADER ptr) ;;
    prealloc <- GET_PREALLOC (GET_HEADER ptr) ;;
    WRITE (GET_HEADER ptr) (PACK size prealloc) ;;;
    ft <- GET_FOOTER ptr ;;
    WRITE ft (PACK size 0) ;;;
    _merge_free_blocks ptr ;;;
    ret tt.

Definition realloc (fuel : nat) (oldptr size : Z) : prog Z :=
  if size =? 0 then
    free oldptr ;;;
    ret 0
  else if oldptr =? NULL then malloc fuel size
  else
    newptr <- malloc fuel size ;;
    oldsize <- GET_SIZE (GET_HEADER oldptr) ;;
    newsize <- GET_SIZE (GET_HEADER newptr) ;;
    memcpy newptr oldptr (Mm.copy_length oldsize newsize) ;;;
    free oldptr ;;;
    ret newptr.

Definition calloc (fuel : nat) (nmemb size : Z) : prog Z :=
  let bytes := (nmemb * size) mod W64 in
  newptr <- malloc fuel bytes ;;
  memset newptr 0 bytes ;;;
  ret newptr.

(** A fresh process image: every list head is the static [NULL]. *)
Definition boot (m : memory) (lo max : Z) : state heads :=
  mkState m lo lo max 0 0 (repeat 0 20).

End Seg.

(** * Words, bits and memory: basic facts *)

(** The header word of a block: size, PREV_ALLOC (bit 1), ALLOC (bit 0). *)
Definition bit_pa (pa : bool) : Z := if pa then 2 else 0.

Definition bit_al (al : bool) : Z := if al then 1 else 0.

Definition hdr (sz : Z) (pa al : bool) : Z := sz + bit_pa pa + bit_al al.

(** * Running monadic code *)

(** The word at [p] lies inside the region. *)
Definition inb {F} (s : state F) (p : Z) : Prop :=
  mem_lo s <= p /\ p + 4 <= mem_brk s.

(** Link words: [enc] is the value stored for a pointer, [dec] the
    pointer read back from a stored value. *)
Definition enc (hp q : Z) : Z := if q =? 0 then 0 else q - hp.

Definition dec (hp w : Z) : Z := if w =? 0 then NULL else w + hp.

(** * The abstract view of the heap *)

(** A block is its size and its status; a heap is the list of its blocks
    in address order, the first header at a known address.  [Limbo] is
    the status of a block inside an operation, between being taken off
    the free list (or carved out of the region) and being given its final
    headers: none of its words is constrained.  It records the PREV_ALLOC
    bit currently stored in the header that follows it. *)
Inductive status : Type :=
| Allocated
| Free
| Limbo (next_bit : bool).

Definition block : Type := (Z * status)%type.

(** The PREV_ALLOC bit the header after a block of status [t] carries. *)
Definition next_pa (t : status) : bool :=
  match t with
  | Allocated => true
  | Free => false
  | Limbo nb => nb
  end.

Fixpoint total (bs : list block) : Z :=
  match bs with
  | [] => 0
  | (sz, _) :: r => sz + total r
  end.

(** PREV_ALLOC bit expected after the last block of [bs]. *)
Fixpoint tail_pa (pa : bool) (bs : list block) : bool :=
  match bs with
  | [] => pa
  | (_, t) :: r => tail_pa (next_pa t) r
  end.

(** The headers (and, for free blocks, footers) of [bs] laid out from
    address [a]; [pa] is the PREV_ALLOC bit expected in the first header. *)
Fixpoint blocks (m : memory) (a : Z) (pa : bool) (bs : list block) : Prop :=
  match bs with
  | [] => True
  | (sz, t) :: r =>
      (16 <= sz /\ sz mod 8 = 0) /\
      match t with
      | Allocated => rd m a = hdr sz pa true
      | Free => rd m a = hdr sz pa false /\ rd m (a + sz - 4) = sz
      | Limbo _ => True
      end /\
      blocks m (a + sz) (next_pa t) r
  end.

(** The bytes [blocks] depends on. *)
Fixpoint meta (a : Z) (bs : list block) (y : Z) : Prop :=
  match bs with
  | [] => False
  | (sz, t) :: r =>
      match t with
      | Allocated => a <= y < a + 4
      | Free => a <= y < a + 4 \/ a + sz - 4 <= y < a + sz
      | Limbo _ => False
      end \/ meta (a + sz) r y
  end.

(** Payload pointers of the free, respectively allocated, blocks. *)
Fixpoint free_ptrs (a : Z) (bs : list block) : list Z :=
  match bs with
  | [] => []
  | (sz, t) :: r =>
      match t with Free => [a + 4] | _ => [] end ++ free_ptrs (a + sz) r
  end.

Fixpoint alloc_ptrs (a : Z) (bs : list block) : list Z :=
  match bs with
  | [] => []
  | (sz, t) :: r =>
      match t with Allocated => [a + 4] | _ => [] end ++ alloc_ptrs (a + sz) r
  end.

(** The allocated blocks with their sizes. *)
Fixpoint alloc_blocks (a : Z) (bs : list block) : list (Z * Z) :=
  match bs with
  | [] => []
  | (sz, t) :: r =>
      match t with Allocated => [(a + 4, sz)] | _ => [] end
      ++ alloc_blocks (a + sz) r
  end.

(** Payload bytes of allocated blocks: everything after the header. *)
Fixpoint in_payload (a : Z) (bs : list block) (y : Z) : Prop :=
  match bs with
  | [] => False
  | (sz, t) :: r =>
      (t = Allocated /\ a + 4 <= y < a + sz) \/ in_payload (a + sz) r y
  end.

(** The bytes of blocks in limbo. *)
Fixpoint in_limbo (a : Z) (bs : list block) (y : Z) : Prop :=
  match bs with
  | [] => False
  | (sz, t) :: r =>
      ((exists nb, t = Limbo nb) /\ a <= y < a + sz) \/ in_limbo (a + sz) r y
  end.

(** The link words of the free blocks. *)
Definition in_links (a : Z) (bs : list block) (y : Z) : Prop :=
  exists p, In p (free_ptrs a bs) /\ p <= y < p + 8.

(** No two neighbours are free; [pa] is the PREV_ALLOC bit the first
    header is expected to carry: a free block needs it set. *)
Fixpoint naf (pa : bool) (bs : list block) : Prop :=
  match bs with
  | [] => True
  | (_, t) :: r => (t = Free -> pa = true) /\ naf (next_pa t) r
  end.

Definition no_limbo (bs : list block) : Prop :=
  Forall (fun b => snd b = Allocated \/ snd b = Free) bs.

Definition sizes_ok (bs : list block) : Prop :=
  Forall (fun b => 16 <= fst b /\ fst b mod 8 = 0) bs.

(** A segment of the doubly linked free list: the nodes [l], whose first
    node's back link encodes [prev] and whose last node's forward link
    encodes [next]. *)
Fixpoint dllseg (m : memory) (hp prev : Z) (l : list Z) (next : Z) : Prop :=
  match l with
  | [] => True
  | q :: r =>
      rd m q = enc hp prev /\ rd m (q + 4) = enc hp (hd next r) /\
      dllseg m hp q r next
  end.

(** The block with payload pointer [p], size [sz] and status [t] occurs
    in the heap that starts at [a]. *)
Definition block_at (a : Z) (bs : list block) (p sz : Z) (t : status) : Prop :=
  exists l1 l2, bs = l1 ++ (sz, t) :: l2 /\ p = a + total l1 + 4.

(** * The doubly linked free list *)

(** A node is usable as a list element: its two link words are in the
    region and its offset from [heap_ptr] fits a word. *)
Definition node_ok (s : state Z) (q : Z) : Prop :=
  0 < q /\ heap_ptr s < q /\ q - heap_ptr s < W32 /\
  mem_lo s <= q /\ q + 8 <= mem_brk s.

(** The link words of distinct nodes do not overlap. *)
Fixpoint far_apart (l : list Z) : Prop :=
  match l with
  | [] => True
  | q :: r => (forall p, In p r -> p + 8 <= q \/ q + 8 <= p) /\ far_apart r
  end.

Definition nodes_ok (s : state Z) (l : list Z) : Prop :=
  Forall (node_ok s) l /\ far_apart l.

(** * The heap of mm.c *)

(** Address of the first block header: the initial epilogue position. *)
Definition first_hdr (s : state Z) : Z := mem_lo s + 20.

(** The scalars of a heap whose blocks cover [tot] bytes. *)
Definition scalars_ok (s : state Z) (tot : Z) : Prop :=
  0 < mem_lo s /\
  heap_ptr s = mem_lo s + 16 /\
  heap_end s = mem_lo s + 20 + tot /\
  mem_brk s = heap_end s + 4 /\
  mem_brk s <= mem_max s /\
  mem_max s - mem_lo s < W32.

(** The weak representation: memory holds the blocks [bs] (some possibly
    in limbo) and the free list holds exactly the free ones, in the order
    [fl]. *)
Definition W (s : state Z) (bs : list block) (fl : list Z) : Prop :=
  scalars_ok s (total bs) /\
  blocks (mem s) (first_hdr s) true bs /\
  rd (mem s) (heap_end s) = hdr 0 (tail_pa true bs) true /\
  dllseg (mem s) (heap_ptr s) 0 fl 0 /\
  free_blks s = hd 0 fl /\
  Permutation fl (free_ptrs (first_hdr s) bs).

(** The representation invariant between operations. *)
Definition Rep (s : state Z) (bs : list block) (fl : list Z) : Prop :=
  W s bs fl /\ naf true bs /\ no_limbo bs.

(** Bytes outside the link words of the free blocks are untouched. *)
Definition links_frame (s : state Z) (bs : list block) (m' : memory) : Prop :=
  forall y, ~ in_links (first_hdr s) bs y -> m' y = mem s y.

(** * The header after a block in limbo *)

Definition head_size (l : list block) : Z :=
  match l with
  | [] => 0
  | (n, _) :: _ => n
  end.

(** ALLOC bit of the header at the start of [l]; the epilogue counts as
    allocated. *)
Definition head_alloc (l : list block) : bool :=
  match l with
  | [] => true
  | (_, Allocated) :: _ => true
  | _ => false
  end.

Definition head_settled (l : list block) : Prop :=
  match l with
  | (_, Limbo _) :: _ => False
  | _ => True
  end.

(** What [_merge_free_blocks] guarantees when called on a block in limbo
    whose header and footer say "free", in a heap that is otherwise
    settled. *)
Definition merged (s : state Z) (l1 l2 : list block) (sz : Z)
           (r : Z) (s' : state Z) : Prop :=
  let a := first_hdr s in
  exists m' fb' bs' fl',
    s' = set_free_blks (set_mem s m') fb' /\
    Rep s' bs' fl' /\
    total bs' = total l1 + sz + total l2 /\
    alloc_blocks a bs' = alloc_blocks a l1 ++ alloc_blocks (a + total l1 + sz) l2 /\
    (forall y, in_payload a l1 y \/ in_payload (a + total l1 + sz) l2 y ->
               m' y = mem s y) /\
    (exists r1 rsz r2,
        bs' = r1 ++ (rsz, Free) :: r2 /\ r = a + total r1 + 4 /\ sz <= rsz /\
        (tail_pa true l1 = true -> r1 = l1)).

(** * Placement: [_build] *)

(** Size of the allocated block [_build] makes of a free block of [bsz]
    bytes for a request of [size] bytes: the block is split when more than
    [ESIZE] bytes would be left over. *)
Definition built_size (bsz size : Z) : Z :=
  if ESIZE <? bsz - size then size else bsz.

Definition built (s : state Z) (l1 l2 : list block) (bsz size : Z)
           (s' : state Z) : Prop :=
  let a := first_hdr s in
  let h := a + total l1 in
  let n := built_size bsz size in
  exists m' fb' bs' fl',
    s' = set_free_blks (set_mem s m') fb' /\
    Rep s' bs' fl' /\
    total bs' = total l1 + bsz + total l2 /\
    alloc_blocks a bs'
    = alloc_blocks a l1 ++ (h + 4, n) :: alloc_blocks (h + bsz) l2 /\
    (forall y, in_payload a l1 y \/ in_payload (h + bsz) l2 y ->
               m' y = mem s y) /\
    (forall y, h + 4 <= y < h + n - 4 -> m' y = mem s y) /\
    rd m' h = hdr n (tail_pa true l1) true /\
    rd m' (h + n - 4) = PACK n 1 /\
    (ESIZE < bsz - size ->
     exists rsz r2, bs' = l1 ++ (size, Allocated) :: (rsz, Free) :: r2 /\
                    bsz - size <= rsz).

(** The state [_extend_heap] hands to the coalescer after a successful
    extension by [bytes] bytes: the header of the new block overwrites the
    old epilogue and keeps its PREV_ALLOC bit, the footer closes the block
    and a fresh epilogue follows. *)
Definition extended_state {F} (s : state F) (bytes : Z) : state F :=
  let he := heap_end s in
  let hd := PACK bytes (Z.land (rd (mem s) he) 2) in
  mkState (wr (wr (wr (mem s) he hd) (he + bytes - 4) (PACK bytes 0))
              (he + bytes) (PACK 0 1))
          (mem_lo s) (mem_brk s + bytes) (mem_max s)
          (heap_ptr s) (he + bytes) (free_blks s).

(** What a successful extension guarantees. *)
Definition extended (s : state Z) (bs : list block) (bytes : Z)
           (r : Z) (s' : state Z) : Prop :=
  let a := first_hdr s in
  exists bs' fl',
    Rep s' bs' fl' /\
    mem_lo s' = mem_lo s /\ mem_max s' = mem_max s /\
    mem_brk s' = mem_brk s + bytes /\
    total bs' = total bs + bytes /\
    alloc_blocks a bs' = alloc_blocks a bs /\
    (forall y, in_payload a bs y -> mem s' y = mem s y) /\
    (exists r1 rsz r2,
        bs' = r1 ++ (rsz, Free) :: r2 /\ r = a + total r1 + 4 /\ bytes <= rsz).

(** * The placement search *)

(** What a search sees of the free list: the nodes reachable from [head]
    through the forward links, each with the size its header carries. *)
Fixpoint chain {F} (s : state F) (head : Z) (l : list (Z * Z)) : Prop :=
  match l with
  | [] => head = NULL
  | (q, n) :: r =>
      head = q /\ q <> NULL /\ inb s (q - 4) /\ inb s (q + 4) /\
      Z.land (rd (mem s) (q - 4)) MASK_SIZE = n /\
      chain s (dec (heap_ptr s) (rd (mem s) (q + 4))) r
  end.

(** One visit of the loop of [_allocate], on the list of (node, size)
    pairs: the loop of mm.c with the memory reads replaced by the list. *)
Fixpoint scan (size : Z) (l : list (Z * Z)) (best bsz fit nfit : Z) : Z :=
  match l with
  | [] => best
  | (q, n) :: r =>
      if size <=? n then
        let upd := (best =? NULL) || (n <? bsz) in
        let best' := if upd then q else best in
        let bsz' := if upd then n else bsz in
        if fit + 1 =? Mm.MAX_FIT then best'
        else scan size r best' bsz' (fit + 1) nfit
      else
        if (Mm.MAX_NFIT <? nfit + 1) && negb (fit =? 0) then best
        else scan size r best bsz fit (nfit + 1)
  end.

(** ** [malloc] *)

(** A successful allocation: the heap stays represented, exactly one
    allocated block is new, and no byte of an older payload has changed. *)
Definition allocated (s : state Z) (bs : list block) (size p : Z)
           (s' : state Z) : Prop :=
  let a := first_hdr s in
  p <> NULL /\
  exists bs' fl' cap,
    Rep s' bs' fl' /\
    mem_lo s' = mem_lo s /\ mem_max s' = mem_max s /\
    size <= cap /\
    Permutation (alloc_blocks a bs') ((p, cap) :: alloc_blocks a bs) /\
    (forall y, in_payload a bs y -> mem s' y = mem s y).

(** ** [free] *)

Definition freed (s : state Z) (bs : list block) (p sz : Z)
           (s' : state Z) : Prop :=
  let a := first_hdr s in
  exists bs' fl',
    Rep s' bs' fl' /\
    mem_lo s' = mem_lo s /\ mem_max s' = mem_max s /\ mem_brk s' = mem_brk s /\
    Permutation ((p, sz) :: alloc_blocks a bs') (alloc_blocks a bs) /\
    (forall y, in_payload a bs' y -> mem s' y = mem s y).

(** ** Fuel *)

(** Fuel that suffices for any search of the heap of [s]: the free list
    has fewer nodes than the region has bytes. *)
Definition heap_fuel {F} (s : state F) : nat := Z.to_nat (mem_brk s - mem_lo s).

(** A successful [realloc] of a live block to a nonzero size. *)
Definition reallocated (s : state Z) (bs : list block) (p psz n q : Z)
           (s' : state Z) : Prop :=
  let a := first_hdr s in
  q <> NULL /\ q <> p /\
  exists bs' fl' cap,
    Rep s' bs' fl' /\
    mem_lo s' = mem_lo s /\ mem_max s' = mem_max s /\
    Mm.adjust n <= cap /\
    Permutation ((p, psz) :: alloc_blocks a bs') ((q, cap) :: alloc_blocks a bs) /\
    (forall i, 0 <= i < Z.min (psz - 4) (cap - 4) ->
               byte_at (mem s') (q + i) = byte_at (mem s) (p + i)).

(** [calloc]: the request is the product reduced modulo [2^64]. *)
Definition zero_allocated (s : state Z) (bs : list block) (bytes q : Z)
           (s' : state Z) : Prop :=
  let a := first_hdr s in
  q <> NULL /\
  exists bs' fl' cap,
    Rep s' bs' fl' /\
    mem_lo s' = mem_lo s /\ mem_max s' = mem_max s /\
    Mm.adjust bytes <= cap /\ bytes <= cap - 4 /\
    Permutation (alloc_blocks a bs') ((q, cap) :: alloc_blocks a bs) /\
    (forall i, 0 <= i < bytes -> byte_at (mem s') (q + i) = 0).

(** * States reachable through the public operations of mm.c

    A client starts from a fresh image, calls [mm_init] once and then
    calls [malloc], [free], [realloc] and [calloc] in any order, frees or
    resizes only pointers it holds, and stores only into the payload of a
    block it holds.  [reachable lo max s L] says that [s] is such a state
    and that [L] lists the pointers the client holds.  The region starts
    above address 0 and can grow to less than [2^32] bytes, so that block
    sizes and link offsets fit the 32-bit words they are stored in. *)

Inductive reachable (lo max : Z) : state Z -> list Z -> Prop :=
| R_init (m : memory) (s : state Z) :
    0 < lo -> max - lo < W32 ->
    Mm.mm_init (boot m lo max) = Done 0 s ->
    reachable lo max s []
| R_malloc (s : state Z) (L : list Z) (fuel : nat) (n p : Z) (s' : state Z) :
    reachable lo max s L -> (heap_fuel s <= fuel)%nat -> 0 <= n < W64 ->
    Mm.malloc fuel n s = Done p s' ->
    reachable lo max s' (if p =? NULL then L else p :: L)
| R_free (s : state Z) (L : list Z) (p : Z) (L' : list Z) (s' : state Z) :
    reachable lo max s L -> Permutation L (p :: L') ->
    Mm.free p s = Done tt s' ->
    reachable lo max s' L'
| R_realloc (s : state Z) (L : list Z) (fuel : nat) (p n : Z) (L' : list Z)
            (q : Z) (s' : state Z) :
    reachable lo max s L -> Permutation L (p :: L') ->
    (heap_fuel s <= fuel)%nat -> 0 < n < W64 ->
    Mm.realloc fuel p n s = Done q s' ->
    reachable lo max s' (q :: L')
| R_calloc (s : state Z) (L : list Z) (fuel : nat) (nmemb size p : Z)
           (s' : state Z) :
    reachable lo max s L -> (heap_fuel s <= fuel)%nat ->
    0 <= nmemb < W64 -> 0 <= size < W64 ->
    Mm.calloc fuel nmemb size s = Done p s' ->
    reachable lo max s' (if p =? NULL then L else p :: L)
| R_store (s : state Z) (L : list Z) (p sz y v : Z) :
    reachable lo max s L -> In p L ->
    GET_SIZE (GET_HEADER p) s = Done sz s ->
    p <= y < p + sz - WSIZE ->
    reachable lo max (set_mem s (store_byte (mem s) y v)) L.

(** The invariant of reachable states: the heap is represented by a block
    list without limbo blocks and without two adjacent free blocks, and
    the client holds exactly the payload pointers of the allocated
    blocks. *)
Definition heap_inv (lo max : Z) (s : state Z) (L : list Z) : Prop :=
  exists bs fl,
    Rep s bs fl /\ Permutation L (alloc_ptrs (first_hdr s) bs) /\
    mem_lo s = lo /\ mem_max s = max.

(** * Walking the heap

    The blocks in address order, read from memory alone: start at the
    first header, step by the size field, stop at the epilogue (size 0).
    Each block is reported as its size field and its ALLOC bit. *)

Fixpoint heap_walk (fuel : nat) (m : memory) (a : Z) : option (list (Z * Z)) :=
  let w := rd m a in
  if Z.land w MASK_SIZE =? 0 then Some []
  else
    match fuel with
    | O => None
    | S k =>
        match heap_walk k m (a + Z.land w MASK_SIZE) with
        | Some l => Some ((Z.land w MASK_SIZE, Z.land w 1) :: l)
        | None => None
        end
    end.

(** Two neighbours in the walk both have ALLOC = 0. *)
Fixpoint adjacent_free (l : list (Z * Z)) : bool :=
  match l with
  | (_, a1) :: r =>
      match r with
      | (_, a2) :: _ => ((a1 =? 0) && (a2 =? 0)) || adjacent_free r
      | [] => false
      end
  | [] => false
  end.

(** What the walk reports for a block of the abstract heap. *)
Definition view (b : block) : Z * Z :=
  (fst b, match snd b with Allocated => 1 | _ => 0 end).

(** * Sessions: scripted clients of mm.c

    A session is a list of calls run from a fresh image.  [exec] runs the
    calls and keeps the list of held pointers; it refuses a call that a
    well-behaved client may not make. *)

Inductive call : Type :=
| OpMalloc (n : Z)
| OpFree (p : Z)
| OpRealloc (p n : Z)
| OpCalloc (nmemb size : Z)
| OpStore (p i v : Z).    (* store byte [v] at offset [i] of the block [p] *)

Fixpoint remove1 (p : Z) (L : list Z) : option (list Z) :=
  match L with
  | [] => None
  | x :: r =>
      if x =? p then Some r
      else match remove1 p r with
           | Some r' => Some (x :: r')
           | None => None
           end
  end.

Definition held (p : Z) (L : list Z) : bool := existsb (Z.eqb p) L.

Definition size_ok (n : Z) : bool := (0 <=? n) && (n <? W64).

Definition exec1 (c : call) (s : state Z) (L : list Z)
  : option (state Z * list Z) :=
  let fuel := heap_fuel s in
  match c with
  | OpMalloc n =>
      if size_ok n then
        match Mm.malloc fuel n s with
        | Done p s' => Some (s', if p =? NULL then L else p :: L)
        | _ => None
        end
      else None
  | OpFree p =>
      match remove1 p L with
      | Some L' =>
          match Mm.free p s with
          | Done _ s' => Some (s', L')
          | _ => None
          end
      | None => None
      end
  | OpRealloc p n =>
      if size_ok n && (0 <? n) then
        match remove1 p L with
        | Some L' =>
            match Mm.realloc fuel p n s with
            | Done q s' => Some (s', q :: L')
            | _ => None
            end
        | None => None
        end
      else None
  | OpCalloc nmemb size =>
      if size_ok nmemb && size_ok size then
        match Mm.calloc fuel nmemb size s with
        | Done p s' => Some (s', if p =? NULL then L else p :: L)
        | _ => None
        end
      else None
  | OpStore p i v =>
      if held p L then
        match GET_SIZE (GET_HEADER p) s with
        | Done sz _ =>
            if (0 <=? i) && (i <? sz - WSIZE)
            then Some (set_mem s (store_byte (mem s) (p + i) v), L)
            else None
        | _ => None
        end
      else None
  end.

Fixpoint exec (cs : list call) (s : state Z) (L : list Z)
  : option (state Z * list Z) :=
  match cs with
  | [] => Some (s, L)
  | c :: r =>
      match exec1 c s L with
      | Some (s', L') => exec r s' L'
      | None => None
      end
  end.

Definition session (m : memory) (lo max : Z) (cs : list call)
  : option (state Z * list Z) :=
  if (0 <? lo) && (max - lo <? W32) then
    match Mm.mm_init (boot m lo max) with
    | Done r s => if r =? 0 then exec cs s [] else None
    | _ => None
    end
  else None.

(** Reading off a finished run. *)
Definition final {F A} (o : outcome F A) (d : state F) : state F :=
  match o with Done _ s => s | _ => d end.

Definition returns {F} (o : outcome F Z) (v : Z) : bool :=
  match o with Done a _ => a =? v | _ => false end.

Definition finishes {F A} (o : outcome F A) : bool :=
  match o with Done _ _ => true | _ => false end.

Definition faults {F A} (o : outcome F A) : bool :=
  match o with Fault => true | _ => false end.

Definition state_of (r : option (state Z * list Z)) : state Z :=
  match r with Some (s, _) => s | None => boot (fun _ => 0) 0 0 end.

Definition held_of (r : option (state Z * list Z)) : list Z :=
  match r with Some (_, L) => L | None => [] end.

Definition completes (r : option (state Z * list Z)) : bool :=
  match r with Some _ => true | None => false end.

(** Memory of a fresh image. *)
Definition zero_mem : memory := fun _ => 0.

(** ** Scripted clients of part_000 and part_001 *)

Definition seg_step (c : call) : M Seg.heads unit :=
  fun s =>
    let fuel := heap_fuel s in
    match c with
    | OpMalloc n => (Seg.malloc fuel n ;;; ret tt) s
    | OpFree p => Seg.free p s
    | OpRealloc p n => (Seg.realloc fuel p n ;;; ret tt) s
    | OpCalloc a b => (Seg.calloc fuel a b ;;; ret tt) s
    | OpStore p i v => Done tt (set_mem s (store_byte (mem s) (p + i) v))
    end.

Definition basic_step (c : call) : M Z unit :=
  fun s =>
    let fuel := heap_fuel s in
    match c with
    | OpMalloc n => (Basic.malloc fuel n ;;; ret tt) s
    | OpFree p => Basic.free p s
    | OpRealloc p n => (Basic.realloc fuel p n ;;; ret tt) s
    | OpCalloc a b => (Basic.calloc fuel a b ;;; ret tt) s
    | OpStore p i v => Done tt (set_mem s (store_byte (mem s) (p + i) v))
    end.

Fixpoint run_calls {F} (step : call -> M F unit) (cs : list call) : M F unit :=
  match cs with
  | [] => ret tt
  | c :: r => step c ;;; run_calls step r
  end.

Definition seg_session (m : memory) (lo max : Z) (cs : list call)
  : outcome Seg.heads unit :=
  (r <- Seg.mm_init ;; if r =? 0 then run_calls seg_step cs else fun _ => Fault)
    (Seg.boot m lo max).

Definition basic_session (m : memory) (lo max : Z) (cs : list call)
  : outcome Z unit :=
  (r <- Basic.mm_init ;; if r =? 0 then run_calls basic_step cs else fun _ => Fault)
    (boot m lo max).

(** * The bounded best-fit search on lists

    A free list as a search sees it is a list of (pointer, size) pairs.
    [pick] is the running best: a block replaces the current best when
    there is none yet or when it is strictly smaller, so among blocks of
    equal size the earliest wins. *)

Definition fits (size : Z) (b : Z * Z) : bool := size <=? snd b.

Fixpoint pick (best bsz : Z) (l : list (Z * Z)) : Z * Z :=
  match l with
  | [] => (best, bsz)
  | (q, n) :: r =>
      if (best =? NULL) || (n <? bsz) then pick q n r else pick best bsz r
  end.

Definition best_of (l : list (Z * Z)) : Z := fst (pick NULL 0 l).

(** The blocks the loop of mm.c visits before it returns, given the
    counters it enters with. *)
Fixpoint examined (size : Z) (l : list (Z * Z)) (fit nfit : Z) : list (Z * Z) :=
  match l with
  | [] => []
  | (q, n) :: r =>
      (q, n) ::
      if size <=? n then
        if fit + 1 =? Mm.MAX_FIT then [] else examined size r (fit + 1) nfit
      else
        if (Mm.MAX_NFIT <? nfit + 1) && negb (fit =? 0) then []
        else examined size r fit (nfit + 1)
  end.

(** The counters of the loop of mm.c after it has walked over [l] without
    returning; [None] when it returns inside [l]. *)
Fixpoint counters (size : Z) (l : list (Z * Z)) (fit nfit : Z) : option (Z * Z) :=
  match l with
  | [] => Some (fit, nfit)
  | (q, n) :: r =>
      if size <=? n then
        if fit + 1 =? Mm.MAX_FIT then None else counters size r (fit + 1) nfit
      else
        if (Mm.MAX_NFIT <? nfit + 1) && negb (fit =? 0) then None
        else counters size r fit (nfit + 1)
  end.

Definition count_fit (size : Z) (l : list (Z * Z)) : Z :=
  Z.of_nat (length (filter (fits size) l)).

Definition count_nfit (size : Z) (l : list (Z * Z)) : Z :=
  Z.of_nat (length (filter (fun b => negb (fits size b)) l)).

(** * The searches of the basic and the segregated program *)

(** The fitting blocks a search that has already counted [fit] fits may
    still take into account before the count reaches 42. *)
Definition fits_left (size fit : Z) (l : list (Z * Z)) : list (Z * Z) :=
  firstn (Z.to_nat (42 - fit)) (filter (fits size) l).

(** The class lists a search walks, from class [i] upwards. *)
Fixpoint class_chains (s : state Seg.heads) (i : nat)
         (cls : list (list (Z * Z))) : Prop :=
  match cls with
  | [] => True
  | l :: r => chain s (Seg.head_at (free_blks s) i) l /\ class_chains s (S i) r
  end.

(** The first class that holds a fitting block. *)
Fixpoint first_fit_class (size : Z) (cls : list (list (Z * Z))) : list (Z * Z) :=
  match cls with
  | [] => []
  | l :: r => if existsb (fits size) l then l else first_fit_class size r
  end.

(** * part_000: blocks with a header and a footer *)

Definition is_alloc (t : status) : bool :=
  match t with
  | Allocated => true
  | _ => false
  end.

(** The headers and footers of [bs] laid out from address [a].  Every
    settled block carries its size and ALLOC bit in both words; no word
    has a PREV_ALLOC bit. *)
Fixpoint bblocks (m : memory) (a : Z) (bs : list block) : Prop :=
  match bs with
  | [] => True
  | (sz, t) :: r =>
      (16 <= sz /\ sz mod 8 = 0) /\
      match t with
      | Limbo _ => True
      | _ => rd m a = hdr sz false (is_alloc t) /\
             rd m (a + sz - 4) = hdr sz false (is_alloc t)
      end /\
      bblocks m (a + sz) r
  end.

(** The bytes [bblocks] depends on. *)
Fixpoint bmeta (a : Z) (bs : list block) (y : Z) : Prop :=
  match bs with
  | [] => False
  | (sz, t) :: r =>
      match t with
      | Limbo _ => False
      | _ => a <= y < a + 4 \/ a + sz - 4 <= y < a + sz
      end \/ bmeta (a + sz) r y
  end.

(** Payload bytes of allocated blocks: between header and footer. *)
Fixpoint bpayload (a : Z) (bs : list block) (y : Z) : Prop :=
  match bs with
  | [] => False
  | (sz, t) :: r =>
      (t = Allocated /\ a + 4 <= y < a + sz - 4) \/ bpayload (a + sz) r y
  end.

(** ALLOC bit of the footer at the end of [l]; the prologue counts as
    allocated. *)
Definition last_alloc (l : list block) : bool := tail_pa true l.

Fixpoint last_size (d : Z) (l : list block) : Z :=
  match l with
  | [] => d
  | (n, _) :: r => last_size n r
  end.

(** The scalars of a part_000 heap whose blocks cover [tot] bytes. *)
Definition bscalars (s : state Z) (tot : Z) : Prop :=
  0 < mem_lo s /\
  heap_ptr s = mem_lo s + 16 /\
  mem_brk s = mem_lo s + 24 + tot /\
  mem_brk s <= mem_max s /\
  mem_max s - mem_lo s < W32.

(** The weak representation of part_000: the prologue footer, the blocks
    [bs] (some possibly in limbo), the epilogue, and the free list [fl]. *)
Definition BW (s : state Z) (bs : list block) (fl : list Z) : Prop :=
  bscalars s (total bs) /\
  rd (mem s) (heap_ptr s) = hdr 16 false true /\
  bblocks (mem s) (first_hdr s) bs /\
  rd (mem s) (first_hdr s + total bs) = hdr 0 false true /\
  dllseg (mem s) (heap_ptr s) 0 fl 0 /\
  free_blks s = hd 0 fl /\
  Permutation fl (free_ptrs (first_hdr s) bs).

(** The representation invariant of part_000 between operations. *)
Definition BRep (s : state Z) (bs : list block) (fl : list Z) : Prop :=
  BW s bs fl /\ naf true bs /\ no_limbo bs.

(** What [_merge_free_blocks] of part_000 guarantees when called on a
    block in limbo whose header and footer say "free", in a heap that is
    otherwise settled. *)
Definition bmerged (s : state Z) (l1 l2 : list block) (sz : Z)
           (r : Z) (s' : state Z) : Prop :=
  let a := first_hdr s in
  exists m' fb' bs' fl',
    s' = set_free_blks (set_mem s m') fb' /\
    BRep s' bs' fl' /\
    total bs' = total l1 + sz + total l2 /\
    alloc_blocks a bs' = alloc_blocks a l1 ++ alloc_blocks (a + total l1 + sz) l2 /\
    (forall y, bpayload a l1 y \/ bpayload (a + total l1 + sz) l2 y ->
               m' y = mem s y) /\
    (exists r1 rsz r2,
        bs' = r1 ++ (rsz, Free) :: r2 /\ r = a + total r1 + 4 /\ sz <= rsz /\
        (tail_pa true l1 = true -> r1 = l1)).

(** * Placement in part_000: [_build] *)

Definition bbuilt (s : state Z) (l1 l2 : list block) (bsz size : Z)
           (s' : state Z) : Prop :=
  let a := first_hdr s in
  let h := a + total l1 in
  let n := built_size bsz size in
  exists m' fb' bs' fl',
    s' = set_free_blks (set_mem s m') fb' /\
    BRep s' bs' fl' /\
    total bs' = total l1 + bsz + total l2 /\
    alloc_blocks a bs'
    = alloc_blocks a l1 ++ (h + 4, n) :: alloc_blocks (h + bsz) l2 /\
    (forall y, bpayload a l1 y \/ bpayload (h + bsz) l2 y ->
               m' y = mem s y).

(** What a successful extension of part_000 guarantees. *)
Definition bextended (s : state Z) (bs : list block) (bytes : Z)
           (r : Z) (s' : state Z) : Prop :=
  let a := first_hdr s in
  exists bs' fl',
    BRep s' bs' fl' /\
    mem_lo s' = mem_lo s /\ mem_max s' = mem_max s /\
    mem_brk s' = mem_brk s + bytes /\
    total bs' = total bs + bytes /\
    alloc_blocks a bs' = alloc_blocks a bs /\
    (forall y, bpayload a bs y -> mem s' y = mem s y) /\
    (exists r1 rsz r2,
        bs' = r1 ++ (rsz, Free) :: r2 /\ r = a + total r1 + 4 /\ bytes <= rsz).

(** ** [malloc] *)

(** A successful allocation: the heap stays represented, exactly one
    allocated block is new, and no byte of an older payload has changed. *)
Definition ballocated (s : state Z) (bs : list block) (size p : Z)
           (s' : state Z) : Prop :=
  let a := first_hdr s in
  p <> NULL /\
  exists bs' fl' cap,
    BRep s' bs' fl' /\
    mem_lo s' = mem_lo s /\ mem_max s' = mem_max s /\
    size <= cap /\
    Permutation (alloc_blocks a bs') ((p, cap) :: alloc_blocks a bs) /\
    (forall y, bpayload a bs y -> mem s' y = mem s y).

(** ** [free] *)

Definition bfreed (s : state Z) (bs : list block) (p sz : Z)
           (s' : state Z) : Prop :=
  let a := first_hdr s in
  exists bs' fl',
    BRep s' bs' fl' /\
    mem_lo s' = mem_lo s /\ mem_max s' = mem_max s /\ mem_brk s' = mem_brk s /\
    Permutation ((p, sz) :: alloc_blocks a bs') (alloc_blocks a bs) /\
    (forall y, bpayload a bs' y -> mem s' y = mem s y).

(** A successful [realloc] of a live block to a nonzero size. *)
Definition breallocated (s : state Z) (bs : list block) (p psz n q : Z)
           (s' : state Z) : Prop :=
  let a := first_hdr s in
  q <> NULL /\ q <> p /\
  exists bs' fl' cap,
    BRep s' bs' fl' /\
    mem_lo s' = mem_lo s /\ mem_max s' = mem_max s /\
    Basic.adjust n <= cap /\
    Permutation ((p, psz) :: alloc_blocks a bs') ((q, cap) :: alloc_blocks a bs) /\
    (forall i, 0 <= i < Z.min (psz - 8) (cap - 8) ->
               byte_at (mem s') (q + i) = byte_at (mem s) (p + i)).

Definition bzero_allocated (s : state Z) (bs : list block) (bytes q : Z)
           (s' : state Z) : Prop :=
  let a := first_hdr s in
  q <> NULL /\
  exists bs' fl' cap,
    BRep s' bs' fl' /\
    mem_lo s' = mem_lo s /\ mem_max s' = mem_max s /\
    Basic.adjust bytes <= cap /\ bytes <= cap - 8 /\
    Permutation (alloc_blocks a bs') ((q, cap) :: alloc_blocks a bs) /\
    (forall i, 0 <= i < bytes -> byte_at (mem s') (q + i) = 0).

(** * States reachable through the public operations of part_000

    As for mm.c: a client starts from a fresh image, calls [mm_init] once
    and then calls [malloc], [free], [realloc] and [calloc] in any order,
    frees or resizes only pointers it holds, and stores only between the
    header and the footer of a block it holds.

    The set is indexed by a bound [lim] on the sizes requested on the way:
    [breachable lim lo max s L] are the states reached with every request,
    and every product handed to [calloc], below [lim].  With [lim = 2^64]
    this is all a client can do.  part_000 rounds a request up to a block
    size in [size_t] arithmetic without a lower bound, so that a request
    of [2^64 - 15] bytes or more becomes a block of 0 or 8 bytes
    ([badjust_wraps]) and the heap is no longer well formed; what is
    proved below about the states of part_000 is proved for
    [lim = 2^64 - 15] and says so. *)

Inductive breachable (lim lo max : Z) : state Z -> list Z -> Prop :=
| BR_init (m : memory) (s : state Z) :
    0 < lo -> max - lo < W32 ->
    Basic.mm_init (boot m lo max) = Done 0 s ->
    breachable lim lo max s []
| BR_malloc (s : state Z) (L : list Z) (fuel : nat) (n p : Z) (s' : state Z) :
    breachable lim lo max s L -> (heap_fuel s <= fuel)%nat ->
    0 <= n -> n < lim ->
    Basic.malloc fuel n s = Done p s' ->
    breachable lim lo max s' (if p =? NULL then L else p :: L)
| BR_free (s : state Z) (L : list Z) (p : Z) (L' : list Z) (s' : state Z) :
    breachable lim lo max s L -> Permutation L (p :: L') ->
    Basic.free p s = Done tt s' ->
    breachable lim lo max s' L'
| BR_realloc (s : state Z) (L : list Z) (fuel : nat) (p n : Z) (L' : list Z)
             (q : Z) (s' : state Z) :
    breachable lim lo max s L -> Permutation L (p :: L') ->
    (heap_fuel s <= fuel)%nat -> 0 < n -> n < lim ->
    Basic.realloc fuel p n s = Done q s' ->
    breachable lim lo max s' (q :: L')
| BR_calloc (s : state Z) (L : list Z) (fuel : nat) (nmemb size p : Z)
            (s' : state Z) :
    breachable lim lo max s L -> (heap_fuel s <= fuel)%nat ->
    (nmemb * size) mod W64 < lim ->
    Basic.calloc fuel nmemb size s = Done p s' ->
    breachable lim lo max s' (if p =? NULL then L else p :: L)
| BR_store (s : state Z) (L : list Z) (p sz y v : Z) :
    breachable lim lo max s L -> In p L ->
    GET_SIZE (GET_HEADER p) s = Done sz s ->
    p <= y < p + sz - 2 * WSIZE ->
    breachable lim lo max (set_mem s (store_byte (mem s) y v)) L.

(** The invariant of the states of part_000 reached with requests below
    [2^64 - 15]. *)
Definition bheap_inv (lo max : Z) (s : state Z) (L : list Z) : Prop :=
  exists bs fl,
    BRep s bs fl /\ Permutation L (alloc_ptrs (first_hdr s) bs) /\
    mem_lo s = lo /\ mem_max s = max.

(** * Checked sessions of part_000 *)

Definition bsize_ok (n : Z) : bool := (0 <=? n) && (n + 15 <? W64).

Definition bexec1 (c : call) (s : state Z) (L : list Z)
  : option (state Z * list Z) :=
  let fuel := heap_fuel s in
  match c with
  | OpMalloc n =>
      if bsize_ok n then
        match Basic.malloc fuel n s with
        | Done p s' => Some (s', if p =? NULL then L else p :: L)
        | _ => None
        end
      else None
  | OpFree p =>
      match remove1 p L with
      | Some L' =>
          match Basic.free p s with
          | Done _ s' => Some (s', L')
          | _ => None
          end
      | None => None
      end
  | OpRealloc p n =>
      if bsize_ok n && (0 <? n) then
        match remove1 p L with
        | Some L' =>
            match Basic.realloc fuel p n s with
            | Done q s' => Some (s', q :: L')
            | _ => None
            end
        | None => None
        end
      else None
  | OpCalloc nmemb size =>
      if (nmemb * size) mod W64 + 15 <? W64 then
        match Basic.calloc fuel nmemb size s with
        | Done p s' => Some (s', if p =? NULL then L else p :: L)
        | _ => None
        end
      else None
  | OpStore p i v =>
      if held p L then
        match GET_SIZE (GET_HEADER p) s with
        | Done sz _ =>
            if (0 <=? i) && (i <? sz - 2 * WSIZE)
            then Some (set_mem s (store_byte (mem s) (p + i) v), L)
            else None
        | _ => None
        end
      else None
  end.

Fixpoint bexec (cs : list call) (s : state Z) (L : list Z)
  : option (state Z * list Z) :=
  match cs with
  | [] => Some (s, L)
  | c :: r =>
      match bexec1 c s L with
      | Some (s', L') => bexec r s' L'
      | None => None
      end
  end.

Definition bsession (m : memory) (lo max : Z) (cs : list call)
  : option (state Z * list Z) :=
  if (0 <? lo) && (max - lo <? W32) then
    match Basic.mm_init (boot m lo max) with
    | Done r s => if r =? 0 then bexec cs s [] else None
    | _ => None
    end
  else None.

(** Three blocks are allocated; the second and then the first are freed,
    so that the coalescer has to join them. *)
Definition c3_calls : list call :=
  [OpMalloc 24; OpMalloc 8; OpMalloc 24; OpFree 1080; OpFree 1048].

Definition c3_state : state Z := state_of (session zero_mem 1024 8192 c3_calls).

(** A held block of 32 bytes (28 bytes of payload) with a 16-byte free
    block behind it; byte 0 of the payload holds 5 and byte 20 holds 7. *)
Definition c4_calls : list call :=
  [OpMalloc 24; OpMalloc 8; OpMalloc 24; OpStore 1048 0 5; OpStore 1048 20 7;
   OpFree 1080].

Definition c4_state : state Z :=
  state_of (session zero_mem 1024 8192 c4_calls).

(** In part_000: a held block of 32 bytes (24 bytes of payload) whose
    first payload byte holds 7. *)
Definition c4_basic_calls : list call := [OpMalloc 24; OpStore 1048 0 7].

Definition c4_basic_state : state Z :=
  state_of (bsession zero_mem 1024 8192 c4_basic_calls).

(** ** [calloc] *)

(** The heap right after [mm_init]. *)
Definition fresh_state : state Z := state_of (session zero_mem 1024 8192 []).

(** One block of 16 bytes is held and the provider has nothing left. *)
Definition c1_calls : list call := [OpMalloc 8].

Definition c1_state : state Z := state_of (session zero_mem 1024 1064 c1_calls).

Definition c1_seg_state : state Seg.heads :=
  final (seg_session zero_mem 1024 1064 c1_calls) (Seg.boot zero_mem 1024 1064).

(** part_000 has taken its first chunk of 4096 bytes in [mm_init]. *)
Definition c1_basic_state : state Z :=
  final (basic_session zero_mem 1024 5144 c1_calls) (boot zero_mem 1024 5144).

(** ** Heap extension *)

(** What a successful [_extend_heap (words)] needs of the state it is
    called in: the epilogue is the last word of the region, and the
    provider still has the byte count to give, which is [words] rounded up
    to an even number times the word size and has to fit the size field
    of a header. *)
Definition can_extend {F} (s : state F) (words : Z) : Prop :=
  0 < words /\
  0 < mem_lo s /\ mem_lo s <= heap_end s /\ mem_brk s = heap_end s + WSIZE /\
  mem_brk s + WSIZE * (words + words mod 2) <= mem_max s /\
  WSIZE * (words + words mod 2) + 8 <= W32.

(** The words a successful extension has written when the coalescer
    takes over. *)
Definition extension_written {F} (s : state F) (bytes : Z) : Prop :=
  let he := heap_end s in
  let s1 := extended_state s bytes in
  mem_brk s1 = mem_brk s + bytes /\
  Z.land (rd (mem s1) he) MASK_SIZE = bytes /\
  Z.land (rd (mem s1) he) 1 = 0 /\
  Z.land (rd (mem s1) he) 2 = Z.land (rd (mem s) he) 2 /\
  rd (mem s1) (he + bytes - WSIZE) = PACK bytes 0 /\
  heap_end s1 = he + bytes /\
  Z.land (rd (mem s1) (heap_end s1)) MASK_SIZE = 0 /\
  Z.land (rd (mem s1) (heap_end s1)) 1 = 1.

(** The heap of part_001 right after [mm_init]. *)
Definition seg_fresh_state : state Seg.heads :=
  final (Seg.mm_init (Seg.boot zero_mem 1024 8192)) (Seg.boot zero_mem 1024 8192).

(** A free block of 104 bytes at 1048 whose payload word at offset 24
    holds 255, followed by a held block. *)
Definition c6_calls : list call :=
  [OpMalloc 100; OpMalloc 8; OpStore 1048 24 255; OpFree 1048].

Definition c6_state : state Z := state_of (session zero_mem 1024 8192 c6_calls).

Definition c6_seg_state : state Seg.heads :=
  final (seg_session zero_mem 1024 8192 c6_calls) (Seg.boot zero_mem 1024 8192).

(** ** The placement search *)

(** A decision procedure for [chain]. *)
Fixpoint chainb {F} (s : state F) (head : Z) (l : list (Z * Z)) : bool :=
  match l with
  | [] => head =? NULL
  | (q, n) :: r =>
      (head =? q) && negb (q =? NULL) &&
      in_heap s (q - 4) 4 && in_heap s (q + 4) 4 &&
      (Z.land (rd (mem s) (q - 4)) MASK_SIZE =? n) &&
      chainb s (dec (heap_ptr s) (rd (mem s) (q + 4))) r
  end.

Fixpoint class_chainsb (s : state Seg.heads) (i : nat)
         (cls : list (list (Z * Z))) : bool :=
  match cls with
  | [] => true
  | l :: r => chainb s (Seg.head_at (free_blks s) i) l && class_chainsb s (S i) r
  end.

(** The pointers [p, p - 32, ...] with one size: a run of equal blocks in
    a free list that was filled in address order. *)
Fixpoint run_down (n : nat) (p sz : Z) : list (Z * Z) :=
  match n with
  | O => []
  | S k => (p, sz) :: run_down k (p - 32) sz
  end.

(** Scripts: [n] times a block to be freed and a block that stays. *)
Fixpoint alloc_pairs (n : nat) (a b : Z) : list call :=
  match n with
  | O => []
  | S k => OpMalloc a :: OpMalloc b :: alloc_pairs k a b
  end.

Fixpoint frees_up (n : nat) (p step : Z) : list call :=
  match n with
  | O => []
  | S k => OpFree p :: frees_up k (p + step) step
  end.

(** A free list of mm.c with 29 blocks of 16 bytes, then one of 48, one
    of 16 and one of 32 bytes. *)
Definition c7_calls : list call :=
  [OpMalloc 24; OpMalloc 8; OpMalloc 8; OpMalloc 8; OpMalloc 40; OpMalloc 8]
  ++ alloc_pairs 29 8 8
  ++ [OpFree 1048; OpFree 1096; OpFree 1128]
  ++ frees_up 29 1192 32.

Definition c7_state : state Z := state_of (session zero_mem 1024 16384 c7_calls).

Definition c7_list : list (Z * Z) :=
  run_down 29 2088 16 ++ [(1128, 48); (1096, 16); (1048, 32)].

(** The search as C7 words it: a non-fitting block counts only once a fit
    has been found, and the search returns when 28 of them have been
    counted. *)
Fixpoint claimed_nfit_scan (size : Z) (l : list (Z * Z))
         (best bsz fit nfit_after : Z) : Z :=
  match l with
  | [] => best
  | (q, n) :: r =>
      if size <=? n then
        let upd := (best =? NULL) || (n <? bsz) in
        let best' := if upd then q else best in
        let bsz' := if upd then n else bsz in
        if fit + 1 =? Mm.MAX_FIT then best'
        else claimed_nfit_scan size r best' bsz' (fit + 1) nfit_after
      else if fit =? 0 then claimed_nfit_scan size r best bsz fit nfit_after
      else if nfit_after + 1 =? Mm.MAX_NFIT then best
      else claimed_nfit_scan size r best bsz fit (nfit_after + 1)
  end.

(** ** The three searches compared *)

(** One block of 16 bytes and six of 32 bytes are freed, in this order,
    with held blocks between them. *)
Definition c2_calls : list call :=
  [OpMalloc 8; OpMalloc 8] ++ alloc_pairs 6 24 8
  ++ [OpFree 1048] ++ frees_up 6 1080 48.

Definition c2_list : list (Z * Z) :=
  [(1320, 32); (1272, 32); (1224, 32); (1176, 32); (1128, 32); (1080, 32);
   (1048, 16)].

Definition c2_seg_state : state Seg.heads :=
  final (seg_session zero_mem 1024 8192 c2_calls) (Seg.boot zero_mem 1024 8192).

Definition c2_basic_state : state Z :=
  final (basic_session zero_mem 1024 8192 c2_calls) (boot zero_mem 1024 8192).

Definition c2_mm_state : state Z := state_of (session zero_mem 1024 8192 c2_calls).

(** The class lists of [c2_seg_state] from class 0: all free blocks are in
    class 0. *)
Definition c2_classes : list (list (Z * Z)) := c2_list :: repeat [] 17.

(** Two held blocks with a free block between them. *)
Definition x3_calls : list call :=
  [OpMalloc 24; OpMalloc 8; OpMalloc 24; OpStore 1096 5 9].

Definition x3_state : state Z := state_of (session zero_mem 1024 8192 x3_calls).

(** A held block filled with nonzero bytes is freed, so that [calloc] gets
    memory that is not zero. *)
Definition x5_calls : list call :=
  [OpMalloc 24; OpMalloc 8; OpStore 1048 0 255; OpStore 1048 1 255;
   OpStore 1048 8 255; OpStore 1048 20 255; OpFree 1048].

Definition x5_state : state Z := state_of (session zero_mem 1024 8192 x5_calls).

(** ** The free list and the headers of mm.c, read from memory *)

(** The nodes of the free list in list order: the traversal that
    [_allocate] makes, [ptr = free_blks; ptr != NULL; ptr = SUCC_FREE(ptr)],
    with [base] the value of [heap_ptr]. *)
Fixpoint list_walk (fuel : nat) (m : memory) (base q : Z) : option (list Z) :=
  if q =? NULL then Some []
  else
    match fuel with
    | O => None
    | S k =>
        match list_walk k m base (dec base (rd m (q + 4))) with
        | Some l => Some (q :: l)
        | None => None
        end
    end.

(** Every node's PRED_FREE is the node before it ([prev] for the first). *)
Fixpoint back_links (m : memory) (base prev : Z) (l : list Z) : bool :=
  match l with
  | [] => true
  | q :: r => (dec base (rd m q) =? prev) && back_links m base q r
  end.

(** Payload pointers of the blocks a heap walk reports with ALLOC = 0; [a]
    is the address of the first header. *)
Fixpoint free_of (a : Z) (w : list (Z * Z)) : list Z :=
  match w with
  | [] => []
  | (n, al) :: r =>
      if al =? 0 then (a + 4) :: free_of (a + n) r else free_of (a + n) r
  end.

(** The header discipline, checked from memory alone.  Starting at the
    header at [a], with [pa] the PREV_ALLOC bit expected there: every size
    is at least 16, every PREV_ALLOC bit is the ALLOC bit of the block
    before, a block with ALLOC = 0 follows an allocated one and its last
    word holds its size, and the header of size 0 that ends the walk has
    ALLOC set and is the last word below [brk]. *)
Fixpoint heap_check (fuel : nat) (m : memory) (a pa brk : Z) : bool :=
  let w := rd m a in
  let sz := Z.land w MASK_SIZE in
  if sz =? 0 then
    (Z.land w 1 =? 1) && (Z.land w 2 =? pa) && (a + 4 =? brk)
  else
    match fuel with
    | O => false
    | S k =>
        (16 <=? sz) && (Z.land w 2 =? pa) &&
        ((Z.land w 1 =? 1) || ((pa =? 2) && (rd m (a + sz - 4) =? sz))) &&
        heap_check k m (a + sz) (2 * Z.land w 1) brk
    end.

(** Two blocks that are not neighbours are freed, so that the free list has
    two nodes. *)
Definition x7_calls : list call :=
  [OpMalloc 24; OpMalloc 8; OpMalloc 24; OpMalloc 40; OpFree 1048; OpFree 1096].

Definition x7_state : state Z := state_of (session zero_mem 1024 8192 x7_calls).

(** * Further properties of part_000 *)

(** The header discipline of part_000, checked from memory alone.  Starting
    at the header at [a], with [pal] the ALLOC bit of the block before:
    every size is at least 16, the last word of a block repeats its header,
    no header has bit 1 set, a block with ALLOC = 0 follows an allocated
    one, and the walk ends at a word [PACK(0, 1)] that is the last word
    below [brk]. *)
Fixpoint bheap_check (fuel : nat) (m : memory) (a pal brk : Z) : bool :=
  let w := rd m a in
  let sz := Z.land w MASK_SIZE in
  if sz =? 0 then (w =? PACK 0 1) && (a + 4 =? brk)
  else
    match fuel with
    | O => false
    | S k =>
        (16 <=? sz) && (rd m (a + sz - 4) =? w) && (Z.land w 2 =? 0) &&
        ((Z.land w 1 =? 1) || (pal =? 1)) &&
        bheap_check k m (a + sz) (Z.land w 1) brk
    end.

(** Blocks are allocated and freed around two that stay, one of them
    written to. *)
Definition xb_calls : list call :=
  [OpMalloc 24; OpMalloc 8; OpMalloc 24; OpMalloc 40; OpStore 1080 3 9;
   OpStore 1128 0 200; OpStore 1128 39 201; OpFree 1048; OpFree 1096].

Definition xb_state : state Z := state_of (bsession zero_mem 1024 8192 xb_calls).

Definition xb_held : list Z := held_of (bsession zero_mem 1024 8192 xb_calls).

(** The heap of part_000 after [mm_init] and one request of [2^64 - 10]
    bytes. *)
Definition bwrap_state : state Z :=
  let s0 := state_of (bsession zero_mem 1024 8192 []) in
  final (Basic.malloc (heap_fuel s0) (W64 - 10) s0) s0.

(** A block filled with nonzero bytes is freed, so that [calloc] gets
    memory that is not zero. *)
Definition x13_calls : list call :=
  [OpMalloc 24; OpMalloc 8; OpStore 1048 0 255; OpStore 1048 1 255;
   OpStore 1048 8 255; OpStore 1048 20 255; OpFree 1048].

Definition x13_state : state Z :=
  state_of (bsession zero_mem 1024 8192 x13_calls).

(** * part_001: the segregated free lists *)

(** The free blocks with their sizes. *)
Fixpoint free_blocks (a : Z) (bs : list block) : list (Z * Z) :=
  match bs with
  | [] => []
  | (sz, t) :: r =>
      match t with Free => [(a + 4, sz)] | _ => [] end
      ++ free_blocks (a + sz) r
  end.

(** Replacing the [k]-th element of a list; out of range the list is left
    alone. *)
Fixpoint upd {A} (k : nat) (v : A) (l : list A) {struct l} : list A :=
  match l with
  | [] => []
  | x :: r =>
      match k with
      | O => v :: r
      | S k' => x :: upd k' v r
      end
  end.

(** The state of part_001 seen through its list of class [k]: a state of
    the single-list programs. *)
Definition proj (k : nat) (s : state Seg.heads) : state Z :=
  mkState (mem s) (mem_lo s) (mem_brk s) (mem_max s) (heap_ptr s) (heap_end s)
          (Seg.head_at (free_blks s) k).

(** Each class [k] is a doubly linked list whose first node is
    [free_blks[k]]; the lists carry the sizes of their blocks. *)
Definition seg_lists (m : memory) (hp : Z) (heads : Seg.heads)
           (fls : list (list (Z * Z))) : Prop :=
  length fls = S Seg.max_level /\ length heads = 20%nat /\
  forall k, (k <= Seg.max_level)%nat ->
            dllseg m hp 0 (map fst (nth k fls [])) 0 /\
            Seg.head_at heads k = hd 0 (map fst (nth k fls [])).

(** Every block is in the list of its size class. *)
Definition levels_ok (fls : list (list (Z * Z))) : Prop :=
  forall k q sz, In (q, sz) (nth k fls []) -> Seg._get_level sz = k.

(** Address of the first block header of part_001, and the scalars of a
    heap whose blocks cover [tot] bytes: as in mm.c. *)
Definition sfirst_hdr (s : state Seg.heads) : Z := mem_lo s + 20.

Definition sscalars (s : state Seg.heads) (tot : Z) : Prop :=
  0 < mem_lo s /\
  heap_ptr s = mem_lo s + 16 /\
  heap_end s = mem_lo s + 20 + tot /\
  mem_brk s = heap_end s + 4 /\
  mem_brk s <= mem_max s /\
  mem_max s - mem_lo s < W32.

(** The weak representation of part_001: the blocks [bs] laid out as in
    mm.c, and the free ones distributed over the class lists [fls]. *)
Definition SW (s : state Seg.heads) (bs : list block)
           (fls : list (list (Z * Z))) : Prop :=
  sscalars s (total bs) /\
  blocks (mem s) (sfirst_hdr s) true bs /\
  rd (mem s) (heap_end s) = hdr 0 (tail_pa true bs) true /\
  seg_lists (mem s) (heap_ptr s) (free_blks s) fls /\
  levels_ok fls /\
  Permutation (concat fls) (free_blocks (sfirst_hdr s) bs).

(** Bytes outside the link words of the free blocks are untouched. *)
Definition slinks_frame (s : state Seg.heads) (bs : list block)
           (m' : memory) : Prop :=
  forall y, ~ in_links (sfirst_hdr s) bs y -> m' y = mem s y.

(** The pointers of class [k]. *)
Definition cls (k : nat) (fls : list (list (Z * Z))) : list Z :=
  map fst (nth k fls []).

(** The representation invariant of part_001 between operations. *)
Definition SRep (s : state Seg.heads) (bs : list block)
           (fls : list (list (Z * Z))) : Prop :=
  SW s bs fls /\ naf true bs /\ no_limbo bs.

(** What [_merge_free_blocks] guarantees when called on a block in limbo
    whose header and footer say "free", in a heap that is otherwise
    settled. *)
Definition smerged (s : state Seg.heads) (l1 l2 : list block) (sz : Z)
           (r : Z) (s' : state Seg.heads) : Prop :=
  let a := sfirst_hdr s in
  exists m' fb' bs' fls',
    s' = set_free_blks (set_mem s m') fb' /\
    SRep s' bs' fls' /\
    total bs' = total l1 + sz + total l2 /\
    alloc_blocks a bs' = alloc_blocks a l1 ++ alloc_blocks (a + total l1 + sz) l2 /\
    (forall y, in_payload a l1 y \/ in_payload (a + total l1 + sz) l2 y ->
               m' y = mem s y) /\
    (exists r1 rsz r2,
        bs' = r1 ++ (rsz, Free) :: r2 /\ r = a + total r1 + 4 /\ sz <= rsz /\
        (tail_pa true l1 = true -> r1 = l1)).

(** * [_build] of part_001 *)

Definition sbuilt (s : state Seg.heads) (l1 l2 : list block) (bsz size : Z)
           (s' : state Seg.heads) : Prop :=
  let a := sfirst_hdr s in
  let h := a + total l1 in
  let n := built_size bsz size in
  exists m' fb' bs' fls',
    s' = set_free_blks (set_mem s m') fb' /\
    SRep s' bs' fls' /\
    total bs' = total l1 + bsz + total l2 /\
    alloc_blocks a bs'
    = alloc_blocks a l1 ++ (h + 4, n) :: alloc_blocks (h + bsz) l2 /\
    (forall y, in_payload a l1 y \/ in_payload (h + bsz) l2 y ->
               m' y = mem s y) /\
    (forall y, h + 4 <= y < h + n - 4 -> m' y = mem s y) /\
    rd m' h = hdr n (tail_pa true l1) true /\
    rd m' (h + n - 4) = PACK n 1 /\
    (ESIZE < bsz - size ->
     exists rsz r2, bs' = l1 ++ (size, Allocated) :: (rsz, Free) :: r2 /\
                    bsz - size <= rsz).

(** What a successful extension guarantees. *)
Definition sextended (s : state Seg.heads) (bs : list block) (bytes : Z)
           (r : Z) (s' : state Seg.heads) : Prop :=
  let a := sfirst_hdr s in
  exists bs' fls',
    SRep s' bs' fls' /\
    mem_lo s' = mem_lo s /\ mem_max s' = mem_max s /\
    mem_brk s' = mem_brk s + bytes /\
    total bs' = total bs + bytes /\
    alloc_blocks a bs' = alloc_blocks a bs /\
    (forall y, in_payload a bs y -> mem s' y = mem s y) /\
    (exists r1 rsz r2,
        bs' = r1 ++ (rsz, Free) :: r2 /\ r = a + total r1 + 4 /\ bytes <= rsz).

(** ** [malloc] *)

(** A successful allocation: the heap stays represented, exactly one
    allocated block is new, and no byte of an older payload has changed. *)
Definition sallocated (s : state Seg.heads) (bs : list block) (size p : Z)
           (s' : state Seg.heads) : Prop :=
  let a := sfirst_hdr s in
  p <> NULL /\
  exists bs' fls' cap,
    SRep s' bs' fls' /\
    mem_lo s' = mem_lo s /\ mem_max s' = mem_max s /\
    size <= cap /\
    Permutation (alloc_blocks a bs') ((p, cap) :: alloc_blocks a bs) /\
    (forall y, in_payload a bs y -> mem s' y = mem s y).

(** ** [free] *)

Definition sfreed (s : state Seg.heads) (bs : list block) (p sz : Z)
           (s' : state Seg.heads) : Prop :=
  let a := sfirst_hdr s in
  exists bs' fls',
    SRep s' bs' fls' /\
    mem_lo s' = mem_lo s /\ mem_max s' = mem_max s /\ mem_brk s' = mem_brk s /\
    Permutation ((p, sz) :: alloc_blocks a bs') (alloc_blocks a bs) /\
    (forall y, in_payload a bs' y -> mem s' y = mem s y).

(** A successful [realloc] of a live block to a nonzero size. *)
Definition sreallocated (s : state Seg.heads) (bs : list block) (p psz n q : Z)
           (s' : state Seg.heads) : Prop :=
  let a := sfirst_hdr s in
  q <> NULL /\ q <> p /\
  exists bs' fls' cap,
    SRep s' bs' fls' /\
    mem_lo s' = mem_lo s /\ mem_max s' = mem_max s /\
    Mm.adjust n <= cap /\
    Permutation ((p, psz) :: alloc_blocks a bs') ((q, cap) :: alloc_blocks a bs) /\
    (forall i, 0 <= i < Z.min (psz - 4) (cap - 4) ->
               byte_at (mem s') (q + i) = byte_at (mem s) (p + i)).

(** [calloc]: the request is the product reduced modulo [2^64]. *)
Definition szero_allocated (s : state Seg.heads) (bs : list block) (bytes q : Z)
           (s' : state Seg.heads) : Prop :=
  let a := sfirst_hdr s in
  q <> NULL /\
  exists bs' fls' cap,
    SRep s' bs' fls' /\
    mem_lo s' = mem_lo s /\ mem_max s' = mem_max s /\
    Mm.adjust bytes <= cap /\ bytes <= cap - 4 /\
    Permutation (alloc_blocks a bs') ((q, cap) :: alloc_blocks a bs) /\
    (forall i, 0 <= i < bytes -> byte_at (mem s') (q + i) = 0).

(** * Reachable states of part_001

    What a client can reach from [mm_init] on a fresh image: calls of the
    interface with the pointers it holds, and stores into the payloads of
    the blocks it holds. *)
Inductive sreachable (lo max : Z) : state Seg.heads -> list Z -> Prop :=
| SR_init (m : memory) (s : state Seg.heads) :
    0 < lo -> max - lo < W32 ->
    Seg.mm_init (Seg.boot m lo max) = Done 0 s ->
    sreachable lo max s []
| SR_malloc (s : state Seg.heads) (L : list Z) (fuel : nat) (n p : Z) (s' : state Seg.heads) :
    sreachable lo max s L -> (heap_fuel s <= fuel)%nat -> 0 <= n < W64 ->
    Seg.malloc fuel n s = Done p s' ->
    sreachable lo max s' (if p =? NULL then L else p :: L)
| SR_free (s : state Seg.heads) (L : list Z) (p : Z) (L' : list Z) (s' : state Seg.heads) :
    sreachable lo max s L -> Permutation L (p :: L') ->
    Seg.free p s = Done tt s' ->
    sreachable lo max s' L'
| SR_realloc (s : state Seg.heads) (L : list Z) (fuel : nat) (p n : Z) (L' : list Z)
            (q : Z) (s' : state Seg.heads) :
    sreachable lo max s L -> Permutation L (p :: L') ->
    (heap_fuel s <= fuel)%nat -> 0 < n < W64 ->
    Seg.realloc fuel p n s = Done q s' ->
    sreachable lo max s' (q :: L')
| SR_calloc (s : state Seg.heads) (L : list Z) (fuel : nat) (nmemb size p : Z)
           (s' : state Seg.heads) :
    sreachable lo max s L -> (heap_fuel s <= fuel)%nat ->
    0 <= nmemb < W64 -> 0 <= size < W64 ->
    Seg.calloc fuel nmemb size s = Done p s' ->
    sreachable lo max s' (if p =? NULL then L else p :: L)
| SR_store (s : state Seg.heads) (L : list Z) (p sz y v : Z) :
    sreachable lo max s L -> In p L ->
    GET_SIZE (GET_HEADER p) s = Done sz s ->
    p <= y < p + sz - WSIZE ->
    sreachable lo max (set_mem s (store_byte (mem s) y v)) L.

(** The invariant of reachable states: the heap is represented by a block
    list without limbo blocks and without two adjacent free blocks, and
    the client holds exactly the payload pointers of the allocated
    blocks. *)
Definition sheap_inv (lo max : Z) (s : state Seg.heads) (L : list Z) : Prop :=
  exists bs fls,
    SRep s bs fls /\ Permutation L (alloc_ptrs (sfirst_hdr s) bs) /\
    mem_lo s = lo /\ mem_max s = max.

(** * Checked sessions of part_001

    A client of part_001 as a program: [mm_init] on a fresh image, then
    the calls of the list, each checked to be one the client may make. *)

Definition sexec1 (c : call) (s : state Seg.heads) (L : list Z)
  : option (state Seg.heads * list Z) :=
  let fuel := heap_fuel s in
  match c with
  | OpMalloc n =>
      if size_ok n then
        match Seg.malloc fuel n s with
        | Done p s' => Some (s', if p =? NULL then L else p :: L)
        | _ => None
        end
      else None
  | OpFree p =>
      match remove1 p L with
      | Some L' =>
          match Seg.free p s with
          | Done _ s' => Some (s', L')
          | _ => None
          end
      | None => None
      end
  | OpRealloc p n =>
      if size_ok n && (0 <? n) then
        match remove1 p L with
        | Some L' =>
            match Seg.realloc fuel p n s with
            | Done q s' => Some (s', q :: L')
            | _ => None
            end
        | None => None
        end
      else None
  | OpCalloc nmemb size =>
      if size_ok nmemb && size_ok size then
        match Seg.calloc fuel nmemb size s with
        | Done p s' => Some (s', if p =? NULL then L else p :: L)
        | _ => None
        end
      else None
  | OpStore p i v =>
      if held p L then
        match GET_SIZE (GET_HEADER p) s with
        | Done sz _ =>
            if (0 <=? i) && (i <? sz - WSIZE)
            then Some (set_mem s (store_byte (mem s) (p + i) v), L)
            else None
        | _ => None
        end
      else None
  end.

Fixpoint sexec (cs : list call) (s : state Seg.heads) (L : list Z)
  : option (state Seg.heads * list Z) :=
  match cs with
  | [] => Some (s, L)
  | c :: r =>
      match sexec1 c s L with
      | Some (s', L') => sexec r s' L'
      | None => None
      end
  end.

Definition ssession (m : memory) (lo max : Z) (cs : list call)
  : option (state Seg.heads * list Z) :=
  if (0 <? lo) && (max - lo <? W32) then
    match Seg.mm_init (Seg.boot m lo max) with
    | Done r s => if r =? 0 then sexec cs s [] else None
    | _ => None
    end
  else None.

Definition sstate_of (r : option (state Seg.heads * list Z)) : state Seg.heads :=
  match r with Some (s, _) => s | None => Seg.boot (fun _ => 0) 0 0 end.

Definition sheld_of (r : option (state Seg.heads * list Z)) : list Z :=
  match r with Some (_, L) => L | None => [] end.

Definition scompletes (r : option (state Seg.heads * list Z)) : bool :=
  match r with Some _ => true | None => false end.

(** ** Placement with a split, in mm.c and in part_001 *)

(** The words [_build] has written when it has split the free block of
    [blksize] bytes at [ptr] for a request of [size] bytes; [m] is the
    memory before the call and [m'] the memory after it.  The header of
    the allocated part has size [size], ALLOC = 1 and the PREV_ALLOC bit
    it had; the last word of the allocated part holds [PACK size 1]; the
    payload before that word is unchanged; the remainder has exactly
    [blksize - size] bytes, a header with PREV_ALLOC = 1 and ALLOC = 0,
    and its size in its last word. *)
Definition split_written (m m' : memory) (ptr size blksize : Z) : Prop :=
  (Z.land (rd m' (GET_HEADER ptr)) MASK_SIZE = size /\
   Z.land (rd m' (GET_HEADER ptr)) 1 = 1 /\
   Z.land (rd m' (GET_HEADER ptr)) 2 = Z.land (rd m (GET_HEADER ptr)) 2) /\
  rd m' (ptr + size - DSIZE) = PACK size 1 /\
  (forall y, ptr <= y < ptr + size - DSIZE -> m' y = m y) /\
  rd m' (ptr + size - WSIZE) = PACK (blksize - size) 2 /\
  rd m' (ptr + blksize - DSIZE) = PACK (blksize - size) 0.

(** The heap of part_001 after the calls of [c6_calls], as a client
    reaches it. *)
Definition c6_seg_reached : state Seg.heads :=
  sstate_of (ssession zero_mem 1024 8192 c6_calls).

(** * Further properties of part_001 *)

(** A heap of part_001 with a free block between two held ones and a free
    block at its end. *)
Definition sx2_calls : list call :=
  [OpMalloc 24; OpMalloc 8; OpMalloc 24; OpMalloc 40; OpFree 1080; OpFree 1128].

Definition sx2_state : state Seg.heads :=
  sstate_of (ssession zero_mem 1024 8192 sx2_calls).

(** Two held blocks with a free block between them. *)
Definition sx3_calls : list call :=
  [OpMalloc 24; OpMalloc 8; OpMalloc 24; OpStore 1096 5 9].

Definition sx3_state : state Seg.heads := sstate_of (ssession zero_mem 1024 8192 sx3_calls).

(** A held block filled with nonzero bytes is freed, so that [calloc] gets
    memory that is not zero. *)
Definition sx5_calls : list call :=
  [OpMalloc 24; OpMalloc 8; OpStore 1048 0 255; OpStore 1048 1 255;
   OpStore 1048 8 255; OpStore 1048 20 255; OpFree 1048].

Definition sx5_state : state Seg.heads := sstate_of (ssession zero_mem 1024 8192 sx5_calls).

(** ** The size classes and the class lists of part_001 *)

(** The walk of every class list, from class [i] on, [n] classes to go:
    the traversals of the outer loop of [_allocate]. *)
Fixpoint class_walks (fuel : nat) (m : memory) (base : Z) (fb : Seg.heads)
         (n i : nat) : option (list (list Z)) :=
  match n with
  | O => Some []
  | S n' =>
      match list_walk fuel m base (Seg.head_at fb i),
            class_walks fuel m base fb n' (S i) with
      | Some l, Some r => Some (l :: r)
      | _, _ => None
      end
  end.

(** Two blocks of different size classes are freed, with a held block
    between them. *)
Definition sx7_calls : list call :=
  [OpMalloc 24; OpMalloc 8; OpMalloc 100; OpMalloc 40; OpFree 1048; OpFree 1096].

Definition sx7_state : state Seg.heads :=
  sstate_of (ssession zero_mem 1024 8192 sx7_calls).

(** * Lemmas and theorems *)

Lemma mod8_low_bits (sz n : Z) :
  sz mod 8 = 0 -> 0 <= n < 3 -> Z.testbit sz n = false.
Proof.
  intros H Hn.
  rewrite <- (Z.mod_pow2_bits_low sz 3 n) by lia.
  change (2 ^ 3) with 8. rewrite H. apply Z.bits_0.
Qed.

Lemma small_high_bits (x n : Z) :
  0 <= x < 8 -> 3 <= n -> Z.testbit x n = false.
Proof.
  intros Hx Hn.
  destruct (Z.eq_dec x 0) as [->|]; [apply Z.bits_0|].
  apply Z.bits_above_log2; [lia|].
  assert (Z.log2 x < 3) by (apply Z.log2_lt_pow2; change (2 ^ 3) with 8; lia).
  lia.
Qed.

Lemma lor_add (sz x : Z) : sz mod 8 = 0 -> 0 <= x < 8 -> Z.lor sz x = sz + x.
Proof.
  intros Hs Hx.
  rewrite <- Z.lxor_lor, <- Z.add_nocarry_lxor; trivial;
    apply Z.bits_inj'; intros n Hn; rewrite Z.land_spec, Z.bits_0;
    (destruct (Z_lt_dec n 3);
     [rewrite (mod8_low_bits sz n) by lia; reflexivity
     |rewrite (small_high_bits x n) by lia; apply andb_false_r]).
Qed.

Lemma land_small (sz x k : Z) :
  sz mod 8 = 0 -> 0 <= x < 8 -> 0 <= k < 8 -> Z.land (sz + x) k = Z.land x k.
Proof.
  intros Hs Hx Hk. rewrite <- lor_add by assumption.
  apply Z.bits_inj'; intros n Hn.
  rewrite !Z.land_spec, Z.lor_spec.
  destruct (Z_lt_dec n 3).
  - rewrite (mod8_low_bits sz n) by lia. reflexivity.
  - rewrite (small_high_bits k n) by lia. rewrite !andb_false_r. reflexivity.
Qed.

Lemma testbit_mask_size (n : Z) :
  0 <= n -> Z.testbit MASK_SIZE n = (3 <=? n) && (n <? 32).
Proof.
  intros Hn. change MASK_SIZE with (Z.land (Z.lnot 7) (Z.ones 32)).
  rewrite Z.land_spec, Z.lnot_spec by lia.
  change 7 with (Z.ones 3).
  rewrite !Z.testbit_ones by lia.
  destruct (Z.leb_spec 0 n), (Z.ltb_spec n 3), (Z.leb_spec 3 n), (Z.ltb_spec n 32);
    try lia; reflexivity.
Qed.

Lemma land_mask_size (sz x : Z) :
  sz mod 8 = 0 -> 0 <= sz -> sz + x < W32 -> 0 <= x < 8 ->
  Z.land (sz + x) MASK_SIZE = sz.
Proof.
  intros Hs H0 Hlt Hx. rewrite <- lor_add by assumption.
  apply Z.bits_inj'; intros n Hn.
  rewrite Z.land_spec, Z.lor_spec, testbit_mask_size by lia.
  destruct (Z.leb_spec 3 n); simpl.
  - rewrite (small_high_bits x n) by lia. rewrite orb_false_r.
    destruct (Z.ltb_spec n 32); simpl; [apply andb_true_r|].
    rewrite andb_false_r. symmetry.
    destruct (Z.eq_dec sz 0) as [->|]; [apply Z.bits_0|].
    apply Z.bits_above_log2; [lia|].
    assert (Z.log2 sz < 32) by (apply Z.log2_lt_pow2; unfold W32 in Hlt; lia).
    lia.
  - rewrite andb_false_r. symmetry. apply mod8_low_bits; lia.
Qed.

Lemma hdr_range (sz : Z) (pa al : bool) :
  sz <= hdr sz pa al <= sz + 3.
Proof. unfold hdr; destruct pa, al; simpl; lia. Qed.

Lemma hdr_size (sz : Z) (pa al : bool) :
  sz mod 8 = 0 -> 0 <= sz -> sz + 8 <= W32 -> Z.land (hdr sz pa al) MASK_SIZE = sz.
Proof.
  intros. unfold hdr. rewrite <- Z.add_assoc.
  apply land_mask_size; trivial; destruct pa, al; simpl; lia.
Qed.

Lemma hdr_alloc (sz : Z) (pa al : bool) :
  sz mod 8 = 0 -> Z.land (hdr sz pa al) 1 = bit_al al.
Proof.
  intros. unfold hdr. rewrite <- Z.add_assoc.
  rewrite land_small by (trivial; destruct pa, al; simpl; lia).
  destruct pa, al; reflexivity.
Qed.

Lemma hdr_prealloc (sz : Z) (pa al : bool) :
  sz mod 8 = 0 -> Z.land (hdr sz pa al) 2 = bit_pa pa.
Proof.
  intros. unfold hdr. rewrite <- Z.add_assoc.
  rewrite land_small by (trivial; destruct pa, al; simpl; lia).
  destruct pa, al; reflexivity.
Qed.

Lemma pack_hdr (sz : Z) (pa al : bool) :
  sz mod 8 = 0 -> PACK sz (Z.lor (bit_pa pa) (bit_al al)) = hdr sz pa al.
Proof.
  intros. unfold PACK, hdr. rewrite lor_add; trivial;
    destruct pa, al; simpl; lia.
Qed.

Lemma pack_small (sz x : Z) : sz mod 8 = 0 -> 0 <= x < 8 -> PACK sz x = sz + x.
Proof. apply lor_add. Qed.

Lemma hdr_set_prealloc (sz : Z) (pa al : bool) :
  sz mod 8 = 0 -> Z.lor (hdr sz pa al) 2 = hdr sz true al.
Proof.
  intros. unfold hdr. rewrite <- Z.add_assoc.
  rewrite <- (lor_add sz) by (trivial; destruct pa, al; simpl; lia).
  rewrite <- Z.lor_assoc.
  rewrite lor_add; trivial; destruct pa, al; simpl; lia.
Qed.

Lemma testbit_mask_nopre (n : Z) :
  0 <= n -> Z.testbit MASK_NOPRE n = negb (n =? 1) && (n <? 32).
Proof.
  intros Hn. change MASK_NOPRE with (Z.land (Z.lnot 2) (Z.ones 32)).
  rewrite Z.land_spec, Z.lnot_spec, Z.testbit_ones by lia.
  change 2 with (2 ^ 1). rewrite Z.pow2_bits_eqb by lia.
  rewrite (Z.eqb_sym 1 n).
  destruct (Z.leb_spec 0 n); [reflexivity|lia].
Qed.

Lemma hdr_reset_prealloc (sz : Z) (pa al : bool) :
  sz mod 8 = 0 -> 0 <= sz -> sz + 8 <= W32 ->
  Z.land (hdr sz pa al) MASK_NOPRE = hdr sz false al.
Proof.
  intros Hs H0 Hlt. unfold hdr. rewrite <- !Z.add_assoc.
  rewrite <- !(lor_add sz) by (trivial; destruct pa, al; simpl; lia).
  rewrite Z.land_lor_distr_l.
  replace (Z.land sz MASK_NOPRE) with sz; [destruct pa, al; reflexivity|].
  apply Z.bits_inj'; intros n Hn.
  rewrite Z.land_spec, testbit_mask_nopre by lia.
  destruct (Z.ltb_spec n 32); cbn [negb andb].
  - destruct (Z.eqb_spec n 1) as [->|Hn1]; cbn [negb andb].
    + rewrite (mod8_low_bits sz 1) by lia. reflexivity.
    + rewrite andb_true_r. reflexivity.
  - rewrite !andb_false_r.
    destruct (Z.eq_dec sz 0) as [->|]; [apply Z.bits_0|].
    apply Z.bits_above_log2; [lia|].
    assert (Z.log2 sz < 32) by (apply Z.log2_lt_pow2; unfold W32 in Hlt; lia).
    lia.
Qed.

(** ** Reads and writes *)

Lemma byte_at_range (m : memory) (a : Z) : 0 <= byte_at m a < 256.
Proof. unfold byte_at. apply Z.mod_pos_bound. lia. Qed.

Lemma rd_range (m : memory) (a : Z) : 0 <= rd m a < W32.
Proof.
  unfold rd, W32.
  pose proof (byte_at_range m a). pose proof (byte_at_range m (a + 1)).
  pose proof (byte_at_range m (a + 2)). pose proof (byte_at_range m (a + 3)).
  lia.
Qed.

Lemma store_byte_same (m : memory) (a v : Z) : store_byte m a v a = v mod 256.
Proof. unfold store_byte. rewrite Z.eqb_refl. reflexivity. Qed.

Lemma store_byte_other (m : memory) (a v x : Z) :
  x <> a -> store_byte m a v x = m x.
Proof. unfold store_byte. intros H. destruct (Z.eqb_spec x a); congruence. Qed.

Lemma wr_other_byte (m : memory) (a v y : Z) :
  y < a \/ a + 4 <= y -> wr m a v y = m y.
Proof.
  intros H. unfold wr. rewrite !store_byte_other by lia. reflexivity.
Qed.

Lemma rd_ext (m m' : memory) (a : Z) :
  (forall y, a <= y < a + 4 -> m' y = m y) -> rd m' a = rd m a.
Proof.
  intros H. unfold rd, byte_at.
  rewrite (H a), (H (a + 1)), (H (a + 2)), (H (a + 3)) by lia. reflexivity.
Qed.

Lemma rd_wr_other (m : memory) (a v b : Z) :
  b + 4 <= a \/ a + 4 <= b -> rd (wr m a v) b = rd m b.
Proof. intros H. apply rd_ext. intros y Hy. apply wr_other_byte. lia. Qed.

Lemma rd_wr_same (m : memory) (a v : Z) : rd (wr m a v) a = v mod W32.
Proof.
  unfold rd, wr, byte_at.
  rewrite (store_byte_other _ (a + 3)), (store_byte_other _ (a + 2)),
    (store_byte_other _ (a + 1)), store_byte_same by lia.
  rewrite (store_byte_other _ (a + 3)), (store_byte_other _ (a + 2)),
    store_byte_same by lia.
  rewrite (store_byte_other _ (a + 3)), store_byte_same by lia.
  rewrite store_byte_same.
  rewrite !Z.mod_mod by lia.
  unfold W32. change (2 ^ 32) with 4294967296.
  pose proof (Z.div_mod v 256 ltac:(lia)) as E0.
  pose proof (Z.div_mod (v / 256) 256 ltac:(lia)) as E1.
  pose proof (Z.div_mod (v / 65536) 256 ltac:(lia)) as E2.
  pose proof (Z.div_mod (v / 16777216) 256 ltac:(lia)) as E3.
  pose proof (Z.div_mod v 4294967296 ltac:(lia)) as E4.
  rewrite Z.div_div in E1, E2, E3 by lia.
  change (256 * 256) with 65536 in E1. change (65536 * 256) with 16777216 in E2.
  change (16777216 * 256) with 4294967296 in E3.
  pose proof (Z.mod_pos_bound v 256 ltac:(lia)).
  pose proof (Z.mod_pos_bound (v / 256) 256 ltac:(lia)).
  pose proof (Z.mod_pos_bound (v / 65536) 256 ltac:(lia)).
  pose proof (Z.mod_pos_bound (v / 16777216) 256 ltac:(lia)).
  pose proof (Z.mod_pos_bound v 4294967296 ltac:(lia)).
  lia.
Qed.

Lemma rd_wr_same_small (m : memory) (a v : Z) :
  0 <= v < W32 -> rd (wr m a v) a = v.
Proof. intros. rewrite rd_wr_same. apply Z.mod_small. assumption. Qed.

Section Exec.
Context {F : Type}.
Implicit Types (s : state F).


Lemma in_heap_true s p n :
  mem_lo s <= p -> p + n <= mem_brk s -> in_heap s p n = true.
Proof.
  intros. unfold in_heap. apply andb_true_intro. split; apply Z.leb_le; lia.
Qed.

Lemma bind_intro {A B} (c : M F A) (k : A -> M F B) s a s' R :
  c s = Done a s' -> k a s' = R -> bind c k s = R.
Proof. intros H1 H2. unfold bind. rewrite H1. exact H2. Qed.

Lemma bind_Done_inv {A B} (c : M F A) (k : A -> M F B) s b s'' :
  bind c k s = Done b s'' ->
  exists a s', c s = Done a s' /\ k a s' = Done b s''.
Proof.
  unfold bind. destruct (c s) as [a s'| |]; intros H; try discriminate.
  exists a, s'. split; [reflexivity|assumption].
Qed.

Lemma READ_ok s p : inb s p -> READ p s = Done (rd (mem s) p) s.
Proof. intros [H1 H2]. unfold READ. rewrite in_heap_true; trivial. Qed.

Lemma WRITE_ok s p v :
  inb s p -> WRITE p v s = Done tt (set_mem s (wr (mem s) p v)).
Proof. intros [H1 H2]. unfold WRITE. rewrite in_heap_true; trivial. Qed.

Lemma GET_SIZE_ok s p sz pa al :
  inb s p -> rd (mem s) p = hdr sz pa al ->
  sz mod 8 = 0 -> 0 <= sz -> sz + 8 <= W32 ->
  GET_SIZE p s = Done sz s.
Proof.
  intros Hb Hr H8 H0 Hlt. unfold GET_SIZE.
  eapply bind_intro; [apply READ_ok; exact Hb|].
  rewrite Hr, hdr_size by assumption. reflexivity.
Qed.

Lemma GET_ALLOC_ok s p sz pa al :
  inb s p -> rd (mem s) p = hdr sz pa al -> sz mod 8 = 0 ->
  GET_ALLOC p s = Done (bit_al al) s.
Proof.
  intros Hb Hr H8. unfold GET_ALLOC.
  eapply bind_intro; [apply READ_ok; exact Hb|].
  rewrite Hr, hdr_alloc by assumption. reflexivity.
Qed.

Lemma GET_PREALLOC_ok s p sz pa al :
  inb s p -> rd (mem s) p = hdr sz pa al -> sz mod 8 = 0 ->
  GET_PREALLOC p s = Done (bit_pa pa) s.
Proof.
  intros Hb Hr H8. unfold GET_PREALLOC.
  eapply bind_intro; [apply READ_ok; exact Hb|].
  rewrite Hr, hdr_prealloc by assumption. reflexivity.
Qed.

Lemma SET_PREALLOC_ok s p sz pa al :
  inb s p -> rd (mem s) p = hdr sz pa al -> sz mod 8 = 0 ->
  SET_PREALLOC p s = Done tt (set_mem s (wr (mem s) p (hdr sz true al))).
Proof.
  intros Hb Hr H8. unfold SET_PREALLOC.
  eapply bind_intro; [apply READ_ok; exact Hb|].
  rewrite Hr, hdr_set_prealloc by assumption. apply WRITE_ok. exact Hb.
Qed.

Lemma RESET_PREALLOC_ok s p sz pa al :
  inb s p -> rd (mem s) p = hdr sz pa al ->
  sz mod 8 = 0 -> 0 <= sz -> sz + 8 <= W32 ->
  RESET_PREALLOC p s = Done tt (set_mem s (wr (mem s) p (hdr sz false al))).
Proof.
  intros Hb Hr H8 H0 Hlt. unfold RESET_PREALLOC.
  eapply bind_intro; [apply READ_ok; exact Hb|].
  rewrite Hr, hdr_reset_prealloc by assumption. apply WRITE_ok. exact Hb.
Qed.

Lemma GET_FOOTER_ok s bp sz pa al :
  inb s (bp - 4) -> rd (mem s) (bp - 4) = hdr sz pa al ->
  sz mod 8 = 0 -> 0 <= sz -> sz + 8 <= W32 ->
  GET_FOOTER bp s = Done (bp + sz - 8) s.
Proof.
  intros. unfold GET_FOOTER.
  eapply bind_intro; [eapply GET_SIZE_ok; eassumption|]. reflexivity.
Qed.

Lemma SUCC_HEADER_ok s bp sz pa al :
  inb s (bp - 4) -> rd (mem s) (bp - 4) = hdr sz pa al ->
  sz mod 8 = 0 -> 0 <= sz -> sz + 8 <= W32 ->
  SUCC_HEADER bp s = Done (bp + sz - 4) s.
Proof.
  intros. unfold SUCC_HEADER.
  eapply bind_intro; [eapply GET_SIZE_ok; eassumption|]. reflexivity.
Qed.

Lemma SUCC_BLK_ok s bp sz pa al :
  inb s (bp - 4) -> rd (mem s) (bp - 4) = hdr sz pa al ->
  sz mod 8 = 0 -> 0 <= sz -> sz + 8 <= W32 ->
  SUCC_BLK bp s = Done (bp + sz) s.
Proof.
  intros. unfold SUCC_BLK.
  eapply bind_intro; [eapply GET_SIZE_ok; eassumption|]. reflexivity.
Qed.

Lemma PRED_BLK_ok s bp sz pa al :
  inb s (bp - 8) -> rd (mem s) (bp - 8) = hdr sz pa al ->
  sz mod 8 = 0 -> 0 <= sz -> sz + 8 <= W32 ->
  PRED_BLK bp s = Done (bp - sz) s.
Proof.
  intros. unfold PRED_BLK.
  eapply bind_intro; [eapply GET_SIZE_ok; eassumption|]. reflexivity.
Qed.


Lemma dec_enc hp q : q = 0 \/ hp < q -> dec hp (enc hp q) = q.
Proof.
  intros H. unfold dec, enc.
  destruct (Z.eqb_spec q 0) as [->|]; [reflexivity|].
  destruct (Z.eqb_spec (q - hp) 0); [lia|]. lia.
Qed.

Lemma enc_range hp q : q = 0 \/ (hp < q /\ q - hp < W32) -> 0 <= enc hp q < W32.
Proof.
  intros H. unfold enc, W32 in *.
  destruct (Z.eqb_spec q 0); lia.
Qed.

Lemma PRED_FREE_ok s bp :
  inb s bp -> PRED_FREE bp s = Done (dec (heap_ptr s) (rd (mem s) bp)) s.
Proof.
  intros Hb. unfold PRED_FREE, dec.
  eapply bind_intro; [apply READ_ok; exact Hb|].
  destruct (rd (mem s) bp =? 0); reflexivity.
Qed.

Lemma SUCC_FREE_ok s bp :
  inb s (bp + 4) ->
  SUCC_FREE bp s = Done (dec (heap_ptr s) (rd (mem s) (bp + 4))) s.
Proof.
  intros Hb. unfold SUCC_FREE, dec, WSIZE.
  eapply bind_intro; [apply READ_ok; exact Hb|].
  destruct (rd (mem s) (bp + 4) =? 0); reflexivity.
Qed.

Lemma SET_PRED_FREE_ok s bp val :
  inb s bp ->
  SET_PRED_FREE bp val s =
  Done tt (set_mem s (wr (mem s) bp (enc (heap_ptr s) val))).
Proof. intros Hb. unfold SET_PRED_FREE. cbn. apply WRITE_ok. exact Hb. Qed.

Lemma SET_SUCC_FREE_ok s bp val :
  inb s (bp + 4) ->
  SET_SUCC_FREE bp val s =
  Done tt (set_mem s (wr (mem s) (bp + 4) (enc (heap_ptr s) val))).
Proof. intros Hb. unfold SET_SUCC_FREE. cbn. apply WRITE_ok. exact Hb. Qed.
End Exec.

Ltac norm :=
  cbn [mem mem_lo mem_brk mem_max heap_ptr heap_end free_blks
       set_mem set_brk set_heap_ptr set_heap_end set_free_blks] in *.

(** One step of a monadic program: run the first command with [tac]. *)
Ltac bstep tac := eapply bind_intro; [ tac | cbv beta; norm ].

Lemma bind_rw {F A B} (c : M F A) (k : A -> M F B) (s : state F) a s' :
  c s = Done a s' -> bind c k s = k a s'.
Proof. intros H. unfold bind. rewrite H. reflexivity. Qed.

(** One step of a program that occurs inside the goal. *)
Ltac rstep tac := erewrite bind_rw by tac; cbv beta; norm.

(** * Block lists *)

Lemma total_app (l1 l2 : list block) : total (l1 ++ l2) = total l1 + total l2.
Proof. induction l1 as [|[sz t] r IH]; simpl; lia. Qed.

Lemma tail_pa_app (pa : bool) (l1 l2 : list block) :
  tail_pa pa (l1 ++ l2) = tail_pa (tail_pa pa l1) l2.
Proof. revert pa; induction l1 as [|[sz t] r IH]; intros pa; simpl; auto. Qed.

Ltac shift_addr a sz r :=
  replace (a + sz + total r) with (a + (sz + total r)) by lia.

Lemma blocks_app (m : memory) (a : Z) (pa : bool) (l1 l2 : list block) :
  blocks m a pa (l1 ++ l2) <->
  blocks m a pa l1 /\ blocks m (a + total l1) (tail_pa pa l1) l2.
Proof.
  revert a pa; induction l1 as [|[sz t] r IH]; intros a pa; simpl.
  - rewrite Z.add_0_r. tauto.
  - rewrite IH. shift_addr a sz r. tauto.
Qed.

Lemma free_ptrs_app (a : Z) (l1 l2 : list block) :
  free_ptrs a (l1 ++ l2) = free_ptrs a l1 ++ free_ptrs (a + total l1) l2.
Proof.
  revert a; induction l1 as [|[sz t] r IH]; intros a; simpl.
  - rewrite Z.add_0_r. reflexivity.
  - rewrite IH, <- app_assoc. shift_addr a sz r. reflexivity.
Qed.

Lemma alloc_ptrs_app (a : Z) (l1 l2 : list block) :
  alloc_ptrs a (l1 ++ l2) = alloc_ptrs a l1 ++ alloc_ptrs (a + total l1) l2.
Proof.
  revert a; induction l1 as [|[sz t] r IH]; intros a; simpl.
  - rewrite Z.add_0_r. reflexivity.
  - rewrite IH, <- app_assoc. shift_addr a sz r. reflexivity.
Qed.

Lemma naf_app (pa : bool) (l1 l2 : list block) :
  naf pa (l1 ++ l2) <-> naf pa l1 /\ naf (tail_pa pa l1) l2.
Proof.
  revert pa; induction l1 as [|[sz t] r IH]; intros pa; simpl.
  - tauto.
  - rewrite IH. tauto.
Qed.

Lemma naf_weaken (pa : bool) (bs : list block) : naf pa bs -> naf true bs.
Proof. destruct bs as [|[sz t] r]; simpl; tauto. Qed.

Lemma in_payload_app (a : Z) (l1 l2 : list block) (y : Z) :
  in_payload a (l1 ++ l2) y <->
  in_payload a l1 y \/ in_payload (a + total l1) l2 y.
Proof.
  revert a; induction l1 as [|[sz t] r IH]; intros a; simpl.
  - rewrite Z.add_0_r. tauto.
  - rewrite IH. shift_addr a sz r. tauto.
Qed.

Lemma in_limbo_app (a : Z) (l1 l2 : list block) (y : Z) :
  in_limbo a (l1 ++ l2) y <->
  in_limbo a l1 y \/ in_limbo (a + total l1) l2 y.
Proof.
  revert a; induction l1 as [|[sz t] r IH]; intros a; simpl.
  - rewrite Z.add_0_r. tauto.
  - rewrite IH. shift_addr a sz r. tauto.
Qed.

Lemma meta_app (a : Z) (l1 l2 : list block) (y : Z) :
  meta a (l1 ++ l2) y <-> meta a l1 y \/ meta (a + total l1) l2 y.
Proof.
  revert a; induction l1 as [|[sz t] r IH]; intros a; simpl.
  - rewrite Z.add_0_r. tauto.
  - rewrite IH. shift_addr a sz r. tauto.
Qed.

Lemma sizes_ok_app (l1 l2 : list block) :
  sizes_ok (l1 ++ l2) <-> sizes_ok l1 /\ sizes_ok l2.
Proof. unfold sizes_ok. apply Forall_app. Qed.

Lemma sizes_ok_cons (sz : Z) (t : status) (r : list block) :
  sizes_ok ((sz, t) :: r) <-> (16 <= sz /\ sz mod 8 = 0) /\ sizes_ok r.
Proof. unfold sizes_ok. rewrite Forall_cons_iff. reflexivity. Qed.

Lemma no_limbo_app (l1 l2 : list block) :
  no_limbo (l1 ++ l2) <-> no_limbo l1 /\ no_limbo l2.
Proof. unfold no_limbo. apply Forall_app. Qed.

Lemma no_limbo_cons (sz : Z) (t : status) (r : list block) :
  no_limbo ((sz, t) :: r) <-> (t = Allocated \/ t = Free) /\ no_limbo r.
Proof. unfold no_limbo. rewrite Forall_cons_iff. reflexivity. Qed.

Lemma blocks_sizes (m : memory) (a : Z) (pa : bool) (bs : list block) :
  blocks m a pa bs -> sizes_ok bs.
Proof.
  revert a pa; induction bs as [|[sz t] r IH]; intros a pa H.
  - constructor.
  - simpl in H. apply sizes_ok_cons. split; [tauto|].
    eapply IH. apply H.
Qed.

Lemma total_nonneg (bs : list block) : sizes_ok bs -> 0 <= total bs.
Proof.
  induction bs as [|[sz t] r IH]; simpl; intros H; [lia|].
  apply sizes_ok_cons in H. destruct H as [[? ?] H]. specialize (IH H). lia.
Qed.

Lemma total_mod8 (bs : list block) : sizes_ok bs -> total bs mod 8 = 0.
Proof.
  induction bs as [|[sz t] r IH]; simpl; intros H; [reflexivity|].
  apply sizes_ok_cons in H. destruct H as [[? Hm] H]. specialize (IH H).
  rewrite Z.add_mod, Hm, IH by lia. reflexivity.
Qed.

Lemma blocks_frame (m m' : memory) (a : Z) (pa : bool) (bs : list block) :
  (forall y, meta a bs y -> m' y = m y) ->
  blocks m a pa bs -> blocks m' a pa bs.
Proof.
  revert a pa; induction bs as [|[sz t] r IH]; intros a pa Hf H; simpl in *.
  - exact I.
  - destruct H as (H1 & H2 & H3).
    split; [exact H1|split].
    + destruct t as [| |nb]; trivial.
      * rewrite <- H2. apply rd_ext. intros y Hy. apply Hf. left. lia.
      * destruct H2 as [H2 H4]. split.
        -- rewrite <- H2. apply rd_ext. intros y Hy. apply Hf. left. left. lia.
        -- transitivity (rd m (a + sz - 4)); [|exact H4].
           apply rd_ext. intros y Hy. apply Hf. left. right. lia.
    + apply IH; trivial. intros y Hy. apply Hf. right. exact Hy.
Qed.

(** ** Where things are *)

Lemma meta_range (a : Z) (bs : list block) (y : Z) :
  sizes_ok bs -> meta a bs y -> a <= y < a + total bs.
Proof.
  revert a; induction bs as [|[sz t] r IH]; intros a Hs H; simpl in *.
  - contradiction.
  - apply sizes_ok_cons in Hs. destruct Hs as [[? ?] Hs].
    pose proof (total_nonneg r Hs).
    destruct H as [H|H].
    + destruct t; lia.
    + specialize (IH _ Hs H). lia.
Qed.

Lemma in_payload_range (a : Z) (bs : list block) (y : Z) :
  sizes_ok bs -> in_payload a bs y -> a + 4 <= y < a + total bs.
Proof.
  revert a; induction bs as [|[sz t] r IH]; intros a Hs H; simpl in *.
  - contradiction.
  - apply sizes_ok_cons in Hs. destruct Hs as [[? ?] Hs].
    pose proof (total_nonneg r Hs).
    destruct H as [[_ H]|H]; try lia.
    specialize (IH _ Hs H). lia.
Qed.

Lemma in_limbo_range (a : Z) (bs : list block) (y : Z) :
  sizes_ok bs -> in_limbo a bs y -> a <= y < a + total bs.
Proof.
  revert a; induction bs as [|[sz t] r IH]; intros a Hs H; simpl in *.
  - contradiction.
  - apply sizes_ok_cons in Hs. destruct Hs as [[? ?] Hs].
    pose proof (total_nonneg r Hs).
    destruct H as [[_ H]|H]; try lia.
    specialize (IH _ Hs H). lia.
Qed.

Lemma free_ptrs_range (a : Z) (bs : list block) (q : Z) :
  sizes_ok bs -> In q (free_ptrs a bs) ->
  a + 4 <= q /\ q + 12 <= a + total bs /\ (q - a - 4) mod 8 = 0.
Proof.
  revert a; induction bs as [|[sz t] r IH]; intros a Hs H; simpl in *.
  - contradiction.
  - apply sizes_ok_cons in Hs. destruct Hs as [[? Hm] Hs].
    pose proof (total_nonneg r Hs).
    apply in_app_or in H. destruct H as [H|H].
    + destruct t; simpl in H; try contradiction.
      destruct H as [<-|[]]. replace (a + 4 - a - 4) with 0 by lia.
      repeat split; try lia; reflexivity.
    + destruct (IH _ Hs H) as (Hq1 & Hq2 & Hq3). repeat split; try lia.
      replace (q - a - 4) with ((q - (a + sz) - 4) + sz) by lia.
      rewrite Z.add_mod by lia. rewrite Hq3, Hm. reflexivity.
Qed.

Lemma alloc_ptrs_range (a : Z) (bs : list block) (q : Z) :
  sizes_ok bs -> In q (alloc_ptrs a bs) ->
  a + 4 <= q /\ q + 12 <= a + total bs /\ (q - a - 4) mod 8 = 0.
Proof.
  revert a; induction bs as [|[sz t] r IH]; intros a Hs H; simpl in *.
  - contradiction.
  - apply sizes_ok_cons in Hs. destruct Hs as [[? Hm] Hs].
    pose proof (total_nonneg r Hs).
    apply in_app_or in H. destruct H as [H|H].
    + destruct t; simpl in H; try contradiction.
      destruct H as [<-|[]]. replace (a + 4 - a - 4) with 0 by lia.
      repeat split; try lia; reflexivity.
    + destruct (IH _ Hs H) as (Hq1 & Hq2 & Hq3). repeat split; try lia.
      replace (q - a - 4) with ((q - (a + sz) - 4) + sz) by lia.
      rewrite Z.add_mod by lia. rewrite Hq3, Hm. reflexivity.
Qed.

Lemma in_links_range (a : Z) (bs : list block) (y : Z) :
  sizes_ok bs -> in_links a bs y -> a + 4 <= y < a + total bs - 4.
Proof.
  intros Hs (p & Hp & Hy). pose proof (free_ptrs_range _ _ _ Hs Hp). lia.
Qed.

Lemma in_links_cons (a : Z) (sz : Z) (t : status) (r : list block) (y : Z) :
  in_links a ((sz, t) :: r) y <->
  (t = Free /\ a + 4 <= y < a + 12) \/ in_links (a + sz) r y.
Proof.
  unfold in_links. simpl. split.
  - intros (p & Hp & Hy). apply in_app_or in Hp. destruct Hp as [Hp|Hp].
    + destruct t; simpl in Hp; try contradiction.
      destruct Hp as [<-|[]]. left. split; [reflexivity|lia].
    + right. exists p. split; assumption.
  - intros [[-> Hy]|(p & Hp & Hy)].
    + exists (a + 4). split; [left; reflexivity|lia].
    + exists p. split; [apply in_or_app; right; exact Hp|exact Hy].
Qed.

Lemma in_links_app (a : Z) (l1 l2 : list block) (y : Z) :
  in_links a (l1 ++ l2) y <->
  in_links a l1 y \/ in_links (a + total l1) l2 y.
Proof.
  unfold in_links. rewrite free_ptrs_app. split.
  - intros (p & Hp & Hy). apply in_app_or in Hp.
    destruct Hp; [left|right]; exists p; split; assumption.
  - intros [(p & Hp & Hy)|(p & Hp & Hy)]; exists p; split; trivial;
      apply in_or_app; [left|right]; assumption.
Qed.

(** Link words meet neither metadata, nor payload, nor limbo. *)
Lemma meta_not_links (a : Z) (bs : list block) (y : Z) :
  sizes_ok bs -> meta a bs y -> ~ in_links a bs y.
Proof.
  revert a; induction bs as [|[sz t] r IH]; intros a Hs Hm Hl; simpl in Hm.
  - contradiction.
  - apply in_links_cons in Hl.
    apply sizes_ok_cons in Hs. destruct Hs as [[? ?] Hs].
    destruct Hm as [Hm|Hm], Hl as [[-> Hl]|Hl].
    + lia.
    + apply in_links_range in Hl; trivial. destruct t; lia.
    + apply meta_range in Hm; trivial. lia.
    + exact (IH _ Hs Hm Hl).
Qed.

Lemma payload_not_links (a : Z) (bs : list block) (y : Z) :
  sizes_ok bs -> in_payload a bs y -> ~ in_links a bs y.
Proof.
  revert a; induction bs as [|[sz t] r IH]; intros a Hs Hm Hl; simpl in Hm.
  - contradiction.
  - apply in_links_cons in Hl.
    apply sizes_ok_cons in Hs. destruct Hs as [[? ?] Hs].
    destruct Hm as [[-> Hm]|Hm], Hl as [[E Hl]|Hl].
    + discriminate.
    + apply in_links_range in Hl; trivial. lia.
    + apply in_payload_range in Hm; trivial. lia.
    + exact (IH _ Hs Hm Hl).
Qed.

Lemma limbo_not_links (a : Z) (bs : list block) (y : Z) :
  sizes_ok bs -> in_limbo a bs y -> ~ in_links a bs y.
Proof.
  revert a; induction bs as [|[sz t] r IH]; intros a Hs Hm Hl; simpl in Hm.
  - contradiction.
  - apply in_links_cons in Hl.
    apply sizes_ok_cons in Hs. destruct Hs as [[? ?] Hs].
    destruct Hm as [[[nb ->] Hm]|Hm], Hl as [[E Hl]|Hl].
    + discriminate.
    + apply in_links_range in Hl; trivial. lia.
    + apply in_limbo_range in Hm; trivial. lia.
    + exact (IH _ Hs Hm Hl).
Qed.

Lemma payload_not_meta (a : Z) (bs : list block) (y : Z) :
  sizes_ok bs -> in_payload a bs y -> ~ meta a bs y.
Proof.
  revert a; induction bs as [|[sz t] r IH]; intros a Hs H Hm; simpl in *.
  - contradiction.
  - apply sizes_ok_cons in Hs. destruct Hs as [[? ?] Hs].
    destruct H as [[-> H]|H], Hm as [Hm|Hm].
    + lia.
    + apply meta_range in Hm; trivial. lia.
    + apply in_payload_range in H; trivial. destruct t; lia.
    + exact (IH _ Hs H Hm).
Qed.

Lemma limbo_not_meta (a : Z) (bs : list block) (y : Z) :
  sizes_ok bs -> in_limbo a bs y -> ~ meta a bs y.
Proof.
  revert a; induction bs as [|[sz t] r IH]; intros a Hs H Hm; simpl in *.
  - contradiction.
  - apply sizes_ok_cons in Hs. destruct Hs as [[? ?] Hs].
    destruct H as [[[nb ->] H]|H], Hm as [Hm|Hm].
    + contradiction.
    + apply meta_range in Hm; trivial. lia.
    + apply in_limbo_range in H; trivial. destruct t; lia.
    + exact (IH _ Hs H Hm).
Qed.

Lemma in_limbo_mid (a : Z) (l1 l2 : list block) (sz : Z) (nb : bool) (y : Z) :
  a + total l1 <= y < a + total l1 + sz ->
  in_limbo a (l1 ++ (sz, Limbo nb) :: l2) y.
Proof.
  intros Hy. apply in_limbo_app. right. simpl. left. split; [eauto|lia].
Qed.

Lemma meta_header (a : Z) (l1 l2 : list block) (sz : Z) (t : status) (y : Z) :
  t = Allocated \/ t = Free ->
  a + total l1 <= y < a + total l1 + 4 ->
  meta a (l1 ++ (sz, t) :: l2) y.
Proof.
  intros Ht Hy. apply meta_app. right. simpl. left.
  destruct Ht as [->| ->]; [|left]; lia.
Qed.

Lemma meta_footer (a : Z) (l1 l2 : list block) (sz : Z) (y : Z) :
  a + total l1 + sz - 4 <= y < a + total l1 + sz ->
  meta a (l1 ++ (sz, Free) :: l2) y.
Proof. intros Hy. apply meta_app. right. simpl. left. right. lia. Qed.

Lemma free_ptrs_mid (a : Z) (l1 l2 : list block) (sz : Z) :
  In (a + total l1 + 4) (free_ptrs a (l1 ++ (sz, Free) :: l2)).
Proof. rewrite free_ptrs_app. apply in_or_app. right. left. reflexivity. Qed.

Lemma alloc_ptrs_mid (a : Z) (l1 l2 : list block) (sz : Z) :
  In (a + total l1 + 4) (alloc_ptrs a (l1 ++ (sz, Allocated) :: l2)).
Proof. rewrite alloc_ptrs_app. apply in_or_app. right. left. reflexivity. Qed.

(** Membership in the pointer lists, through [block_at]. *)
Lemma block_at_free (a : Z) (bs : list block) (q : Z) :
  In q (free_ptrs a bs) -> exists sz, block_at a bs q sz Free.
Proof.
  revert a; induction bs as [|[sz t] r IH]; intros a H; simpl in *.
  - contradiction.
  - apply in_app_or in H. destruct H as [H|H].
    + destruct t; simpl in H; try contradiction. destruct H as [<-|[]].
      exists sz, [], r. split; [reflexivity|simpl; lia].
    + destruct (IH _ H) as (sz' & l1 & l2 & -> & ->).
      exists sz', ((sz, t) :: l1), l2. split; [reflexivity|simpl; lia].
Qed.

Lemma block_at_alloc (a : Z) (bs : list block) (q : Z) :
  In q (alloc_ptrs a bs) -> exists sz, block_at a bs q sz Allocated.
Proof.
  revert a; induction bs as [|[sz t] r IH]; intros a H; simpl in *.
  - contradiction.
  - apply in_app_or in H. destruct H as [H|H].
    + destruct t; simpl in H; try contradiction. destruct H as [<-|[]].
      exists sz, [], r. split; [reflexivity|simpl; lia].
    + destruct (IH _ H) as (sz' & l1 & l2 & -> & ->).
      exists sz', ((sz, t) :: l1), l2. split; [reflexivity|simpl; lia].
Qed.

Lemma alloc_blocks_app (a : Z) (l1 l2 : list block) :
  alloc_blocks a (l1 ++ l2) = alloc_blocks a l1 ++ alloc_blocks (a + total l1) l2.
Proof.
  revert a; induction l1 as [|[sz t] r IH]; intros a; simpl.
  - rewrite Z.add_0_r. reflexivity.
  - rewrite IH, <- app_assoc. shift_addr a sz r. reflexivity.
Qed.

Lemma alloc_ptrs_blocks (a : Z) (bs : list block) :
  alloc_ptrs a bs = map fst (alloc_blocks a bs).
Proof.
  revert a; induction bs as [|[sz t] r IH]; intros a; simpl; [reflexivity|].
  rewrite map_app, IH. destruct t; reflexivity.
Qed.

Lemma alloc_blocks_at (a : Z) (bs : list block) (p n : Z) :
  In (p, n) (alloc_blocks a bs) <-> block_at a bs p n Allocated.
Proof.
  revert a; induction bs as [|[sz t] r IH]; intros a; simpl.
  - split; [contradiction|]. intros (l1 & l2 & E & _). destruct l1; discriminate.
  - rewrite in_app_iff, IH. split.
    + intros [H|(l1 & l2 & -> & ->)].
      * destruct t; simpl in H; try contradiction.
        destruct H as [H|[]]. inversion H; subst.
        exists [], r. split; [reflexivity|simpl; lia].
      * exists ((sz, t) :: l1), l2. split; [reflexivity|simpl; lia].
    + intros (l1 & l2 & E & ->). destruct l1 as [|b l1]; simpl in E.
      * inversion E; subst. left. left. f_equal. simpl. lia.
      * inversion E; subst. right. exists l1, l2.
        split; [reflexivity|simpl; lia].
Qed.

Lemma in_payload_iff (a : Z) (bs : list block) (y : Z) :
  in_payload a bs y <->
  exists p n, In (p, n) (alloc_blocks a bs) /\ p <= y < p + n - 4.
Proof.
  revert a; induction bs as [|[sz t] r IH]; intros a; simpl.
  - split; [contradiction|]. intros (p & n & [] & _).
  - rewrite IH. split.
    + intros [[-> Hy]|(p & n & Hin & Hy)].
      * exists (a + 4), sz. split; [left; reflexivity|lia].
      * exists p, n. split; [apply in_or_app; right; exact Hin|exact Hy].
    + intros (p & n & Hin & Hy). apply in_app_or in Hin.
      destruct Hin as [Hin|Hin].
      * destruct t; simpl in Hin; try contradiction.
        destruct Hin as [Hin|[]]. inversion Hin; subst.
        left. split; [reflexivity|lia].
      * right. exists p, n. split; assumption.
Qed.

Lemma in_payload_block (a : Z) (bs : list block) (p n y : Z) :
  block_at a bs p n Allocated -> p <= y < p + n - 4 -> in_payload a bs y.
Proof.
  intros H Hy. apply in_payload_iff. exists p, n. split; [|exact Hy].
  apply alloc_blocks_at. exact H.
Qed.

Lemma list_nil_or_last {A} (l : list A) : l = [] \/ exists l' x, l = l' ++ [x].
Proof.
  induction l as [|x l' _] using rev_ind; [left; reflexivity|right].
  exists l', x. reflexivity.
Qed.

(** The payload pointers of distinct blocks are at least 16 bytes apart. *)
Lemma free_ptrs_sorted (a : Z) (bs : list block) :
  sizes_ok bs ->
  forall l1 q l2, free_ptrs a bs = l1 ++ q :: l2 ->
                  forall p, In p l2 -> q + 16 <= p.
Proof.
  revert a; induction bs as [|[sz t] r IH]; intros a Hs l1 q l2 E p Hp; simpl in E.
  - destruct l1; discriminate.
  - apply sizes_ok_cons in Hs. destruct Hs as [[? ?] Hs].
    assert (Hcase : (l1 = [] /\ t = Free /\ q = a + 4 /\ l2 = free_ptrs (a + sz) r)
                    \/ exists l1', free_ptrs (a + sz) r = l1' ++ q :: l2).
    { destruct t; simpl in E; eauto.
      destruct l1 as [|x l1']; simpl in E; inversion E; subst; eauto. }
    destruct Hcase as [(-> & -> & -> & ->)|(l1' & E')].
    + pose proof (free_ptrs_range _ _ _ Hs Hp). lia.
    + eapply IH; eassumption.
Qed.

Lemma hd_app {A} (d : A) (l1 l2 : list A) : hd d (l1 ++ l2) = hd (hd d l2) l1.
Proof. destruct l1; reflexivity. Qed.

Lemma last_snoc {A} (d x : A) (l : list A) : last (l ++ [x]) d = x.
Proof. apply last_last. Qed.

Lemma last_cons {A} (r : list A) (q d : A) : last (q :: r) d = last r q.
Proof.
  revert q d; induction r as [|x r IH]; intros q d; [reflexivity|].
  change (last (q :: x :: r) d) with (last (x :: r) d).
  rewrite (IH x d), (IH x q). reflexivity.
Qed.

Lemma dllseg_app (m : memory) (hp prev : Z) (l1 l2 : list Z) (next : Z) :
  dllseg m hp prev (l1 ++ l2) next <->
  dllseg m hp prev l1 (hd next l2) /\ dllseg m hp (last l1 prev) l2 next.
Proof.
  revert prev; induction l1 as [|q r IH]; intros prev.
  - simpl. tauto.
  - cbn [app dllseg]. rewrite IH, hd_app, last_cons. tauto.
Qed.

Lemma dllseg_frame (m m' : memory) (hp prev : Z) (l : list Z) (next : Z) :
  (forall q y, In q l -> q <= y < q + 8 -> m' y = m y) ->
  dllseg m hp prev l next -> dllseg m' hp prev l next.
Proof.
  revert prev; induction l as [|q r IH]; intros prev Hf H; simpl in *.
  - exact I.
  - destruct H as (H1 & H2 & H3). repeat split.
    + rewrite <- H1. apply rd_ext. intros y Hy. apply (Hf q); [auto|lia].
    + rewrite <- H2. apply rd_ext. intros y Hy. apply (Hf q); [auto|lia].
    + apply IH; trivial. intros q' y Hq Hy. apply (Hf q'); auto.
Qed.

Lemma far_apart_app (l1 l2 : list Z) :
  far_apart (l1 ++ l2) <->
  far_apart l1 /\ far_apart l2 /\
  (forall x y, In x l1 -> In y l2 -> x + 8 <= y \/ y + 8 <= x).
Proof.
  induction l1 as [|q r IH]; cbn [app far_apart].
  - split; [intros H; repeat split; trivial; intros x y []|tauto].
  - rewrite IH. split.
    + intros (Hq & Hr & H2 & Hx). repeat split; trivial.
      * intros p Hp. apply Hq. apply in_or_app. left. exact Hp.
      * intros x y [<-|Hx'] Hy.
        -- destruct (Hq y); [apply in_or_app; right; exact Hy| |]; lia.
        -- apply Hx; assumption.
    + intros ((Hq & Hr) & H2 & Hx). repeat split; trivial.
      * intros p Hp. apply in_app_or in Hp. destruct Hp as [Hp|Hp].
        -- apply Hq, Hp.
        -- destruct (Hx q p); [left; reflexivity|exact Hp| |]; lia.
      * intros x y Hx' Hy. apply Hx; [right; exact Hx'|exact Hy].
Qed.

Lemma far_apart_mid (l1 l2 : list Z) (x : Z) :
  far_apart (l1 ++ x :: l2) ->
  far_apart (l1 ++ l2) /\
  (forall p, In p (l1 ++ l2) -> p + 8 <= x \/ x + 8 <= p).
Proof.
  intros H. apply far_apart_app in H. destruct H as (H1 & [Hx H2] & Hc).
  split.
  - apply far_apart_app. repeat split; trivial.
    intros a b Ha Hb. apply Hc; [exact Ha|right; exact Hb].
  - intros p Hp. apply in_app_or in Hp. destruct Hp as [Hp|Hp].
    + apply Hc; [exact Hp|left; reflexivity].
    + apply Hx, Hp.
Qed.

Lemma far_apart_NoDup (l : list Z) : far_apart l -> NoDup l.
Proof.
  induction l as [|q r IH]; intros H; constructor.
  - intros Hin. destruct H as [H _]. specialize (H _ Hin). lia.
  - apply IH, H.
Qed.

Lemma far_apart_perm (l l' : list Z) :
  Permutation l l' -> far_apart l -> far_apart l'.
Proof.
  induction 1 as [|x l l' HP IH|x y l|l l' l'' HP1 IH1 HP2 IH2]; intros H.
  - exact I.
  - destruct H as [Hx H]. split; [|apply IH, H].
    intros p Hp. apply Hx. eapply Permutation_in; [apply Permutation_sym|]; eassumption.
  - destruct H as [Hy [Hx H]]. repeat split; trivial.
    + intros p [<-|Hp]; [|apply Hx, Hp].
      destruct (Hy x); [left; reflexivity| |]; lia.
    + intros p Hp. apply Hy. right. exact Hp.
  - apply IH2, IH1, H.
Qed.

Lemma nodes_ok_mid (s : state Z) (l1 l2 : list Z) (q : Z) :
  nodes_ok s (l1 ++ q :: l2) ->
  nodes_ok s (l1 ++ l2) /\ node_ok s q /\
  (forall p, In p (l1 ++ l2) -> p + 8 <= q \/ q + 8 <= p).
Proof.
  intros (Hall & Hfar).
  destruct (far_apart_mid _ _ _ Hfar) as (Hfar' & Hq).
  apply Forall_app in Hall. destruct Hall as [H1 H2].
  inversion H2; subst.
  split; [split; [apply Forall_app; split|]|split]; assumption.
Qed.

Lemma nodes_ok_cons (s : state Z) (l : list Z) (q : Z) :
  nodes_ok s l -> node_ok s q ->
  (forall p, In p l -> p + 8 <= q \/ q + 8 <= p) ->
  nodes_ok s (q :: l).
Proof.
  intros (Hall & Hsp) Hq Hfar. split.
  - constructor; trivial.
  - split; trivial.
Qed.

Lemma nodes_ok_perm (s : state Z) (l l' : list Z) :
  Permutation l l' -> nodes_ok s l -> nodes_ok s l'.
Proof.
  intros HP (Hall & Hsp). split.
  - eapply Permutation_Forall; eassumption.
  - eapply far_apart_perm; eassumption.
Qed.

Lemma nodes_ok_in (s : state Z) (l : list Z) (q : Z) :
  nodes_ok s l -> In q l -> node_ok s q.
Proof. intros (Hall & _) Hq. rewrite Forall_forall in Hall. auto. Qed.

Lemma nodes_ok_head (s : state Z) (l : list Z) :
  nodes_ok s l -> hd 0 l = 0 \/ node_ok s (hd 0 l).
Proof.
  intros (Hall & _). destruct l as [|q r]; [left; reflexivity|right].
  inversion Hall; assumption.
Qed.

Lemma enc_node (s : state Z) (q : Z) :
  q = 0 \/ node_ok s q -> 0 <= enc (heap_ptr s) q < W32.
Proof.
  intros [->|(? & ? & ? & _)]; apply enc_range; [left; reflexivity|right; lia].
Qed.

Lemma dec_enc_node (s : state Z) (q : Z) :
  q = 0 \/ node_ok s q -> dec (heap_ptr s) (enc (heap_ptr s) q) = q.
Proof.
  intros [->|(? & ? & _)]; apply dec_enc; [left; reflexivity|right; lia].
Qed.

(** ** [_delete_free_block] unlinks a node *)

Lemma delete_spec (s : state Z) (f1 f2 : list Z) (q : Z) :
  nodes_ok s (f1 ++ q :: f2) ->
  dllseg (mem s) (heap_ptr s) 0 (f1 ++ q :: f2) 0 ->
  free_blks s = hd 0 (f1 ++ q :: f2) ->
  exists m',
    Mm._delete_free_block q s
    = Done tt (set_free_blks (set_mem s m') (hd 0 (f1 ++ f2))) /\
    dllseg m' (heap_ptr s) 0 (f1 ++ f2) 0 /\
    (forall y, (forall p, In p (f1 ++ f2) -> y < p \/ p + 8 <= y) ->
               m' y = mem s y).
Proof.
  intros Hok Hdll Hfb.
  destruct (nodes_ok_mid _ _ _ _ Hok) as (Hok' & Hq & Hfar).
  apply dllseg_app in Hdll. destruct Hdll as [Hd1 Hd2].
  cbn [dllseg hd] in Hd1, Hd2. destruct Hd2 as (Hq1 & Hq2 & Hd2).
  assert (Hqb : inb s q /\ inb s (q + 4)) by (unfold inb; destruct Hq; lia).
  assert (Hq0 : (q =? NULL) = false) by (apply Z.eqb_neq; destruct Hq; unfold NULL; lia).
  assert (Hsucc : hd 0 f2 = 0 \/ node_ok s (hd 0 f2)).
  { destruct f2 as [|n r]; [left; reflexivity|right].
    apply (nodes_ok_in s _ _ Hok'). apply in_or_app. right. left. reflexivity. }
  unfold Mm._delete_free_block. rewrite Hq0.
  rstep ltac:(apply SUCC_FREE_ok; apply Hqb).
  rewrite Hq2, (dec_enc_node s) by exact Hsucc.
  rstep ltac:(reflexivity).
  rewrite Hfb.
  destruct (list_nil_or_last f1) as [->|(l & p & ->)].
  - (* the node is the head *)
    cbn [app hd]. rewrite Z.eqb_refl.
    destruct f2 as [|n r]; cbn [hd app] in *.
    + exists (mem s). repeat split; trivial.
    + destruct Hsucc as [Hn|Hn];
        [pose proof (nodes_ok_in s _ n Hok' (or_introl eq_refl)) as Hn';
         destruct Hn'; lia|].
      assert (Hn0 : (n =? NULL) = false)
        by (apply Z.eqb_neq; destruct Hn; unfold NULL; lia).
      rewrite Hn0.
      exists (wr (mem s) n (enc (heap_ptr s) 0)).
      destruct Hok' as (_ & Hnr & _).
      split; [|split].
      * rstep ltac:(reflexivity).
        rewrite SET_PRED_FREE_ok by (unfold inb; norm; destruct Hn; lia).
        reflexivity.
      * cbn [dllseg] in Hd2 |- *. destruct Hd2 as (Hn1 & Hn2 & Hd3).
        split; [|split].
        -- apply rd_wr_same_small. apply (enc_node s). left; reflexivity.
        -- rewrite rd_wr_other by lia. exact Hn2.
        -- eapply dllseg_frame; [|exact Hd3].
           intros q' y Hq' Hy. apply wr_other_byte.
           specialize (Hnr _ Hq'). lia.
      * intros y Hy. apply wr_other_byte.
        destruct (Hy n) as [H|H]; [left; reflexivity| |]; lia.
  - (* the node has a predecessor [p] *)
    rewrite last_snoc in Hq1.
    assert (Hp : node_ok s p).
    { apply (nodes_ok_in s _ _ Hok'). apply in_or_app. left.
      apply in_or_app. right. left. reflexivity. }
    assert (Hqp : p + 8 <= q \/ q + 8 <= p).
    { apply Hfar. apply in_or_app. left. apply in_or_app. right. left. reflexivity. }
    assert (Hhd' : hd 0 ((l ++ [p]) ++ q :: f2) = hd 0 ((l ++ [p]) ++ f2))
      by (destruct l; reflexivity).
    assert (Hhd : hd 0 ((l ++ [p]) ++ q :: f2) <> q).
    { rewrite Hhd'. intros E.
      destruct (Hfar q); [|lia|lia]. rewrite <- E at 1.
      destruct l; cbn; auto. }
    apply Z.eqb_neq in Hhd. rewrite Hhd.
    rstep ltac:(apply PRED_FREE_ok; apply Hqb).
    rewrite Hq1, (dec_enc_node s) by (right; exact Hp).
    assert (Hpfar : forall x, In x (l ++ f2) -> x + 8 <= p \/ p + 8 <= x).
    { apply (nodes_ok_mid s l f2 p). rewrite <- app_assoc in Hok'. exact Hok'. }
    apply dllseg_app in Hd1. destruct Hd1 as [Hdl Hdp].
    cbn [dllseg hd] in Hdp. destruct Hdp as (Hp1 & Hp2 & _).
    destruct f2 as [|n r]; cbn [hd] in *.
    + change (0 =? NULL) with true. cbv iota.
      exists (wr (mem s) (p + 4) (enc (heap_ptr s) 0)).
      split; [|split].
      * rewrite SET_SUCC_FREE_ok by (unfold inb; destruct Hp; lia).
        unfold set_free_blks, set_mem; norm. rewrite Hfb, Hhd'. reflexivity.
      * rewrite app_nil_r. apply dllseg_app. split.
        -- eapply dllseg_frame; [|exact Hdl].
           intros q' y Hq' Hy. apply wr_other_byte.
           specialize (Hpfar q'). rewrite app_nil_r in Hpfar.
           specialize (Hpfar Hq'). lia.
        -- cbn [dllseg hd]. repeat split.
           ++ rewrite rd_wr_other by lia. exact Hp1.
           ++ apply rd_wr_same_small. apply (enc_node s). left; reflexivity.
      * intros y Hy. apply wr_other_byte.
        destruct (Hy p) as [H|H]; [|lia|lia].
        apply in_or_app. left. apply in_or_app. right. left. reflexivity.
    + destruct Hsucc as [Hn|Hn];
        [assert (Hn' : node_ok s n)
           by (apply (nodes_ok_in s _ _ Hok'); apply in_or_app; right; left; reflexivity);
         destruct Hn'; lia|].
      assert (Hn0 : (n =? NULL) = false)
        by (apply Z.eqb_neq; destruct Hn; unfold NULL; lia).
      rewrite Hn0.
      assert (Hnfar : forall x, In x ((l ++ [p]) ++ r) -> x + 8 <= n \/ n + 8 <= x).
      { apply (nodes_ok_mid s (l ++ [p]) r n). exact Hok'. }
      assert (Hpn : p + 8 <= n \/ n + 8 <= p).
      { destruct (Hpfar n) as [H|H]; [apply in_or_app; right; left; reflexivity| |]; lia. }
      exists (wr (wr (mem s) (p + 4) (enc (heap_ptr s) n)) n (enc (heap_ptr s) p)).
      cbn [dllseg] in Hd2. destruct Hd2 as (Hn1 & Hn2 & Hd3).
      split; [|split].
      * rstep ltac:(apply SET_SUCC_FREE_ok; unfold inb; destruct Hp; lia).
        rewrite SET_PRED_FREE_ok by (unfold inb; norm; destruct Hn; lia).
        unfold set_free_blks, set_mem; norm. rewrite Hfb, Hhd'. reflexivity.
      * apply dllseg_app. split; [apply dllseg_app; split|].
        -- eapply dllseg_frame; [|exact Hdl].
           intros q' y Hq' Hy. rewrite !wr_other_byte; trivial.
           ++ destruct (Hpfar q'); [apply in_or_app; left; exact Hq'| |]; lia.
           ++ destruct (Hnfar q');
                [apply in_or_app; left; apply in_or_app; left; exact Hq'| |]; lia.
        -- cbn [dllseg hd]. repeat split.
           ++ rewrite !rd_wr_other by lia. exact Hp1.
           ++ rewrite rd_wr_other by lia.
              apply rd_wr_same_small. apply (enc_node s). right; exact Hn.
        -- rewrite last_snoc. cbn [dllseg]. split; [|split].
           ++ apply rd_wr_same_small. apply (enc_node s). right; exact Hp.
           ++ rewrite !rd_wr_other by lia. exact Hn2.
           ++ eapply dllseg_frame; [|exact Hd3].
              intros q' y Hq' Hy. rewrite !wr_other_byte; trivial.
              ** destruct (Hpfar q'); [apply in_or_app; right; right; exact Hq'| |]; lia.
              ** destruct (Hnfar q'); [apply in_or_app; right; exact Hq'| |]; lia.
      * intros y Hy. rewrite !wr_other_byte; trivial.
        -- destruct (Hy p) as [H|H]; [|lia|lia].
           apply in_or_app. left. apply in_or_app. right. left. reflexivity.
        -- destruct (Hy n) as [H|H]; [|lia|lia].
           apply in_or_app. right. left. reflexivity.
Qed.

(** ** [_insert_free_block] pushes a node at the head *)

Lemma insert_spec (s : state Z) (fl : list Z) (q : Z) :
  nodes_ok s (q :: fl) ->
  dllseg (mem s) (heap_ptr s) 0 fl 0 ->
  free_blks s = hd 0 fl ->
  exists m',
    Mm._insert_free_block q s = Done tt (set_free_blks (set_mem s m') q) /\
    dllseg m' (heap_ptr s) 0 (q :: fl) 0 /\
    (forall y, (forall p, In p (q :: fl) -> y < p \/ p + 8 <= y) ->
               m' y = mem s y).
Proof.
  intros Hok Hdll Hfb.
  destruct (nodes_ok_mid s [] fl q Hok) as (Hok' & Hq & Hfar).
  cbn [app] in Hok', Hfar.
  assert (Hq0 : (q =? NULL) = false)
    by (apply Z.eqb_neq; destruct Hq; unfold NULL; lia).
  unfold Mm._insert_free_block. rewrite Hq0.
  rstep ltac:(reflexivity). rewrite Hfb.
  destruct fl as [|n r]; cbn [hd].
  - change (0 =? NULL) with true. cbv iota.
    exists (wr (wr (mem s) q (enc (heap_ptr s) 0)) (q + 4) (enc (heap_ptr s) 0)).
    split; [|split].
    + rstep ltac:(reflexivity).
      rstep ltac:(apply SET_PRED_FREE_ok; unfold inb; norm; destruct Hq; lia).
      rewrite SET_SUCC_FREE_ok by (unfold inb; norm; destruct Hq; lia).
      reflexivity.
    + cbn [dllseg hd]. repeat split.
      * rewrite rd_wr_other by lia. apply rd_wr_same_small.
        apply (enc_node s). left; reflexivity.
      * apply rd_wr_same_small. apply (enc_node s). left; reflexivity.
    + intros y Hy. destruct (Hy q (or_introl eq_refl)).
      * rewrite !wr_other_byte by lia. reflexivity.
      * rewrite !wr_other_byte by lia. reflexivity.
  - assert (Hn : node_ok s n) by (apply (nodes_ok_in s _ _ Hok'); left; reflexivity).
    assert (Hn0 : (n =? NULL) = false)
      by (apply Z.eqb_neq; destruct Hn; unfold NULL; lia).
    rewrite Hn0.
    assert (Hqn : n + 8 <= q \/ q + 8 <= n) by (apply Hfar; left; reflexivity).
    exists (wr (wr (wr (mem s) (q + 4) (enc (heap_ptr s) n)) n (enc (heap_ptr s) q))
              q (enc (heap_ptr s) 0)).
    destruct Hok' as (_ & Hnr & _).
    cbn [dllseg] in Hdll. destruct Hdll as (Hn1 & Hn2 & Hd3).
    split; [|split].
    + rstep ltac:(apply SET_SUCC_FREE_ok; unfold inb; norm; destruct Hq; lia).
      rstep ltac:(apply SET_PRED_FREE_ok; unfold inb; norm; destruct Hn; lia).
      rstep ltac:(reflexivity).
      rewrite SET_PRED_FREE_ok by (unfold inb; norm; destruct Hq; lia).
      reflexivity.
    + cbn [dllseg hd]. repeat split.
      * apply rd_wr_same_small. apply (enc_node s). left; reflexivity.
      * rewrite !rd_wr_other by lia. apply rd_wr_same_small.
        apply (enc_node s). right; exact Hn.
      * rewrite rd_wr_other by lia. apply rd_wr_same_small.
        apply (enc_node s). right; exact Hq.
      * rewrite !rd_wr_other by lia. exact Hn2.
      * eapply dllseg_frame; [|exact Hd3].
        intros q' y Hq' Hy. rewrite !wr_other_byte; trivial.
        -- destruct (Hfar q'); [right; exact Hq'| |]; lia.
        -- destruct (Hnr q' Hq'); lia.
        -- destruct (Hfar q'); [right; exact Hq'| |]; lia.
    + intros y Hy.
      destruct (Hy q (or_introl eq_refl)), (Hy n (or_intror (or_introl eq_refl)));
        rewrite !wr_other_byte by lia; reflexivity.
Qed.

Lemma first_hdr_set_mem (s : state Z) (m : memory) :
  first_hdr (set_mem s m) = first_hdr s.
Proof. reflexivity. Qed.

Lemma first_hdr_set_free_blks (s : state Z) (f : Z) :
  first_hdr (set_free_blks s f) = first_hdr s.
Proof. reflexivity. Qed.

Lemma first_hdr_set_heap_end (s : state Z) (e : Z) :
  first_hdr (set_heap_end s e) = first_hdr s.
Proof. reflexivity. Qed.

Lemma first_hdr_set_brk (s : state Z) (b : Z) :
  first_hdr (set_brk s b) = first_hdr s.
Proof. reflexivity. Qed.

Ltac norm ::=
  repeat rewrite ?first_hdr_set_mem, ?first_hdr_set_free_blks,
    ?first_hdr_set_heap_end, ?first_hdr_set_brk in *;
  cbn [mem mem_lo mem_brk mem_max heap_ptr heap_end free_blks
       set_mem set_brk set_heap_ptr set_heap_end set_free_blks] in *.

Lemma free_ptrs_far (a : Z) (bs : list block) :
  sizes_ok bs -> far_apart (free_ptrs a bs).
Proof.
  intros Hs.
  assert (H : forall l1 l2, free_ptrs a bs = l1 ++ l2 -> far_apart l2).
  { intros l1 l2; revert l1; induction l2 as [|q r IH]; intros l1 E.
    - exact I.
    - split.
      + intros p Hp. right.
        pose proof (free_ptrs_sorted a bs Hs l1 q r E p Hp). lia.
      + apply (IH (l1 ++ [q])). rewrite <- app_assoc. exact E. }
  apply (H []). reflexivity.
Qed.

Lemma free_ptrs_nodes (s : state Z) (bs : list block) :
  scalars_ok s (total bs) -> sizes_ok bs ->
  nodes_ok s (free_ptrs (first_hdr s) bs).
Proof.
  intros (Hlo & Hhp & Hend & Hbrk & Hmax & H32) Hs. split.
  - apply Forall_forall. intros q Hq.
    pose proof (free_ptrs_range _ _ _ Hs Hq) as (? & ? & _).
    unfold node_ok, first_hdr in *. lia.
  - apply free_ptrs_far, Hs.
Qed.

Lemma W_nodes (s : state Z) (bs : list block) (fl : list Z) :
  W s bs fl -> nodes_ok s fl.
Proof.
  intros (Hsc & Hb & _ & _ & _ & HP).
  eapply nodes_ok_perm; [apply Permutation_sym; exact HP|].
  apply free_ptrs_nodes; [exact Hsc|eapply blocks_sizes; exact Hb].
Qed.

Lemma W_sizes (s : state Z) (bs : list block) (fl : list Z) :
  W s bs fl -> sizes_ok bs.
Proof. intros (_ & Hb & _). eapply blocks_sizes; exact Hb. Qed.

(** Changing memory outside metadata and link words keeps [W]. *)
Lemma W_frame (s : state Z) (bs : list block) (fl : list Z) (m' : memory) :
  W s bs fl ->
  (forall y, meta (first_hdr s) bs y -> m' y = mem s y) ->
  (forall y, in_links (first_hdr s) bs y -> m' y = mem s y) ->
  (forall y, heap_end s <= y < heap_end s + 4 -> m' y = mem s y) ->
  W (set_mem s m') bs fl.
Proof.
  intros (Hsc & Hb & He & Hd & Hh & HP) Hm Hl Hep.
  split; [exact Hsc|]. norm.
  split; [|split; [|split; [|split]]]; trivial.
  - eapply blocks_frame; [|exact Hb]. exact Hm.
  - rewrite <- He. apply rd_ext. exact Hep.
  - eapply dllseg_frame; [|exact Hd].
    intros q y Hq Hy. apply Hl. exists q. split; [|exact Hy].
    eapply Permutation_in; eassumption.
Qed.

(** A write inside a block in limbo keeps [W]. *)
Lemma W_write_limbo (s : state Z) (l1 l2 : list block) (sz : Z) (nb : bool)
      (fl : list Z) (x v : Z) :
  W s (l1 ++ (sz, Limbo nb) :: l2) fl ->
  first_hdr s + total l1 <= x -> x + 4 <= first_hdr s + total l1 + sz ->
  W (set_mem s (wr (mem s) x v)) (l1 ++ (sz, Limbo nb) :: l2) fl.
Proof.
  intros HW Hx1 Hx2. pose proof (W_sizes _ _ _ HW) as Hs.
  assert (Hlim : forall y, x <= y < x + 4 ->
                           in_limbo (first_hdr s) (l1 ++ (sz, Limbo nb) :: l2) y).
  { intros y Hy. apply in_limbo_mid. lia. }
  apply W_frame; trivial.
  - intros y Hy. apply wr_other_byte.
    destruct (Z_lt_dec y x); [lia|]. destruct (Z_le_dec (x + 4) y); [lia|].
    exfalso. eapply limbo_not_meta; [exact Hs|apply Hlim|exact Hy]. lia.
  - intros y Hy. apply wr_other_byte.
    destruct (Z_lt_dec y x); [lia|]. destruct (Z_le_dec (x + 4) y); [lia|].
    exfalso. eapply limbo_not_links; [exact Hs|apply Hlim|exact Hy]. lia.
  - intros y Hy. apply wr_other_byte.
    destruct HW as ((_ & _ & Hend & _) & _).
    rewrite total_app in Hend. simpl in Hend.
    apply sizes_ok_app in Hs. destruct Hs as [_ Hs].
    apply sizes_ok_cons in Hs. destruct Hs as [_ Hs].
    pose proof (total_nonneg _ Hs). unfold first_hdr in *. lia.
Qed.

(** ** Status changes that leave memory alone *)

Lemma blocks_mid (m : memory) (a : Z) (pa : bool) (l1 l2 : list block)
      (sz : Z) (t : status) :
  blocks m a pa (l1 ++ (sz, t) :: l2) <->
  blocks m a pa l1 /\
  (16 <= sz /\ sz mod 8 = 0) /\
  match t with
  | Allocated => rd m (a + total l1) = hdr sz (tail_pa pa l1) true
  | Free => rd m (a + total l1) = hdr sz (tail_pa pa l1) false /\
            rd m (a + total l1 + sz - 4) = sz
  | Limbo _ => True
  end /\
  blocks m (a + total l1 + sz) (next_pa t) l2.
Proof. rewrite blocks_app. simpl. tauto. Qed.

Lemma tail_pa_mid (pa : bool) (l1 l2 : list block) (sz : Z) (t : status) :
  tail_pa pa (l1 ++ (sz, t) :: l2) = tail_pa (next_pa t) l2.
Proof. rewrite tail_pa_app. reflexivity. Qed.

Lemma total_mid (l1 l2 : list block) (sz : Z) (t : status) :
  total (l1 ++ (sz, t) :: l2) = total l1 + sz + total l2.
Proof. rewrite total_app. simpl. lia. Qed.

Lemma free_ptrs_mid_other (a : Z) (l1 l2 : list block) (sz : Z) (t : status) :
  t <> Free ->
  free_ptrs a (l1 ++ (sz, t) :: l2)
  = free_ptrs a l1 ++ free_ptrs (a + total l1 + sz) l2.
Proof.
  intros Ht. rewrite free_ptrs_app. simpl.
  destruct t; try congruence; reflexivity.
Qed.

Lemma free_ptrs_mid_free (a : Z) (l1 l2 : list block) (sz : Z) :
  free_ptrs a (l1 ++ (sz, Free) :: l2)
  = free_ptrs a l1 ++ (a + total l1 + 4) :: free_ptrs (a + total l1 + sz) l2.
Proof. rewrite free_ptrs_app. reflexivity. Qed.

Lemma alloc_ptrs_mid_other (a : Z) (l1 l2 : list block) (sz : Z) (t : status) :
  t <> Allocated ->
  alloc_ptrs a (l1 ++ (sz, t) :: l2)
  = alloc_ptrs a l1 ++ alloc_ptrs (a + total l1 + sz) l2.
Proof.
  intros Ht. rewrite alloc_ptrs_app. simpl.
  destruct t; try congruence; reflexivity.
Qed.

Lemma alloc_ptrs_mid_alloc (a : Z) (l1 l2 : list block) (sz : Z) :
  alloc_ptrs a (l1 ++ (sz, Allocated) :: l2)
  = alloc_ptrs a l1 ++ (a + total l1 + 4) :: alloc_ptrs (a + total l1 + sz) l2.
Proof. rewrite alloc_ptrs_app. reflexivity. Qed.

Lemma alloc_blocks_mid_other (a : Z) (l1 l2 : list block) (sz : Z) (t : status) :
  t <> Allocated ->
  alloc_blocks a (l1 ++ (sz, t) :: l2)
  = alloc_blocks a l1 ++ alloc_blocks (a + total l1 + sz) l2.
Proof.
  intros Ht. rewrite alloc_blocks_app. simpl.
  destruct t; try congruence; reflexivity.
Qed.

Lemma alloc_blocks_mid_alloc (a : Z) (l1 l2 : list block) (sz : Z) :
  alloc_blocks a (l1 ++ (sz, Allocated) :: l2)
  = alloc_blocks a l1 ++ (a + total l1 + 4, sz) :: alloc_blocks (a + total l1 + sz) l2.
Proof. rewrite alloc_blocks_app. reflexivity. Qed.

Lemma in_payload_mid_other (a : Z) (l1 l2 : list block) (sz : Z) (t : status) (y : Z) :
  t <> Allocated ->
  in_payload a (l1 ++ (sz, t) :: l2) y <->
  in_payload a l1 y \/ in_payload (a + total l1 + sz) l2 y.
Proof.
  intros Ht. rewrite in_payload_app. simpl. intuition congruence.
Qed.

Lemma in_links_mid_other (a : Z) (l1 l2 : list block) (sz : Z) (t : status) (y : Z) :
  t <> Free ->
  in_links a (l1 ++ (sz, t) :: l2) y <->
  in_links a l1 y \/ in_links (a + total l1 + sz) l2 y.
Proof.
  intros Ht. rewrite in_links_app, in_links_cons. intuition congruence.
Qed.

(** An allocated block may be put in limbo, and a block in limbo whose
    header is in place may be declared allocated. *)
Lemma W_forget_alloc (s : state Z) (l1 l2 : list block) (sz : Z) (fl : list Z) :
  W s (l1 ++ (sz, Allocated) :: l2) fl ->
  W s (l1 ++ (sz, Limbo true) :: l2) fl.
Proof.
  intros (Hsc & Hb & He & Hd & Hh & HP).
  rewrite total_mid in Hsc. rewrite tail_pa_mid in He.
  rewrite free_ptrs_mid_other in HP by discriminate.
  apply blocks_mid in Hb.
  split; [rewrite total_mid; exact Hsc|].
  split; [apply blocks_mid; tauto|].
  split; [rewrite tail_pa_mid; exact He|].
  rewrite free_ptrs_mid_other by discriminate. tauto.
Qed.

Lemma W_claim (s : state Z) (l1 l2 : list block) (sz : Z) (fl : list Z) :
  W s (l1 ++ (sz, Limbo true) :: l2) fl ->
  rd (mem s) (first_hdr s + total l1) = hdr sz (tail_pa true l1) true ->
  W s (l1 ++ (sz, Allocated) :: l2) fl.
Proof.
  intros (Hsc & Hb & He & Hd & Hh & HP) Hhdr.
  rewrite total_mid in Hsc. rewrite tail_pa_mid in He.
  rewrite free_ptrs_mid_other in HP by discriminate.
  apply blocks_mid in Hb.
  split; [rewrite total_mid; exact Hsc|].
  split; [apply blocks_mid; tauto|].
  split; [rewrite tail_pa_mid; exact He|].
  rewrite free_ptrs_mid_other by discriminate. tauto.
Qed.

(** Two neighbours in limbo are one block in limbo, and conversely. *)
Lemma W_join (s : state Z) (l1 l2 : list block) (n1 n2 : Z) (b1 b2 : bool)
      (fl : list Z) :
  W s (l1 ++ (n1, Limbo b1) :: (n2, Limbo b2) :: l2) fl ->
  W s (l1 ++ (n1 + n2, Limbo b2) :: l2) fl.
Proof.
  intros (Hsc & Hb & He & Hd & Hh & HP).
  rewrite total_mid in Hsc. rewrite tail_pa_mid in He.
  rewrite free_ptrs_mid_other in HP by discriminate.
  apply blocks_mid in Hb. simpl in *.
  destruct Hb as (Hb1 & [? ?] & _ & [? ?] & _ & Hb2).
  split; [rewrite total_mid; replace (total l1 + (n1 + n2) + total l2)
            with (total l1 + n1 + (n2 + total l2)) by lia; exact Hsc|].
  split; [apply blocks_mid; repeat split; trivial; try lia|].
  - rewrite Z.add_mod, H0, H2 by lia. reflexivity.
  - replace (first_hdr s + total l1 + (n1 + n2))
      with (first_hdr s + total l1 + n1 + n2) by lia. exact Hb2.
  - split; [rewrite tail_pa_mid; exact He|].
    rewrite free_ptrs_mid_other by discriminate.
    replace (first_hdr s + total l1 + (n1 + n2))
      with (first_hdr s + total l1 + n1 + n2) by lia. tauto.
Qed.

Lemma W_split (s : state Z) (l1 l2 : list block) (n n1 : Z) (b b1 : bool)
      (fl : list Z) :
  W s (l1 ++ (n, Limbo b) :: l2) fl ->
  16 <= n1 -> n1 mod 8 = 0 -> 16 <= n - n1 ->
  W s (l1 ++ (n1, Limbo b1) :: (n - n1, Limbo b) :: l2) fl.
Proof.
  intros (Hsc & Hb & He & Hd & Hh & HP) H1 H2 H3.
  rewrite total_mid in Hsc. rewrite tail_pa_mid in He.
  rewrite free_ptrs_mid_other in HP by discriminate.
  apply blocks_mid in Hb. simpl in *.
  destruct Hb as (Hb1 & [? Hn] & _ & Hb2).
  assert (Hm : (n - n1) mod 8 = 0).
  { rewrite Zminus_mod, Hn, H2. reflexivity. }
  split; [rewrite total_mid; simpl;
          replace (total l1 + n1 + (n - n1 + total l2))
            with (total l1 + n + total l2) by lia; exact Hsc|].
  split; [apply blocks_mid; simpl; repeat split; trivial|].
  - replace (first_hdr s + total l1 + n1 + (n - n1))
      with (first_hdr s + total l1 + n) by lia. exact Hb2.
  - split; [rewrite tail_pa_mid; exact He|].
    rewrite free_ptrs_mid_other by discriminate. simpl.
    replace (first_hdr s + total l1 + n1 + (n - n1))
      with (first_hdr s + total l1 + n) by lia. tauto.
Qed.

(** ** Taking a free block off the list *)

Lemma W_unlist (s : state Z) (l1 l2 : list block) (sz : Z) (fl : list Z) :
  W s (l1 ++ (sz, Free) :: l2) fl ->
  exists m' fl',
    Mm._delete_free_block (first_hdr s + total l1 + 4) s
    = Done tt (set_free_blks (set_mem s m') (hd 0 fl')) /\
    W (set_free_blks (set_mem s m') (hd 0 fl'))
      (l1 ++ (sz, Limbo false) :: l2) fl' /\
    links_frame s (l1 ++ (sz, Limbo false) :: l2) m'.
Proof.
  intros HW. pose proof (W_nodes _ _ _ HW) as Hnodes.
  pose proof (W_sizes _ _ _ HW) as Hsz.
  destruct HW as (Hsc & Hb & He & Hd & Hh & HP).
  set (a := first_hdr s) in *. set (q := a + total l1 + 4).
  rewrite free_ptrs_mid_free in HP. fold q in HP.
  assert (Hin : In q fl).
  { eapply Permutation_in; [apply Permutation_sym; exact HP|].
    apply in_or_app. right. left. reflexivity. }
  destruct (in_split _ _ Hin) as (f1 & f2 & ->).
  destruct (delete_spec s f1 f2 q Hnodes Hd Hh) as (m' & Hrun & Hd' & Hfr).
  apply Permutation_app_inv in HP.
  assert (Hsz' : sizes_ok (l1 ++ (sz, Limbo false) :: l2)).
  { apply sizes_ok_app in Hsz. destruct Hsz as [Hs1 Hs2].
    apply sizes_ok_cons in Hs2. apply sizes_ok_app. split; trivial.
    apply sizes_ok_cons. exact Hs2. }
  assert (Hframe : links_frame s (l1 ++ (sz, Limbo false) :: l2) m').
  { intros y Hy. apply Hfr. intros p Hp.
    destruct (Z_lt_dec y p); [left; assumption|].
    destruct (Z_le_dec (p + 8) y); [right; assumption|].
    exfalso. apply Hy. exists p. split; [|lia].
    rewrite free_ptrs_mid_other by discriminate.
    eapply Permutation_in; eassumption. }
  exists m', (f1 ++ f2). split; [exact Hrun|]. split; [|exact Hframe].
  split; [rewrite total_mid in *; exact Hsc|]. norm.
  split; [|split; [|split; [|split]]].
  - eapply blocks_frame.
    + intros y Hy. apply Hframe. eapply meta_not_links; eassumption.
    + apply blocks_mid in Hb. apply blocks_mid. tauto.
  - rewrite tail_pa_mid in *. simpl next_pa in *.
    rewrite <- He. apply rd_ext. intros y Hy.
    apply Hframe. intros Hl. apply in_links_range in Hl; trivial.
    destruct Hsc as (_ & _ & Hend & _). rewrite total_mid in *.
    fold a in Hl. unfold a, first_hdr in *. lia.
  - exact Hd'.
  - reflexivity.
  - rewrite free_ptrs_mid_other by discriminate. exact HP.
Qed.

(** ** Putting a block in limbo on the list *)

Lemma W_list (s : state Z) (l1 l2 : list block) (sz : Z) (fl : list Z) :
  W s (l1 ++ (sz, Limbo false) :: l2) fl ->
  rd (mem s) (first_hdr s + total l1) = hdr sz (tail_pa true l1) false ->
  rd (mem s) (first_hdr s + total l1 + sz - 4) = sz ->
  exists m',
    Mm._insert_free_block (first_hdr s + total l1 + 4) s
    = Done tt (set_free_blks (set_mem s m') (first_hdr s + total l1 + 4)) /\
    W (set_free_blks (set_mem s m') (first_hdr s + total l1 + 4))
      (l1 ++ (sz, Free) :: l2) ((first_hdr s + total l1 + 4) :: fl) /\
    links_frame s (l1 ++ (sz, Free) :: l2) m'.
Proof.
  intros HW Hhdr Hftr.
  pose proof (W_sizes _ _ _ HW) as Hsz.
  destruct HW as (Hsc & Hb & He & Hd & Hh & HP).
  set (a := first_hdr s) in *. set (q := a + total l1 + 4).
  rewrite free_ptrs_mid_other in HP by discriminate.
  assert (Hsz' : sizes_ok (l1 ++ (sz, Free) :: l2)).
  { apply sizes_ok_app in Hsz. destruct Hsz as [Hs1 Hs2].
    apply sizes_ok_cons in Hs2. apply sizes_ok_app. split; trivial.
    apply sizes_ok_cons. exact Hs2. }
  assert (HP' : Permutation (q :: fl) (free_ptrs a (l1 ++ (sz, Free) :: l2))).
  { rewrite free_ptrs_mid_free. apply Permutation_cons_app. exact HP. }
  assert (Hsc' : scalars_ok s (total (l1 ++ (sz, Free) :: l2)))
    by (rewrite total_mid in *; exact Hsc).
  assert (Hnodes : nodes_ok s (q :: fl)).
  { eapply nodes_ok_perm; [apply Permutation_sym; exact HP'|].
    apply free_ptrs_nodes; assumption. }
  destruct (insert_spec s fl q Hnodes Hd Hh) as (m' & Hrun & Hd' & Hfr).
  assert (Hframe : links_frame s (l1 ++ (sz, Free) :: l2) m').
  { intros y Hy. apply Hfr. intros p Hp.
    destruct (Z_lt_dec y p); [left; assumption|].
    destruct (Z_le_dec (p + 8) y); [right; assumption|].
    exfalso. apply Hy. exists p. split; [|lia].
    eapply Permutation_in; eassumption. }
  exists m'. split; [exact Hrun|]. split; [|exact Hframe].
  split; [exact Hsc'|]. norm.
  split; [|split; [|split; [|split]]].
  - eapply blocks_frame.
    + intros y Hy. apply Hframe. eapply meta_not_links; eassumption.
    + apply blocks_mid in Hb. apply blocks_mid. tauto.
  - rewrite tail_pa_mid in *. simpl next_pa in *.
    rewrite <- He. apply rd_ext. intros y Hy.
    apply Hframe. intros Hl. apply in_links_range in Hl; trivial.
    destruct Hsc as (_ & _ & Hend & _). rewrite total_mid in *.
    fold a in Hl. unfold a, first_hdr in *. lia.
  - exact Hd'.
  - reflexivity.
  - exact HP'.
Qed.

Lemma hdr_fits (sz : Z) (pa al : bool) :
  0 <= sz -> sz + 8 <= W32 -> 0 <= hdr sz pa al < W32.
Proof. intros. pose proof (hdr_range sz pa al). lia. Qed.

Lemma W_bounds (s : state Z) (bs : list block) (fl : list Z) :
  W s bs fl ->
  0 <= total bs /\ mem_lo s + 24 + total bs = mem_brk s /\
  total bs + 24 < W32 /\ mem_brk s <= mem_max s.
Proof.
  intros HW. pose proof (W_sizes _ _ _ HW) as Hs.
  destruct HW as ((Hlo & Hhp & Hend & Hbrk & Hmax & H32) & _).
  pose proof (total_nonneg _ Hs). lia.
Qed.

Lemma sizes_ok_mid (l1 l2 : list block) (sz : Z) (t : status) :
  sizes_ok (l1 ++ (sz, t) :: l2) <->
  sizes_ok l1 /\ (16 <= sz /\ sz mod 8 = 0) /\ sizes_ok l2.
Proof. rewrite sizes_ok_app, sizes_ok_cons. tauto. Qed.

Lemma W_next_header (s : state Z) (l1 l2 : list block) (sz : Z) (nb : bool)
      (fl : list Z) :
  W s (l1 ++ (sz, Limbo nb) :: l2) fl -> head_settled l2 ->
  let x := first_hdr s + total l1 + sz in
  inb s x /\
  rd (mem s) x = hdr (head_size l2) nb (head_alloc l2) /\
  head_size l2 mod 8 = 0 /\ 0 <= head_size l2 /\ head_size l2 + 8 <= W32 /\
  forall nb',
    W (set_mem s (wr (mem s) x (hdr (head_size l2) nb' (head_alloc l2))))
      (l1 ++ (sz, Limbo nb') :: l2) fl.
Proof.
  intros HW Hset x.
  pose proof (W_sizes _ _ _ HW) as Hs.
  pose proof (W_bounds _ _ _ HW) as (Ht0 & Htb & Ht32 & Hmax).
  destruct HW as (Hsc & Hb & He & Hd & Hh & HP).
  pose proof Hsc as (Hlo & Hhp & Hend & Hbrk & _).
  rewrite total_mid in *. rewrite tail_pa_mid in He. simpl next_pa in He.
  apply sizes_ok_mid in Hs. destruct Hs as (Hs1 & [Hsz Hsz8] & Hs2).
  pose proof (total_nonneg _ Hs1) as Ht1. pose proof (total_nonneg _ Hs2) as Ht2.
  apply blocks_mid in Hb. destruct Hb as (Hb1 & _ & _ & Hb2).
  simpl next_pa in Hb2. fold x in Hb2.
  rewrite free_ptrs_mid_other in HP by discriminate. fold x in HP.
  assert (Hlinks : forall y, in_links (first_hdr s) (l1 ++ (sz, Limbo nb) :: l2) y ->
                             y < x \/ x + 4 <= y).
  { intros y Hy. apply in_links_mid_other in Hy; [|discriminate]. fold x in Hy.
    destruct Hy as [Hy|Hy].
    - apply in_links_range in Hy; trivial. unfold x. lia.
    - destruct l2 as [|[n t] r]; [destruct Hy as (? & [] & _)|].
      apply in_links_cons in Hy. destruct Hy as [[_ Hy]|Hy]; [lia|].
      apply sizes_ok_cons in Hs2. destruct Hs2 as [[? ?] Hs2].
      apply in_links_range in Hy; trivial. lia. }
  assert (Hdll : forall v, dllseg (wr (mem s) x v) (heap_ptr s) 0 fl 0).
  { intros v. eapply dllseg_frame; [|exact Hd].
    intros q y Hq Hy. apply wr_other_byte.
    apply Hlinks. exists q. split; [|exact Hy].
    rewrite free_ptrs_mid_other by discriminate.
    eapply Permutation_in; eassumption. }
  assert (Hb1' : forall v, blocks (wr (mem s) x v) (first_hdr s) true l1).
  { intros v. eapply blocks_frame; [|exact Hb1].
    intros y Hy. apply wr_other_byte. apply meta_range in Hy; trivial.
    unfold x. lia. }
  destruct l2 as [|[n t] r].
  - (* the epilogue *)
    simpl in *. assert (Hx : x = heap_end s) by (unfold x, first_hdr; lia).
    split; [unfold inb, x, first_hdr; lia|].
    split; [rewrite Hx; exact He|].
    split; [reflexivity|]. split; [lia|]. split; [unfold W32; lia|].
    intros nb'. split; [rewrite total_mid; exact Hsc|]. norm.
    split; [apply blocks_mid; repeat split; trivial; apply Hb1'|].
    split; [|split; [apply Hdll|split; trivial]].
    + rewrite tail_pa_mid. simpl. rewrite <- Hx.
      apply rd_wr_same_small. apply hdr_fits; unfold W32; lia.
    + rewrite free_ptrs_mid_other by discriminate. exact HP.
  - (* a settled block *)
    apply sizes_ok_cons in Hs2. destruct Hs2 as [[Hn Hn8] Hsr].
    pose proof (total_nonneg _ Hsr) as Htr.
    simpl total in *. simpl head_size. simpl in Hb2.
    destruct Hb2 as (_ & Hhd & Hbr).
    assert (Hrd : rd (mem s) x = hdr n nb (head_alloc ((n, t) :: r))).
    { destruct t; simpl; [exact Hhd|apply Hhd|contradiction]. }
    split; [unfold inb, x, first_hdr; lia|].
    split; [exact Hrd|]. split; [exact Hn8|]. split; [lia|].
    split; [lia|].
    intros nb'. split; [rewrite total_mid; exact Hsc|]. norm.
    assert (Hfit : 0 <= hdr n nb' (head_alloc ((n, t) :: r)) < W32)
      by (apply hdr_fits; lia).
    split; [|split; [|split; [apply Hdll|split; trivial]]].
    + apply blocks_mid. split; [apply Hb1'|]. split; [tauto|]. split; [exact I|].
      fold x. simpl. split; [tauto|]. split.
      * destruct t; simpl in *; [|split|contradiction].
        -- apply rd_wr_same_small. exact Hfit.
        -- apply rd_wr_same_small. exact Hfit.
        -- rewrite rd_wr_other by lia. apply Hhd.
      * eapply blocks_frame; [|exact Hbr].
        intros y Hy. apply wr_other_byte. apply meta_range in Hy; trivial. lia.
    + rewrite tail_pa_mid. simpl. rewrite rd_wr_other; [exact He|].
      unfold x, first_hdr in *. lia.
    + rewrite free_ptrs_mid_other by discriminate. exact HP.
Qed.

(** * Macros on a block given by its header address *)

Section HeaderMacros.
Context {F : Type}.
Implicit Types (s : state F).

Lemma GET_HEADER_hdr (h : Z) : GET_HEADER (h + 4) = h.
Proof. unfold GET_HEADER, WSIZE. lia. Qed.

Lemma PRED_FOOTER_hdr (h : Z) : PRED_FOOTER (h + 4) = h - 4.
Proof. unfold PRED_FOOTER, DSIZE. lia. Qed.

Lemma GET_FOOTER_hdr s h sz pa al :
  inb s h -> rd (mem s) h = hdr sz pa al ->
  sz mod 8 = 0 -> 0 <= sz -> sz + 8 <= W32 ->
  GET_FOOTER (h + 4) s = Done (h + sz - 4) s.
Proof.
  intros. erewrite GET_FOOTER_ok; try eassumption.
  - f_equal. lia.
  - replace (h + 4 - 4) with h by lia. assumption.
  - replace (h + 4 - 4) with h by lia. eassumption.
Qed.

Lemma SUCC_HEADER_hdr s h sz pa al :
  inb s h -> rd (mem s) h = hdr sz pa al ->
  sz mod 8 = 0 -> 0 <= sz -> sz + 8 <= W32 ->
  SUCC_HEADER (h + 4) s = Done (h + sz) s.
Proof.
  intros. erewrite SUCC_HEADER_ok; try eassumption.
  - f_equal. lia.
  - replace (h + 4 - 4) with h by lia. assumption.
  - replace (h + 4 - 4) with h by lia. eassumption.
Qed.

Lemma SUCC_BLK_hdr s h sz pa al :
  inb s h -> rd (mem s) h = hdr sz pa al ->
  sz mod 8 = 0 -> 0 <= sz -> sz + 8 <= W32 ->
  SUCC_BLK (h + 4) s = Done (h + sz + 4) s.
Proof.
  intros. erewrite SUCC_BLK_ok; try eassumption.
  - f_equal. lia.
  - replace (h + 4 - 4) with h by lia. assumption.
  - replace (h + 4 - 4) with h by lia. eassumption.
Qed.

Lemma PRED_BLK_hdr s h sz pa al :
  inb s (h - 4) -> rd (mem s) (h - 4) = hdr sz pa al ->
  sz mod 8 = 0 -> 0 <= sz -> sz + 8 <= W32 ->
  PRED_BLK (h + 4) s = Done (h - sz + 4) s.
Proof.
  intros. erewrite PRED_BLK_ok; try eassumption.
  - f_equal. lia.
  - replace (h + 4 - 8) with (h - 4) by lia. assumption.
  - replace (h + 4 - 8) with (h - 4) by lia. eassumption.
Qed.
End HeaderMacros.

Lemma hdr_plain (sz : Z) : hdr sz false false = sz.
Proof. unfold hdr. simpl. lia. Qed.

Lemma tail_pa_false (l : list block) :
  no_limbo l -> tail_pa true l = false ->
  exists l' sz, l = l' ++ [(sz, Free)].
Proof.
  intros Hn Ht. destruct (list_nil_or_last l) as [->|(l' & [sz t] & ->)].
  - discriminate.
  - rewrite tail_pa_app in Ht. simpl in Ht.
    apply no_limbo_app in Hn. destruct Hn as [_ Hn].
    apply no_limbo_cons in Hn. destruct Hn as [[->| ->] _].
    + discriminate.
    + exists l', sz. reflexivity.
Qed.

Lemma head_alloc_false (l : list block) :
  no_limbo l -> head_alloc l = false ->
  exists sz l', l = (sz, Free) :: l'.
Proof.
  intros Hn Ht. destruct l as [|[sz t] r]; [discriminate|].
  apply no_limbo_cons in Hn. destruct Hn as [[->| ->] _].
  - discriminate.
  - exists sz, r. reflexivity.
Qed.

Lemma head_alloc_naf (l : list block) :
  no_limbo l -> head_alloc l = true -> naf true l -> naf false l.
Proof.
  intros Hn Ht H. destruct l as [|[sz t] r]; [exact I|].
  apply no_limbo_cons in Hn. destruct Hn as [[->| ->] _].
  - simpl in *. split; [discriminate|tauto].
  - discriminate.
Qed.

Lemma no_limbo_settled (l : list block) : no_limbo l -> head_settled l.
Proof.
  intros Hn. destruct l as [|[sz t] r]; [exact I|].
  apply no_limbo_cons in Hn. destruct Hn as [[->| ->] _]; exact I.
Qed.

(** * The coalescer *)

Lemma free_ptrs_join (a : Z) (l1 l2 : list block) (n1 n2 : Z) (b1 b2 b : bool) :
  free_ptrs a (l1 ++ (n1, Limbo b1) :: (n2, Limbo b2) :: l2)
  = free_ptrs a (l1 ++ (n1 + n2, Limbo b) :: l2).
Proof.
  rewrite !free_ptrs_app. simpl.
  replace (a + total l1 + n1 + n2) with (a + total l1 + (n1 + n2)) by lia.
  reflexivity.
Qed.

Lemma links_frame_join (s : state Z) (l1 l2 : list block) (n1 n2 : Z)
      (b1 b2 b : bool) (m' : memory) :
  links_frame s (l1 ++ (n1, Limbo b1) :: (n2, Limbo b2) :: l2) m' ->
  links_frame s (l1 ++ (n1 + n2, Limbo b) :: l2) m'.
Proof.
  unfold links_frame, in_links. intros H y Hy. apply H.
  rewrite (free_ptrs_join _ _ _ _ _ _ _ b). exact Hy.
Qed.

Lemma frame_rd (s : state Z) (bs : list block) (m' : memory) (x : Z) :
  links_frame s bs m' ->
  (forall y, x <= y < x + 4 -> ~ in_links (first_hdr s) bs y) ->
  rd m' x = rd (mem s) x.
Proof. intros Hf Hx. apply rd_ext. intros y Hy. apply Hf, Hx, Hy. Qed.

Lemma frame_rd_limbo (s : state Z) (l1 l2 : list block) (sz : Z) (nb : bool)
      (m' : memory) (x : Z) :
  links_frame s (l1 ++ (sz, Limbo nb) :: l2) m' ->
  sizes_ok (l1 ++ (sz, Limbo nb) :: l2) ->
  first_hdr s + total l1 <= x -> x + 4 <= first_hdr s + total l1 + sz ->
  rd m' x = rd (mem s) x.
Proof.
  intros Hf Hs H1 H2. eapply frame_rd; [exact Hf|].
  intros y Hy. apply limbo_not_links; [exact Hs|]. apply in_limbo_mid. lia.
Qed.

Lemma frame_payload (s : state Z) (bs : list block) (m' : memory) (y : Z) :
  links_frame s bs m' -> sizes_ok bs -> in_payload (first_hdr s) bs y ->
  m' y = mem s y.
Proof. intros Hf Hs Hy. apply Hf. apply payload_not_links; assumption. Qed.

Lemma merge_spec (s : state Z) (l1 l2 : list block) (sz : Z) (nb : bool)
      (fl : list Z) :
  let a := first_hdr s in
  W s (l1 ++ (sz, Limbo nb) :: l2) fl ->
  rd (mem s) (a + total l1) = hdr sz (tail_pa true l1) false ->
  rd (mem s) (a + total l1 + sz - 4) = sz ->
  naf true l1 -> naf true l2 -> no_limbo l1 -> no_limbo l2 ->
  exists r s',
    Mm._merge_free_blocks (a + total l1 + 4) s = Done r s' /\
    merged s l1 l2 sz r s'.
Proof.
  intros a HW Hhdr Hftr Hnaf1 Hnaf2 Hnl1 Hnl2. subst a.
  pose proof (W_sizes _ _ _ HW) as Hs.
  pose proof (W_bounds _ _ _ HW) as (Ht0 & Htb & Ht32 & Hmax).
  rewrite total_mid in Ht0, Htb, Ht32.
  apply sizes_ok_mid in Hs. destruct Hs as (Hs1 & [Hsz Hsz8] & Hs2).
  pose proof (total_nonneg _ Hs1) as Ht1. pose proof (total_nonneg _ Hs2) as Ht2.
  destruct (W_next_header s l1 l2 sz nb fl HW (no_limbo_settled _ Hnl2))
    as (Hxb & Hxr & Hx8 & Hx0 & Hx32 & Hxw).
  assert (Hhb : inb s (first_hdr s + total l1)) by (unfold inb, first_hdr; lia).
  unfold Mm._merge_free_blocks. rewrite !GET_HEADER_hdr.
  rstep ltac:(eapply GET_PREALLOC_ok; [exact Hhb|exact Hhdr|exact Hsz8]).
  rstep ltac:(eapply SUCC_HEADER_hdr; [exact Hhb|exact Hhdr|exact Hsz8|lia|lia]).
  rstep ltac:(eapply GET_ALLOC_ok; [exact Hxb|exact Hxr|exact Hx8]).
  destruct (tail_pa true l1) eqn:Epa; destruct (head_alloc l2) eqn:Eal;
    cbn [bit_pa bit_al Z.eqb negb andb].
  - (* both neighbours allocated *)
    rstep ltac:(eapply SUCC_BLK_hdr; [exact Hhb|exact Hhdr|exact Hsz8|lia|lia]).
    rewrite GET_HEADER_hdr.
    rstep ltac:(eapply RESET_PREALLOC_ok; [exact Hxb|exact Hxr|exact Hx8|lia|lia]).
    specialize (Hxw false).
    set (s1 := set_mem s _) in *.
    destruct (W_list s1 l1 l2 sz fl Hxw) as (m' & Hrun & HW' & Hfr).
    { subst s1. norm. rewrite rd_wr_other by lia. rewrite Epa. exact Hhdr. }
    { subst s1. norm. rewrite rd_wr_other by lia. exact Hftr. }
    subst s1. norm.
    rstep ltac:(exact Hrun).
    eexists _, _. split; [reflexivity|].
    exists m', (first_hdr s + total l1 + 4), (l1 ++ (sz, Free) :: l2), ((first_hdr s + total l1 + 4) :: fl).
    split; [reflexivity|].
    split; [split; [exact HW'|split]|].
    + apply naf_app. split; [exact Hnaf1|]. rewrite Epa. simpl.
      split; [reflexivity|]. apply head_alloc_naf; assumption.
    + apply no_limbo_app. split; [exact Hnl1|]. apply no_limbo_cons.
      split; [right; reflexivity|exact Hnl2].
    + split; [apply total_mid|].
      split; [rewrite alloc_blocks_app; reflexivity|].
      split.
      * intros y Hy. unfold links_frame in Hfr. norm.
        rewrite Hfr.
        -- apply wr_other_byte. destruct Hy as [Hy|Hy].
           ++ apply in_payload_range in Hy; trivial. lia.
           ++ apply in_payload_range in Hy; trivial. lia.
        -- apply payload_not_links.
           ++ apply sizes_ok_mid. tauto.
           ++ apply in_payload_mid_other; [discriminate|exact Hy].
      * exists l1, sz, l2. repeat split; trivial; lia.
  - (* predecessor allocated, successor free *)
    destruct (head_alloc_false l2 Hnl2 Eal) as (sz2 & l2' & ->).
    simpl head_size in *. simpl total in *.
    apply sizes_ok_cons in Hs2. destruct Hs2 as [[Hsz2 Hsz28] Hs2].
    pose proof (total_nonneg _ Hs2) as Ht2'.
    rstep ltac:(eapply SUCC_BLK_hdr; [exact Hhb|exact Hhdr|exact Hsz8|lia|lia]).
    assert (HW2 : W s ((l1 ++ [(sz, Limbo nb)]) ++ (sz2, Free) :: l2') fl)
      by (rewrite <- app_assoc; exact HW).
    destruct (W_unlist s _ _ _ _ HW2) as (m1 & fl1 & Hrun1 & HW1 & Hfr1).
    rewrite total_app in Hrun1. simpl total in Hrun1.
    replace (first_hdr s + (total l1 + (sz + 0)) + 4)
      with (first_hdr s + total l1 + sz + 4) in Hrun1 by lia.
    rstep ltac:(exact Hrun1).
    rewrite <- app_assoc in HW1, Hfr1. cbn [app] in HW1, Hfr1.
    apply W_join in HW1. apply (links_frame_join _ _ _ _ _ _ _ false) in Hfr1.
    set (N := sz + sz2) in *.
    set (s1 := set_free_blks (set_mem s m1) (hd 0 fl1)) in *.
    pose proof (W_sizes _ _ _ HW1) as HsN.
    assert (Hh1 : rd (mem s1) (first_hdr s + total l1) = hdr sz true false).
    { subst s1; norm. rewrite <- Hhdr.
      eapply frame_rd_limbo; [exact Hfr1|exact HsN|lia|unfold N; lia]. }
    assert (Hx1 : rd (mem s1) (first_hdr s + total l1 + sz) = hdr sz2 nb false).
    { subst s1; norm. rewrite <- Hxr.
      eapply frame_rd_limbo; [exact Hfr1|exact HsN|lia|unfold N; lia]. }
    assert (Hhb1 : inb s1 (first_hdr s + total l1)) by exact Hhb.
    assert (Hxb1 : inb s1 (first_hdr s + total l1 + sz)) by exact Hxb.
    rewrite ?GET_HEADER_hdr.
    rstep ltac:(eapply GET_SIZE_ok; [exact Hhb1|exact Hh1|exact Hsz8|lia|lia]).
    rstep ltac:(eapply SUCC_HEADER_hdr; [exact Hhb1|exact Hh1|exact Hsz8|lia|lia]).
    rstep ltac:(eapply GET_SIZE_ok; [exact Hxb1|exact Hx1|exact Hsz28|lia|lia]).
    fold N. rewrite (Z.mod_small N) by (unfold N; lia).
    assert (HN8 : N mod 8 = 0)
      by (unfold N; rewrite Z.add_mod, Hsz8, Hsz28 by lia; reflexivity).
    rewrite !pack_small by (trivial; lia). rewrite Z.add_0_r.
    replace (N + 2) with (hdr N true false) by (unfold hdr; simpl; lia).
    rstep ltac:(apply WRITE_ok; exact Hhb1).
    assert (HW2' := W_write_limbo s1 l1 l2' N false fl1 (first_hdr s + total l1)
                      (hdr N true false) HW1 ltac:(subst s1; norm; lia)
                      ltac:(subst s1; norm; lia)).
    set (s2 := set_mem s1 _) in *.
    assert (Hh2 : rd (mem s2) (first_hdr s + total l1) = hdr N true false).
    { subst s2; norm. apply rd_wr_same_small. apply hdr_fits; lia. }
    rstep ltac:(eapply GET_FOOTER_hdr; [exact Hhb1|exact Hh2|exact HN8|lia|lia]).
    rstep ltac:(apply WRITE_ok; unfold inb; subst s2 s1; norm; unfold first_hdr in *; lia).
    assert (HW3 := W_write_limbo s2 l1 l2' N false fl1 (first_hdr s + total l1 + N - 4)
                      N HW2' ltac:(subst s2 s1; norm; lia)
                      ltac:(subst s2 s1; norm; lia)).
    set (s3 := set_mem s2 _) in *.
    destruct (W_list s3 l1 l2' N fl1 HW3) as (m' & Hrun & HW' & Hfr).
    { subst s3 s2 s1; norm. rewrite rd_wr_other by lia.
      rewrite Epa. apply rd_wr_same_small. apply hdr_fits; lia. }
    { subst s3 s2 s1; norm. apply rd_wr_same_small. unfold W32 in *. lia. }
    replace (first_hdr s3) with (first_hdr s) in Hrun, HW', Hfr by reflexivity.
    rstep ltac:(exact Hrun).
    eexists _, _. split; [reflexivity|].
    exists m', (first_hdr s + total l1 + 4), (l1 ++ (N, Free) :: l2'), ((first_hdr s + total l1 + 4) :: fl1).
    split; [reflexivity|].
    split; [split; [exact HW'|split]|].
    + apply naf_app. split; [exact Hnaf1|]. rewrite Epa. simpl.
      split; [reflexivity|]. simpl in Hnaf2. tauto.
    + apply no_limbo_app. split; [exact Hnl1|]. apply no_limbo_cons.
      split; [right; reflexivity|].
      apply no_limbo_cons in Hnl2. tauto.
    + split; [rewrite total_mid; simpl; unfold N; lia|].
      split; [rewrite alloc_blocks_app; simpl;
              replace (first_hdr s + total l1 + N) with (first_hdr s + total l1 + sz + sz2)
                by (unfold N; lia); reflexivity|].
      split.
      * intros y Hy.
        assert (Hy' : in_payload (first_hdr s) l1 y \/ in_payload (first_hdr s + total l1 + N) l2' y).
        { destruct Hy as [Hy|Hy]; [left; exact Hy|right].
          simpl in Hy. destruct Hy as [[E _]|Hy]; [discriminate|].
          replace (first_hdr s + total l1 + N) with (first_hdr s + total l1 + sz + sz2)
            by (unfold N; lia). exact Hy. }
        assert (Hyr : y < first_hdr s + total l1 \/ first_hdr s + total l1 + N + 4 <= y).
        { destruct Hy' as [Hy'|Hy']; apply in_payload_range in Hy'; trivial; lia. }
        rewrite (frame_payload s3 _ m' y Hfr).
        -- subst s3 s2 s1; norm. rewrite !wr_other_byte by lia.
           apply (frame_payload s _ m1 y Hfr1 HsN).
           apply in_payload_mid_other; [discriminate|exact Hy'].
        -- apply sizes_ok_mid. split; [exact Hs1|]. split; [lia|exact Hs2].
        -- apply in_payload_mid_other; [discriminate|exact Hy'].
      * exists l1, N, l2'. repeat split; trivial; unfold N; lia.
  - (* predecessor free, successor allocated *)
    destruct (tail_pa_false l1 Hnl1 Epa) as (l1' & sz0 & ->).
    pose proof Epa as Hpa1.
    assert (Eh : first_hdr s + total (l1' ++ [(sz0, Free)])
                 = first_hdr s + total l1' + sz0)
      by (rewrite total_app; simpl; lia).
    rewrite total_app in Ht0, Htb, Ht32, Ht1. simpl total in Ht0, Htb, Ht32, Ht1.
    rewrite Eh in *.
    apply sizes_ok_app in Hs1. destruct Hs1 as [Hs1 Hs0].
    apply sizes_ok_cons in Hs0. destruct Hs0 as [[Hsz0 Hsz08] _].
    pose proof (total_nonneg _ Hs1) as Ht1'.
    rewrite <- app_assoc in HW. cbn [app] in HW.
    assert (Hpa0 : tail_pa true l1' = true).
    { apply naf_app in Hnaf1. destruct Hnaf1 as [_ [H _]]. apply H. reflexivity. }
    pose proof HW as (_ & Hb & _).
    apply blocks_mid in Hb. destruct Hb as (_ & _ & [Hph Hpf] & _).
    rewrite Hpa0 in Hph.
    set (h0 := first_hdr s + total l1') in *.
    assert (Hb0 : inb s h0 /\ inb s (h0 + sz0 - 4))
      by (unfold inb, h0, first_hdr; lia).
    replace (h0 + sz0 + sz - 4) with (h0 + sz0 - 4 + sz) in Hftr by lia.
    rewrite <- hdr_plain in Hpf.
    rstep ltac:(eapply PRED_BLK_hdr; [apply Hb0|exact Hpf|exact Hsz08|lia|lia]).
    replace (h0 + sz0 - sz0 + 4) with (h0 + 4) by lia.
    destruct (W_unlist s _ _ _ _ HW) as (m1 & fl1 & Hrun1 & HW1 & Hfr1).
    fold h0 in Hrun1. rstep ltac:(exact Hrun1).
    set (N := sz0 + sz).
    apply W_join in HW1. apply (links_frame_join _ _ _ _ _ _ _ nb) in Hfr1.
    fold N in HW1, Hfr1.
    set (s1 := set_free_blks (set_mem s m1) (hd 0 fl1)) in *.
    pose proof (W_sizes _ _ _ HW1) as HsN.
    assert (Hrd1 : forall x, h0 <= x -> x + 4 <= h0 + N ->
                             rd (mem s1) x = rd (mem s) x).
    { intros x H1 H2. subst s1; norm.
      eapply frame_rd_limbo; [exact Hfr1|exact HsN|exact H1|exact H2]. }
    assert (Hh1 : rd (mem s1) (h0 + sz0) = hdr sz false false)
      by (rewrite Hrd1 by (unfold N; lia); exact Hhdr).
    assert (Hp1 : rd (mem s1) (h0 + sz0 - 4) = hdr sz0 false false)
      by (rewrite Hrd1 by (unfold N; lia); exact Hpf).
    assert (Hq1 : rd (mem s1) h0 = hdr sz0 true false)
      by (rewrite Hrd1 by (unfold N; lia); exact Hph).
    assert (Hhb1 : inb s1 (h0 + sz0)) by exact Hhb.
    rewrite ?PRED_FOOTER_hdr.
    rstep ltac:(eapply GET_SIZE_ok; [exact Hhb1|exact Hh1|exact Hsz8|lia|lia]).
    rstep ltac:(eapply GET_SIZE_ok; [apply Hb0|exact Hp1|exact Hsz08|lia|lia]).
    replace (sz + sz0) with N by (unfold N; lia).
    rewrite (Z.mod_small N) by (unfold N; lia).
    assert (HN8 : N mod 8 = 0)
      by (unfold N; rewrite Z.add_mod, Hsz8, Hsz08 by lia; reflexivity).
    rstep ltac:(eapply PRED_BLK_hdr; [apply Hb0|exact Hp1|exact Hsz08|lia|lia]).
    replace (h0 + sz0 - sz0 + 4) with (h0 + 4) by lia. rewrite GET_HEADER_hdr.
    rstep ltac:(eapply GET_PREALLOC_ok; [apply Hb0|exact Hq1|exact Hsz08]).
    rstep ltac:(eapply PRED_BLK_hdr; [apply Hb0|exact Hp1|exact Hsz08|lia|lia]).
    replace (h0 + sz0 - sz0 + 4) with (h0 + 4) by lia. rewrite GET_HEADER_hdr.
    rewrite !pack_small by (trivial; simpl; lia). rewrite Z.add_0_r.
    replace (N + bit_pa true) with (hdr N true false) by (unfold hdr; simpl; lia).
    rstep ltac:(apply WRITE_ok; apply Hb0).
    assert (HW2 := W_write_limbo s1 l1' l2 N nb fl1 h0
                      (hdr N true false) HW1 ltac:(subst s1; norm; lia)
                      ltac:(subst s1; norm; unfold N; lia)).
    set (s2 := set_mem s1 _) in *.
    assert (Hh2 : rd (mem s2) (h0 + sz0) = hdr sz false false).
    { subst s2; norm. rewrite rd_wr_other by lia. exact Hh1. }
    rstep ltac:(eapply GET_FOOTER_hdr; [exact Hhb1|exact Hh2|exact Hsz8|lia|lia]).
    rstep ltac:(apply WRITE_ok; unfold inb; subst s2 s1; norm; unfold h0, first_hdr in *; lia).
    assert (HW3 := W_write_limbo s2 l1' l2 N nb fl1 (h0 + sz0 + sz - 4)
                      N HW2 ltac:(subst s2 s1; norm; lia)
                      ltac:(subst s2 s1; norm; unfold N; lia)).
    set (s3 := set_mem s2 _) in *.
    assert (Hh3 : rd (mem s3) (h0 + sz0) = hdr sz false false).
    { subst s3; norm. rewrite rd_wr_other by lia. exact Hh2. }
    rstep ltac:(eapply SUCC_BLK_hdr; [exact Hhb1|exact Hh3|exact Hsz8|lia|lia]).
    rewrite GET_HEADER_hdr.
    destruct (W_next_header s3 l1' l2 N nb fl1 HW3 (no_limbo_settled _ Hnl2))
      as (Hxb3 & Hxr3 & _ & _ & _ & Hxw3).
    replace (first_hdr s3 + total l1' + N) with (h0 + sz0 + sz) in Hxb3, Hxr3, Hxw3
      by (unfold N, h0; reflexivity || (subst s3 s2 s1; norm; lia)).
    rewrite Eal in Hxr3, Hxw3.
    rstep ltac:(eapply RESET_PREALLOC_ok; [exact Hxb3|exact Hxr3|exact Hx8|lia|lia]).
    specialize (Hxw3 false).
    set (s4 := set_mem s3 _) in *.
    assert (Hp4 : rd (mem s4) (h0 + sz0 - 4) = hdr sz0 false false).
    { subst s4 s3 s2; norm. rewrite !rd_wr_other by lia. exact Hp1. }
    rstep ltac:(eapply PRED_BLK_hdr; [apply Hb0|exact Hp4|exact Hsz08|lia|lia]).
    replace (h0 + sz0 - sz0 + 4) with (h0 + 4) by lia.
    destruct (W_list s4 l1' l2 N fl1 Hxw3) as (m' & Hrun & HW' & Hfr).
    { subst s4 s3 s2 s1; norm. fold h0. rewrite !rd_wr_other by lia.
      rewrite Hpa0. apply rd_wr_same_small. apply hdr_fits; unfold N; lia. }
    { subst s4 s3 s2 s1; norm. fold h0. rewrite rd_wr_other by (unfold N; lia).
      replace (h0 + N - 4) with (h0 + sz0 + sz - 4) by (unfold N; lia).
      apply rd_wr_same_small. unfold N, W32 in *. lia. }
    replace (first_hdr s4) with (first_hdr s) in Hrun, HW', Hfr by reflexivity.
    fold h0 in Hrun, HW'.
    rstep ltac:(exact Hrun).
    eexists _, _. split; [reflexivity|].
    exists m', (h0 + 4), (l1' ++ (N, Free) :: l2), ((h0 + 4) :: fl1).
    split; [reflexivity|].
    split; [split; [exact HW'|split]|].
    + apply naf_app. apply naf_app in Hnaf1. split; [tauto|]. rewrite Hpa0. simpl.
      split; [reflexivity|]. apply head_alloc_naf; assumption.
    + apply no_limbo_app. apply no_limbo_app in Hnl1.
      split; [tauto|]. apply no_limbo_cons.
      split; [right; reflexivity|exact Hnl2].
    + split; [rewrite total_mid, total_app; simpl; unfold N; lia|].
      split.
      { rewrite !alloc_blocks_app. simpl. rewrite app_nil_r, Eh.
        replace (h0 + sz0 + sz) with (first_hdr s + total l1' + N)
          by (unfold N, h0; lia). reflexivity. }
      split.
      * intros y Hy.
        assert (Hy' : in_payload (first_hdr s) l1' y \/
                      in_payload (first_hdr s + total l1' + N) l2 y).
        { destruct Hy as [Hy|Hy].
          - apply in_payload_app in Hy. destruct Hy as [Hy|Hy]; [left; exact Hy|].
            simpl in Hy. destruct Hy as [[E _]|[]]. discriminate.
          - right. rewrite Eh in Hy.
            replace (first_hdr s + total l1' + N) with (h0 + sz0 + sz)
              by (unfold N, h0; lia). exact Hy. }
        assert (Hyr : y < h0 \/ h0 + N + 4 <= y).
        { destruct Hy' as [Hy'|Hy']; apply in_payload_range in Hy'; trivial;
            unfold h0; lia. }
        rewrite (frame_payload s4 _ m' y Hfr).
        -- subst s4 s3 s2 s1; norm. rewrite !wr_other_byte by (unfold N in *; lia).
           apply (frame_payload s _ m1 y Hfr1 HsN).
           apply in_payload_mid_other; [discriminate|exact Hy'].
        -- apply sizes_ok_mid. split; [exact Hs1|].
           split; [split; [unfold N; lia|exact HN8]|exact Hs2].
        -- apply in_payload_mid_other; [discriminate|exact Hy'].
      * exists l1', N, l2. repeat split; try (unfold N, h0; lia).
        intros E. rewrite Hpa1 in E. discriminate.
  - (* both neighbours free *)
    destruct (tail_pa_false l1 Hnl1 Epa) as (l1' & sz0 & ->).
    pose proof Epa as Hpa1.
    destruct (head_alloc_false l2 Hnl2 Eal) as (sz2 & l2' & ->).
    assert (Eh : first_hdr s + total (l1' ++ [(sz0, Free)])
                 = first_hdr s + total l1' + sz0)
      by (rewrite total_app; simpl; lia).
    rewrite total_app in Ht0, Htb, Ht32, Ht1. simpl total in *.
    simpl head_size in *.
    rewrite Eh in *.
    apply sizes_ok_app in Hs1. destruct Hs1 as [Hs1 Hs0].
    apply sizes_ok_cons in Hs0. destruct Hs0 as [[Hsz0 Hsz08] _].
    apply sizes_ok_cons in Hs2. destruct Hs2 as [[Hsz2 Hsz28] Hs2].
    pose proof (total_nonneg _ Hs1) as Ht1'.
    pose proof (total_nonneg _ Hs2) as Ht2'.
    rewrite <- app_assoc in HW. cbn [app] in HW.
    assert (Hpa0 : tail_pa true l1' = true).
    { apply naf_app in Hnaf1. destruct Hnaf1 as [_ [H _]]. apply H. reflexivity. }
    pose proof HW as (_ & Hb & _).
    apply blocks_mid in Hb. destruct Hb as (_ & _ & [Hph Hpf] & _).
    rewrite Hpa0 in Hph.
    set (h0 := first_hdr s + total l1') in *.
    assert (Hb0 : inb s h0 /\ inb s (h0 + sz0 - 4))
      by (unfold inb, h0, first_hdr; lia).
    rewrite <- hdr_plain in Hpf.
    rstep ltac:(eapply PRED_BLK_hdr; [apply Hb0|exact Hpf|exact Hsz08|lia|lia]).
    replace (h0 + sz0 - sz0 + 4) with (h0 + 4) by lia.
    destruct (W_unlist s _ _ _ _ HW) as (m1 & fl1 & Hrun1 & HW1 & Hfr1).
    fold h0 in Hrun1. rstep ltac:(exact Hrun1).
    apply W_join in HW1. apply (links_frame_join _ _ _ _ _ _ _ nb) in Hfr1.
    set (s1 := set_free_blks (set_mem s m1) (hd 0 fl1)) in *.
    pose proof (W_sizes _ _ _ HW1) as HsN1.
    assert (Hrd1 : forall x, h0 <= x -> x + 4 <= h0 + (sz0 + sz) ->
                             rd (mem s1) x = rd (mem s) x).
    { intros x H1 H2. subst s1; norm.
      eapply frame_rd_limbo; [exact Hfr1|exact HsN1|exact H1|exact H2]. }
    assert (Hh1 : rd (mem s1) (h0 + sz0) = hdr sz false false)
      by (rewrite Hrd1 by lia; exact Hhdr).
    assert (Hhb1 : inb s1 (h0 + sz0)) by exact Hhb.
    rstep ltac:(eapply SUCC_BLK_hdr; [exact Hhb1|exact Hh1|exact Hsz8|lia|lia]).
    assert (HW1' : W s1 ((l1' ++ [(sz0 + sz, Limbo nb)]) ++ (sz2, Free) :: l2') fl1)
      by (rewrite <- app_assoc; exact HW1).
    destruct (W_unlist s1 _ _ _ _ HW1') as (m2 & fl2 & Hrun2 & HW2 & Hfr2).
    rewrite total_app in Hrun2. simpl total in Hrun2.
    replace (first_hdr s1 + (total l1' + (sz0 + sz + 0)) + 4)
      with (h0 + sz0 + sz + 4) in Hrun2 by (unfold h0; subst s1; norm; lia).
    rstep ltac:(exact Hrun2).
    rewrite <- app_assoc in HW2, Hfr2. cbn [app] in HW2, Hfr2.
    apply W_join in HW2. apply (links_frame_join _ _ _ _ _ _ _ false) in Hfr2.
    set (N := sz0 + sz + sz2) in *.
    set (s2 := set_free_blks (set_mem s1 m2) (hd 0 fl2)) in *.
    pose proof (W_sizes _ _ _ HW2) as HsN.
    assert (Hrd2 : forall x, h0 <= x -> x + 4 <= h0 + N ->
                             rd (mem s2) x = rd (mem s1) x).
    { intros x H1 H2. subst s2; norm.
      eapply frame_rd_limbo; [exact Hfr2|exact HsN|exact H1|exact H2]. }
    assert (Hx1 : rd (mem s1) (h0 + sz0 + sz) = hdr sz2 nb false).
    { pose proof HW1 as (_ & Hb & _).
      apply blocks_mid in Hb. destruct Hb as (_ & _ & _ & Hb). simpl in Hb.
      replace (first_hdr s1 + total l1' + (sz0 + sz)) with (h0 + sz0 + sz) in Hb
        by (unfold h0; subst s1; norm; lia).
      apply Hb. }
    assert (Hh2 : rd (mem s2) (h0 + sz0) = hdr sz false false)
      by (rewrite Hrd2 by (unfold N; lia); exact Hh1).
    assert (Hp2 : rd (mem s2) (h0 + sz0 - 4) = hdr sz0 false false)
      by (rewrite Hrd2, Hrd1 by (unfold N; lia); exact Hpf).
    assert (Hq2 : rd (mem s2) h0 = hdr sz0 true false)
      by (rewrite Hrd2, Hrd1 by (unfold N; lia); exact Hph).
    assert (Hx2 : rd (mem s2) (h0 + sz0 + sz) = hdr sz2 nb false)
      by (rewrite Hrd2 by (unfold N; lia); exact Hx1).
    assert (Hhb2 : inb s2 (h0 + sz0)) by exact Hhb.
    assert (Hxb2 : inb s2 (h0 + sz0 + sz)) by exact Hxb.
    rewrite ?PRED_FOOTER_hdr, ?GET_HEADER_hdr.
    rstep ltac:(eapply GET_SIZE_ok; [exact Hhb2|exact Hh2|exact Hsz8|lia|lia]).
    rstep ltac:(eapply GET_SIZE_ok; [apply Hb0|exact Hp2|exact Hsz08|lia|lia]).
    rstep ltac:(eapply SUCC_HEADER_hdr; [exact Hhb2|exact Hh2|exact Hsz8|lia|lia]).
    rstep ltac:(eapply GET_SIZE_ok; [exact Hxb2|exact Hx2|exact Hsz28|lia|lia]).
    rewrite (Z.mod_small (sz + sz0)) by lia.
    replace (sz + sz0 + sz2) with N by (unfold N; lia).
    rewrite (Z.mod_small N) by (unfold N; lia).
    assert (HN8 : N mod 8 = 0).
    { unfold N. rewrite Z.add_mod, (Z.add_mod sz0), Hsz8, Hsz08, Hsz28 by lia.
      reflexivity. }
    rstep ltac:(eapply PRED_BLK_hdr; [apply Hb0|exact Hp2|exact Hsz08|lia|lia]).
    replace (h0 + sz0 - sz0 + 4) with (h0 + 4) by lia. rewrite GET_HEADER_hdr.
    rstep ltac:(eapply GET_PREALLOC_ok; [apply Hb0|exact Hq2|exact Hsz08]).
    rstep ltac:(eapply PRED_BLK_hdr; [apply Hb0|exact Hp2|exact Hsz08|lia|lia]).
    replace (h0 + sz0 - sz0 + 4) with (h0 + 4) by lia. rewrite GET_HEADER_hdr.
    rewrite !pack_small by (trivial; simpl; lia). rewrite Z.add_0_r.
    replace (N + bit_pa true) with (hdr N true false) by (unfold hdr; simpl; lia).
    rstep ltac:(apply WRITE_ok; apply Hb0).
    assert (HW3 := W_write_limbo s2 l1' l2' N false fl2 h0
                      (hdr N true false) HW2 ltac:(subst s2 s1; norm; lia)
                      ltac:(subst s2 s1; norm; unfold N; lia)).
    set (s3 := set_mem s2 _) in *.
    assert (Hh3 : rd (mem s3) (h0 + sz0) = hdr sz false false).
    { subst s3; norm. rewrite rd_wr_other by lia. exact Hh2. }
    assert (Hx3 : rd (mem s3) (h0 + sz0 + sz) = hdr sz2 nb false).
    { subst s3; norm. rewrite rd_wr_other by lia. exact Hx2. }
    rstep ltac:(eapply SUCC_BLK_hdr; [exact Hhb2|exact Hh3|exact Hsz8|lia|lia]).
    rstep ltac:(eapply GET_FOOTER_hdr; [exact Hxb2|exact Hx3|exact Hsz28|lia|lia]).
    rstep ltac:(apply WRITE_ok; unfold inb; subst s3 s2 s1; norm; unfold h0, first_hdr in *; lia).
    assert (HW4 := W_write_limbo s3 l1' l2' N false fl2 (h0 + sz0 + sz + sz2 - 4)
                      N HW3 ltac:(subst s3 s2 s1; norm; lia)
                      ltac:(subst s3 s2 s1; norm; unfold N; lia)).
    set (s4 := set_mem s3 _) in *.
    assert (Hp4 : rd (mem s4) (h0 + sz0 - 4) = hdr sz0 false false).
    { subst s4 s3; norm. rewrite !rd_wr_other by lia. exact Hp2. }
    rstep ltac:(eapply PRED_BLK_hdr; [apply Hb0|exact Hp4|exact Hsz08|lia|lia]).
    replace (h0 + sz0 - sz0 + 4) with (h0 + 4) by lia.
    destruct (W_list s4 l1' l2' N fl2 HW4) as (m' & Hrun & HW' & Hfr).
    { subst s4 s3 s2 s1; norm. fold h0. rewrite !rd_wr_other by lia.
      rewrite Hpa0. apply rd_wr_same_small. apply hdr_fits; unfold N; lia. }
    { subst s4 s3 s2 s1; norm. fold h0.
      replace (h0 + N - 4) with (h0 + sz0 + sz + sz2 - 4) by (unfold N; lia).
      apply rd_wr_same_small. unfold N, W32 in *. lia. }
    replace (first_hdr s4) with (first_hdr s) in Hrun, HW', Hfr by reflexivity.
    fold h0 in Hrun, HW'.
    rstep ltac:(exact Hrun).
    eexists _, _. split; [reflexivity|].
    exists m', (h0 + 4), (l1' ++ (N, Free) :: l2'), ((h0 + 4) :: fl2).
    split; [reflexivity|].
    split; [split; [exact HW'|split]|].
    + apply naf_app. apply naf_app in Hnaf1. split; [tauto|]. rewrite Hpa0. simpl.
      split; [reflexivity|]. simpl in Hnaf2. tauto.
    + apply no_limbo_app. apply no_limbo_app in Hnl1.
      split; [tauto|]. apply no_limbo_cons.
      split; [right; reflexivity|]. apply no_limbo_cons in Hnl2. tauto.
    + split; [rewrite total_mid, total_app; simpl; unfold N; lia|].
      split.
      { rewrite !alloc_blocks_app. simpl. rewrite app_nil_r, Eh.
        replace (h0 + sz0 + sz + sz2) with (first_hdr s + total l1' + N)
          by (unfold N, h0; lia). reflexivity. }
      split.
      * intros y Hy.
        assert (Hy' : in_payload (first_hdr s) l1' y \/
                      in_payload (first_hdr s + total l1' + N) l2' y).
        { destruct Hy as [Hy|Hy].
          - apply in_payload_app in Hy. destruct Hy as [Hy|Hy]; [left; exact Hy|].
            simpl in Hy. destruct Hy as [[E _]|[]]. discriminate.
          - right. rewrite Eh in Hy. simpl in Hy.
            destruct Hy as [[E _]|Hy]; [discriminate|].
            replace (first_hdr s + total l1' + N) with (h0 + sz0 + sz + sz2)
              by (unfold N, h0; lia). exact Hy. }
        assert (Hyr : y < h0 \/ h0 + N + 4 <= y).
        { destruct Hy' as [Hy'|Hy']; apply in_payload_range in Hy'; trivial;
            unfold h0; lia. }
        rewrite (frame_payload s4 _ m' y Hfr).
        -- subst s4 s3; norm. rewrite !wr_other_byte by (unfold N in *; lia).
           subst s2; norm.
           rewrite (frame_payload s1 _ m2 y Hfr2 HsN).
           ++ subst s1; norm.
              apply (frame_payload s _ m1 y Hfr1 HsN1).
              apply in_payload_mid_other; [discriminate|].
              destruct Hy' as [Hy'|Hy']; [left; exact Hy'|right].
              simpl. right.
              replace (first_hdr s + total l1' + (sz0 + sz) + sz2)
                with (first_hdr s + total l1' + N) by (unfold N; lia).
              exact Hy'.
           ++ apply in_payload_mid_other; [discriminate|exact Hy'].
        -- apply sizes_ok_mid. split; [exact Hs1|].
           split; [split; [unfold N; lia|exact HN8]|exact Hs2].
        -- apply in_payload_mid_other; [discriminate|exact Hy'].
      * exists l1', N, l2'. repeat split; try (unfold N, h0; lia).
        intros E. rewrite Hpa1 in E. discriminate.
Qed.

Lemma Rep_W (s : state Z) (bs : list block) (fl : list Z) :
  Rep s bs fl -> W s bs fl.
Proof. intros H; apply H. Qed.

Lemma build_spec (s : state Z) (l1 l2 : list block) (bsz size : Z) (fl : list Z) :
  Rep s (l1 ++ (bsz, Free) :: l2) fl ->
  16 <= size -> size mod 8 = 0 -> size <= bsz ->
  exists s',
    Mm._build (first_hdr s + total l1 + 4) size s = Done tt s' /\
    built s l1 l2 bsz size s'.
Proof.
  intros (HW & Hnaf & Hnl) Hsize Hsize8 Hle.
  pose proof (W_sizes _ _ _ HW) as Hs.
  pose proof (W_bounds _ _ _ HW) as (Ht0 & Htb & Ht32 & Hmax).
  rewrite total_mid in Ht0, Htb, Ht32.
  apply sizes_ok_mid in Hs. destruct Hs as (Hs1 & [Hbsz Hbsz8] & Hs2).
  pose proof (total_nonneg _ Hs1) as Ht1. pose proof (total_nonneg _ Hs2) as Ht2.
  apply naf_app in Hnaf. destruct Hnaf as [Hnaf1 [Hpa1 Hnaf2]].
  specialize (Hpa1 eq_refl). simpl next_pa in Hnaf2.
  apply no_limbo_app in Hnl. destruct Hnl as [Hnl1 Hnl2].
  apply no_limbo_cons in Hnl2. destruct Hnl2 as [_ Hnl2].
  pose proof HW as (_ & Hb & _).
  apply blocks_mid in Hb. destruct Hb as (_ & _ & [Hhdr Hftr] & _).
  set (h := first_hdr s + total l1) in *.
  assert (Hhb : inb s h) by (unfold inb, h, first_hdr; lia).
  assert (Hp0 : (h + 4 =? NULL) = false).
  { apply Z.eqb_neq. destruct HW as ((Hlo & _) & _).
    unfold NULL, h, first_hdr. lia. }
  unfold Mm._build. rewrite Hp0, ?GET_HEADER_hdr.
  destruct (W_unlist s _ _ _ _ HW) as (m1 & fl1 & Hrun1 & HW1 & Hfr1).
  fold h in Hrun1. rstep ltac:(exact Hrun1).
  set (s1 := set_free_blks (set_mem s m1) (hd 0 fl1)) in *.
  pose proof (W_sizes _ _ _ HW1) as HsL.
  assert (Hrd1 : forall x, h <= x -> x + 4 <= h + bsz ->
                           rd (mem s1) x = rd (mem s) x).
  { intros x H1 H2. subst s1; norm.
    eapply frame_rd_limbo; [exact Hfr1|exact HsL|exact H1|exact H2]. }
  assert (Hh1 : rd (mem s1) h = hdr bsz (tail_pa true l1) false)
    by (rewrite Hrd1 by lia; exact Hhdr).
  assert (Hhb1 : inb s1 h) by exact Hhb.
  rstep ltac:(eapply GET_SIZE_ok; [exact Hhb1|exact Hh1|exact Hbsz8|lia|lia]).
  rstep ltac:(eapply GET_PREALLOC_ok; [exact Hhb1|exact Hh1|exact Hbsz8]).
  rewrite (Z.mod_small (bsz - size)) by (unfold W64, W32 in *; lia).
  change 1 with (bit_al true) at 1 3.
  rewrite !pack_hdr by assumption.
  unfold built, built_size. fold h.
  destruct (Z.ltb_spec ESIZE (bsz - size)) as [Hsplit|Hwhole].
  - (* split *)
    unfold ESIZE, DSIZE in Hsplit.
    rstep ltac:(apply WRITE_ok; exact Hhb1).
    assert (HW2 := W_write_limbo s1 l1 l2 bsz false fl1 h
                     (hdr size (tail_pa true l1) true) HW1
                     ltac:(subst s1; norm; fold h; lia)
                     ltac:(subst s1; norm; fold h; lia)).
    set (s2 := set_mem s1 _) in *.
    assert (Hh2 : rd (mem s2) h = hdr size (tail_pa true l1) true).
    { subst s2; norm. apply rd_wr_same_small. apply hdr_fits; lia. }
    rstep ltac:(eapply GET_FOOTER_hdr; [exact Hhb1|exact Hh2|exact Hsize8|lia|lia]).
    rstep ltac:(apply WRITE_ok; unfold inb; subst s2 s1; norm; unfold h, first_hdr in *; lia).
    assert (HW3 := W_write_limbo s2 l1 l2 bsz false fl1 (h + size - 4)
                     (PACK size 1) HW2
                     ltac:(subst s2 s1; norm; fold h; lia)
                     ltac:(subst s2 s1; norm; fold h; lia)).
    set (s3 := set_mem s2 _) in *.
    assert (Hh3 : rd (mem s3) h = hdr size (tail_pa true l1) true).
    { subst s3; norm. rewrite rd_wr_other by lia. exact Hh2. }
    rstep ltac:(eapply SUCC_BLK_hdr; [exact Hhb1|exact Hh3|exact Hsize8|lia|lia]).
    rewrite GET_HEADER_hdr.
    assert (Hrem8 : (bsz - size) mod 8 = 0)
      by (rewrite Zminus_mod, Hbsz8, Hsize8; reflexivity).
    rewrite (pack_small (bsz - size) 2), (pack_small (bsz - size) 0)
      by (trivial; lia).
    rewrite Z.add_0_r.
    replace (bsz - size + 2) with (hdr (bsz - size) true false)
      by (unfold hdr; simpl; lia).
    rstep ltac:(apply WRITE_ok; unfold inb; subst s3 s2 s1; norm; unfold h, first_hdr in *; lia).
    assert (HW4 := W_write_limbo s3 l1 l2 bsz false fl1 (h + size)
                     (hdr (bsz - size) true false) HW3
                     ltac:(subst s3 s2 s1; norm; fold h; lia)
                     ltac:(subst s3 s2 s1; norm; fold h; lia)).
    set (s4 := set_mem s3 _) in *.
    assert (Hx4 : rd (mem s4) (h + size) = hdr (bsz - size) true false).
    { subst s4; norm. apply rd_wr_same_small. apply hdr_fits; lia. }
    assert (Hxb4 : inb s4 (h + size))
      by (unfold inb; subst s4 s3 s2 s1; norm; unfold h, first_hdr in *; lia).
    rstep ltac:(eapply GET_FOOTER_hdr; [exact Hxb4|exact Hx4|exact Hrem8|lia|lia]).
    replace (h + size + (bsz - size) - 4) with (h + bsz - 4) by lia.
    rstep ltac:(apply WRITE_ok; unfold inb; subst s4 s3 s2 s1; norm; unfold h, first_hdr in *; lia).
    assert (HW5 := W_write_limbo s4 l1 l2 bsz false fl1 (h + bsz - 4)
                     (bsz - size) HW4
                     ltac:(subst s4 s3 s2 s1; norm; fold h; lia)
                     ltac:(subst s4 s3 s2 s1; norm; fold h; lia)).
    set (s5 := set_mem s4 _) in *.
    apply (W_split _ _ _ _ size _ true) in HW5; trivial; [|lia].
    apply W_claim in HW5;
      [|subst s5 s4 s3 s2 s1; norm; fold h; rewrite !rd_wr_other by lia;
        apply rd_wr_same_small; apply hdr_fits; lia].
    assert (HW6 : W s5 ((l1 ++ [(size, Allocated)]) ++ (bsz - size, Limbo false) :: l2) fl1)
      by (rewrite <- app_assoc; exact HW5).
    assert (Eh : first_hdr s5 + total (l1 ++ [(size, Allocated)]) = h + size)
      by (rewrite total_app; simpl; unfold h; subst s5 s4 s3 s2 s1; norm; lia).
    destruct (merge_spec s5 (l1 ++ [(size, Allocated)]) l2 (bsz - size) false fl1 HW6)
      as (r & s' & Hrun & Hm).
    { rewrite Eh, tail_pa_app. simpl.
      subst s5 s4; norm. rewrite rd_wr_other by lia.
      apply rd_wr_same_small. apply hdr_fits; lia. }
    { rewrite Eh. replace (h + size + (bsz - size) - 4) with (h + bsz - 4) by lia.
      subst s5; norm. apply rd_wr_same_small. unfold W32 in *; lia. }
    { apply naf_app. split; [exact Hnaf1|]. simpl. split; [discriminate|exact I]. }
    { eapply naf_weaken; exact Hnaf2. }
    { apply no_limbo_app. split; [exact Hnl1|]. apply no_limbo_cons.
      split; [left; reflexivity|constructor]. }
    { exact Hnl2. }
    cbv zeta in Hrun. rewrite Eh in Hrun.
    rstep ltac:(exact Hrun).
    eexists. split; [reflexivity|].
    destruct Hm as (m' & fb' & bs' & fl' & -> & HRep & Htot & Hab & Hfr
                    & r1 & rsz & r2 & Ebs & _ & Hrsz & Hr1).
    rewrite Eh in Hab, Hfr.
    replace (first_hdr s5) with (first_hdr s) in Hab, Hfr by reflexivity.
    replace (h + size + (bsz - size)) with (h + bsz) in Hab, Hfr by lia.
    exists m', fb', bs', fl'. split; [reflexivity|].
    split; [exact HRep|].
    split; [rewrite Htot, total_app; simpl; lia|].
    split; [rewrite Hab, alloc_blocks_app; simpl; rewrite <- app_assoc; reflexivity|].
    assert (Hown : forall y, h + 4 <= y < h + size ->
                             m' y = mem s5 y).
    { intros y Hy. apply Hfr. left. apply in_payload_app. right. simpl.
      left. split; [reflexivity|fold h; lia]. }
    split; [|split; [|split; [|split]]].
    + intros y Hy. rewrite Hfr.
      * assert (Hyr : y < h \/ h + bsz + 4 <= y).
        { destruct Hy as [Hy|Hy]; apply in_payload_range in Hy; trivial;
            unfold h in *; lia. }
        subst s5 s4 s3 s2; norm. rewrite !wr_other_byte by lia.
        subst s1; norm. apply (frame_payload s _ m1 y Hfr1 HsL).
        apply in_payload_mid_other; [discriminate|exact Hy].
      * destruct Hy as [Hy|Hy]; [left|right; exact Hy].
        apply in_payload_app. left. exact Hy.
    + intros y Hy. rewrite Hown by lia.
      subst s5 s4 s3 s2; norm. rewrite !wr_other_byte by lia.
      subst s1; norm. apply Hfr1. apply limbo_not_links; [exact HsL|].
      apply in_limbo_mid. fold h. lia.
    + transitivity (rd (mem s5) h).
      * rewrite Hr1 in Ebs by (rewrite tail_pa_app; reflexivity).
        rewrite <- app_assoc in Ebs. cbn [app] in Ebs.
        pose proof HRep as ((_ & Hb' & _) & _). rewrite Ebs in Hb'.
        apply blocks_mid in Hb'. destruct Hb' as (_ & _ & Hb' & _).
        change (rd m' h = hdr size (tail_pa true l1) true) in Hb'. rewrite Hb'.
        subst s5 s4 s3; norm. rewrite !rd_wr_other by lia. symmetry. exact Hh2.
      * subst s5 s4 s3; norm. rewrite !rd_wr_other by lia. exact Hh2.
    + transitivity (rd (mem s5) (h + size - 4)).
      * apply rd_ext. intros y Hy. apply Hown. lia.
      * subst s5 s4 s3; norm. rewrite !rd_wr_other by lia.
        apply rd_wr_same_small. rewrite pack_small by (trivial; lia).
        unfold W32 in *; lia.
    + intros _. exists rsz, r2. split; [|exact Hrsz].
      rewrite Hr1 in Ebs by (rewrite tail_pa_app; reflexivity).
      rewrite <- app_assoc in Ebs. exact Ebs.
  - (* the whole block *)
    unfold ESIZE, DSIZE in Hwhole.
    rstep ltac:(apply WRITE_ok; exact Hhb1).
    assert (HW2 := W_write_limbo s1 l1 l2 bsz false fl1 h
                     (hdr bsz (tail_pa true l1) true) HW1
                     ltac:(subst s1; norm; fold h; lia)
                     ltac:(subst s1; norm; fold h; lia)).
    set (s2 := set_mem s1 _) in *.
    assert (Hh2 : rd (mem s2) h = hdr bsz (tail_pa true l1) true).
    { subst s2; norm. apply rd_wr_same_small. apply hdr_fits; lia. }
    rstep ltac:(eapply GET_FOOTER_hdr; [exact Hhb1|exact Hh2|exact Hbsz8|lia|lia]).
    rstep ltac:(apply WRITE_ok; unfold inb; subst s2 s1; norm; unfold h, first_hdr in *; lia).
    assert (HW3 := W_write_limbo s2 l1 l2 bsz false fl1 (h + bsz - 4)
                     (PACK bsz 1) HW2
                     ltac:(subst s2 s1; norm; fold h; lia)
                     ltac:(subst s2 s1; norm; fold h; lia)).
    set (s3 := set_mem s2 _) in *.
    assert (Hh3 : rd (mem s3) h = hdr bsz (tail_pa true l1) true).
    { subst s3; norm. rewrite rd_wr_other by lia. exact Hh2. }
    rstep ltac:(eapply SUCC_BLK_hdr; [exact Hhb1|exact Hh3|exact Hbsz8|lia|lia]).
    rewrite GET_HEADER_hdr.
    destruct (W_next_header s3 l1 l2 bsz false fl1 HW3 (no_limbo_settled _ Hnl2))
      as (Hxb & Hxr & Hx8 & Hx0 & Hx32 & Hxw).
    replace (first_hdr s3 + total l1 + bsz) with (h + bsz) in Hxb, Hxr, Hxw
      by reflexivity.
    erewrite SET_PREALLOC_ok; [|exact Hxb|exact Hxr|exact Hx8].
    specialize (Hxw true).
    set (s4 := set_mem s3 _) in *.
    apply W_claim in Hxw;
      [|subst s4 s3 s2 s1; norm; fold h; rewrite !rd_wr_other by lia;
        apply rd_wr_same_small; apply hdr_fits; lia].
    eexists. split; [reflexivity|].
    exists (mem s4), (hd 0 fl1), (l1 ++ (bsz, Allocated) :: l2), fl1.
    split; [reflexivity|].
    split; [split; [exact Hxw|split]|].
    + apply naf_app. split; [exact Hnaf1|]. simpl. split; [discriminate|].
      eapply naf_weaken; exact Hnaf2.
    + apply no_limbo_app. split; [exact Hnl1|]. apply no_limbo_cons.
      split; [left; reflexivity|exact Hnl2].
    + split; [apply total_mid|].
      split; [rewrite alloc_blocks_app; reflexivity|].
      split; [|split; [|split; [|split]]].
      * intros y Hy.
        assert (Hyr : y < h \/ h + bsz + 4 <= y).
        { destruct Hy as [Hy|Hy]; apply in_payload_range in Hy; trivial;
            unfold h in *; lia. }
        subst s4 s3 s2; norm. rewrite !wr_other_byte by lia.
        subst s1; norm. apply (frame_payload s _ m1 y Hfr1 HsL).
        apply in_payload_mid_other; [discriminate|exact Hy].
      * intros y Hy.
        subst s4 s3 s2; norm. rewrite !wr_other_byte by lia.
        subst s1; norm. apply Hfr1. apply limbo_not_links; [exact HsL|].
        apply in_limbo_mid. fold h. lia.
      * subst s4 s3; norm. rewrite !rd_wr_other by lia. exact Hh2.
      * subst s4 s3; norm. rewrite rd_wr_other by lia.
        apply rd_wr_same_small. rewrite pack_small by (trivial; lia).
        unfold W32 in *; lia.
      * unfold ESIZE, DSIZE. intros Hc. lia.
Qed.

(** * Heap extension: [_extend_heap] *)

Lemma land2_bit (w : Z) : Z.land w 2 = bit_pa (negb (Z.land w 2 =? 0)).
Proof.
  assert (H : Z.land w 2 = 0 \/ Z.land w 2 = 2).
  { change 2 with (2 ^ 1). rewrite Z.land_comm.
    assert (Hb : Z.land (2 ^ 1) w = if Z.testbit w 1 then 2 ^ 1 else 0).
    { apply Z.bits_inj'. intros n Hn. rewrite Z.land_spec, Z.pow2_bits_eqb by lia.
      destruct (Z.eqb_spec 1 n) as [<-|Hne].
      - destruct (Z.testbit w 1); [rewrite Z.pow2_bits_true by lia; reflexivity
                                  |rewrite Z.bits_0; reflexivity].
      - destruct (Z.testbit w 1);
          [rewrite Z.pow2_bits_false by lia; reflexivity
          |rewrite Z.bits_0; reflexivity]. }
    rewrite Hb. destruct (Z.testbit w 1); auto. }
  destruct H as [-> | ->]; reflexivity.
Qed.

Lemma extend_fail (s : state Z) (words : Z) :
  mem_max s < mem_brk s + Mm.extend_bytes words ->
  Mm._extend_heap words s = Done NULL s.
Proof.
  intros H. unfold Mm._extend_heap, bind, mem_sbrk.
  replace (mem_brk s + Mm.extend_bytes words <=? mem_max s) with false
    by (symmetry; apply Z.leb_gt; lia).
  rewrite andb_false_r. reflexivity.
Qed.

(** The run of [_extend_heap] up to the call of the coalescer; the text
    of the function is the same in mm.c and in part_001. *)
Ltac extend_run_steps bytes Hbrk Hm8 :=
  match goal with
  | |- bind (mem_sbrk bytes) _ ?s = _ =>
      let Hsbrk := fresh "Hsbrk" in
      assert (Hsbrk : mem_sbrk bytes s
                      = Done (heap_end s + 4) (set_brk s (mem_brk s + bytes)))
        by (unfold mem_sbrk;
            replace (0 <=? bytes) with true by (symmetry; apply Z.leb_le; lia);
            replace (mem_brk s + bytes <=? mem_max s) with true
              by (symmetry; apply Z.leb_le; lia);
            simpl; rewrite Hbrk; reflexivity);
      bstep ltac:(exact Hsbrk);
      replace (heap_end s + 4 =? SBRK_FAIL) with false
        by (symmetry; apply Z.eqb_neq; unfold SBRK_FAIL; lia);
      bstep ltac:(reflexivity);
      unfold GET_PREALLOC at 1;
      bstep ltac:(bstep ltac:(apply READ_ok; unfold inb; norm; lia); reflexivity);
      rewrite GET_HEADER_hdr;
      let w := fresh "w" in
      let pa := fresh "pa" in
      let Hhd := fresh "Hhd" in
      set (w := rd (mem s) (heap_end s));
      rewrite (land2_bit w); set (pa := negb (Z.land w 2 =? 0));
      assert (Hhd : PACK bytes (bit_pa pa) = hdr bytes pa false)
        by (rewrite pack_small by (trivial; destruct pa; simpl; lia);
            unfold hdr; simpl; lia);
      bstep ltac:(apply WRITE_ok; unfold inb; norm; lia);
      bstep ltac:(eapply (GET_FOOTER_hdr _ _ bytes pa false);
                  [unfold inb; norm; lia
                  |norm; rewrite Hhd; apply rd_wr_same_small; apply hdr_fits; lia
                  |exact Hm8|lia|lia]);
      bstep ltac:(apply WRITE_ok; unfold inb; norm; lia);
      bstep ltac:(eapply (SUCC_BLK_hdr _ _ bytes pa false);
                  [unfold inb; norm; lia
                  |norm; rewrite rd_wr_other by lia; rewrite Hhd;
                   apply rd_wr_same_small; apply hdr_fits; lia
                  |exact Hm8|lia|lia]);
      rewrite GET_HEADER_hdr;
      bstep ltac:(reflexivity);
      bstep ltac:(reflexivity);
      bstep ltac:(apply WRITE_ok; unfold inb; norm; lia);
      unfold extended_state; fold w; rewrite (land2_bit w); fold pa; reflexivity
  end.

Lemma extend_run (s : state Z) (words : Z) :
  let bytes := Mm.extend_bytes words in
  0 < mem_lo s -> mem_lo s <= heap_end s -> mem_brk s = heap_end s + 4 ->
  mem_brk s + bytes <= mem_max s ->
  8 <= bytes -> bytes mod 8 = 0 -> bytes + 8 <= W32 ->
  Mm._extend_heap words s
  = Mm._merge_free_blocks (heap_end s + 4) (extended_state s bytes).
Proof.
  intros bytes Hlo Hhe Hbrk Hmax H8 Hm8 H32.
  unfold Mm._extend_heap. fold bytes.
  extend_run_steps bytes Hbrk Hm8.
Qed.

Lemma Seg_extend_run (s : state Seg.heads) (words : Z) :
  let bytes := Mm.extend_bytes words in
  0 < mem_lo s -> mem_lo s <= heap_end s -> mem_brk s = heap_end s + 4 ->
  mem_brk s + bytes <= mem_max s ->
  8 <= bytes -> bytes mod 8 = 0 -> bytes + 8 <= W32 ->
  Seg._extend_heap words s
  = Seg._merge_free_blocks (heap_end s + 4) (extended_state s bytes).
Proof.
  intros bytes Hlo Hhe Hbrk Hmax H8 Hm8 H32.
  unfold Seg._extend_heap. fold bytes.
  extend_run_steps bytes Hbrk Hm8.
Qed.

Lemma extend_spec (s : state Z) (bs : list block) (fl : list Z) (words : Z) :
  let bytes := Mm.extend_bytes words in
  Rep s bs fl ->
  mem_brk s + bytes <= mem_max s -> 16 <= bytes -> bytes mod 8 = 0 ->
  exists r s',
    Mm._extend_heap words s = Done r s' /\ extended s bs bytes r s'.
Proof.
  intros bytes (HW & Hnaf & Hnl) Hmax H16 Hm8.
  pose proof (W_sizes _ _ _ HW) as Hs.
  pose proof (W_bounds _ _ _ HW) as (Ht0 & Htb & Ht32 & _).
  destruct HW as (Hsc & Hb & He & Hd & Hh & HP).
  pose proof Hsc as (Hlo & Hhp & Hend & Hbrk & _ & H32).
  assert (Hb32 : bytes + 8 <= W32) by lia.
  rewrite extend_run by (trivial; lia). fold bytes.
  set (s4 := extended_state s bytes).
  assert (Hpre : Z.land (rd (mem s) (heap_end s)) 2 = bit_pa (tail_pa true bs))
    by (rewrite He; apply hdr_prealloc; reflexivity).
  assert (Hhdv : PACK bytes (bit_pa (tail_pa true bs)) = hdr bytes (tail_pa true bs) false).
  { rewrite pack_small by (trivial; destruct (tail_pa true bs); simpl; lia).
    unfold hdr. simpl. lia. }
  assert (Hmem : mem s4 = wr (wr (wr (mem s) (heap_end s) (hdr bytes (tail_pa true bs) false))
                                 (heap_end s + bytes - 4) bytes)
                             (heap_end s + bytes) 1).
  { unfold s4, extended_state. cbn [mem]. rewrite Hpre, Hhdv.
    rewrite pack_small by (trivial; lia). rewrite Z.add_0_r. reflexivity. }
  assert (Hold : forall y, y < heap_end s -> mem s4 y = mem s y).
  { intros y Hy. rewrite Hmem. rewrite !wr_other_byte by lia. reflexivity. }
  assert (Efh : first_hdr s4 = first_hdr s) by reflexivity.
  assert (Ehp : heap_ptr s4 = heap_ptr s) by reflexivity.
  assert (HW4 : W s4 (bs ++ [(bytes, Limbo false)]) fl).
  { unfold W. rewrite Efh, Ehp.
    split; [|split; [|split; [|split; [|split]]]].
    - unfold scalars_ok, s4, extended_state.
      cbn [mem_lo mem_brk mem_max heap_ptr heap_end].
      rewrite total_app. cbn [total]. lia.
    - apply blocks_app. split.
      + eapply blocks_frame; [|exact Hb]. intros y Hy. apply Hold.
        apply meta_range in Hy; trivial. unfold first_hdr in *. lia.
      + simpl. repeat split; trivial.
    - rewrite tail_pa_app. cbn [tail_pa next_pa].
      replace (heap_end s4) with (heap_end s + bytes) by reflexivity.
      rewrite Hmem. apply rd_wr_same_small. apply hdr_fits; unfold W32; lia.
    - eapply dllseg_frame; [|exact Hd]. intros q y Hq Hy. apply Hold.
      assert (Hq' : In q (free_ptrs (first_hdr s) bs))
        by (eapply Permutation_in; eassumption).
      apply free_ptrs_range in Hq'; trivial. unfold first_hdr in *. lia.
    - exact Hh.
    - rewrite free_ptrs_app. simpl. rewrite app_nil_r. exact HP. }
  assert (Ehe : first_hdr s4 + total bs = heap_end s)
    by (rewrite Efh; unfold first_hdr in *; lia).
  destruct (merge_spec s4 bs [] bytes false fl HW4) as (r & s' & Hrun & Hm).
  { rewrite Ehe, Hmem. rewrite !rd_wr_other by lia.
    apply rd_wr_same_small. apply hdr_fits; lia. }
  { rewrite Ehe, Hmem. rewrite rd_wr_other by lia.
    apply rd_wr_same_small. unfold W32 in *; lia. }
  { exact Hnaf. }
  { exact I. }
  { exact Hnl. }
  { constructor. }
  cbv zeta in Hrun. rewrite Ehe in Hrun.
  exists r, s'. split; [exact Hrun|].
  destruct Hm as (m' & fb' & bs' & fl' & -> & HRep & Htot & Hab & Hfr & Hres).
  rewrite Efh in Hab, Hfr, Hres.
  exists bs', fl'. split; [exact HRep|].
  split; [reflexivity|]. split; [reflexivity|]. split; [reflexivity|].
  split; [rewrite Htot; simpl; lia|].
  split; [rewrite Hab; simpl; apply app_nil_r|].
  split.
  - intros y Hy. change (m' y = mem s y). rewrite Hfr by (left; exact Hy).
    apply Hold. apply in_payload_range in Hy; trivial. unfold first_hdr in *. lia.
  - destruct Hres as (r1 & rsz & r2 & E1 & E2 & E3 & _).
    exists r1, rsz, r2. repeat split; assumption.
Qed.

Section ChainSteps.
Context {F : Type}.
Implicit Types (s : state F).

Lemma chain_size s q n r :
  chain s q ((q, n) :: r) -> GET_SIZE (GET_HEADER q) s = Done n s.
Proof.
  intros (_ & _ & Hb & _ & Hn & _). unfold GET_SIZE, GET_HEADER, WSIZE.
  eapply bind_intro; [apply READ_ok; exact Hb|]. rewrite Hn. reflexivity.
Qed.

Lemma chain_next s q n r :
  chain s q ((q, n) :: r) ->
  SUCC_FREE q s = Done (dec (heap_ptr s) (rd (mem s) (q + 4))) s.
Proof. intros (_ & _ & _ & Hb & _). apply SUCC_FREE_ok. exact Hb. Qed.
End ChainSteps.

Lemma allocate_loop_scan (s : state Z) (size : Z) (l : list (Z * Z)) :
  forall (fuel : nat) (head best bsz fit nfit : Z),
    chain s head l -> (length l <= fuel)%nat ->
    Mm._allocate_loop fuel size head best bsz fit nfit s
    = Done (scan size l best bsz fit nfit) s.
Proof.
  induction l as [|[q n] r IH]; intros fuel head best bsz fit nfit Hc Hf.
  - simpl in Hc. subst head.
    destruct fuel; simpl; destruct (best =? NULL) eqn:E; simpl; trivial;
      apply Z.eqb_eq in E; rewrite E; reflexivity.
  - pose proof Hc as (-> & Hq & _).
    destruct fuel as [|fuel]; [simpl in Hf; lia|].
    simpl in Hf. cbn [Mm._allocate_loop scan].
    replace (q =? NULL) with false by (symmetry; apply Z.eqb_neq; exact Hq).
    rewrite (bind_rw _ _ _ _ _ (chain_size _ _ _ _ Hc)).
    destruct (size <=? n).
    + cbv zeta. destruct (fit + 1 =? Mm.MAX_FIT); [reflexivity|].
      rewrite (bind_rw _ _ _ _ _ (chain_next _ _ _ _ Hc)).
      apply IH; [apply Hc|lia].
    + cbv zeta. destruct ((Mm.MAX_NFIT <? nfit + 1) && negb (fit =? 0));
        [reflexivity|].
      rewrite (bind_rw _ _ _ _ _ (chain_next _ _ _ _ Hc)).
      apply IH; [apply Hc|lia].
Qed.

Lemma scan_result (size : Z) (l : list (Z * Z)) :
  forall best bsz fit nfit,
    scan size l best bsz fit nfit = best \/
    exists n, In (scan size l best bsz fit nfit, n) l /\ size <= n.
Proof.
  induction l as [|[q n] r IH]; intros best bsz fit nfit; simpl; [left; reflexivity|].
  destruct (Z.leb_spec size n) as [Hfit|Hno].
  - destruct (fit + 1 =? Mm.MAX_FIT).
    + destruct ((best =? NULL) || (n <? bsz)); [right; exists n; auto|left; reflexivity].
    + destruct (IH (if (best =? NULL) || (n <? bsz) then q else best)
                   (if (best =? NULL) || (n <? bsz) then n else bsz)
                   (fit + 1) nfit) as [E|(n' & Hin & Hle)].
      * rewrite E. destruct ((best =? NULL) || (n <? bsz));
          [right; exists n; auto|left; reflexivity].
      * right. exists n'. auto.
  - destruct ((Mm.MAX_NFIT <? nfit + 1) && negb (fit =? 0)); [left; reflexivity|].
    destruct (IH best bsz fit (nfit + 1)) as [E|(n' & Hin & Hle)]; [left; exact E|].
    right. exists n'. auto.
Qed.

(** The free list of a represented heap is a chain, and its nodes are
    the free blocks. *)
Lemma W_chain (s : state Z) (bs : list block) (fl : list Z) :
  W s bs fl ->
  exists l, chain s (free_blks s) l /\ map fst l = fl /\
            forall q n, In (q, n) l -> block_at (first_hdr s) bs q n Free.
Proof.
  intros HW. pose proof (W_nodes _ _ _ HW) as Hnodes.
  pose proof (W_sizes _ _ _ HW) as Hs.
  pose proof (W_bounds _ _ _ HW) as (Ht0 & Htb & Ht32 & _).
  destruct HW as (Hsc & Hb & He & Hd & Hh & HP).
  rewrite Hh. clear Hh.
  assert (Hin : forall q, In q fl -> In q (free_ptrs (first_hdr s) bs)).
  { intros q Hq. eapply Permutation_in; eassumption. }
  clear HP. revert Hd Hnodes Hin. generalize 0 at 1 as prev.
  induction fl as [|q r IH]; intros prev Hd Hnodes Hin.
  - exists []. repeat split; trivial. intros q n [].
  - cbn [dllseg] in Hd. destruct Hd as (Hq1 & Hq2 & Hd).
    destruct Hnodes as (Hall & Hfar). inversion Hall as [|? ? Hq Hall']; subst.
    destruct (IH q Hd) as (l & Hc & Hm & Hl).
    { split; [exact Hall'|apply Hfar]. }
    { intros q' Hq'. apply Hin. right. exact Hq'. }
    destruct (block_at_free _ _ _ (Hin q (or_introl eq_refl))) as (n & Hat).
    exists ((q, n) :: l). split; [|split].
    + cbn [chain hd]. destruct Hq as (Hq0 & Hqh & Hq32 & Hqlo & Hqbrk).
      pose proof Hat as (l1 & l2 & Ebs & Eq).
      rewrite Ebs in Hb, Hs, Ht0, Htb, Ht32.
      rewrite total_mid in Ht0, Htb, Ht32.
      apply sizes_ok_mid in Hs. destruct Hs as (Hs1 & [Hn Hn8] & Hs2).
      pose proof (total_nonneg _ Hs1). pose proof (total_nonneg _ Hs2).
      apply blocks_mid in Hb. destruct Hb as (_ & _ & [Hhd _] & _).
      split; [reflexivity|]. split; [unfold NULL; lia|].
      split; [unfold inb, first_hdr in *; lia|].
      split; [unfold inb; lia|]. split.
      * replace (q - 4) with (first_hdr s + total l1) by lia.
        rewrite Hhd. apply hdr_size; trivial; lia.
      * rewrite Hq2. rewrite (dec_enc_node s).
        -- exact Hc.
        -- destruct r as [|q' r']; [left; reflexivity|right].
           inversion Hall'; assumption.
    + simpl. rewrite Hm. reflexivity.
    + intros q' n' [E|Hq']; [inversion E; subst; exact Hat|apply Hl, Hq'].
Qed.

(** [_allocate] on a represented heap: with fuel for every node of the
    free list it returns the result of [scan]. *)
Lemma allocate_spec (s : state Z) (bs : list block) (fl : list Z)
      (fuel : nat) (size : Z) :
  W s bs fl -> (length fl <= fuel)%nat ->
  exists r,
    Mm._allocate fuel size s = Done r s /\
    (r = NULL \/ exists n, block_at (first_hdr s) bs r n Free /\ size <= n).
Proof.
  intros HW Hf. destruct (W_chain _ _ _ HW) as (l & Hc & Hm & Hl).
  exists (scan size l NULL 0 0 0). split.
  - unfold Mm._allocate. rstep ltac:(reflexivity).
    apply allocate_loop_scan; [exact Hc|].
    rewrite <- Hm, length_map in Hf. exact Hf.
  - destruct (scan_result size l NULL 0 0 0) as [E|(n & Hin & Hle)];
      [left; exact E|right].
    exists n. split; [apply Hl, Hin|exact Hle].
Qed.

(** * The entry points of mm.c *)

(** ** Request sizes *)

Lemma MAX_spec (x y : Z) : MAX x y = Z.max x y.
Proof. unfold MAX. destruct (Z.ltb_spec x y); lia. Qed.

Lemma MIN_spec (x y : Z) : MIN x y = Z.min x y.
Proof. unfold MIN. destruct (Z.ltb_spec x y); lia. Qed.

Lemma adjust_eq (n : Z) :
  0 <= n < W64 ->
  Mm.adjust n = Z.max 16 (8 * (((n + 11) mod W64) / 8)).
Proof.
  intros Hn. unfold Mm.adjust. rewrite MAX_spec.
  unfold ESIZE, DSIZE, WSIZE.
  replace (n + 4 + 8 - 1) with (n + 11) by lia.
  pose proof (Z.mod_pos_bound (n + 11) W64 ltac:(unfold W64; lia)) as Hm.
  set (k := (n + 11) mod W64) in *.
  assert (0 <= k / 8) by (apply Z.div_pos; lia).
  assert (8 * (k / 8) <= k) by (apply Z.mul_div_le; lia).
  rewrite (Z.mod_small (8 * (k / 8))) by lia. reflexivity.
Qed.

Lemma adjust_facts (n : Z) :
  0 <= n < W64 ->
  16 <= Mm.adjust n /\ Mm.adjust n mod 8 = 0 /\ Mm.adjust n < W64 /\
  (n + 11 < W64 -> n + 4 <= Mm.adjust n).
Proof.
  intros Hn. rewrite adjust_eq by assumption.
  pose proof (Z.mod_pos_bound (n + 11) W64 ltac:(unfold W64; lia)) as Hm.
  set (k := (n + 11) mod W64) in *.
  assert (0 <= k / 8) by (apply Z.div_pos; lia).
  assert (8 * (k / 8) <= k) by (apply Z.mul_div_le; lia).
  split; [lia|]. split; [|split].
  - destruct (Z.max_spec 16 (8 * (k / 8))) as [[_ ->]|[_ ->]].
    + rewrite Z.mul_comm. apply Z.mod_mul. lia.
    + reflexivity.
  - unfold W64 in *. lia.
  - intros Hsmall. unfold k in *. rewrite Z.mod_small in * by lia.
    pose proof (Z.div_mod (n + 11) 8 ltac:(lia)).
    pose proof (Z.mod_pos_bound (n + 11) 8 ltac:(lia)). lia.
Qed.

Lemma extend_bytes_adjust (n : Z) :
  0 <= n < W64 -> Mm.extend_bytes (Mm.adjust n / WSIZE) = Mm.adjust n.
Proof.
  intros Hn. destruct (adjust_facts n Hn) as (H16 & H8 & H64 & _).
  set (a := Mm.adjust n) in *.
  assert (Ea : a = 8 * (a / 8)).
  { pose proof (Z.div_mod a 8 ltac:(lia)). lia. }
  assert (Ew : a / WSIZE = 2 * (a / 8)).
  { unfold WSIZE. rewrite Ea at 1.
    replace (8 * (a / 8)) with ((2 * (a / 8)) * 4) by lia.
    apply Z.div_mul. lia. }
  unfold Mm.extend_bytes. rewrite Ew.
  change 1 with (Z.ones 1). rewrite Z.land_ones by lia.
  change (2 ^ 1) with 2.
  rewrite Z.mul_comm, Z.mod_mul by lia. simpl negb. cbv iota.
  unfold WSIZE. replace (a / 8 * 2 * 4) with a by lia.
  apply Z.mod_small. lia.
Qed.

(** ** [mm_init] *)

Lemma mm_init_spec (s0 : state Z) :
  0 < mem_lo s0 -> mem_brk s0 = mem_lo s0 ->
  mem_lo s0 + 24 <= mem_max s0 -> mem_max s0 - mem_lo s0 < W32 ->
  exists s, Mm.mm_init s0 = Done 0 s /\ Rep s [] [] /\
            mem_lo s = mem_lo s0 /\ mem_max s = mem_max s0.
Proof.
  intros Hlo Hbrk Hmax H32.
  unfold Mm.mm_init, WSIZE, ESIZE, DSIZE.
  assert (Hsbrk : mem_sbrk (6 * 4) s0
                  = Done (mem_lo s0) (set_brk s0 (mem_lo s0 + 24))).
  { unfold mem_sbrk. rewrite Hbrk.
    replace (mem_lo s0 + 6 * 4 <=? mem_max s0) with true
      by (symmetry; apply Z.leb_le; lia).
    reflexivity. }
  rstep ltac:(exact Hsbrk).
  rstep ltac:(reflexivity).
  replace (mem_lo s0 =? SBRK_FAIL) with false
    by (symmetry; apply Z.eqb_neq; unfold SBRK_FAIL; lia).
  do 6 rstep ltac:(apply WRITE_ok; unfold inb; norm; lia).
  do 3 rstep ltac:(reflexivity).
  eexists. split; [reflexivity|]. split; [|split; reflexivity].
  split; [|split; constructor].
  split; [|split; [|split; [|split; [|split]]]]; norm; cbn [total].
  - unfold scalars_ok; norm. repeat split; lia.
  - exact I.
  - cbn [tail_pa]. replace (mem_lo s0 + 5 * 4) with (mem_lo s0 + 20) by lia.
    rewrite rd_wr_same_small; [reflexivity|].
    unfold PACK, W32. simpl. lia.
  - exact I.
  - reflexivity.
  - constructor.
Qed.

Lemma mm_init_fail (s0 : state Z) :
  mem_brk s0 = mem_lo s0 -> mem_max s0 < mem_lo s0 + 24 ->
  exists s, Mm.mm_init s0 = Done (-1) s.
Proof.
  intros Hbrk Hmax. unfold Mm.mm_init, WSIZE, bind, mem_sbrk.
  replace (mem_brk s0 + 6 * 4 <=? mem_max s0) with false
    by (symmetry; apply Z.leb_gt; lia).
  simpl. eexists. reflexivity.
Qed.

Lemma in_payload_alloc_eq (a : Z) (bs bs' : list block) (y : Z) :
  alloc_blocks a bs' = alloc_blocks a bs ->
  in_payload a bs y -> in_payload a bs' y.
Proof. intros E. rewrite !in_payload_iff, E. trivial. Qed.

Lemma build_allocated (s : state Z) (l1 l2 : list block) (bsz size : Z)
      (fl : list Z) :
  Rep s (l1 ++ (bsz, Free) :: l2) fl ->
  16 <= size -> size mod 8 = 0 -> size <= bsz ->
  exists s',
    Mm._build (first_hdr s + total l1 + 4) size s = Done tt s' /\
    allocated s (l1 ++ (bsz, Free) :: l2) size (first_hdr s + total l1 + 4) s'.
Proof.
  intros HRep H16 H8 Hle.
  destruct (build_spec s l1 l2 bsz size fl HRep H16 H8 Hle) as (s' & Hrun & Hb).
  exists s'. split; [exact Hrun|].
  destruct Hb as (m' & fb' & bs' & fl' & -> & HRep' & Htot & Hab & Hfr & Hown & _ & Hft).
  pose proof (W_sizes _ _ _ (Rep_W _ _ _ HRep)) as Hs.
  apply sizes_ok_mid in Hs. destruct Hs as (Hs1 & [Hbsz _] & Hs2).
  pose proof (total_nonneg _ Hs1).
  destruct HRep as (((Hlo & _) & _) & _).
  split; [unfold NULL, first_hdr; lia|].
  exists bs', fl', (built_size bsz size).
  split; [exact HRep'|]. split; [reflexivity|]. split; [reflexivity|].
  split; [unfold built_size; destruct (ESIZE <? bsz - size); lia|].
  split.
  - norm. rewrite Hab, alloc_blocks_mid_other by discriminate.
    apply Permutation_sym, Permutation_middle.
  - intros y Hy. norm. apply Hfr.
    apply in_payload_mid_other in Hy; [exact Hy|discriminate].
Qed.

Lemma malloc_spec (s : state Z) (bs : list block) (fl : list Z)
      (fuel : nat) (n : Z) :
  Rep s bs fl -> (length fl <= fuel)%nat -> 0 < n < W64 ->
  exists p s',
    Mm.malloc fuel n s = Done p s' /\
    ((p = NULL /\ s' = s /\ mem_max s < mem_brk s + Mm.adjust n) \/
     allocated s bs (Mm.adjust n) p s').
Proof.
  intros HRep Hfuel Hn.
  destruct (adjust_facts n ltac:(lia)) as (H16 & H8 & H64 & _).
  unfold Mm.malloc.
  replace (n =? 0) with false by (symmetry; apply Z.eqb_neq; lia).
  cbv zeta.
  destruct (allocate_spec s bs fl fuel (Mm.adjust n) (Rep_W _ _ _ HRep) Hfuel)
    as (r & Hrun & Hr).
  rstep ltac:(exact Hrun).
  destruct Hr as [-> | (nq & (l1 & l2 & -> & ->) & Hle)].
  - (* no fit: extend the heap *)
    change (negb (NULL =? NULL)) with false. cbv iota.
    destruct (Z_le_gt_dec (mem_brk s + Mm.adjust n) (mem_max s)) as [Hroom|Hfull].
    + destruct (extend_spec s bs fl (Mm.adjust n / WSIZE) HRep) as (r & s1 & Hrun1 & Hext);
        rewrite ?extend_bytes_adjust by lia; trivial.
      rewrite extend_bytes_adjust in Hext by lia.
      rstep ltac:(exact Hrun1).
      destruct Hext as (bs1 & fl1 & HRep1 & Hlo1 & Hmax1 & Hbrk1 & Htot1 & Hab1
                        & Hfr1 & r1 & rsz & r2 & -> & -> & Hrsz).
      assert (Efh : first_hdr s1 = first_hdr s) by (unfold first_hdr; lia).
      rewrite <- Efh.
      destruct (build_allocated s1 r1 r2 rsz (Mm.adjust n) fl1 HRep1 H16 H8 Hrsz)
        as (s2 & Hrun2 & Hal).
      destruct Hal as (Hp & bs2 & fl2 & cap & HRep2 & Hlo2 & Hmax2 & Hcap & HP2
                       & Hfr2).
      replace (first_hdr s1 + total r1 + 4 =? NULL) with false
        by (symmetry; apply Z.eqb_neq; exact Hp).
      rstep ltac:(exact Hrun2).
      eexists _, _. split; [reflexivity|]. right.
      split; [exact Hp|].
      exists bs2, fl2, cap.
      split; [exact HRep2|]. split; [lia|]. split; [lia|]. split; [exact Hcap|].
      rewrite Efh in *.
      split; [rewrite <- Hab1; exact HP2|].
      intros y Hy. rewrite Hfr2, Hfr1; trivial.
      eapply in_payload_alloc_eq; eassumption.
    + rstep ltac:(apply extend_fail; rewrite extend_bytes_adjust by lia; lia).
      change (NULL =? NULL) with true. cbv iota.
      eexists _, _. split; [reflexivity|]. left. repeat split; lia.
  - destruct (build_allocated s l1 l2 nq (Mm.adjust n) fl HRep H16 H8 Hle)
      as (s2 & Hrun2 & Hal).
    pose proof Hal as (Hp & _).
    replace (negb (first_hdr s + total l1 + 4 =? NULL)) with true
      by (symmetry; apply negb_true_iff, Z.eqb_neq; exact Hp).
    rstep ltac:(exact Hrun2).
    eexists _, _. split; [reflexivity|]. right. exact Hal.
Qed.

Lemma free_spec (s : state Z) (bs : list block) (fl : list Z) (p sz : Z) :
  Rep s bs fl -> block_at (first_hdr s) bs p sz Allocated ->
  exists s', Mm.free p s = Done tt s' /\ freed s bs p sz s'.
Proof.
  intros (HW & Hnaf & Hnl) (l1 & l2 & -> & ->).
  pose proof (W_sizes _ _ _ HW) as Hs.
  pose proof (W_bounds _ _ _ HW) as (Ht0 & Htb & Ht32 & Hmax).
  rewrite total_mid in Ht0, Htb, Ht32.
  apply sizes_ok_mid in Hs. destruct Hs as (Hs1 & [Hsz Hsz8] & Hs2).
  pose proof (total_nonneg _ Hs1) as Ht1. pose proof (total_nonneg _ Hs2) as Ht2.
  apply naf_app in Hnaf. destruct Hnaf as [Hnaf1 [_ Hnaf2]]. simpl next_pa in Hnaf2.
  apply no_limbo_app in Hnl. destruct Hnl as [Hnl1 Hnl2].
  apply no_limbo_cons in Hnl2. destruct Hnl2 as [_ Hnl2].
  pose proof HW as (_ & Hb & _).
  apply blocks_mid in Hb. destruct Hb as (_ & _ & Hhdr & _).
  set (h := first_hdr s + total l1) in *.
  assert (Hhb : inb s h) by (unfold inb, h, first_hdr; lia).
  assert (Hp0 : (h + 4 =? NULL) = false).
  { apply Z.eqb_neq. destruct HW as ((Hlo & _) & _).
    unfold NULL, h, first_hdr. lia. }
  unfold Mm.free. rewrite Hp0, ?GET_HEADER_hdr.
  rstep ltac:(eapply GET_SIZE_ok; [exact Hhb|exact Hhdr|exact Hsz8|lia|lia]).
  rstep ltac:(eapply GET_PREALLOC_ok; [exact Hhb|exact Hhdr|exact Hsz8]).
  apply W_forget_alloc in HW.
  assert (Hhv : PACK sz (bit_pa (tail_pa true l1)) = hdr sz (tail_pa true l1) false).
  { rewrite pack_small by (trivial; destruct (tail_pa true l1); simpl; lia).
    unfold hdr. simpl. lia. }
  rewrite Hhv, (pack_small sz 0), Z.add_0_r by (trivial; lia).
  rstep ltac:(apply WRITE_ok; exact Hhb).
  assert (HW2 := W_write_limbo s l1 l2 sz true fl h
                   (hdr sz (tail_pa true l1) false) HW
                   ltac:(fold h; lia) ltac:(fold h; lia)).
  set (s2 := set_mem s _) in *.
  assert (Hh2 : rd (mem s2) h = hdr sz (tail_pa true l1) false).
  { subst s2; norm. apply rd_wr_same_small. apply hdr_fits; lia. }
  rstep ltac:(eapply GET_FOOTER_hdr; [exact Hhb|exact Hh2|exact Hsz8|lia|lia]).
  rstep ltac:(apply WRITE_ok; unfold inb; subst s2; norm; unfold h, first_hdr in *; lia).
  assert (HW3 := W_write_limbo s2 l1 l2 sz true fl (h + sz - 4) sz HW2
                   ltac:(subst s2; norm; fold h; lia)
                   ltac:(subst s2; norm; fold h; lia)).
  set (s3 := set_mem s2 _) in *.
  destruct (merge_spec s3 l1 l2 sz true fl HW3) as (r & s' & Hrun & Hm);
    trivial.
  { subst s3 s2; norm. fold h. rewrite rd_wr_other by lia.
    apply rd_wr_same_small. apply hdr_fits; lia. }
  { subst s3 s2; norm. fold h. apply rd_wr_same_small. unfold W32 in *; lia. }
  cbv zeta in Hrun.
  replace (first_hdr s3) with (first_hdr s) in Hrun by reflexivity.
  fold h in Hrun.
  rstep ltac:(exact Hrun).
  eexists. split; [reflexivity|].
  destruct Hm as (m' & fb' & bs' & fl' & -> & HRep & Htot & Hab & Hfr & _).
  replace (first_hdr s3) with (first_hdr s) in Hab, Hfr by reflexivity.
  fold h in Hab, Hfr.
  exists bs', fl'. split; [exact HRep|].
  split; [reflexivity|]. split; [reflexivity|]. split; [reflexivity|].
  norm. split.
  - rewrite Hab, alloc_blocks_mid_alloc. fold h. apply Permutation_middle.
  - intros y Hy. change (m' y = mem s y).
    assert (Hy' : in_payload (first_hdr s) l1 y \/ in_payload (h + sz) l2 y).
    { apply in_payload_iff in Hy. rewrite Hab in Hy.
      destruct Hy as (q & n & Hin & Hq). apply in_app_or in Hin.
      destruct Hin; [left|right]; apply in_payload_iff; eauto. }
    rewrite Hfr by exact Hy'.
    assert (Hyr : y < h \/ h + sz + 4 <= y).
    { destruct Hy' as [Hy'|Hy']; apply in_payload_range in Hy'; trivial;
        unfold h in *; lia. }
    subst s3 s2; norm. rewrite !wr_other_byte by lia. reflexivity.
Qed.

Lemma free_null (s : state Z) : Mm.free NULL s = Done tt s.
Proof. reflexivity. Qed.

(** ** Client stores into a payload *)

Lemma store_spec (s : state Z) (bs : list block) (fl : list Z) (y v : Z) :
  Rep s bs fl -> in_payload (first_hdr s) bs y ->
  Rep (set_mem s (store_byte (mem s) y v)) bs fl.
Proof.
  intros (HW & Hnaf & Hnl) Hy. split; [|split; assumption].
  pose proof (W_sizes _ _ _ HW) as Hs.
  apply W_frame; trivial.
  - intros y' Hy'. apply store_byte_other. intros ->.
    exact (payload_not_meta _ _ _ Hs Hy Hy').
  - intros y' Hy'. apply store_byte_other. intros ->.
    exact (payload_not_links _ _ _ Hs Hy Hy').
  - intros y' Hy'. apply store_byte_other. intros ->.
    apply in_payload_range in Hy; trivial.
    destruct HW as ((_ & _ & Hend & _) & _). unfold first_hdr in *. lia.
Qed.

Lemma free_ptrs_length (a : Z) (bs : list block) :
  sizes_ok bs -> 16 * Z.of_nat (length (free_ptrs a bs)) <= total bs.
Proof.
  revert a; induction bs as [|[sz t] r IH]; intros a Hs;
    cbn [free_ptrs total length]; [lia|].
  apply sizes_ok_cons in Hs. destruct Hs as [[Hsz _] Hs].
  specialize (IH (a + sz) Hs).
  destruct t; cbn [app length]; lia.
Qed.

Lemma W_fuel (s : state Z) (bs : list block) (fl : list Z) :
  W s bs fl -> (length fl <= heap_fuel s)%nat.
Proof.
  intros HW. pose proof (W_sizes _ _ _ HW) as Hs.
  pose proof (W_bounds _ _ _ HW) as (Ht0 & Htb & _).
  destruct HW as (_ & _ & _ & _ & _ & HP).
  rewrite (Permutation_length HP).
  pose proof (free_ptrs_length (first_hdr s) bs Hs).
  unfold heap_fuel. lia.
Qed.

(** * [memcpy], [memset] and the payloads *)

Lemma copy_bytes_other (n : nat) :
  forall m dst src y,
    y < dst \/ dst + Z.of_nat n <= y -> copy_bytes n m dst src y = m y.
Proof.
  induction n as [|k IH]; intros m dst src y Hy; [reflexivity|].
  cbn [copy_bytes]. rewrite IH by lia. apply store_byte_other. lia.
Qed.

Lemma copy_bytes_at (n : nat) :
  forall m dst src i,
    src + Z.of_nat n <= dst \/ dst + Z.of_nat n <= src ->
    0 <= i < Z.of_nat n ->
    copy_bytes n m dst src (dst + i) = byte_at m (src + i).
Proof.
  induction n as [|k IH]; intros m dst src i Hd Hi; [lia|].
  cbn [copy_bytes]. destruct (Z.eq_dec i 0) as [->|Hne].
  - rewrite !Z.add_0_r. rewrite copy_bytes_other by lia.
    apply store_byte_same.
  - replace (dst + i) with (dst + 1 + (i - 1)) by lia.
    rewrite IH by lia. unfold byte_at.
    replace (src + 1 + (i - 1)) with (src + i) by lia.
    rewrite store_byte_other by lia. reflexivity.
Qed.

Lemma fill_bytes_other (n : nat) :
  forall m dst c y,
    y < dst \/ dst + Z.of_nat n <= y -> fill_bytes n m dst c y = m y.
Proof.
  induction n as [|k IH]; intros m dst c y Hy; [reflexivity|].
  cbn [fill_bytes]. rewrite IH by lia. apply store_byte_other. lia.
Qed.

Lemma fill_bytes_at (n : nat) :
  forall m dst c i,
    0 <= i < Z.of_nat n -> fill_bytes n m dst c (dst + i) = c mod 256.
Proof.
  induction n as [|k IH]; intros m dst c i Hi; [lia|].
  cbn [fill_bytes]. destruct (Z.eq_dec i 0) as [->|Hne].
  - rewrite Z.add_0_r. rewrite fill_bytes_other by lia. apply store_byte_same.
  - replace (dst + i) with (dst + 1 + (i - 1)) by lia. apply IH. lia.
Qed.

(** Any change confined to payload bytes keeps the representation. *)
Lemma Rep_payload_change (s : state Z) (bs : list block) (fl : list Z)
      (m' : memory) :
  Rep s bs fl ->
  (forall y, ~ in_payload (first_hdr s) bs y -> m' y = mem s y) ->
  Rep (set_mem s m') bs fl.
Proof.
  intros (HW & Hnaf & Hnl) Hm. split; [|split; assumption].
  pose proof (W_sizes _ _ _ HW) as Hs.
  apply W_frame; trivial.
  - intros y Hy. apply Hm. intros Hp. exact (payload_not_meta _ _ _ Hs Hp Hy).
  - intros y Hy. apply Hm. intros Hp. exact (payload_not_links _ _ _ Hs Hp Hy).
  - intros y Hy. apply Hm. intros Hp. apply in_payload_range in Hp; trivial.
    destruct HW as ((_ & _ & Hend & _) & _). unfold first_hdr in *. lia.
Qed.

(** Allocated blocks do not overlap. *)
Lemma alloc_blocks_bounds (a : Z) (bs : list block) (p n : Z) :
  sizes_ok bs -> In (p, n) (alloc_blocks a bs) ->
  a + 4 <= p /\ p - 4 + n <= a + total bs /\ 16 <= n /\ n mod 8 = 0 /\
  (p - a - 4) mod 8 = 0.
Proof.
  intros Hs Hin. apply alloc_blocks_at in Hin.
  destruct Hin as (l1 & l2 & -> & ->).
  apply sizes_ok_mid in Hs. destruct Hs as (Hs1 & [Hn Hn8] & Hs2).
  pose proof (total_nonneg _ Hs1). pose proof (total_nonneg _ Hs2).
  rewrite total_mid.
  replace (a + total l1 + 4 - a - 4) with (total l1) by lia.
  pose proof (total_mod8 _ Hs1). repeat split; trivial; lia.
Qed.

Lemma alloc_blocks_disjoint (a : Z) (bs : list block) (p n q k : Z) :
  sizes_ok bs ->
  In (p, n) (alloc_blocks a bs) -> In (q, k) (alloc_blocks a bs) ->
  p = q \/ p - 4 + n <= q - 4 \/ q - 4 + k <= p - 4.
Proof.
  revert a; induction bs as [|[sz t] r IH]; intros a Hs Hp Hq; simpl in *.
  - contradiction.
  - apply sizes_ok_cons in Hs. destruct Hs as [[Hsz _] Hs].
    apply in_app_or in Hp. apply in_app_or in Hq.
    destruct Hp as [Hp|Hp], Hq as [Hq|Hq].
    + destruct t; simpl in *; try contradiction.
      destruct Hp as [Hp|[]], Hq as [Hq|[]]. left. congruence.
    + destruct t; simpl in Hp; try contradiction. destruct Hp as [Hp|[]].
      inversion Hp; subst. pose proof (alloc_blocks_bounds _ _ _ _ Hs Hq). lia.
    + destruct t; simpl in Hq; try contradiction. destruct Hq as [Hq|[]].
      inversion Hq; subst. pose proof (alloc_blocks_bounds _ _ _ _ Hs Hp). lia.
    + exact (IH _ Hs Hp Hq).
Qed.

Lemma alloc_blocks_fun (a : Z) (bs : list block) (p n k : Z) :
  sizes_ok bs ->
  In (p, n) (alloc_blocks a bs) -> In (p, k) (alloc_blocks a bs) -> n = k.
Proof.
  revert a; induction bs as [|[sz t] r IH]; intros a Hs Hp Hq; simpl in *.
  - contradiction.
  - apply sizes_ok_cons in Hs. destruct Hs as [[Hsz _] Hs].
    apply in_app_or in Hp. apply in_app_or in Hq.
    destruct Hp as [Hp|Hp], Hq as [Hq|Hq].
    + destruct t; simpl in *; try contradiction.
      destruct Hp as [Hp|[]], Hq as [Hq|[]]. congruence.
    + destruct t; simpl in Hp; try contradiction. destruct Hp as [Hp|[]].
      inversion Hp; subst. pose proof (alloc_blocks_bounds _ _ _ _ Hs Hq). lia.
    + destruct t; simpl in Hq; try contradiction. destruct Hq as [Hq|[]].
      inversion Hq; subst. pose proof (alloc_blocks_bounds _ _ _ _ Hs Hp). lia.
    + exact (IH _ Hs Hp Hq).
Qed.

(** The header of an allocated block of a represented heap. *)
Lemma Rep_alloc_header (s : state Z) (bs : list block) (fl : list Z) (p n : Z) :
  Rep s bs fl -> In (p, n) (alloc_blocks (first_hdr s) bs) ->
  inb s (p - 4) /\ p - 4 + n + 4 <= mem_brk s /\ mem_lo s + 24 <= p /\
  16 <= n /\ n mod 8 = 0 /\ n + 8 <= W32 /\
  exists pa, rd (mem s) (p - 4) = hdr n pa true.
Proof.
  intros (HW & _) Hin.
  pose proof (W_sizes _ _ _ HW) as Hs.
  pose proof (W_bounds _ _ _ HW) as (Ht0 & Htb & Ht32 & _).
  pose proof (alloc_blocks_bounds _ _ _ _ Hs Hin) as (H1 & H2 & H3 & H4 & _).
  apply alloc_blocks_at in Hin. destruct Hin as (l1 & l2 & E & ->).
  destruct HW as (_ & Hb & _). rewrite E in Hb.
  apply blocks_mid in Hb. destruct Hb as (_ & _ & Hh & _).
  unfold inb, first_hdr in *.
  split; [lia|]. split; [lia|]. split; [lia|]. split; [lia|].
  split; [exact H4|]. split; [lia|].
  exists (tail_pa true l1).
  replace (mem_lo s + 20 + total l1 + 4 - 4) with (mem_lo s + 20 + total l1) by lia.
  exact Hh.
Qed.

Lemma Rep_GET_SIZE (s : state Z) (bs : list block) (fl : list Z) (p n : Z) :
  Rep s bs fl -> In (p, n) (alloc_blocks (first_hdr s) bs) ->
  GET_SIZE (GET_HEADER p) s = Done n s.
Proof.
  intros HRep Hin.
  destruct (Rep_alloc_header _ _ _ _ _ HRep Hin)
    as (Hb & _ & _ & H16 & H8 & H32 & pa & Hh).
  unfold GET_HEADER, WSIZE. eapply GET_SIZE_ok; try eassumption. lia.
Qed.

Lemma alloc_ptrs_NoDup (a : Z) (bs : list block) :
  sizes_ok bs -> NoDup (alloc_ptrs a bs).
Proof.
  revert a; induction bs as [|[sz t] r IH]; intros a Hs; simpl.
  - constructor.
  - apply sizes_ok_cons in Hs. destruct Hs as [[Hsz _] Hs].
    destruct t; simpl; try (apply IH; exact Hs).
    constructor; [|apply IH; exact Hs].
    rewrite alloc_ptrs_blocks. intros Hin. apply in_map_iff in Hin.
    destruct Hin as ([p n] & E & Hin). simpl in E. subst p.
    pose proof (alloc_blocks_bounds _ _ _ _ Hs Hin). lia.
Qed.

(** * [realloc] and [calloc] *)

Lemma copy_length_eq (osz nsz : Z) :
  16 <= osz -> 16 <= nsz -> osz < W64 -> nsz < W64 ->
  Mm.copy_length osz nsz = Z.min (osz - 4) (nsz - 4).
Proof.
  intros. unfold Mm.copy_length, WSIZE. rewrite MIN_spec.
  rewrite Z.mod_small by lia. lia.
Qed.

Lemma W32_lt_W64 : W32 < W64.
Proof. reflexivity. Qed.

Lemma realloc_spec (s : state Z) (bs : list block) (fl : list Z)
      (fuel : nat) (p psz n : Z) :
  Rep s bs fl -> In (p, psz) (alloc_blocks (first_hdr s) bs) ->
  (length fl <= fuel)%nat -> 0 < n < W64 ->
  (Mm.realloc fuel p n s = Fault /\ mem_max s < mem_brk s + Mm.adjust n) \/
  exists q s', Mm.realloc fuel p n s = Done q s' /\ reallocated s bs p psz n q s'.
Proof.
  intros HRep Hin Hfuel Hn.
  pose proof W32_lt_W64 as HW.
  destruct (Rep_alloc_header _ _ _ _ _ HRep Hin)
    as (Hpb & Hpbrk & Hplo & Hp16 & Hp8 & Hp32 & _).
  pose proof HRep as (((Hlo & _) & _) & _).
  unfold Mm.realloc.
  replace (n =? 0) with false by (symmetry; apply Z.eqb_neq; lia).
  replace (p =? NULL) with false by (symmetry; apply Z.eqb_neq; unfold NULL; lia).
  destruct (malloc_spec s bs fl fuel n HRep Hfuel Hn)
    as (q & s1 & Hrun1 & [(-> & -> & Hoom)|Hal]).
  - left. split; [|exact Hoom].
    rstep ltac:(exact Hrun1).
    rstep ltac:(eapply Rep_GET_SIZE; eassumption).
    unfold GET_HEADER, GET_SIZE, READ, NULL, WSIZE, bind, in_heap.
    replace (mem_lo s <=? 0 - 4) with false by (symmetry; apply Z.leb_gt; lia).
    reflexivity.
  - right. destruct Hal as (Hq & bs1 & fl1 & cap & HRep1 & Hlo1 & Hmax1 & Hcap
                            & HP1 & Hfr1).
    assert (Efh : first_hdr s1 = first_hdr s) by (unfold first_hdr; lia).
    rewrite <- Efh in HP1.
    pose proof (W_sizes _ _ _ (Rep_W _ _ _ HRep1)) as Hs1.
    assert (Hin1 : In (p, psz) (alloc_blocks (first_hdr s1) bs1)).
    { eapply Permutation_in; [apply Permutation_sym; exact HP1|].
      right. rewrite Efh. exact Hin. }
    assert (Hqin1 : In (q, cap) (alloc_blocks (first_hdr s1) bs1)).
    { eapply Permutation_in; [apply Permutation_sym; exact HP1|]. left. reflexivity. }
    assert (Hqp : q <> p).
    { intros ->.
      pose proof (alloc_ptrs_NoDup (first_hdr s1) bs1 Hs1) as Hnd.
      rewrite alloc_ptrs_blocks in Hnd.
      eapply Permutation_NoDup in Hnd; [|apply Permutation_map; exact HP1].
      simpl in Hnd. inversion Hnd as [|? ? Hni _]; subst. apply Hni.
      rewrite Efh. apply (in_map fst _ _ Hin). }
    destruct (Rep_alloc_header _ _ _ _ _ HRep1 Hqin1)
      as (Hqb & Hqbrk & Hqlo & Hq16 & Hq8 & Hq32 & _).
    destruct (Rep_alloc_header _ _ _ _ _ HRep1 Hin1) as (_ & Hpbrk1 & _).
    rstep ltac:(exact Hrun1).
    rstep ltac:(eapply Rep_GET_SIZE; eassumption).
    rstep ltac:(eapply Rep_GET_SIZE; eassumption).
    rewrite copy_length_eq by lia.
    set (len := Z.min (psz - 4) (cap - 4)).
    assert (Hlen : 12 <= len /\ len <= psz - 4 /\ len <= cap - 4) by (unfold len; lia).
    assert (Hdisj : p + len <= q \/ q + len <= p).
    { destruct (alloc_blocks_disjoint _ _ _ _ _ _ Hs1 Hin1 Hqin1) as [E|H];
        [congruence|lia]. }
    set (m2 := copy_bytes (Z.to_nat len) (mem s1) q p).
    assert (Hcpy : memcpy q p len s1 = Done tt (set_mem s1 m2)).
    { unfold memcpy.
      replace (len =? 0) with false by (symmetry; apply Z.eqb_neq; lia).
      rewrite !in_heap_true by lia. reflexivity. }
    rstep ltac:(exact Hcpy).
    assert (HRep2 : Rep (set_mem s1 m2) bs1 fl1).
    { apply Rep_payload_change; [exact HRep1|].
      intros y Hy. unfold m2. apply copy_bytes_other.
      rewrite Z2Nat.id by lia.
      destruct (Z_lt_dec y q); [left; assumption|].
      destruct (Z_le_dec (q + len) y); [right; assumption|].
      exfalso. apply Hy. apply in_payload_iff. exists q, cap.
      split; [exact Hqin1|lia]. }
    destruct (free_spec (set_mem s1 m2) bs1 fl1 p psz HRep2) as (s3 & Hrun3 & Hfreed).
    { apply alloc_blocks_at. exact Hin1. }
    rstep ltac:(exact Hrun3).
    eexists _, _. split; [reflexivity|].
    destruct Hfreed as (bs3 & fl3 & HRep3 & Hlo3 & Hmax3 & _ & HP3 & Hfr3).
    norm. rewrite ?first_hdr_set_mem in *.
    split; [exact Hq|]. split; [exact Hqp|].
    exists bs3, fl3, cap.
    split; [exact HRep3|]. split; [lia|]. split; [lia|]. split; [exact Hcap|].
    rewrite Efh in *.
    split; [eapply Permutation_trans; eassumption|].
    fold len. intros i Hi.
    assert (Hq3 : In (q, cap) (alloc_blocks (first_hdr s) bs3)).
    { assert (H : In (q, cap) ((p, psz) :: alloc_blocks (first_hdr s) bs3))
        by (eapply Permutation_in; [apply Permutation_sym; exact HP3|exact Hqin1]).
      destruct H as [E|H]; [inversion E; congruence|exact H]. }
    unfold byte_at. rewrite Hfr3
      by (apply in_payload_iff; exists q, cap; split; [exact Hq3|lia]).
    unfold m2. rewrite copy_bytes_at by (rewrite Z2Nat.id by lia; lia).
    unfold byte_at. rewrite Z.mod_mod by lia.
    rewrite Hfr1; [reflexivity|].
    apply in_payload_iff. exists p, psz. split; [exact Hin|lia].
Qed.

Lemma calloc_spec (s : state Z) (bs : list block) (fl : list Z)
      (fuel : nat) (nmemb size : Z) :
  let bytes := (nmemb * size) mod W64 in
  Rep s bs fl -> (length fl <= fuel)%nat ->
  Mm.calloc fuel nmemb size s = Fault \/
  (bytes = 0 /\ Mm.calloc fuel nmemb size s = Done NULL s) \/
  exists q s', Mm.calloc fuel nmemb size s = Done q s' /\
               zero_allocated s bs bytes q s'.
Proof.
  intros bytes HRep Hfuel. unfold Mm.calloc. fold bytes.
  pose proof (Z.mod_pos_bound (nmemb * size) W64 ltac:(unfold W64; lia)) as Hb.
  fold bytes in Hb.
  pose proof HRep as (((Hlo & _) & _) & _).
  destruct (Z.eq_dec bytes 0) as [E0|Hne].
  - right. left. split; [exact E0|]. rewrite E0. reflexivity.
  - destruct (malloc_spec s bs fl fuel bytes HRep Hfuel ltac:(lia))
      as (q & s1 & Hrun1 & [(-> & -> & Hoom)|Hal]).
    + left. rstep ltac:(exact Hrun1).
      unfold memset, bind, in_heap, NULL.
      replace (bytes =? 0) with false by (symmetry; apply Z.eqb_neq; lia).
      replace (mem_lo s <=? 0) with false by (symmetry; apply Z.leb_gt; lia).
      reflexivity.
    + destruct Hal as (Hq & bs1 & fl1 & cap & HRep1 & Hlo1 & Hmax1 & Hcap
                       & HP1 & Hfr1).
      assert (Efh : first_hdr s1 = first_hdr s) by (unfold first_hdr; lia).
      rewrite <- Efh in HP1.
      assert (Hqin1 : In (q, cap) (alloc_blocks (first_hdr s1) bs1)).
      { eapply Permutation_in; [apply Permutation_sym; exact HP1|]. left. reflexivity. }
      destruct (Rep_alloc_header _ _ _ _ _ HRep1 Hqin1)
        as (Hqb & Hqbrk & Hqlo & Hq16 & Hq8 & Hq32 & _).
      rstep ltac:(exact Hrun1).
      destruct (Z_le_gt_dec bytes (cap - 4)) as [Hfit|Hbig].
      * right. right.
        set (m2 := fill_bytes (Z.to_nat bytes) (mem s1) q 0).
        assert (Hset : memset q 0 bytes s1 = Done tt (set_mem s1 m2)).
        { unfold memset.
          replace (bytes =? 0) with false by (symmetry; apply Z.eqb_neq; lia).
          rewrite in_heap_true by lia. reflexivity. }
        rstep ltac:(exact Hset).
        eexists _, _. split; [reflexivity|].
        split; [exact Hq|]. exists bs1, fl1, cap.
        split.
        { apply Rep_payload_change; [exact HRep1|].
          intros y Hy. unfold m2. apply fill_bytes_other.
          rewrite Z2Nat.id by lia.
          destruct (Z_lt_dec y q); [left; assumption|].
          destruct (Z_le_dec (q + bytes) y); [right; assumption|].
          exfalso. apply Hy. apply in_payload_iff. exists q, cap.
          split; [exact Hqin1|lia]. }
        norm. split; [lia|]. split; [lia|]. split; [exact Hcap|].
        split; [exact Hfit|]. rewrite <- Efh. split; [exact HP1|].
        intros i Hi. unfold byte_at, m2.
        rewrite fill_bytes_at by (rewrite Z2Nat.id by lia; lia). reflexivity.
      * left.
        destruct (adjust_facts bytes ltac:(lia)) as (_ & _ & _ & Hadj).
        assert (Hhuge : W64 <= bytes + 11) by lia.
        pose proof W32_lt_W64.
        pose proof HRep1 as (HW1 & _).
        pose proof (W_bounds _ _ _ HW1) as (_ & Htb & Ht32 & _).
        unfold memset, bind, in_heap.
        replace (bytes =? 0) with false by (symmetry; apply Z.eqb_neq; lia).
        replace (q + bytes <=? mem_brk s1) with false
          by (symmetry; apply Z.leb_gt; unfold W64, W32 in *; lia).
        rewrite andb_false_r. reflexivity.
Qed.

Lemma malloc_zero (fuel : nat) (s : state Z) : Mm.malloc fuel 0 s = Done NULL s.
Proof. reflexivity. Qed.

Lemma held_block (s : state Z) (bs : list block) (L : list Z) (p : Z) :
  Permutation L (alloc_ptrs (first_hdr s) bs) -> In p L ->
  exists psz, In (p, psz) (alloc_blocks (first_hdr s) bs).
Proof.
  intros HP Hin. eapply Permutation_in in Hin; [|exact HP].
  rewrite alloc_ptrs_blocks in Hin. apply in_map_iff in Hin.
  destruct Hin as ([p' psz] & E & Hin). simpl in E. subst p'.
  exists psz. exact Hin.
Qed.

Lemma heap_inv_alloc (lo max : Z) (s s' : state Z) (bs bs' : list block)
      (fl' : list Z) (L : list Z) (p cap : Z) :
  mem_lo s = lo -> mem_max s = max ->
  Permutation L (alloc_ptrs (first_hdr s) bs) ->
  Rep s' bs' fl' -> mem_lo s' = mem_lo s -> mem_max s' = mem_max s ->
  Permutation (alloc_blocks (first_hdr s) bs') ((p, cap) :: alloc_blocks (first_hdr s) bs) ->
  heap_inv lo max s' (p :: L).
Proof.
  intros Hlo Hmax HP HRep' Hlo' Hmax' HP'.
  exists bs', fl'. split; [exact HRep'|]. split; [|split; lia].
  assert (E : first_hdr s' = first_hdr s) by (unfold first_hdr; lia).
  rewrite E, !alloc_ptrs_blocks.
  apply (Permutation_map fst) in HP'. simpl in HP'.
  rewrite HP'. apply perm_skip. rewrite <- alloc_ptrs_blocks. exact HP.
Qed.

Theorem reachable_inv (lo max : Z) (s : state Z) (L : list Z) :
  reachable lo max s L -> heap_inv lo max s L.
Proof.
  induction 1 as [m s Hlo H32 Hrun
                 | s L fuel n p s' Hr IH Hfuel Hn Hrun
                 | s L p L' s' Hr IH HPL Hrun
                 | s L fuel p n L' q s' Hr IH HPL Hfuel Hn Hrun
                 | s L fuel nmemb size p s' Hr IH Hfuel Hm Hsz Hrun
                 | s L p sz y v Hr IH Hin Hsz Hy].
  - destruct (Z_lt_le_dec max (lo + 24)) as [Hsmall|Hbig].
    + destruct (mm_init_fail (boot m lo max)) as (s1 & E); simpl; trivial.
      rewrite E in Hrun. discriminate.
    + destruct (mm_init_spec (boot m lo max)) as (s1 & E & HRep & Hlo1 & Hmax1);
        simpl; trivial.
      rewrite E in Hrun. inversion Hrun; subst s1.
      exists [], []. split; [exact HRep|]. simpl in *. repeat split; trivial.
  - destruct IH as (bs & fl & HRep & HP & Hlo & Hmax).
    destruct (Z.eq_dec n 0) as [->|Hn0].
    + rewrite malloc_zero in Hrun. inversion Hrun; subst. simpl.
      exists bs, fl. split; [exact HRep|]. repeat split; trivial.
    + pose proof (W_fuel _ _ _ (Rep_W _ _ _ HRep)) as Hf.
      destruct (malloc_spec s bs fl fuel n HRep ltac:(lia) ltac:(lia))
        as (p1 & s1 & E & Hpost).
      rewrite E in Hrun. inversion Hrun; subst p1 s1.
      destruct Hpost as [(-> & -> & _)|Hal].
      * simpl. exists bs, fl. split; [exact HRep|]. repeat split; trivial.
      * destruct Hal as (Hp & bs' & fl' & cap & HRep' & Hlo' & Hmax' & _ & HP' & _).
        replace (p =? NULL) with false by (symmetry; apply Z.eqb_neq; exact Hp).
        eapply heap_inv_alloc; eassumption.
  - destruct IH as (bs & fl & HRep & HP & Hlo & Hmax).
    destruct (held_block s bs L p HP) as (psz & Hin).
    { eapply Permutation_in; [apply Permutation_sym; exact HPL|left; reflexivity]. }
    destruct (free_spec s bs fl p psz HRep) as (s1 & E & Hfr).
    { apply alloc_blocks_at. exact Hin. }
    rewrite E in Hrun. inversion Hrun; subst s1.
    destruct Hfr as (bs' & fl' & HRep' & Hlo' & Hmax' & _ & HP' & _).
    exists bs', fl'. split; [exact HRep'|]. split; [|split; lia].
    assert (Efh : first_hdr s' = first_hdr s) by (unfold first_hdr; lia).
    rewrite Efh. apply (Permutation_map fst) in HP'. simpl in HP'.
    rewrite <- !alloc_ptrs_blocks in HP'.
    apply Permutation_cons_inv with (a := p).
    rewrite HP', <- HP. apply Permutation_sym. exact HPL.
  - destruct IH as (bs & fl & HRep & HP & Hlo & Hmax).
    destruct (held_block s bs L p HP) as (psz & Hin).
    { eapply Permutation_in; [apply Permutation_sym; exact HPL|left; reflexivity]. }
    pose proof (W_fuel _ _ _ (Rep_W _ _ _ HRep)) as Hf.
    destruct (realloc_spec s bs fl fuel p psz n HRep Hin ltac:(lia) Hn)
      as [(E & _)|(q1 & s1 & E & Hpost)]; rewrite E in Hrun; [discriminate|].
    inversion Hrun; subst q1 s1.
    destruct Hpost as (_ & _ & bs' & fl' & cap & HRep' & Hlo' & Hmax' & _ & HP' & _).
    exists bs', fl'. split; [exact HRep'|]. split; [|split; lia].
    assert (Efh : first_hdr s' = first_hdr s) by (unfold first_hdr; lia).
    rewrite Efh. apply (Permutation_map fst) in HP'. simpl in HP'.
    rewrite <- !alloc_ptrs_blocks in HP'.
    apply Permutation_cons_inv with (a := p).
    rewrite HP', <- HP, HPL. apply perm_swap.
  - destruct IH as (bs & fl & HRep & HP & Hlo & Hmax).
    pose proof (W_fuel _ _ _ (Rep_W _ _ _ HRep)) as Hf.
    destruct (calloc_spec s bs fl fuel nmemb size HRep ltac:(lia))
      as [E|[(_ & E)|(q1 & s1 & E & Hpost)]]; rewrite E in Hrun;
      [discriminate| |].
    + inversion Hrun; subst. simpl. exists bs, fl. split; [exact HRep|]. repeat split; trivial.
    + inversion Hrun; subst q1 s1.
      destruct Hpost as (Hp & bs' & fl' & cap & HRep' & Hlo' & Hmax' & Hcap & _ & HP' & _).
      replace (p =? NULL) with false by (symmetry; apply Z.eqb_neq; exact Hp).
      eapply heap_inv_alloc; eassumption.
  - destruct IH as (bs & fl & HRep & HP & Hlo & Hmax).
    destruct (held_block s bs L p HP Hin) as (psz & Hin').
    rewrite (Rep_GET_SIZE _ _ _ _ _ HRep Hin') in Hsz.
    inversion Hsz; subst sz.
    exists bs, fl. split; [|repeat split; trivial].
    apply store_spec; [exact HRep|].
    apply in_payload_iff. exists p, psz. split; [exact Hin'|unfold WSIZE in Hy; lia].
Qed.

Lemma heap_walk_blocks (m : memory) (bs : list block) :
  forall (a : Z) (pa : bool) (fuel : nat),
    blocks m a pa bs -> no_limbo bs -> total bs + 8 <= W32 ->
    Z.land (rd m (a + total bs)) MASK_SIZE = 0 ->
    (length bs <= fuel)%nat ->
    heap_walk fuel m a = Some (map view bs).
Proof.
  induction bs as [|[sz t] r IH]; intros a pa fuel Hb Hnl H32 Hep Hf.
  - simpl in Hep. rewrite Z.add_0_r in Hep.
    destruct fuel; simpl; rewrite Hep; reflexivity.
  - destruct fuel as [|k]; [simpl in Hf; lia|].
    pose proof (blocks_sizes _ _ _ _ Hb) as Hs.
    apply sizes_ok_cons in Hs. destruct Hs as [[Hsz Hm8] Hs].
    pose proof (total_nonneg _ Hs) as Ht.
    apply no_limbo_cons in Hnl. destruct Hnl as [Ht' Hnl].
    cbn [total] in H32, Hep. cbn [blocks] in Hb. destruct Hb as (_ & Hh & Hb).
    assert (Hw : exists al, rd m a = hdr sz pa al /\
                            bit_al al = match t with Allocated => 1 | _ => 0 end).
    { destruct Ht' as [-> | ->].
      - exists true. split; [exact Hh|reflexivity].
      - exists false. split; [exact (proj1 Hh)|reflexivity]. }
    destruct Hw as (al & Hw & Hal).
    cbn [heap_walk]. rewrite Hw, hdr_size, hdr_alloc by (trivial; lia).
    replace (sz =? 0) with false by (symmetry; apply Z.eqb_neq; lia).
    rewrite (IH (a + sz) (next_pa t) k); trivial; try lia.
    + cbn [map view fst snd]. rewrite Hal. reflexivity.
    + rewrite <- Hep. f_equal. f_equal. lia.
    + simpl in Hf. lia.
Qed.

Lemma naf_adjacent_free (bs : list block) (pa : bool) :
  naf pa bs -> no_limbo bs -> adjacent_free (map view bs) = false.
Proof.
  revert pa; induction bs as [|[sz t] r IH]; intros pa Hn Hnl; [reflexivity|].
  destruct Hn as (_ & Hn). apply no_limbo_cons in Hnl. destruct Hnl as [Ht Hnl].
  specialize (IH _ Hn Hnl).
  destruct r as [|[sz2 t2] r2]; [reflexivity|].
  change (adjacent_free (map view ((sz, t) :: (sz2, t2) :: r2)))
    with (((snd (view (sz, t)) =? 0) && (snd (view (sz2, t2)) =? 0))
          || adjacent_free (map view ((sz2, t2) :: r2))).
  apply orb_false_iff. split; [|exact IH].
  destruct Hn as (Hpa & _).
  destruct Ht as [-> | ->]; [reflexivity|].
  apply no_limbo_cons in Hnl. destruct Hnl as [[-> | ->] _]; [reflexivity|].
  specialize (Hpa eq_refl). discriminate.
Qed.

Lemma Rep_heap_walk (s : state Z) (bs : list block) (fl : list Z) :
  Rep s bs fl ->
  heap_walk (heap_fuel s) (mem s) (first_hdr s) = Some (map view bs).
Proof.
  intros (HW & _ & Hnl).
  pose proof (W_sizes _ _ _ HW) as Hs.
  pose proof (W_bounds _ _ _ HW) as (Ht0 & Htb & Ht32 & _).
  pose proof HW as ((_ & _ & Hend & _) & Hb & Hep & _).
  eapply heap_walk_blocks; try eassumption; try lia.
  - unfold first_hdr. rewrite <- Hend, Hep. apply hdr_size; [reflexivity|lia|unfold W32; lia].
  - assert (H : 16 * Z.of_nat (length bs) <= total bs).
    { clear -Hs. induction bs as [|[sz t] r IH]; [simpl; lia|].
      apply sizes_ok_cons in Hs. destruct Hs as [[? ?] Hs]. specialize (IH Hs).
      cbn [total length]. lia. }
    unfold heap_fuel. lia.
Qed.

Lemma returns_Done {F} (o : outcome F Z) (v : Z) (d : state F) :
  returns o v = true -> o = Done v (final o d).
Proof.
  destruct o as [a s| |]; simpl; try discriminate.
  intros H. apply Z.eqb_eq in H. subst. reflexivity.
Qed.

Lemma finishes_Done {F} (o : outcome F unit) (d : state F) :
  finishes o = true -> o = Done tt (final o d).
Proof. destruct o as [[] s| |]; simpl; try discriminate. reflexivity. Qed.

Lemma faults_Fault {F A} (o : outcome F A) : faults o = true -> o = Fault.
Proof. destruct o; simpl; try discriminate. reflexivity. Qed.

Lemma remove1_perm (p : Z) (L L' : list Z) :
  remove1 p L = Some L' -> Permutation L (p :: L').
Proof.
  revert L'; induction L as [|x r IH]; intros L' H; simpl in H; [discriminate|].
  destruct (Z.eqb_spec x p) as [->|Hne].
  - inversion H; subst. reflexivity.
  - destruct (remove1 p r) as [r'|]; [|discriminate].
    inversion H; subst. rewrite (IH r' eq_refl). apply perm_swap.
Qed.

Lemma held_In (p : Z) (L : list Z) : held p L = true -> In p L.
Proof.
  unfold held. rewrite existsb_exists. intros (x & Hin & E).
  apply Z.eqb_eq in E. subst. exact Hin.
Qed.

Lemma size_ok_range (n : Z) : size_ok n = true -> 0 <= n < W64.
Proof. unfold size_ok. rewrite andb_true_iff, Z.leb_le, Z.ltb_lt. tauto. Qed.

Lemma GET_SIZE_state {F} (p sz : Z) (s s' : state F) :
  GET_SIZE p s = Done sz s' -> s' = s.
Proof.
  unfold GET_SIZE, READ, bind, ret. destruct (in_heap s p 4); [|discriminate].
  intros H. inversion H. reflexivity.
Qed.

Lemma exec1_reachable (lo max : Z) (c : call) (s s' : state Z) (L L' : list Z) :
  reachable lo max s L -> exec1 c s L = Some (s', L') -> reachable lo max s' L'.
Proof.
  intros Hr. destruct c as [n|p|p n|nmemb size|p i v]; simpl.
  - destruct (size_ok n) eqn:Hn; [|discriminate]. apply size_ok_range in Hn.
    destruct (Mm.malloc (heap_fuel s) n s) as [q s1| |] eqn:E; try discriminate.
    intros H; inversion H; subst. eapply R_malloc; eauto.
  - destruct (remove1 p L) as [L1|] eqn:HL; [|discriminate].
    destruct (Mm.free p s) as [[] s1| |] eqn:E; try discriminate.
    intros H; inversion H; subst. eapply R_free; eauto using remove1_perm.
  - destruct (size_ok n) eqn:Hn; [|discriminate]. apply size_ok_range in Hn.
    destruct (0 <? n) eqn:Hpos; [|discriminate]. apply Z.ltb_lt in Hpos. simpl.
    destruct (remove1 p L) as [L1|] eqn:HL; [|discriminate].
    destruct (Mm.realloc (heap_fuel s) p n s) as [q s1| |] eqn:E; try discriminate.
    intros H; inversion H; subst.
    eapply R_realloc; eauto using remove1_perm. lia.
  - destruct (size_ok nmemb) eqn:Hm; [|discriminate]. apply size_ok_range in Hm.
    destruct (size_ok size) eqn:Hn; [|discriminate]. apply size_ok_range in Hn. simpl.
    destruct (Mm.calloc (heap_fuel s) nmemb size s) as [q s1| |] eqn:E; try discriminate.
    intros H; inversion H; subst. eapply R_calloc; [exact Hr|reflexivity|exact Hm|exact Hn|exact E].
  - destruct (held p L) eqn:Hh; [|discriminate]. apply held_In in Hh.
    destruct (GET_SIZE (GET_HEADER p) s) as [sz s1| |] eqn:E; try discriminate.
    destruct ((0 <=? i) && (i <? sz - WSIZE)) eqn:Hi; [|discriminate].
    apply andb_true_iff in Hi. rewrite Z.leb_le, Z.ltb_lt in Hi.
    intros H; inversion H; subst.
    pose proof (GET_SIZE_state _ _ _ _ E). subst s1.
    eapply R_store; eauto. lia.
Qed.

Lemma exec_reachable (lo max : Z) (cs : list call) :
  forall s L s' L',
    reachable lo max s L -> exec cs s L = Some (s', L') -> reachable lo max s' L'.
Proof.
  induction cs as [|c r IH]; intros s L s' L' Hr H; simpl in H.
  - inversion H; subst. exact Hr.
  - destruct (exec1 c s L) as [[s1 L1]|] eqn:E; [|discriminate].
    eapply IH; [|exact H]. eapply exec1_reachable; eauto.
Qed.

Lemma session_reachable (m : memory) (lo max : Z) (cs : list call) :
  completes (session m lo max cs) = true ->
  reachable lo max (state_of (session m lo max cs)) (held_of (session m lo max cs)).
Proof.
  unfold session.
  destruct ((0 <? lo) && (max - lo <? W32)) eqn:Hc; [|discriminate].
  apply andb_true_iff in Hc. rewrite !Z.ltb_lt in Hc.
  destruct (Mm.mm_init (boot m lo max)) as [r s| |] eqn:E; try discriminate.
  destruct (Z.eqb_spec r 0) as [->|]; [|discriminate].
  destruct (exec cs s []) as [[s' L']|] eqn:Ex; [|discriminate].
  intros _. simpl. eapply exec_reachable; [|exact Ex].
  eapply R_init; [| |exact E]; lia.
Qed.

Lemma filter_fits_cons (size q n : Z) (r : list (Z * Z)) :
  filter (fits size) ((q, n) :: r)
  = if size <=? n then (q, n) :: filter (fits size) r else filter (fits size) r.
Proof. reflexivity. Qed.

Lemma filter_nfits_cons (size q n : Z) (r : list (Z * Z)) :
  filter (fun b => negb (fits size b)) ((q, n) :: r)
  = if size <=? n then filter (fun b => negb (fits size b)) r
    else (q, n) :: filter (fun b => negb (fits size b)) r.
Proof. unfold fits. simpl. destruct (size <=? n); reflexivity. Qed.

Lemma pick_app (l1 l2 : list (Z * Z)) :
  forall best bsz,
    pick best bsz (l1 ++ l2)
    = pick (fst (pick best bsz l1)) (snd (pick best bsz l1)) l2.
Proof.
  induction l1 as [|[q n] r IH]; intros best bsz; simpl; [reflexivity|].
  destruct ((best =? NULL) || (n <? bsz)); apply IH.
Qed.

(** [pick] returns a block of the list that no block of the list
    undercuts, or keeps the best it started from. *)
Lemma pick_min (l : list (Z * Z)) :
  Forall (fun b => fst b <> NULL) l ->
  forall best bsz,
    best <> NULL ->
    fst (pick best bsz l) <> NULL /\
    snd (pick best bsz l) <= bsz /\
    (forall q n, In (q, n) l -> snd (pick best bsz l) <= n) /\
    (pick best bsz l = (best, bsz) \/ In (pick best bsz l) l).
Proof.
  induction 1 as [|[q n] r Hq Hr IH]; intros best bsz Hb; simpl.
  - split; [exact Hb|]. split; [lia|]. split; [intros ? ? []|left; reflexivity].
  - simpl in Hq.
    replace (best =? NULL) with false by (symmetry; apply Z.eqb_neq; exact Hb).
    simpl. destruct (Z.ltb_spec n bsz) as [Hlt|Hge].
    + destruct (IH q n Hq) as (H1 & H2 & H3 & H4).
      split; [exact H1|]. split; [lia|]. split.
      * intros q' n' [E|Hin]; [inversion E; subst; exact H2|eauto].
      * right. destruct H4 as [E|Hin]; [left; symmetry; exact E|right; exact Hin].
    + destruct (IH best bsz Hb) as (H1 & H2 & H3 & H4).
      split; [exact H1|]. split; [exact H2|]. split.
      * intros q' n' [E|Hin]; [inversion E; subst; lia|eauto].
      * destruct H4 as [E|Hin]; [left; exact E|right; right; exact Hin].
Qed.

Lemma best_of_min (l : list (Z * Z)) :
  Forall (fun b => fst b <> NULL) l -> l <> [] ->
  exists n, In (best_of l, n) l /\ forall q' n', In (q', n') l -> n <= n'.
Proof.
  intros Hl Hne. destruct l as [|[q n] r]; [contradiction|].
  unfold best_of. simpl.
  apply Forall_cons_iff in Hl. destruct Hl as [Hq Hr]. simpl in Hq.
  destruct (pick_min r Hr q n Hq) as (_ & H2 & H3 & H4).
  exists (snd (pick q n r)). split.
  - destruct H4 as [E|Hin].
    + rewrite E. left. reflexivity.
    + right. destruct (pick q n r). exact Hin.
  - intros q' n' [E|Hin]; [inversion E; subst; exact H2|eauto].
Qed.

Lemma best_of_nil : best_of [] = NULL.
Proof. reflexivity. Qed.

(** The loop of mm.c returns the running best over the fitting blocks it
    has examined. *)
Lemma scan_pick (size : Z) (l : list (Z * Z)) :
  forall best bsz fit nfit,
    scan size l best bsz fit nfit
    = fst (pick best bsz (filter (fits size) (examined size l fit nfit))).
Proof.
  induction l as [|[q n] r IH]; intros best bsz fit nfit; [reflexivity|].
  cbn [scan examined]. rewrite filter_fits_cons.
  destruct (size <=? n) eqn:Hfit.
  - cbn [pick]. destruct (fit + 1 =? Mm.MAX_FIT).
    + simpl. destruct ((best =? NULL) || (n <? bsz)); reflexivity.
    + rewrite IH. destruct ((best =? NULL) || (n <? bsz)); reflexivity.
  - destruct ((Mm.MAX_NFIT <? nfit + 1) && negb (fit =? 0)); [reflexivity|].
    apply IH.
Qed.

Lemma examined_fits (size : Z) (l : list (Z * Z)) :
  forall fit nfit,
    0 <= fit < Mm.MAX_FIT ->
    Z.of_nat (length (filter (fits size) (examined size l fit nfit)))
    <= Mm.MAX_FIT - fit.
Proof.
  induction l as [|[q n] r IH]; intros fit nfit Hf;
    [cbn [examined filter length]; lia|].
  cbn [examined]. rewrite filter_fits_cons.
  destruct (size <=? n) eqn:Hfit.
  - cbn [length]. destruct (Z.eqb_spec (fit + 1) Mm.MAX_FIT).
    + cbn [filter length]. lia.
    + specialize (IH (fit + 1) nfit ltac:(lia)). lia.
  - destruct ((Mm.MAX_NFIT <? nfit + 1) && negb (fit =? 0));
      [cbn [filter length]; lia|].
    apply IH. exact Hf.
Qed.

Lemma examined_first_fits (size : Z) (l : list (Z * Z)) :
  firstn 6 (filter (fits size) (examined size l 0 0))
  = filter (fits size) (examined size l 0 0).
Proof.
  apply firstn_all2.
  pose proof (examined_fits size l 0 0 ltac:(unfold Mm.MAX_FIT; lia)).
  unfold Mm.MAX_FIT in *. lia.
Qed.

(** The examined blocks are a prefix of the list. *)
Lemma examined_prefix (size : Z) (l : list (Z * Z)) :
  forall fit nfit, exists rest, l = examined size l fit nfit ++ rest.
Proof.
  induction l as [|[q n] r IH]; intros fit nfit; [exists []; reflexivity|].
  cbn [examined].
  destruct (size <=? n).
  - destruct (fit + 1 =? Mm.MAX_FIT); [exists r; reflexivity|].
    destruct (IH (fit + 1) nfit) as (rest & E). exists rest. simpl. congruence.
  - destruct ((Mm.MAX_NFIT <? nfit + 1) && negb (fit =? 0)); [exists r; reflexivity|].
    destruct (IH fit (nfit + 1)) as (rest & E). exists rest. simpl. congruence.
Qed.

(** While the loop has not returned, its counters count the fitting and
    the non-fitting blocks seen, and all of them have been examined. *)
Lemma counters_count (size : Z) (l : list (Z * Z)) :
  forall fit nfit f nf,
    counters size l fit nfit = Some (f, nf) ->
    f = fit + count_fit size l /\ nf = nfit + count_nfit size l.
Proof.
  unfold count_fit, count_nfit.
  induction l as [|[q n] r IH]; intros fit nfit f nf H; simpl in H.
  - inversion H; subst. simpl. lia.
  - rewrite filter_fits_cons, filter_nfits_cons.
    destruct (size <=? n) eqn:Hfit; cbn [length].
    + destruct (fit + 1 =? Mm.MAX_FIT); [discriminate|].
      apply IH in H. lia.
    + destruct ((Mm.MAX_NFIT <? nfit + 1) && negb (fit =? 0)); [discriminate|].
      apply IH in H. lia.
Qed.

Lemma scan_app (size : Z) (l1 l2 : list (Z * Z)) :
  forall best bsz fit nfit f nf,
    counters size l1 fit nfit = Some (f, nf) ->
    scan size (l1 ++ l2) best bsz fit nfit
    = scan size l2 (fst (pick best bsz (filter (fits size) l1)))
           (snd (pick best bsz (filter (fits size) l1))) f nf.
Proof.
  induction l1 as [|[q n] r IH]; intros best bsz fit nfit f nf H; simpl in H.
  - inversion H; subst. reflexivity.
  - cbn [app scan]. rewrite filter_fits_cons. destruct (size <=? n) eqn:Hfit.
    + destruct (fit + 1 =? Mm.MAX_FIT); [discriminate|].
      rewrite (IH _ _ _ _ _ _ H). cbn [pick].
      destruct ((best =? NULL) || (n <? bsz)); reflexivity.
    + destruct ((Mm.MAX_NFIT <? nfit + 1) && negb (fit =? 0)); [discriminate|].
      apply IH. exact H.
Qed.

(** The second stopping rule: at a non-fitting block the loop returns
    exactly when a fit has been found and the non-fitting blocks seen so
    far, this one included, number more than [MAX_NFIT]. *)
Lemma counters_nfit_step (size : Z) (l1 : list (Z * Z)) (q n f nf : Z) :
  counters size l1 0 0 = Some (f, nf) -> n < size ->
  counters size (l1 ++ [(q, n)]) 0 0
  = if (Mm.MAX_NFIT <? nf + 1) && negb (f =? 0) then None else Some (f, nf + 1).
Proof.
  intros H Hn. revert H. generalize 0 at 1 3. generalize 0 at 1 2.
  induction l1 as [|[q1 n1] r IH]; intros nfit fit H; simpl in H.
  - inversion H; subst. simpl.
    replace (size <=? n) with false by (symmetry; apply Z.leb_gt; exact Hn).
    destruct ((Mm.MAX_NFIT <? nf + 1) && negb (f =? 0)); reflexivity.
  - cbn [app counters]. destruct (size <=? n1).
    + destruct (fit + 1 =? Mm.MAX_FIT); [discriminate|]. apply IH. exact H.
    + destruct ((Mm.MAX_NFIT <? nfit + 1) && negb (fit =? 0)); [discriminate|].
      apply IH. exact H.
Qed.

Lemma chain_nonnull {F} (s : state F) (l : list (Z * Z)) :
  forall head, chain s head l -> Forall (fun b => fst b <> NULL) l.
Proof.
  induction l as [|[q n] r IH]; intros head Hc; constructor.
  - simpl. apply Hc.
  - destruct Hc as (_ & _ & _ & _ & _ & Hc). exact (IH _ Hc).
Qed.

Lemma fits_left_cons_fit (size fit q n : Z) (r : list (Z * Z)) :
  0 <= fit < 42 -> size <= n ->
  fits_left size fit ((q, n) :: r)
  = (q, n) :: fits_left size (fit + 1) r.
Proof.
  intros Hf Hn. unfold fits_left. rewrite filter_fits_cons.
  replace (size <=? n) with true by (symmetry; apply Z.leb_le; exact Hn).
  replace (Z.to_nat (42 - fit)) with (S (Z.to_nat (42 - (fit + 1)))) by lia.
  reflexivity.
Qed.

Lemma fits_left_cons_nfit (size fit q n : Z) (r : list (Z * Z)) :
  n < size -> fits_left size fit ((q, n) :: r) = fits_left size fit r.
Proof.
  intros Hn. unfold fits_left. rewrite filter_fits_cons.
  replace (size <=? n) with false by (symmetry; apply Z.leb_gt; exact Hn).
  reflexivity.
Qed.

Lemma fits_left_last (size fit : Z) (l : list (Z * Z)) :
  fit + 1 = 42 -> fits_left size (fit + 1) l = [].
Proof. intros H. unfold fits_left. rewrite H. reflexivity. Qed.

(** ** part_000 *)

Lemma Basic_allocate_loop (s : state Z) (size : Z) (l : list (Z * Z)) :
  forall (fuel : nat) (head best bsz fit : Z),
    chain s head l -> (length l <= fuel)%nat -> 0 <= fit < 42 ->
    Basic._allocate_loop fuel size head best bsz fit s
    = Done (fst (pick best bsz (fits_left size fit l))) s.
Proof.
  induction l as [|[q n] r IH]; intros fuel head best bsz fit Hc Hf Hfit.
  - simpl in Hc. subst head. unfold fits_left. rewrite firstn_nil.
    destruct fuel; simpl; destruct (best =? NULL) eqn:E; simpl; trivial;
      apply Z.eqb_eq in E; rewrite E; reflexivity.
  - pose proof Hc as (-> & Hq & _).
    destruct fuel as [|fuel]; [simpl in Hf; lia|].
    simpl in Hf. cbn [Basic._allocate_loop].
    replace (q =? NULL) with false by (symmetry; apply Z.eqb_neq; exact Hq).
    rewrite (bind_rw _ _ _ _ _ (chain_size _ _ _ _ Hc)).
    destruct (Z.leb_spec size n) as [Hn|Hn].
    + cbv zeta. rewrite fits_left_cons_fit by assumption. cbn [pick].
      destruct (Z.eqb_spec (fit + 1) 42) as [E42|N42].
      * rewrite fits_left_last by exact E42.
        destruct ((best =? NULL) || (n <? bsz)); reflexivity.
      * rewrite (bind_rw _ _ _ _ _ (chain_next _ _ _ _ Hc)).
        rewrite (IH fuel _ _ _ (fit + 1)); [|apply Hc|lia|lia].
        destruct ((best =? NULL) || (n <? bsz)); reflexivity.
    + rewrite fits_left_cons_nfit by assumption.
      rewrite (bind_rw _ _ _ _ _ (chain_next _ _ _ _ Hc)).
      apply IH; [apply Hc|lia|lia].
Qed.

Lemma Basic_allocate_spec (s : state Z) (size : Z) (l : list (Z * Z)) (fuel : nat) :
  chain s (free_blks s) l -> (length l <= fuel)%nat ->
  Basic._allocate fuel size s
  = Done (best_of (firstn 42 (filter (fits size) l))) s.
Proof.
  intros Hc Hf. unfold Basic._allocate.
  rstep ltac:(reflexivity).
  rewrite (Basic_allocate_loop s size l fuel _ NULL 0 0 Hc Hf) by lia.
  reflexivity.
Qed.

(** ** part_001 *)

Lemma Seg_allocate_list (s : state Seg.heads) (size : Z) (l : list (Z * Z)) :
  forall (fuel : nat) (head best bsz fit : Z),
    chain s head l -> (length l <= fuel)%nat -> 0 <= fit < 42 ->
    let fs := fits_left size fit l in
    Seg._allocate_list fuel size head best bsz fit s
    = Done (fit + Z.of_nat (length fs) =? 42,
            (fst (pick best bsz fs), snd (pick best bsz fs),
             fit + Z.of_nat (length fs))) s.
Proof.
  induction l as [|[q n] r IH]; intros fuel head best bsz fit Hc Hf Hfit fs; subst fs.
  - simpl in Hc. subst head. unfold fits_left. rewrite firstn_nil.
    cbn [length pick fst snd Z.of_nat]. rewrite Z.add_0_r.
    replace (fit =? 42) with false by (symmetry; apply Z.eqb_neq; lia).
    destruct fuel; reflexivity.
  - pose proof Hc as (-> & Hq & _).
    destruct fuel as [|fuel]; [simpl in Hf; lia|].
    simpl in Hf. cbn [Seg._allocate_list].
    replace (q =? NULL) with false by (symmetry; apply Z.eqb_neq; exact Hq).
    rewrite (bind_rw _ _ _ _ _ (chain_size _ _ _ _ Hc)).
    destruct (Z.leb_spec size n) as [Hn|Hn].
    + cbv zeta. rewrite fits_left_cons_fit by assumption. cbn [pick length].
      destruct (Z.eqb_spec (fit + 1) 42) as [E42|N42].
      * rewrite fits_left_last by exact E42. cbn [length].
        replace (fit + Z.of_nat 1 =? 42) with true
          by (symmetry; apply Z.eqb_eq; lia).
        replace (fit + Z.of_nat 1) with (fit + 1) by lia.
        destruct ((best =? NULL) || (n <? bsz)); reflexivity.
      * rewrite (bind_rw _ _ _ _ _ (chain_next _ _ _ _ Hc)).
        rewrite (IH fuel _ _ _ (fit + 1)); [|apply Hc|lia|lia].
        replace (fit + Z.of_nat (S (length (fits_left size (fit + 1) r))))
          with (fit + 1 + Z.of_nat (length (fits_left size (fit + 1) r))) by lia.
        destruct ((best =? NULL) || (n <? bsz)); reflexivity.
    + rewrite fits_left_cons_nfit by assumption.
      rewrite (bind_rw _ _ _ _ _ (chain_next _ _ _ _ Hc)).
      apply IH; [apply Hc|lia|lia].
Qed.

Lemma filter_existsb {A} (f : A -> bool) (l : list A) :
  existsb f l = false -> filter f l = [].
Proof.
  induction l as [|x r IH]; simpl; [reflexivity|].
  destruct (f x); simpl; [discriminate|exact IH].
Qed.

Lemma existsb_filter {A} (f : A -> bool) (l : list A) :
  existsb f l = true -> exists x r, filter f l = x :: r.
Proof.
  induction l as [|x r IH]; simpl; [discriminate|].
  destruct (f x); simpl; [intros _; eauto|exact IH].
Qed.

Lemma firstn_incl {A} (n : nat) (l : list A) (x : A) :
  In x (firstn n l) -> In x l.
Proof.
  revert l; induction n as [|k IH]; intros [|y r] H; simpl in *; try contradiction.
  destruct H as [E|H]; [left; exact E|right; exact (IH _ H)].
Qed.

Lemma pick_first (bsz : Z) (q n : Z) (r : list (Z * Z)) :
  pick NULL bsz ((q, n) :: r) = pick q n r.
Proof. reflexivity. Qed.

Lemma Seg_allocate_levels (s : state Seg.heads) (size : Z) (fuel : nat)
      (cls : list (list (Z * Z))) :
  forall (i : nat) (bsz : Z),
    class_chains s i cls -> Forall (fun l => (length l <= fuel)%nat) cls ->
    Seg._allocate_levels fuel (length cls) i size NULL bsz 0 s
    = Done (best_of (firstn 42 (filter (fits size) (first_fit_class size cls)))) s.
Proof.
  induction cls as [|l r IH]; intros i bsz Hc Hf; [reflexivity|].
  destruct Hc as (Hl & Hr). apply Forall_cons_iff in Hf. destruct Hf as [Hfl Hfr].
  cbn [length Seg._allocate_levels first_fit_class].
  rstep ltac:(reflexivity).
  rewrite (bind_rw _ _ _ _ _ (Seg_allocate_list s size l fuel _ NULL bsz 0 Hl Hfl ltac:(lia))).
  unfold fits_left. rewrite Z.sub_0_r. change (Z.to_nat 42) with 42%nat.
  destruct (existsb (fits size) l) eqn:Hex.
  - destruct (existsb_filter _ _ Hex) as ([q n] & rest & E).
    rewrite E. change (firstn 42 ((q, n) :: rest)) with ((q, n) :: firstn 41 rest).
    rewrite pick_first.
    assert (Hq : q <> NULL).
    { pose proof (chain_nonnull _ _ _ Hl) as Hnn.
      rewrite Forall_forall in Hnn.
      assert (Hin : In (q, n) (filter (fits size) l)) by (rewrite E; left; reflexivity).
      apply filter_In in Hin. exact (Hnn _ (proj1 Hin)). }
    assert (Hnn : Forall (fun b => fst b <> NULL) (firstn 41 rest)).
    { pose proof (chain_nonnull _ _ _ Hl) as Hnn.
      rewrite Forall_forall in *. intros x Hx. apply Hnn.
      apply firstn_incl in Hx.
      assert (Hin : In x (filter (fits size) l)) by (rewrite E; right; exact Hx).
      apply filter_In in Hin. apply Hin. }
    destruct (pick_min _ Hnn q n Hq) as (Hb & _).
    unfold best_of. rewrite pick_first.
    destruct (0 + Z.of_nat (length ((q, n) :: firstn 41 rest)) =? 42); [reflexivity|].
    replace (fst (pick q n (firstn 41 rest)) =? NULL) with false
      by (symmetry; apply Z.eqb_neq; exact Hb).
    reflexivity.
  - rewrite (filter_existsb _ _ Hex), firstn_nil. cbn [length pick fst snd Z.of_nat].
    change (0 + 0 =? 42) with false. change (NULL =? NULL) with true.
    cbn [negb]. apply IH; assumption.
Qed.

(** [_get_level] stays within the array. *)
Lemma Seg_get_level_from_le (n i : nat) (size : Z) :
  (i + n <= Seg.max_level)%nat -> (Seg._get_level_from n i size <= Seg.max_level)%nat.
Proof.
  unfold Seg.max_level.
  revert i; induction n as [|k IH]; intros i H; cbn [Seg._get_level_from];
    [unfold Seg.max_level; lia|].
  destruct (size <=? nth i Seg.threshold 0); [lia|]. apply IH. lia.
Qed.

Lemma Seg_get_level_le (size : Z) : (Seg._get_level size <= Seg.max_level)%nat.
Proof. apply Seg_get_level_from_le. simpl. lia. Qed.

Lemma Seg_allocate_spec (s : state Seg.heads) (size : Z) (fuel : nat)
      (cls : list (list (Z * Z))) :
  class_chains s (Seg._get_level size) cls ->
  length cls = (S Seg.max_level - Seg._get_level size)%nat ->
  Forall (fun l => (length l <= fuel)%nat) cls ->
  Seg._allocate fuel size s
  = Done (best_of (firstn 42 (filter (fits size) (first_fit_class size cls)))) s.
Proof.
  intros Hc Hlen Hf. unfold Seg._allocate. rewrite <- Hlen.
  apply Seg_allocate_levels; assumption.
Qed.

Lemma bblocks_app (m : memory) (a : Z) (l1 l2 : list block) :
  bblocks m a (l1 ++ l2) <-> bblocks m a l1 /\ bblocks m (a + total l1) l2.
Proof.
  revert a; induction l1 as [|[sz t] r IH]; intros a; simpl.
  - rewrite Z.add_0_r. tauto.
  - rewrite IH. shift_addr a sz r. tauto.
Qed.

Lemma bblocks_mid (m : memory) (a : Z) (l1 l2 : list block)
      (sz : Z) (t : status) :
  bblocks m a (l1 ++ (sz, t) :: l2) <->
  bblocks m a l1 /\
  (16 <= sz /\ sz mod 8 = 0) /\
  match t with
  | Limbo _ => True
  | _ => rd m (a + total l1) = hdr sz false (is_alloc t) /\
         rd m (a + total l1 + sz - 4) = hdr sz false (is_alloc t)
  end /\
  bblocks m (a + total l1 + sz) l2.
Proof. rewrite bblocks_app. simpl. tauto. Qed.

Lemma bmeta_app (a : Z) (l1 l2 : list block) (y : Z) :
  bmeta a (l1 ++ l2) y <-> bmeta a l1 y \/ bmeta (a + total l1) l2 y.
Proof.
  revert a; induction l1 as [|[sz t] r IH]; intros a; simpl.
  - rewrite Z.add_0_r. tauto.
  - rewrite IH. shift_addr a sz r. tauto.
Qed.

Lemma bpayload_app (a : Z) (l1 l2 : list block) (y : Z) :
  bpayload a (l1 ++ l2) y <->
  bpayload a l1 y \/ bpayload (a + total l1) l2 y.
Proof.
  revert a; induction l1 as [|[sz t] r IH]; intros a; simpl.
  - rewrite Z.add_0_r. tauto.
  - rewrite IH. shift_addr a sz r. tauto.
Qed.

Lemma bblocks_sizes (m : memory) (a : Z) (bs : list block) :
  bblocks m a bs -> sizes_ok bs.
Proof.
  revert a; induction bs as [|[sz t] r IH]; intros a H.
  - constructor.
  - simpl in H. apply sizes_ok_cons. split; [tauto|].
    eapply IH. apply H.
Qed.

Lemma bblocks_frame (m m' : memory) (a : Z) (bs : list block) :
  (forall y, bmeta a bs y -> m' y = m y) ->
  bblocks m a bs -> bblocks m' a bs.
Proof.
  revert a; induction bs as [|[sz t] r IH]; intros a Hf H; simpl in *.
  - exact I.
  - destruct H as (H1 & H2 & H3).
    split; [exact H1|split].
    + assert (Hw : forall x, (a <= x /\ x + 4 <= a + 4) \/
                             (a + sz - 4 <= x /\ x + 4 <= a + sz) ->
                             (exists b, t = Limbo b) \/ rd m' x = rd m x).
      { intros x Hx. destruct t as [| |nb]; [right|right|left; eauto];
          apply rd_ext; intros y Hy; apply Hf; left; lia. }
      destruct t as [| |nb]; trivial;
        destruct H2 as [H2 H4];
        (split; [destruct (Hw a) as [[b E]|E]; [lia|discriminate|congruence]
                |destruct (Hw (a + sz - 4)) as [[b E]|E];
                 [lia|discriminate|congruence]]).
    + apply IH; trivial. intros y Hy. apply Hf. right. exact Hy.
Qed.

(** ** Where things are *)

Lemma bmeta_range (a : Z) (bs : list block) (y : Z) :
  sizes_ok bs -> bmeta a bs y -> a <= y < a + total bs.
Proof.
  revert a; induction bs as [|[sz t] r IH]; intros a Hs H; simpl in *.
  - contradiction.
  - apply sizes_ok_cons in Hs. destruct Hs as [[? ?] Hs].
    pose proof (total_nonneg r Hs).
    destruct H as [H|H].
    + destruct t; lia.
    + specialize (IH _ Hs H). lia.
Qed.

Lemma bpayload_range (a : Z) (bs : list block) (y : Z) :
  sizes_ok bs -> bpayload a bs y -> a + 4 <= y < a + total bs - 4.
Proof.
  revert a; induction bs as [|[sz t] r IH]; intros a Hs H; simpl in *.
  - contradiction.
  - apply sizes_ok_cons in Hs. destruct Hs as [[? ?] Hs].
    pose proof (total_nonneg r Hs).
    destruct H as [[_ H]|H]; try lia.
    specialize (IH _ Hs H). lia.
Qed.

Lemma bmeta_not_links (a : Z) (bs : list block) (y : Z) :
  sizes_ok bs -> bmeta a bs y -> ~ in_links a bs y.
Proof.
  revert a; induction bs as [|[sz t] r IH]; intros a Hs Hm Hl; simpl in Hm.
  - contradiction.
  - apply in_links_cons in Hl.
    apply sizes_ok_cons in Hs. destruct Hs as [[? ?] Hs].
    destruct Hm as [Hm|Hm], Hl as [[-> Hl]|Hl].
    + lia.
    + apply in_links_range in Hl; trivial. destruct t; lia.
    + apply bmeta_range in Hm; trivial. lia.
    + exact (IH _ Hs Hm Hl).
Qed.

Lemma bpayload_not_links (a : Z) (bs : list block) (y : Z) :
  sizes_ok bs -> bpayload a bs y -> ~ in_links a bs y.
Proof.
  revert a; induction bs as [|[sz t] r IH]; intros a Hs Hm Hl; simpl in Hm.
  - contradiction.
  - apply in_links_cons in Hl.
    apply sizes_ok_cons in Hs. destruct Hs as [[? ?] Hs].
    destruct Hm as [[-> Hm]|Hm], Hl as [[E Hl]|Hl].
    + discriminate.
    + apply in_links_range in Hl; trivial. lia.
    + apply bpayload_range in Hm; trivial. lia.
    + exact (IH _ Hs Hm Hl).
Qed.

Lemma bpayload_not_meta (a : Z) (bs : list block) (y : Z) :
  sizes_ok bs -> bpayload a bs y -> ~ bmeta a bs y.
Proof.
  revert a; induction bs as [|[sz t] r IH]; intros a Hs H Hm; simpl in *.
  - contradiction.
  - apply sizes_ok_cons in Hs. destruct Hs as [[? ?] Hs].
    destruct H as [[-> H]|H], Hm as [Hm|Hm].
    + lia.
    + apply bmeta_range in Hm; trivial. lia.
    + apply bpayload_range in H; trivial. destruct t; lia.
    + exact (IH _ Hs H Hm).
Qed.

Lemma limbo_not_bmeta (a : Z) (bs : list block) (y : Z) :
  sizes_ok bs -> in_limbo a bs y -> ~ bmeta a bs y.
Proof.
  revert a; induction bs as [|[sz t] r IH]; intros a Hs H Hm; simpl in *.
  - contradiction.
  - apply sizes_ok_cons in Hs. destruct Hs as [[? ?] Hs].
    destruct H as [[[nb ->] H]|H], Hm as [Hm|Hm].
    + contradiction.
    + apply bmeta_range in Hm; trivial. lia.
    + apply in_limbo_range in H; trivial. destruct t; lia.
    + exact (IH _ Hs H Hm).
Qed.

Lemma bpayload_mid_other (a : Z) (l1 l2 : list block) (sz : Z) (t : status)
      (y : Z) :
  t <> Allocated ->
  bpayload a (l1 ++ (sz, t) :: l2) y <->
  bpayload a l1 y \/ bpayload (a + total l1 + sz) l2 y.
Proof.
  intros Ht. rewrite bpayload_app. simpl. intuition congruence.
Qed.

Lemma bpayload_iff (a : Z) (bs : list block) (y : Z) :
  bpayload a bs y <->
  exists p n, In (p, n) (alloc_blocks a bs) /\ p <= y < p + n - 8.
Proof.
  revert a; induction bs as [|[sz t] r IH]; intros a; simpl.
  - split; [contradiction|]. intros (p & n & [] & _).
  - rewrite IH. split.
    + intros [[-> Hy]|(p & n & Hin & Hy)].
      * exists (a + 4), sz. split; [left; reflexivity|lia].
      * exists p, n. split; [apply in_or_app; right; exact Hin|exact Hy].
    + intros (p & n & Hin & Hy). apply in_app_or in Hin.
      destruct Hin as [Hin|Hin].
      * destruct t; simpl in Hin; try contradiction.
        destruct Hin as [Hin|[]]. inversion Hin; subst.
        left. split; [reflexivity|lia].
      * right. exists p, n. split; assumption.
Qed.

Lemma bpayload_block (a : Z) (bs : list block) (p n y : Z) :
  block_at a bs p n Allocated -> p <= y < p + n - 8 -> bpayload a bs y.
Proof.
  intros H Hy. apply bpayload_iff. exists p, n. split; [|exact Hy].
  apply alloc_blocks_at. exact H.
Qed.

Lemma bpayload_alloc_eq (a : Z) (bs bs' : list block) (y : Z) :
  alloc_blocks a bs' = alloc_blocks a bs ->
  bpayload a bs y -> bpayload a bs' y.
Proof. intros E H. apply bpayload_iff. rewrite E. apply bpayload_iff, H. Qed.

(** ** The weak representation *)

Lemma bfree_ptrs_nodes (s : state Z) (bs : list block) :
  bscalars s (total bs) -> sizes_ok bs ->
  nodes_ok s (free_ptrs (first_hdr s) bs).
Proof.
  intros (Hlo & Hhp & Hbrk & Hmax & H32) Hs. split.
  - apply Forall_forall. intros q Hq.
    pose proof (free_ptrs_range _ _ _ Hs Hq) as (? & ? & _).
    unfold node_ok, first_hdr in *. lia.
  - apply free_ptrs_far, Hs.
Qed.

Lemma BW_sizes (s : state Z) (bs : list block) (fl : list Z) :
  BW s bs fl -> sizes_ok bs.
Proof. intros (_ & _ & Hb & _). eapply bblocks_sizes; exact Hb. Qed.

Lemma BW_nodes (s : state Z) (bs : list block) (fl : list Z) :
  BW s bs fl -> nodes_ok s fl.
Proof.
  intros HW. pose proof (BW_sizes _ _ _ HW) as Hs.
  destruct HW as (Hsc & _ & _ & _ & _ & _ & HP).
  eapply nodes_ok_perm; [apply Permutation_sym; exact HP|].
  apply bfree_ptrs_nodes; assumption.
Qed.

Lemma BW_bounds (s : state Z) (bs : list block) (fl : list Z) :
  BW s bs fl ->
  0 < mem_lo s /\ heap_ptr s = mem_lo s + 16 /\
  0 <= total bs /\ mem_lo s + 24 + total bs = mem_brk s /\
  total bs + 24 < W32 /\ mem_brk s <= mem_max s.
Proof.
  intros HW. pose proof (BW_sizes _ _ _ HW) as Hs.
  destruct HW as ((Hlo & Hhp & Hbrk & Hmax & H32) & _).
  pose proof (total_nonneg _ Hs). lia.
Qed.

(** Changing memory outside the prologue footer, the headers and footers,
    the link words and the epilogue keeps [BW]. *)
Lemma BW_frame (s : state Z) (bs : list block) (fl : list Z) (m' : memory) :
  BW s bs fl ->
  (forall y, bmeta (first_hdr s) bs y -> m' y = mem s y) ->
  (forall y, in_links (first_hdr s) bs y -> m' y = mem s y) ->
  (forall y, heap_ptr s <= y < heap_ptr s + 4 -> m' y = mem s y) ->
  (forall y, first_hdr s + total bs <= y < first_hdr s + total bs + 4 ->
             m' y = mem s y) ->
  BW (set_mem s m') bs fl.
Proof.
  intros (Hsc & Hpro & Hb & He & Hd & Hh & HP) Hm Hl Hp Hep.
  split; [exact Hsc|]. norm.
  split; [|split; [|split; [|split; [|split]]]]; trivial.
  - rewrite <- Hpro. apply rd_ext. exact Hp.
  - eapply bblocks_frame; [|exact Hb]. exact Hm.
  - rewrite <- He. apply rd_ext. exact Hep.
  - eapply dllseg_frame; [|exact Hd].
    intros q y Hq Hy. apply Hl. exists q. split; [|exact Hy].
    eapply Permutation_in; eassumption.
Qed.

(** A write inside a block in limbo keeps [BW]. *)
Lemma BW_write_limbo (s : state Z) (l1 l2 : list block) (sz : Z) (nb : bool)
      (fl : list Z) (x v : Z) :
  BW s (l1 ++ (sz, Limbo nb) :: l2) fl ->
  first_hdr s + total l1 <= x -> x + 4 <= first_hdr s + total l1 + sz ->
  BW (set_mem s (wr (mem s) x v)) (l1 ++ (sz, Limbo nb) :: l2) fl.
Proof.
  intros HW Hx1 Hx2. pose proof (BW_sizes _ _ _ HW) as Hs.
  pose proof (BW_bounds _ _ _ HW) as (Hlo & Hhp & Ht0 & Htb & _).
  assert (Hlim : forall y, x <= y < x + 4 ->
                           in_limbo (first_hdr s) (l1 ++ (sz, Limbo nb) :: l2) y).
  { intros y Hy. apply in_limbo_mid. lia. }
  pose proof Hs as Hs'. apply sizes_ok_mid in Hs'.
  destruct Hs' as (Hs1 & _ & Hs2).
  pose proof (total_nonneg _ Hs1). pose proof (total_nonneg _ Hs2).
  rewrite total_mid in *.
  apply BW_frame; trivial.
  - intros y Hy. apply wr_other_byte.
    destruct (Z_lt_dec y x); [lia|]. destruct (Z_le_dec (x + 4) y); [lia|].
    exfalso. eapply limbo_not_bmeta; [exact Hs|apply Hlim|exact Hy]. lia.
  - intros y Hy. apply wr_other_byte.
    destruct (Z_lt_dec y x); [lia|]. destruct (Z_le_dec (x + 4) y); [lia|].
    exfalso. eapply limbo_not_links; [exact Hs|apply Hlim|exact Hy]. lia.
  - intros y Hy. apply wr_other_byte. unfold first_hdr in *. lia.
  - intros y Hy. apply wr_other_byte. rewrite total_mid in Hy.
    unfold first_hdr in *. lia.
Qed.

(** ** Status changes of part_000 that leave memory alone *)

Lemma BW_forget (s : state Z) (l1 l2 : list block) (sz : Z) (nb : bool)
      (fl : list Z) :
  BW s (l1 ++ (sz, Allocated) :: l2) fl ->
  BW s (l1 ++ (sz, Limbo nb) :: l2) fl.
Proof.
  intros (Hsc & Hpro & Hb & He & Hd & Hh & HP).
  rewrite total_mid in Hsc, He.
  rewrite free_ptrs_mid_other in HP by discriminate.
  apply bblocks_mid in Hb.
  split; [rewrite total_mid; exact Hsc|].
  split; [exact Hpro|].
  split; [apply bblocks_mid; tauto|].
  split; [rewrite total_mid; exact He|].
  rewrite free_ptrs_mid_other by discriminate. tauto.
Qed.

Lemma BW_claim (s : state Z) (l1 l2 : list block) (sz : Z) (nb : bool)
      (fl : list Z) :
  BW s (l1 ++ (sz, Limbo nb) :: l2) fl ->
  rd (mem s) (first_hdr s + total l1) = hdr sz false true ->
  rd (mem s) (first_hdr s + total l1 + sz - 4) = hdr sz false true ->
  BW s (l1 ++ (sz, Allocated) :: l2) fl.
Proof.
  intros (Hsc & Hpro & Hb & He & Hd & Hh & HP) Hhdr Hftr.
  rewrite total_mid in Hsc, He.
  rewrite free_ptrs_mid_other in HP by discriminate.
  apply bblocks_mid in Hb.
  split; [rewrite total_mid; exact Hsc|].
  split; [exact Hpro|].
  split; [apply bblocks_mid; simpl; tauto|].
  split; [rewrite total_mid; exact He|].
  rewrite free_ptrs_mid_other by discriminate. tauto.
Qed.

(** Two neighbours in limbo are one block in limbo, and conversely. *)
Lemma BW_join (s : state Z) (l1 l2 : list block) (n1 n2 : Z) (b1 b2 b : bool)
      (fl : list Z) :
  BW s (l1 ++ (n1, Limbo b1) :: (n2, Limbo b2) :: l2) fl ->
  BW s (l1 ++ (n1 + n2, Limbo b) :: l2) fl.
Proof.
  intros (Hsc & Hpro & Hb & He & Hd & Hh & HP).
  rewrite total_mid in Hsc, He.
  rewrite free_ptrs_mid_other in HP by discriminate.
  apply bblocks_mid in Hb. simpl in *.
  destruct Hb as (Hb1 & [? ?] & _ & [? ?] & _ & Hb2).
  assert (Et : total l1 + (n1 + n2) + total l2
               = total l1 + n1 + (n2 + total l2)) by lia.
  assert (Ea : first_hdr s + total l1 + (n1 + n2)
               = first_hdr s + total l1 + n1 + n2) by lia.
  split; [rewrite total_mid, Et; exact Hsc|].
  split; [exact Hpro|].
  split; [apply bblocks_mid; repeat split; trivial; try lia|].
  - rewrite Z.add_mod, H0, H2 by lia. reflexivity.
  - rewrite Ea. exact Hb2.
  - split; [rewrite total_mid, Et; exact He|].
    rewrite free_ptrs_mid_other by discriminate.
    rewrite Ea. tauto.
Qed.

Lemma BW_split (s : state Z) (l1 l2 : list block) (n n1 : Z) (b b1 b2 : bool)
      (fl : list Z) :
  BW s (l1 ++ (n, Limbo b) :: l2) fl ->
  16 <= n1 -> n1 mod 8 = 0 -> 16 <= n - n1 ->
  BW s (l1 ++ (n1, Limbo b1) :: (n - n1, Limbo b2) :: l2) fl.
Proof.
  intros (Hsc & Hpro & Hb & He & Hd & Hh & HP) H1 H2 H3.
  rewrite total_mid in Hsc, He.
  rewrite free_ptrs_mid_other in HP by discriminate.
  apply bblocks_mid in Hb. simpl in *.
  destruct Hb as (Hb1 & [? Hn] & _ & Hb2).
  assert (Hm : (n - n1) mod 8 = 0).
  { rewrite Zminus_mod, Hn, H2. reflexivity. }
  assert (Et : total l1 + n1 + (n - n1 + total l2)
               = total l1 + n + total l2) by lia.
  assert (Ea : first_hdr s + total l1 + n1 + (n - n1)
               = first_hdr s + total l1 + n) by lia.
  split; [rewrite total_mid; simpl; rewrite Et; exact Hsc|].
  split; [exact Hpro|].
  split; [apply bblocks_mid; simpl; repeat split; trivial|].
  - rewrite Ea. exact Hb2.
  - split; [rewrite total_mid; simpl; rewrite Et; exact He|].
    rewrite free_ptrs_mid_other by discriminate. simpl.
    rewrite Ea. tauto.
Qed.

(** ** Taking a free block off the list *)

Lemma BW_unlist (s : state Z) (l1 l2 : list block) (sz : Z) (fl : list Z) :
  BW s (l1 ++ (sz, Free) :: l2) fl ->
  exists m' fl',
    Basic._delete_free_block (first_hdr s + total l1 + 4) s
    = Done tt (set_free_blks (set_mem s m') (hd 0 fl')) /\
    BW (set_free_blks (set_mem s m') (hd 0 fl'))
       (l1 ++ (sz, Limbo false) :: l2) fl' /\
    links_frame s (l1 ++ (sz, Limbo false) :: l2) m'.
Proof.
  intros HW. pose proof (BW_nodes _ _ _ HW) as Hnodes.
  pose proof (BW_sizes _ _ _ HW) as Hsz.
  pose proof (BW_bounds _ _ _ HW) as (Hlo & Hhp & Ht0 & Htb & _).
  destruct HW as (Hsc & Hpro & Hb & He & Hd & Hh & HP).
  set (a := first_hdr s) in *. set (q := a + total l1 + 4).
  rewrite free_ptrs_mid_free in HP. fold q in HP.
  assert (Hin : In q fl).
  { eapply Permutation_in; [apply Permutation_sym; exact HP|].
    apply in_or_app. right. left. reflexivity. }
  destruct (in_split _ _ Hin) as (f1 & f2 & ->).
  destruct (delete_spec s f1 f2 q Hnodes Hd Hh) as (m' & Hrun & Hd' & Hfr).
  apply Permutation_app_inv in HP.
  assert (Hsz' : sizes_ok (l1 ++ (sz, Limbo false) :: l2)).
  { apply sizes_ok_mid in Hsz. apply sizes_ok_mid. exact Hsz. }
  assert (Hframe : links_frame s (l1 ++ (sz, Limbo false) :: l2) m').
  { intros y Hy. apply Hfr. intros p Hp.
    destruct (Z_lt_dec y p); [left; assumption|].
    destruct (Z_le_dec (p + 8) y); [right; assumption|].
    exfalso. apply Hy. exists p. split; [|lia].
    rewrite free_ptrs_mid_other by discriminate.
    eapply Permutation_in; eassumption. }
  assert (Hout : forall x, x + 4 <= a \/ a + total (l1 ++ (sz, Free) :: l2) <= x ->
                           rd m' x = rd (mem s) x).
  { intros x Hx. apply rd_ext. intros y Hy. apply Hframe. intros Hl.
    apply in_links_range in Hl; trivial. rewrite total_mid in *. lia. }
  exists m', (f1 ++ f2). split; [exact Hrun|]. split; [|exact Hframe].
  split; [rewrite total_mid in *; exact Hsc|]. norm.
  split; [|split; [|split; [|split; [|split]]]].
  - rewrite <- Hpro. apply Hout. left. unfold a, first_hdr. lia.
  - eapply bblocks_frame.
    + intros y Hy. apply Hframe. eapply bmeta_not_links; eassumption.
    + apply bblocks_mid in Hb. apply bblocks_mid. tauto.
  - rewrite total_mid in *. rewrite <- He. apply Hout. right. lia.
  - exact Hd'.
  - reflexivity.
  - rewrite free_ptrs_mid_other by discriminate. exact HP.
Qed.

(** ** Putting a block in limbo on the list *)

Lemma BW_list (s : state Z) (l1 l2 : list block) (sz : Z) (nb : bool)
      (fl : list Z) :
  BW s (l1 ++ (sz, Limbo nb) :: l2) fl ->
  rd (mem s) (first_hdr s + total l1) = hdr sz false false ->
  rd (mem s) (first_hdr s + total l1 + sz - 4) = hdr sz false false ->
  exists m',
    Basic._insert_free_block (first_hdr s + total l1 + 4) s
    = Done tt (set_free_blks (set_mem s m') (first_hdr s + total l1 + 4)) /\
    BW (set_free_blks (set_mem s m') (first_hdr s + total l1 + 4))
       (l1 ++ (sz, Free) :: l2) ((first_hdr s + total l1 + 4) :: fl) /\
    links_frame s (l1 ++ (sz, Free) :: l2) m'.
Proof.
  intros HW Hhdr Hftr.
  pose proof (BW_sizes _ _ _ HW) as Hsz.
  pose proof (BW_bounds _ _ _ HW) as (Hlo & Hhp & Ht0 & Htb & _).
  destruct HW as (Hsc & Hpro & Hb & He & Hd & Hh & HP).
  set (a := first_hdr s) in *. set (q := a + total l1 + 4).
  rewrite free_ptrs_mid_other in HP by discriminate.
  assert (Hsz' : sizes_ok (l1 ++ (sz, Free) :: l2)).
  { apply sizes_ok_mid in Hsz. apply sizes_ok_mid. exact Hsz. }
  assert (HP' : Permutation (q :: fl) (free_ptrs a (l1 ++ (sz, Free) :: l2))).
  { rewrite free_ptrs_mid_free. apply Permutation_cons_app. exact HP. }
  assert (Hsc' : bscalars s (total (l1 ++ (sz, Free) :: l2)))
    by (rewrite total_mid in *; exact Hsc).
  assert (Hnodes : nodes_ok s (q :: fl)).
  { eapply nodes_ok_perm; [apply Permutation_sym; exact HP'|].
    apply bfree_ptrs_nodes; assumption. }
  destruct (insert_spec s fl q Hnodes Hd Hh) as (m' & Hrun & Hd' & Hfr).
  assert (Hframe : links_frame s (l1 ++ (sz, Free) :: l2) m').
  { intros y Hy. apply Hfr. intros p Hp.
    destruct (Z_lt_dec y p); [left; assumption|].
    destruct (Z_le_dec (p + 8) y); [right; assumption|].
    exfalso. apply Hy. exists p. split; [|lia].
    eapply Permutation_in; eassumption. }
  assert (Hout : forall x, x + 4 <= a \/ a + total (l1 ++ (sz, Free) :: l2) <= x ->
                           rd m' x = rd (mem s) x).
  { intros x Hx. apply rd_ext. intros y Hy. apply Hframe. intros Hl.
    apply in_links_range in Hl; trivial. rewrite total_mid in *. lia. }
  exists m'. split; [exact Hrun|]. split; [|exact Hframe].
  split; [exact Hsc'|]. norm.
  split; [|split; [|split; [|split; [|split]]]].
  - rewrite <- Hpro. apply Hout. left. unfold a, first_hdr. lia.
  - eapply bblocks_frame.
    + intros y Hy. apply Hframe. eapply bmeta_not_links; eassumption.
    + apply bblocks_mid in Hb. apply bblocks_mid. simpl. tauto.
  - rewrite total_mid in *. rewrite <- He. apply Hout. right. lia.
  - exact Hd'.
  - reflexivity.
  - exact HP'.
Qed.

(** ** The words next to a block *)

(** The footer below a block: that of the settled block before it, or
    the prologue's. *)
Lemma BW_pred_footer (s : state Z) (l1 l2 : list block) (sz : Z) (t : status)
      (fl : list Z) :
  BW s (l1 ++ (sz, t) :: l2) fl -> no_limbo l1 ->
  exists psz,
    rd (mem s) (first_hdr s + total l1 - 4) = hdr psz false (tail_pa true l1) /\
    psz mod 8 = 0 /\ 16 <= psz /\ psz + 8 <= W32 /\
    (tail_pa true l1 = false -> exists l', l1 = l' ++ [(psz, Free)]).
Proof.
  intros HW Hnl. pose proof (BW_sizes _ _ _ HW) as Hs.
  pose proof (BW_bounds _ _ _ HW) as (Hlo & Hhp & Ht0 & Htb & Ht32 & _).
  destruct HW as (_ & Hpro & Hb & _).
  destruct (list_nil_or_last l1) as [->|(l' & [psz pt] & ->)].
  - exists 16. simpl. rewrite Z.add_0_r. unfold first_hdr.
    replace (mem_lo s + 20 - 4) with (heap_ptr s) by lia.
    split; [exact Hpro|]. split; [reflexivity|]. split; [lia|].
    split; [unfold W32; lia|]. discriminate.
  - rewrite <- app_assoc in Hb, Hs. cbn [app] in Hb, Hs.
    apply bblocks_mid in Hb. destruct Hb as (_ & [Hp Hp8] & Hw & _).
    apply sizes_ok_mid in Hs. destruct Hs as (Hs1 & _ & Hs2).
    pose proof (total_nonneg _ Hs1). pose proof (total_nonneg _ Hs2).
    rewrite <- app_assoc in Ht32. cbn [app] in Ht32.
    rewrite total_mid in Ht32.
    apply no_limbo_app in Hnl. destruct Hnl as [_ Hnl].
    apply no_limbo_cons in Hnl. destruct Hnl as [Hpt _]. simpl in Hpt.
    exists psz. rewrite total_app, tail_pa_app. simpl.
    replace (first_hdr s + (total l' + (psz + 0)) - 4)
      with (first_hdr s + total l' + psz - 4) by lia.
    split; [destruct Hpt as [-> | ->]; simpl in *; apply Hw|].
    split; [exact Hp8|]. split; [lia|]. split; [lia|].
    intros E. destruct Hpt as [-> | ->]; [discriminate|].
    exists l'. reflexivity.
Qed.

(** The header above a block: that of the settled block after it, or the
    epilogue. *)
Lemma BW_succ_header (s : state Z) (l1 l2 : list block) (sz : Z) (t : status)
      (fl : list Z) :
  BW s (l1 ++ (sz, t) :: l2) fl -> no_limbo l2 ->
  let x := first_hdr s + total l1 + sz in
  inb s x /\
  rd (mem s) x = hdr (head_size l2) false (head_alloc l2) /\
  head_size l2 mod 8 = 0 /\ 0 <= head_size l2 /\ head_size l2 + 8 <= W32.
Proof.
  intros HW Hnl x. pose proof (BW_sizes _ _ _ HW) as Hs.
  pose proof (BW_bounds _ _ _ HW) as (Hlo & Hhp & Ht0 & Htb & Ht32 & _).
  destruct HW as (_ & _ & Hb & He & _).
  rewrite total_mid in *.
  apply bblocks_mid in Hb. destruct Hb as (_ & [Hz Hz8] & _ & Hb).
  apply sizes_ok_mid in Hs. destruct Hs as (Hs1 & _ & Hs2).
  pose proof (total_nonneg _ Hs1). pose proof (total_nonneg _ Hs2).
  fold x in Hb.
  split; [unfold inb, x, first_hdr; lia|].
  destruct l2 as [|[n t2] r].
  - simpl in *.
    replace (first_hdr s + (total l1 + sz + 0)) with x in He by (unfold x; lia).
    split; [exact He|]. split; [reflexivity|]. unfold W32. lia.
  - apply no_limbo_cons in Hnl. destruct Hnl as [Hnl _]. simpl in Hnl.
    simpl in Hb. destruct Hb as ([Hn Hn8] & Hw & _).
    simpl total in *. apply sizes_ok_cons in Hs2. destruct Hs2 as [_ Hs2].
    pose proof (total_nonneg _ Hs2).
    simpl head_size.
    split; [destruct Hnl as [-> | ->]; simpl in *; apply Hw|].
    split; [exact Hn8|]. lia.
Qed.

(** * The coalescer of part_000 *)

Lemma bind_assoc {F A B C} (c : M F A) (f : A -> M F B) (k : B -> M F C)
      (s : state F) :
  bind (bind c f) k s = bind c (fun a => bind (f a) k) s.
Proof. unfold bind. destruct (c s); reflexivity. Qed.

(** One step of a program whose first command is itself a sequence. *)
Ltac astep tac := rewrite ?bind_assoc; rstep tac.

Lemma bframe_payload (s : state Z) (bs : list block) (m' : memory) (y : Z) :
  links_frame s bs m' -> sizes_ok bs -> bpayload (first_hdr s) bs y ->
  m' y = mem s y.
Proof. intros Hf Hs Hy. apply Hf. apply bpayload_not_links; assumption. Qed.

Lemma bmerge_spec (s : state Z) (l1 l2 : list block) (sz : Z) (nb : bool)
      (fl : list Z) :
  let a := first_hdr s in
  BW s (l1 ++ (sz, Limbo nb) :: l2) fl ->
  rd (mem s) (a + total l1) = hdr sz false false ->
  rd (mem s) (a + total l1 + sz - 4) = hdr sz false false ->
  naf true l1 -> naf true l2 -> no_limbo l1 -> no_limbo l2 ->
  exists r s',
    Basic._merge_free_blocks (a + total l1 + 4) s = Done r s' /\
    bmerged s l1 l2 sz r s'.
Proof.
  intros a HW Hhdr Hftr Hnaf1 Hnaf2 Hnl1 Hnl2. subst a.
  pose proof (BW_sizes _ _ _ HW) as Hs.
  pose proof (BW_bounds _ _ _ HW) as (Hlo & Hhp & Ht0 & Htb & Ht32 & Hmax).
  rewrite total_mid in Ht0, Htb, Ht32.
  apply sizes_ok_mid in Hs. destruct Hs as (Hs1 & [Hsz Hsz8] & Hs2).
  pose proof (total_nonneg _ Hs1) as Ht1. pose proof (total_nonneg _ Hs2) as Ht2.
  destruct (BW_pred_footer s l1 l2 sz _ fl HW Hnl1)
    as (psz & Hpr & Hp8 & Hp16 & Hp32 & Hpl).
  destruct (BW_succ_header s l1 l2 sz _ fl HW Hnl2)
    as (Hxb & Hxr & Hx8 & Hx0 & Hx32).
  assert (Hhb : inb s (first_hdr s + total l1)) by (unfold inb, first_hdr; lia).
  assert (Hpb : inb s (first_hdr s + total l1 - 4))
    by (unfold inb, first_hdr; lia).
  unfold Basic._merge_free_blocks. rewrite !PRED_FOOTER_hdr.
  rstep ltac:(eapply GET_ALLOC_ok; [exact Hpb|exact Hpr|exact Hp8]).
  rstep ltac:(eapply SUCC_HEADER_hdr; [exact Hhb|exact Hhdr|exact Hsz8|lia|lia]).
  rstep ltac:(eapply GET_ALLOC_ok; [exact Hxb|exact Hxr|exact Hx8]).
  destruct (tail_pa true l1) eqn:Epa; destruct (head_alloc l2) eqn:Eal;
    cbn [bit_pa bit_al Z.eqb negb andb].
  - (* both neighbours allocated *)
    astep ltac:(reflexivity).
    destruct (BW_list s l1 l2 sz nb fl HW Hhdr Hftr) as (m' & Hrun & HW' & Hfr).
    rstep ltac:(exact Hrun).
    eexists _, _. split; [reflexivity|].
    exists m', (first_hdr s + total l1 + 4), (l1 ++ (sz, Free) :: l2),
      ((first_hdr s + total l1 + 4) :: fl).
    split; [reflexivity|].
    split; [split; [exact HW'|split]|].
    + apply naf_app. split; [exact Hnaf1|]. rewrite Epa. simpl.
      split; [reflexivity|]. apply head_alloc_naf; assumption.
    + apply no_limbo_app. split; [exact Hnl1|]. apply no_limbo_cons.
      split; [right; reflexivity|exact Hnl2].
    + split; [apply total_mid|].
      split; [rewrite alloc_blocks_app; reflexivity|].
      split.
      * intros y Hy. apply (bframe_payload s _ m' y Hfr).
        -- apply sizes_ok_mid. tauto.
        -- apply bpayload_mid_other; [discriminate|exact Hy].
      * exists l1, sz, l2. repeat split; trivial; lia.
  - (* predecessor allocated, successor free *)
    destruct (head_alloc_false l2 Hnl2 Eal) as (sz2 & l2' & ->).
    simpl head_size in *. simpl total in *.
    apply sizes_ok_cons in Hs2. destruct Hs2 as [[Hsz2 Hsz28] Hs2].
    pose proof (total_nonneg _ Hs2) as Ht2'.
    astep ltac:(eapply SUCC_BLK_hdr; [exact Hhb|exact Hhdr|exact Hsz8|lia|lia]).
    assert (HW2 : BW s ((l1 ++ [(sz, Limbo nb)]) ++ (sz2, Free) :: l2') fl)
      by (rewrite <- app_assoc; exact HW).
    destruct (BW_unlist s _ _ _ _ HW2) as (m1 & fl1 & Hrun1 & HW1 & Hfr1).
    rewrite total_app in Hrun1. simpl total in Hrun1.
    replace (first_hdr s + (total l1 + (sz + 0)) + 4)
      with (first_hdr s + total l1 + sz + 4) in Hrun1 by lia.
    astep ltac:(exact Hrun1).
    rewrite <- app_assoc in HW1, Hfr1. cbn [app] in HW1, Hfr1.
    apply (BW_join _ _ _ _ _ _ _ false) in HW1.
    apply (links_frame_join _ _ _ _ _ _ _ false) in Hfr1.
    set (N := sz + sz2) in *.
    set (s1 := set_free_blks (set_mem s m1) (hd 0 fl1)) in *.
    pose proof (BW_sizes _ _ _ HW1) as HsN.
    assert (Hh1 : rd (mem s1) (first_hdr s + total l1) = hdr sz false false).
    { subst s1; norm. rewrite <- Hhdr.
      eapply frame_rd_limbo; [exact Hfr1|exact HsN|lia|unfold N; lia]. }
    assert (Hx1 : rd (mem s1) (first_hdr s + total l1 + sz) = hdr sz2 false false).
    { subst s1; norm. rewrite <- Hxr.
      eapply frame_rd_limbo; [exact Hfr1|exact HsN|lia|unfold N; lia]. }
    assert (Hhb1 : inb s1 (first_hdr s + total l1)) by exact Hhb.
    assert (Hxb1 : inb s1 (first_hdr s + total l1 + sz)) by exact Hxb.
    rewrite ?GET_HEADER_hdr.
    astep ltac:(eapply GET_SIZE_ok; [exact Hhb1|exact Hh1|exact Hsz8|lia|lia]).
    astep ltac:(eapply SUCC_HEADER_hdr; [exact Hhb1|exact Hh1|exact Hsz8|lia|lia]).
    astep ltac:(eapply GET_SIZE_ok; [exact Hxb1|exact Hx1|exact Hsz28|lia|lia]).
    fold N. rewrite (Z.mod_small N) by (unfold N; lia).
    assert (HN8 : N mod 8 = 0)
      by (unfold N; rewrite Z.add_mod, Hsz8, Hsz28 by lia; reflexivity).
    rewrite !pack_small by (trivial; lia). rewrite Z.add_0_r.
    astep ltac:(apply WRITE_ok; exact Hhb1).
    assert (HW2' := BW_write_limbo s1 l1 l2' N false fl1 (first_hdr s + total l1)
                      N HW1 ltac:(subst s1; norm; lia)
                      ltac:(subst s1; norm; lia)).
    set (s2 := set_mem s1 _) in *.
    assert (Hh2 : rd (mem s2) (first_hdr s + total l1) = hdr N false false).
    { subst s2; norm. rewrite hdr_plain. apply rd_wr_same_small.
      unfold W32 in *. lia. }
    astep ltac:(eapply GET_FOOTER_hdr; [exact Hhb1|exact Hh2|exact HN8|lia|lia]).
    astep ltac:(apply WRITE_ok; unfold inb; subst s2 s1; norm; unfold first_hdr in *; lia).
    assert (HW3 := BW_write_limbo s2 l1 l2' N false fl1 (first_hdr s + total l1 + N - 4)
                      N HW2' ltac:(subst s2 s1; norm; lia)
                      ltac:(subst s2 s1; norm; lia)).
    set (s3 := set_mem s2 _) in *.
    astep ltac:(reflexivity).
    destruct (BW_list s3 l1 l2' N false fl1 HW3) as (m' & Hrun & HW' & Hfr).
    { subst s3 s2 s1; norm. rewrite rd_wr_other by lia.
      rewrite hdr_plain. apply rd_wr_same_small. unfold W32 in *; lia. }
    { subst s3 s2 s1; norm. rewrite hdr_plain.
      apply rd_wr_same_small. unfold W32 in *. lia. }
    replace (first_hdr s3) with (first_hdr s) in Hrun, HW', Hfr by reflexivity.
    rstep ltac:(exact Hrun).
    eexists _, _. split; [reflexivity|].
    exists m', (first_hdr s + total l1 + 4), (l1 ++ (N, Free) :: l2'),
      ((first_hdr s + total l1 + 4) :: fl1).
    split; [reflexivity|].
    split; [split; [exact HW'|split]|].
    + apply naf_app. split; [exact Hnaf1|]. rewrite Epa. simpl.
      split; [reflexivity|]. simpl in Hnaf2. tauto.
    + apply no_limbo_app. split; [exact Hnl1|]. apply no_limbo_cons.
      split; [right; reflexivity|].
      apply no_limbo_cons in Hnl2. tauto.
    + split; [rewrite total_mid; simpl; unfold N; lia|].
      split; [rewrite alloc_blocks_app; simpl;
              replace (first_hdr s + total l1 + N) with (first_hdr s + total l1 + sz + sz2)
                by (unfold N; lia); reflexivity|].
      split.
      * intros y Hy.
        assert (Hy' : bpayload (first_hdr s) l1 y \/
                      bpayload (first_hdr s + total l1 + N) l2' y).
        { destruct Hy as [Hy|Hy]; [left; exact Hy|right].
          simpl in Hy. destruct Hy as [[E _]|Hy]; [discriminate|].
          replace (first_hdr s + total l1 + N) with (first_hdr s + total l1 + sz + sz2)
            by (unfold N; lia). exact Hy. }
        assert (Hyr : y < first_hdr s + total l1 \/ first_hdr s + total l1 + N + 4 <= y).
        { destruct Hy' as [Hy'|Hy']; apply bpayload_range in Hy'; trivial; lia. }
        rewrite (bframe_payload s3 _ m' y Hfr).
        -- subst s3 s2 s1; norm. rewrite !wr_other_byte by lia.
           apply (bframe_payload s _ m1 y Hfr1 HsN).
           apply bpayload_mid_other; [discriminate|exact Hy'].
        -- apply sizes_ok_mid. split; [exact Hs1|]. split; [lia|exact Hs2].
        -- apply bpayload_mid_other; [discriminate|exact Hy'].
      * exists l1, N, l2'. repeat split; trivial; unfold N; lia.
  - (* predecessor free, successor allocated *)
    destruct (Hpl eq_refl) as (l1' & ->).
    rename psz into sz0.
    pose proof Epa as Hpa1.
    assert (Eh : first_hdr s + total (l1' ++ [(sz0, Free)])
                 = first_hdr s + total l1' + sz0)
      by (rewrite total_app; simpl; lia).
    rewrite total_app in Ht0, Htb, Ht32, Ht1. simpl total in Ht0, Htb, Ht32, Ht1.
    rewrite Eh in *.
    apply sizes_ok_app in Hs1. destruct Hs1 as [Hs1 _].
    pose proof (total_nonneg _ Hs1) as Ht1'.
    rewrite <- app_assoc in HW. cbn [app] in HW.
    assert (Hpa0 : tail_pa true l1' = true).
    { apply naf_app in Hnaf1. destruct Hnaf1 as [_ [H _]]. apply H. reflexivity. }
    set (h0 := first_hdr s + total l1') in *.
    assert (Hb0 : inb s h0) by (unfold inb, h0, first_hdr; lia).
    astep ltac:(eapply PRED_BLK_hdr; [exact Hpb|exact Hpr|exact Hp8|lia|lia]).
    replace (h0 + sz0 - sz0 + 4) with (h0 + 4) by lia.
    destruct (BW_unlist s _ _ _ _ HW) as (m1 & fl1 & Hrun1 & HW1 & Hfr1).
    fold h0 in Hrun1. astep ltac:(exact Hrun1).
    set (N := sz0 + sz).
    apply (BW_join _ _ _ _ _ _ _ false) in HW1.
    apply (links_frame_join _ _ _ _ _ _ _ false) in Hfr1.
    fold N in HW1, Hfr1.
    set (s1 := set_free_blks (set_mem s m1) (hd 0 fl1)) in *.
    pose proof (BW_sizes _ _ _ HW1) as HsN.
    assert (Hrd1 : forall x, h0 <= x -> x + 4 <= h0 + N ->
                             rd (mem s1) x = rd (mem s) x).
    { intros x H1 H2. subst s1; norm.
      eapply frame_rd_limbo; [exact Hfr1|exact HsN|exact H1|exact H2]. }
    assert (Hh1 : rd (mem s1) (h0 + sz0) = hdr sz false false)
      by (rewrite Hrd1 by (unfold N; lia); exact Hhdr).
    assert (Hp1 : rd (mem s1) (h0 + sz0 - 4) = hdr sz0 false false)
      by (rewrite Hrd1 by (unfold N; lia); exact Hpr).
    assert (Hhb1 : inb s1 (h0 + sz0)) by exact Hhb.
    assert (Hpb1 : inb s1 (h0 + sz0 - 4)) by exact Hpb.
    rewrite ?PRED_FOOTER_hdr, ?GET_HEADER_hdr.
    astep ltac:(eapply GET_SIZE_ok; [exact Hhb1|exact Hh1|exact Hsz8|lia|lia]).
    astep ltac:(eapply GET_SIZE_ok; [exact Hpb1|exact Hp1|exact Hp8|lia|lia]).
    replace (sz + sz0) with N by (unfold N; lia).
    rewrite (Z.mod_small N) by (unfold N; lia).
    assert (HN8 : N mod 8 = 0)
      by (unfold N; rewrite Z.add_mod, Hsz8, Hp8 by lia; reflexivity).
    astep ltac:(eapply PRED_BLK_hdr; [exact Hpb1|exact Hp1|exact Hp8|lia|lia]).
    replace (h0 + sz0 - sz0 + 4) with (h0 + 4) by lia. rewrite GET_HEADER_hdr.
    rewrite !pack_small by (trivial; simpl; lia). rewrite Z.add_0_r.
    astep ltac:(apply WRITE_ok; exact Hb0).
    assert (HW2 := BW_write_limbo s1 l1' l2 N false fl1 h0
                      N HW1 ltac:(subst s1; norm; lia)
                      ltac:(subst s1; norm; unfold N; lia)).
    set (s2 := set_mem s1 _) in *.
    assert (Hh2 : rd (mem s2) (h0 + sz0) = hdr sz false false).
    { subst s2; norm. rewrite rd_wr_other by lia. exact Hh1. }
    astep ltac:(eapply GET_FOOTER_hdr; [exact Hhb1|exact Hh2|exact Hsz8|lia|lia]).
    astep ltac:(apply WRITE_ok; unfold inb; subst s2 s1; norm; unfold h0, first_hdr in *; lia).
    assert (HW3 := BW_write_limbo s2 l1' l2 N false fl1 (h0 + sz0 + sz - 4)
                      N HW2 ltac:(subst s2 s1; norm; lia)
                      ltac:(subst s2 s1; norm; unfold N; lia)).
    set (s3 := set_mem s2 _) in *.
    assert (Hp3 : rd (mem s3) (h0 + sz0 - 4) = hdr sz0 false false).
    { subst s3 s2; norm. rewrite !rd_wr_other by lia. exact Hp1. }
    astep ltac:(eapply PRED_BLK_hdr; [exact Hpb1|exact Hp3|exact Hp8|lia|lia]).
    replace (h0 + sz0 - sz0 + 4) with (h0 + 4) by lia.
    destruct (BW_list s3 l1' l2 N false fl1 HW3) as (m' & Hrun & HW' & Hfr).
    { subst s3 s2 s1; norm. fold h0. rewrite !rd_wr_other by lia.
      rewrite hdr_plain. apply rd_wr_same_small. unfold N, W32 in *; lia. }
    { subst s3 s2 s1; norm. fold h0.
      replace (h0 + N - 4) with (h0 + sz0 + sz - 4) by (unfold N; lia).
      rewrite hdr_plain. apply rd_wr_same_small. unfold N, W32 in *. lia. }
    replace (first_hdr s3) with (first_hdr s) in Hrun, HW', Hfr by reflexivity.
    fold h0 in Hrun, HW'.
    rstep ltac:(exact Hrun).
    eexists _, _. split; [reflexivity|].
    exists m', (h0 + 4), (l1' ++ (N, Free) :: l2), ((h0 + 4) :: fl1).
    split; [reflexivity|].
    split; [split; [exact HW'|split]|].
    + apply naf_app. apply naf_app in Hnaf1. split; [tauto|]. rewrite Hpa0. simpl.
      split; [reflexivity|]. apply head_alloc_naf; assumption.
    + apply no_limbo_app. apply no_limbo_app in Hnl1.
      split; [tauto|]. apply no_limbo_cons.
      split; [right; reflexivity|exact Hnl2].
    + split; [rewrite total_mid, total_app; simpl; unfold N; lia|].
      split.
      { rewrite !alloc_blocks_app. simpl. rewrite app_nil_r, Eh.
        replace (h0 + sz0 + sz) with (first_hdr s + total l1' + N)
          by (unfold N, h0; lia). reflexivity. }
      split.
      * intros y Hy.
        assert (Hy' : bpayload (first_hdr s) l1' y \/
                      bpayload (first_hdr s + total l1' + N) l2 y).
        { destruct Hy as [Hy|Hy].
          - apply bpayload_app in Hy. destruct Hy as [Hy|Hy]; [left; exact Hy|].
            simpl in Hy. destruct Hy as [[E _]|[]]. discriminate.
          - right. rewrite Eh in Hy.
            replace (first_hdr s + total l1' + N) with (h0 + sz0 + sz)
              by (unfold N, h0; lia). exact Hy. }
        assert (Hyr : y < h0 \/ h0 + N + 4 <= y).
        { destruct Hy' as [Hy'|Hy']; apply bpayload_range in Hy'; trivial;
            unfold h0; lia. }
        rewrite (bframe_payload s3 _ m' y Hfr).
        -- subst s3 s2 s1; norm. rewrite !wr_other_byte by (unfold N in *; lia).
           apply (bframe_payload s _ m1 y Hfr1 HsN).
           apply bpayload_mid_other; [discriminate|exact Hy'].
        -- apply sizes_ok_mid. split; [exact Hs1|].
           split; [split; [unfold N; lia|exact HN8]|exact Hs2].
        -- apply bpayload_mid_other; [discriminate|exact Hy'].
      * exists l1', N, l2. repeat split; try (unfold N, h0; lia).
        intros E. rewrite Hpa1 in E. discriminate.
  - (* both neighbours free *)
    destruct (Hpl eq_refl) as (l1' & ->).
    rename psz into sz0.
    pose proof Epa as Hpa1.
    destruct (head_alloc_false l2 Hnl2 Eal) as (sz2 & l2' & ->).
    assert (Eh : first_hdr s + total (l1' ++ [(sz0, Free)])
                 = first_hdr s + total l1' + sz0)
      by (rewrite total_app; simpl; lia).
    rewrite total_app in Ht0, Htb, Ht32, Ht1. simpl total in *.
    simpl head_size in *.
    rewrite Eh in *.
    apply sizes_ok_app in Hs1. destruct Hs1 as [Hs1 _].
    apply sizes_ok_cons in Hs2. destruct Hs2 as [[Hsz2 Hsz28] Hs2].
    pose proof (total_nonneg _ Hs1) as Ht1'.
    pose proof (total_nonneg _ Hs2) as Ht2'.
    rewrite <- app_assoc in HW. cbn [app] in HW.
    assert (Hpa0 : tail_pa true l1' = true).
    { apply naf_app in Hnaf1. destruct Hnaf1 as [_ [H _]]. apply H. reflexivity. }
    set (h0 := first_hdr s + total l1') in *.
    assert (Hb0 : inb s h0) by (unfold inb, h0, first_hdr; lia).
    astep ltac:(eapply PRED_BLK_hdr; [exact Hpb|exact Hpr|exact Hp8|lia|lia]).
    replace (h0 + sz0 - sz0 + 4) with (h0 + 4) by lia.
    destruct (BW_unlist s _ _ _ _ HW) as (m1 & fl1 & Hrun1 & HW1 & Hfr1).
    fold h0 in Hrun1. astep ltac:(exact Hrun1).
    apply (BW_join _ _ _ _ _ _ _ false) in HW1.
    apply (links_frame_join _ _ _ _ _ _ _ false) in Hfr1.
    set (s1 := set_free_blks (set_mem s m1) (hd 0 fl1)) in *.
    pose proof (BW_sizes _ _ _ HW1) as HsN1.
    assert (Hrd1 : forall x, h0 <= x -> x + 4 <= h0 + (sz0 + sz) ->
                             rd (mem s1) x = rd (mem s) x).
    { intros x H1 H2. subst s1; norm.
      eapply frame_rd_limbo; [exact Hfr1|exact HsN1|exact H1|exact H2]. }
    assert (Hh1 : rd (mem s1) (h0 + sz0) = hdr sz false false)
      by (rewrite Hrd1 by lia; exact Hhdr).
    assert (Hhb1 : inb s1 (h0 + sz0)) by exact Hhb.
    astep ltac:(eapply SUCC_BLK_hdr; [exact Hhb1|exact Hh1|exact Hsz8|lia|lia]).
    assert (HW1' : BW s1 ((l1' ++ [(sz0 + sz, Limbo false)]) ++ (sz2, Free) :: l2') fl1)
      by (rewrite <- app_assoc; exact HW1).
    assert (Hx1 : rd (mem s1) (h0 + sz0 + sz) = hdr sz2 false false).
    { pose proof HW1 as (_ & _ & Hb & _).
      apply bblocks_mid in Hb. destruct Hb as (_ & _ & _ & Hb). simpl in Hb.
      replace (first_hdr s1 + total l1' + (sz0 + sz)) with (h0 + sz0 + sz) in Hb
        by (unfold h0; subst s1; norm; lia).
      apply Hb. }
    destruct (BW_unlist s1 _ _ _ _ HW1') as (m2 & fl2 & Hrun2 & HW2 & Hfr2).
    rewrite total_app in Hrun2. simpl total in Hrun2.
    replace (first_hdr s1 + (total l1' + (sz0 + sz + 0)) + 4)
      with (h0 + sz0 + sz + 4) in Hrun2 by (unfold h0; subst s1; norm; lia).
    astep ltac:(exact Hrun2).
    rewrite <- app_assoc in HW2, Hfr2. cbn [app] in HW2, Hfr2.
    apply (BW_join _ _ _ _ _ _ _ false) in HW2.
    apply (links_frame_join _ _ _ _ _ _ _ false) in Hfr2.
    set (N := sz0 + sz + sz2) in *.
    set (s2 := set_free_blks (set_mem s1 m2) (hd 0 fl2)) in *.
    pose proof (BW_sizes _ _ _ HW2) as HsN.
    assert (Hrd2 : forall x, h0 <= x -> x + 4 <= h0 + N ->
                             rd (mem s2) x = rd (mem s1) x).
    { intros x H1 H2. subst s2; norm.
      eapply frame_rd_limbo; [exact Hfr2|exact HsN|exact H1|exact H2]. }
    assert (Hh2 : rd (mem s2) (h0 + sz0) = hdr sz false false)
      by (rewrite Hrd2 by (unfold N; lia); exact Hh1).
    assert (Hp2 : rd (mem s2) (h0 + sz0 - 4) = hdr sz0 false false)
      by (rewrite Hrd2, Hrd1 by (unfold N; lia); exact Hpr).
    assert (Hx2 : rd (mem s2) (h0 + sz0 + sz) = hdr sz2 false false)
      by (rewrite Hrd2 by (unfold N; lia); exact Hx1).
    assert (Hhb2 : inb s2 (h0 + sz0)) by exact Hhb.
    assert (Hpb2 : inb s2 (h0 + sz0 - 4)) by exact Hpb.
    assert (Hxb2 : inb s2 (h0 + sz0 + sz)) by exact Hxb.
    rewrite ?PRED_FOOTER_hdr, ?GET_HEADER_hdr.
    astep ltac:(eapply GET_SIZE_ok; [exact Hhb2|exact Hh2|exact Hsz8|lia|lia]).
    astep ltac:(eapply GET_SIZE_ok; [exact Hpb2|exact Hp2|exact Hp8|lia|lia]).
    astep ltac:(eapply SUCC_HEADER_hdr; [exact Hhb2|exact Hh2|exact Hsz8|lia|lia]).
    astep ltac:(eapply GET_SIZE_ok; [exact Hxb2|exact Hx2|exact Hsz28|lia|lia]).
    rewrite (Z.mod_small (sz + sz0)) by lia.
    replace (sz + sz0 + sz2) with N by (unfold N; lia).
    rewrite (Z.mod_small N) by (unfold N; lia).
    assert (HN8 : N mod 8 = 0).
    { unfold N. rewrite Z.add_mod, (Z.add_mod sz0), Hsz8, Hp8, Hsz28 by lia.
      reflexivity. }
    astep ltac:(eapply PRED_BLK_hdr; [exact Hpb2|exact Hp2|exact Hp8|lia|lia]).
    replace (h0 + sz0 - sz0 + 4) with (h0 + 4) by lia. rewrite GET_HEADER_hdr.
    rewrite !pack_small by (trivial; simpl; lia). rewrite Z.add_0_r.
    astep ltac:(apply WRITE_ok; exact Hb0).
    assert (HW3 := BW_write_limbo s2 l1' l2' N false fl2 h0
                      N HW2 ltac:(subst s2 s1; norm; lia)
                      ltac:(subst s2 s1; norm; unfold N; lia)).
    set (s3 := set_mem s2 _) in *.
    assert (Hh3 : rd (mem s3) (h0 + sz0) = hdr sz false false).
    { subst s3; norm. rewrite rd_wr_other by lia. exact Hh2. }
    assert (Hx3 : rd (mem s3) (h0 + sz0 + sz) = hdr sz2 false false).
    { subst s3; norm. rewrite rd_wr_other by lia. exact Hx2. }
    astep ltac:(eapply SUCC_BLK_hdr; [exact Hhb2|exact Hh3|exact Hsz8|lia|lia]).
    astep ltac:(eapply GET_FOOTER_hdr; [exact Hxb2|exact Hx3|exact Hsz28|lia|lia]).
    astep ltac:(apply WRITE_ok; unfold inb; subst s3 s2 s1; norm; unfold h0, first_hdr in *; lia).
    assert (HW4 := BW_write_limbo s3 l1' l2' N false fl2 (h0 + sz0 + sz + sz2 - 4)
                      N HW3 ltac:(subst s3 s2 s1; norm; lia)
                      ltac:(subst s3 s2 s1; norm; unfold N; lia)).
    set (s4 := set_mem s3 _) in *.
    assert (Hp4 : rd (mem s4) (h0 + sz0 - 4) = hdr sz0 false false).
    { subst s4 s3; norm. rewrite !rd_wr_other by lia. exact Hp2. }
    astep ltac:(eapply PRED_BLK_hdr; [exact Hpb2|exact Hp4|exact Hp8|lia|lia]).
    replace (h0 + sz0 - sz0 + 4) with (h0 + 4) by lia.
    destruct (BW_list s4 l1' l2' N false fl2 HW4) as (m' & Hrun & HW' & Hfr).
    { subst s4 s3 s2 s1; norm. fold h0. rewrite !rd_wr_other by lia.
      rewrite hdr_plain. apply rd_wr_same_small. unfold N, W32 in *; lia. }
    { subst s4 s3 s2 s1; norm. fold h0.
      replace (h0 + N - 4) with (h0 + sz0 + sz + sz2 - 4) by (unfold N; lia).
      rewrite hdr_plain. apply rd_wr_same_small. unfold N, W32 in *. lia. }
    replace (first_hdr s4) with (first_hdr s) in Hrun, HW', Hfr by reflexivity.
    fold h0 in Hrun, HW'.
    rstep ltac:(exact Hrun).
    eexists _, _. split; [reflexivity|].
    exists m', (h0 + 4), (l1' ++ (N, Free) :: l2'), ((h0 + 4) :: fl2).
    split; [reflexivity|].
    split; [split; [exact HW'|split]|].
    + apply naf_app. apply naf_app in Hnaf1. split; [tauto|]. rewrite Hpa0. simpl.
      split; [reflexivity|]. simpl in Hnaf2. tauto.
    + apply no_limbo_app. apply no_limbo_app in Hnl1.
      split; [tauto|]. apply no_limbo_cons.
      split; [right; reflexivity|]. apply no_limbo_cons in Hnl2. tauto.
    + split; [rewrite total_mid, total_app; simpl; unfold N; lia|].
      split.
      { rewrite !alloc_blocks_app. simpl. rewrite app_nil_r, Eh.
        replace (h0 + sz0 + sz + sz2) with (first_hdr s + total l1' + N)
          by (unfold N, h0; lia). reflexivity. }
      split.
      * intros y Hy.
        assert (Hy' : bpayload (first_hdr s) l1' y \/
                      bpayload (first_hdr s + total l1' + N) l2' y).
        { destruct Hy as [Hy|Hy].
          - apply bpayload_app in Hy. destruct Hy as [Hy|Hy]; [left; exact Hy|].
            simpl in Hy. destruct Hy as [[E _]|[]]. discriminate.
          - right. rewrite Eh in Hy. simpl in Hy.
            destruct Hy as [[E _]|Hy]; [discriminate|].
            replace (first_hdr s + total l1' + N) with (h0 + sz0 + sz + sz2)
              by (unfold N, h0; lia). exact Hy. }
        assert (Hyr : y < h0 \/ h0 + N + 4 <= y).
        { destruct Hy' as [Hy'|Hy']; apply bpayload_range in Hy'; trivial;
            unfold h0; lia. }
        rewrite (bframe_payload s4 _ m' y Hfr).
        -- subst s4 s3; norm. rewrite !wr_other_byte by (unfold N in *; lia).
           subst s2; norm.
           rewrite (bframe_payload s1 _ m2 y Hfr2 HsN).
           ++ subst s1; norm.
              apply (bframe_payload s _ m1 y Hfr1 HsN1).
              apply bpayload_mid_other; [discriminate|].
              destruct Hy' as [Hy'|Hy']; [left; exact Hy'|right].
              simpl. right.
              replace (first_hdr s + total l1' + (sz0 + sz) + sz2)
                with (first_hdr s + total l1' + N) by (unfold N; lia).
              exact Hy'.
           ++ apply bpayload_mid_other; [discriminate|exact Hy'].
        -- apply sizes_ok_mid. split; [exact Hs1|].
           split; [split; [unfold N; lia|exact HN8]|exact Hs2].
        -- apply bpayload_mid_other; [discriminate|exact Hy'].
      * exists l1', N, l2'. repeat split; try (unfold N, h0; lia).
        intros E. rewrite Hpa1 in E. discriminate.
Qed.

Lemma BRep_BW (s : state Z) (bs : list block) (fl : list Z) :
  BRep s bs fl -> BW s bs fl.
Proof. intros H. apply H. Qed.

Lemma enc_NULL (hp : Z) : enc hp 0 = 0.
Proof. reflexivity. Qed.

Lemma bbuild_spec (s : state Z) (l1 l2 : list block) (bsz size : Z)
      (fl : list Z) :
  BRep s (l1 ++ (bsz, Free) :: l2) fl ->
  16 <= size -> size mod 8 = 0 -> size <= bsz ->
  exists s',
    Basic._build (first_hdr s + total l1 + 4) size s = Done tt s' /\
    bbuilt s l1 l2 bsz size s'.
Proof.
  intros (HW & Hnaf & Hnl) Hsize Hsize8 Hle.
  pose proof (BW_sizes _ _ _ HW) as Hs.
  pose proof (BW_bounds _ _ _ HW) as (Hlo & Hhp & Ht0 & Htb & Ht32 & Hmax).
  rewrite total_mid in Ht0, Htb, Ht32.
  apply sizes_ok_mid in Hs. destruct Hs as (Hs1 & [Hbsz Hbsz8] & Hs2).
  pose proof (total_nonneg _ Hs1) as Ht1. pose proof (total_nonneg _ Hs2) as Ht2.
  apply naf_app in Hnaf. destruct Hnaf as [Hnaf1 [Hpa1 Hnaf2]].
  specialize (Hpa1 eq_refl). simpl next_pa in Hnaf2.
  apply no_limbo_app in Hnl. destruct Hnl as [Hnl1 Hnl2].
  apply no_limbo_cons in Hnl2. destruct Hnl2 as [_ Hnl2].
  pose proof HW as (_ & _ & Hb & _).
  apply bblocks_mid in Hb. destruct Hb as (_ & _ & [Hhdr Hftr] & _).
  simpl is_alloc in Hhdr, Hftr.
  set (h := first_hdr s + total l1) in *.
  assert (Hhb : inb s h) by (unfold inb, h, first_hdr; lia).
  assert (Hp0 : (h + 4 =? NULL) = false).
  { apply Z.eqb_neq. unfold NULL, h, first_hdr. lia. }
  unfold Basic._build. rewrite Hp0, ?GET_HEADER_hdr.
  destruct (BW_unlist s _ _ _ _ HW) as (m1 & fl1 & Hrun1 & HW1 & Hfr1).
  fold h in Hrun1. rstep ltac:(exact Hrun1).
  set (s1 := set_free_blks (set_mem s m1) (hd 0 fl1)) in *.
  pose proof (BW_sizes _ _ _ HW1) as HsL.
  assert (Hrd1 : forall x, h <= x -> x + 4 <= h + bsz ->
                           rd (mem s1) x = rd (mem s) x).
  { intros x H1 H2. subst s1; norm.
    eapply frame_rd_limbo; [exact Hfr1|exact HsL|exact H1|exact H2]. }
  assert (Hh1 : rd (mem s1) h = hdr bsz false false)
    by (rewrite Hrd1 by lia; exact Hhdr).
  assert (Hhb1 : inb s1 h) by exact Hhb.
  rstep ltac:(eapply GET_SIZE_ok; [exact Hhb1|exact Hh1|exact Hbsz8|lia|lia]).
  rewrite (Z.mod_small (bsz - size)) by (unfold W64, W32 in *; lia).
  change 1 with (bit_al true) at 1 2 3 4.
  change (PACK size (bit_al true))
    with (PACK size (Z.lor (bit_pa false) (bit_al true))).
  change (PACK bsz (bit_al true))
    with (PACK bsz (Z.lor (bit_pa false) (bit_al true))).
  rewrite !pack_hdr by assumption.
  unfold bbuilt, built_size. fold h.
  destruct (Z.ltb_spec ESIZE (bsz - size)) as [Hsplit|Hwhole].
  - (* split *)
    unfold ESIZE, DSIZE in Hsplit.
    rstep ltac:(apply WRITE_ok; exact Hhb1).
    assert (HW2 := BW_write_limbo s1 l1 l2 bsz false fl1 h
                     (hdr size false true) HW1
                     ltac:(subst s1; norm; fold h; lia)
                     ltac:(subst s1; norm; fold h; lia)).
    set (s2 := set_mem s1 _) in *.
    assert (Hh2 : rd (mem s2) h = hdr size false true).
    { subst s2; norm. apply rd_wr_same_small. apply hdr_fits; lia. }
    rstep ltac:(eapply GET_FOOTER_hdr; [exact Hhb1|exact Hh2|exact Hsize8|lia|lia]).
    rstep ltac:(apply WRITE_ok; unfold inb; subst s2 s1; norm; unfold h, first_hdr in *; lia).
    assert (HW3 := BW_write_limbo s2 l1 l2 bsz false fl1 (h + size - 4)
                     (hdr size false true) HW2
                     ltac:(subst s2 s1; norm; fold h; lia)
                     ltac:(subst s2 s1; norm; fold h; lia)).
    set (s3 := set_mem s2 _) in *.
    assert (Hh3 : rd (mem s3) h = hdr size false true).
    { subst s3; norm. rewrite rd_wr_other by lia. exact Hh2. }
    rstep ltac:(eapply SUCC_BLK_hdr; [exact Hhb1|exact Hh3|exact Hsize8|lia|lia]).
    rewrite GET_HEADER_hdr.
    assert (Hrem8 : (bsz - size) mod 8 = 0)
      by (rewrite Zminus_mod, Hbsz8, Hsize8; reflexivity).
    rewrite (pack_small (bsz - size) 0) by (trivial; lia).
    rewrite Z.add_0_r.
    rstep ltac:(apply WRITE_ok; unfold inb; subst s3 s2 s1; norm; unfold h, first_hdr in *; lia).
    assert (HW4 := BW_write_limbo s3 l1 l2 bsz false fl1 (h + size)
                     (bsz - size) HW3
                     ltac:(subst s3 s2 s1; norm; fold h; lia)
                     ltac:(subst s3 s2 s1; norm; fold h; lia)).
    set (s4 := set_mem s3 _) in *.
    assert (Hx4 : rd (mem s4) (h + size) = hdr (bsz - size) false false).
    { subst s4; norm. rewrite hdr_plain. apply rd_wr_same_small.
      unfold W32 in *; lia. }
    assert (Hxb4 : inb s4 (h + size))
      by (unfold inb; subst s4 s3 s2 s1; norm; unfold h, first_hdr in *; lia).
    rstep ltac:(eapply GET_FOOTER_hdr; [exact Hxb4|exact Hx4|exact Hrem8|lia|lia]).
    replace (h + size + (bsz - size) - 4) with (h + bsz - 4) by lia.
    rstep ltac:(apply WRITE_ok; unfold inb; subst s4 s3 s2 s1; norm; unfold h, first_hdr in *; lia).
    assert (HW5 := BW_write_limbo s4 l1 l2 bsz false fl1 (h + bsz - 4)
                     (bsz - size) HW4
                     ltac:(subst s4 s3 s2 s1; norm; fold h; lia)
                     ltac:(subst s4 s3 s2 s1; norm; fold h; lia)).
    set (s5 := set_mem s4 _) in *.
    rstep ltac:(apply SET_PRED_FREE_ok; unfold inb; subst s5 s4 s3 s2 s1; norm;
                unfold h, first_hdr in *; lia).
    assert (HW6 := BW_write_limbo s5 l1 l2 bsz false fl1 (h + size + 4)
                     (enc (heap_ptr s5) 0) HW5
                     ltac:(subst s5 s4 s3 s2 s1; norm; fold h; lia)
                     ltac:(subst s5 s4 s3 s2 s1; norm; fold h; lia)).
    set (s6 := set_mem s5 _) in *.
    rstep ltac:(apply SET_SUCC_FREE_ok; unfold inb; subst s6 s5 s4 s3 s2 s1; norm;
                unfold h, first_hdr in *; lia).
    assert (HW7 := BW_write_limbo s6 l1 l2 bsz false fl1 (h + size + 4 + 4)
                     (enc (heap_ptr s6) 0) HW6
                     ltac:(subst s6 s5 s4 s3 s2 s1; norm; fold h; lia)
                     ltac:(subst s6 s5 s4 s3 s2 s1; norm; fold h; lia)).
    set (s7 := set_mem s6 _) in *.
    apply (BW_split _ _ _ _ size _ false false) in HW7; trivial; [|lia].
    apply BW_claim in HW7;
      [|subst s7 s6 s5 s4 s3 s2 s1; norm; fold h; rewrite !rd_wr_other by lia;
        apply rd_wr_same_small; apply hdr_fits; lia
       |subst s7 s6 s5 s4 s3 s2 s1; norm; fold h; rewrite !rd_wr_other by lia;
        apply rd_wr_same_small; apply hdr_fits; lia].
    assert (HW8 : BW s7 ((l1 ++ [(size, Allocated)]) ++ (bsz - size, Limbo false) :: l2) fl1)
      by (rewrite <- app_assoc; exact HW7).
    assert (Eh : first_hdr s7 + total (l1 ++ [(size, Allocated)]) = h + size)
      by (rewrite total_app; simpl; unfold h; subst s7 s6 s5 s4 s3 s2 s1; norm; lia).
    destruct (bmerge_spec s7 (l1 ++ [(size, Allocated)]) l2 (bsz - size) false fl1 HW8)
      as (r & s' & Hrun & Hm).
    { rewrite Eh. subst s7 s6 s5 s4; norm. rewrite !rd_wr_other by lia.
      rewrite hdr_plain. apply rd_wr_same_small. unfold W32 in *; lia. }
    { rewrite Eh. replace (h + size + (bsz - size) - 4) with (h + bsz - 4) by lia.
      subst s7 s6 s5; norm. rewrite !rd_wr_other by lia.
      rewrite hdr_plain. apply rd_wr_same_small. unfold W32 in *; lia. }
    { apply naf_app. split; [exact Hnaf1|]. simpl. split; [discriminate|exact I]. }
    { eapply naf_weaken; exact Hnaf2. }
    { apply no_limbo_app. split; [exact Hnl1|]. apply no_limbo_cons.
      split; [left; reflexivity|constructor]. }
    { exact Hnl2. }
    cbv zeta in Hrun. rewrite Eh in Hrun.
    rstep ltac:(exact Hrun).
    eexists. split; [reflexivity|].
    destruct Hm as (m' & fb' & bs' & fl' & -> & HRep & Htot & Hab & Hfr & _).
    rewrite Eh in Hab, Hfr.
    replace (first_hdr s7) with (first_hdr s) in Hab, Hfr by reflexivity.
    replace (h + size + (bsz - size)) with (h + bsz) in Hab, Hfr by lia.
    exists m', fb', bs', fl'. split; [reflexivity|].
    split; [exact HRep|].
    split; [rewrite Htot, total_app; simpl; lia|].
    split; [rewrite Hab, alloc_blocks_app; simpl; rewrite <- app_assoc; reflexivity|].
    intros y Hy. rewrite Hfr.
    + assert (Hyr : y < h \/ h + bsz + 4 <= y).
      { destruct Hy as [Hy|Hy]; apply bpayload_range in Hy; trivial;
          unfold h in *; lia. }
      subst s7 s6 s5 s4 s3 s2; norm. rewrite !wr_other_byte by lia.
      subst s1; norm. apply (bframe_payload s _ m1 y Hfr1 HsL).
      apply bpayload_mid_other; [discriminate|exact Hy].
    + destruct Hy as [Hy|Hy]; [left|right; exact Hy].
      apply bpayload_app. left. exact Hy.
  - (* the whole block *)
    unfold ESIZE, DSIZE in Hwhole.
    rstep ltac:(apply WRITE_ok; exact Hhb1).
    assert (HW2 := BW_write_limbo s1 l1 l2 bsz false fl1 h
                     (hdr bsz false true) HW1
                     ltac:(subst s1; norm; fold h; lia)
                     ltac:(subst s1; norm; fold h; lia)).
    set (s2 := set_mem s1 _) in *.
    assert (Hh2 : rd (mem s2) h = hdr bsz false true).
    { subst s2; norm. apply rd_wr_same_small. apply hdr_fits; lia. }
    rstep ltac:(eapply GET_FOOTER_hdr; [exact Hhb1|exact Hh2|exact Hbsz8|lia|lia]).
    assert (HW3 := BW_write_limbo s2 l1 l2 bsz false fl1 (h + bsz - 4)
                     (hdr bsz false true) HW2
                     ltac:(subst s2 s1; norm; fold h; lia)
                     ltac:(subst s2 s1; norm; fold h; lia)).
    erewrite WRITE_ok
      by (unfold inb; subst s2 s1; norm; unfold h, first_hdr in *; lia).
    set (s3 := set_mem s2 _) in *.
    apply BW_claim in HW3;
      [|subst s3 s2 s1; norm; fold h; rewrite !rd_wr_other by lia;
        apply rd_wr_same_small; apply hdr_fits; lia
       |subst s3 s2 s1; norm; fold h;
        apply rd_wr_same_small; apply hdr_fits; lia].
    eexists. split; [reflexivity|].
    exists (mem s3), (hd 0 fl1), (l1 ++ (bsz, Allocated) :: l2), fl1.
    split; [reflexivity|].
    split; [split; [exact HW3|split]|].
    + apply naf_app. split; [exact Hnaf1|]. simpl. split; [discriminate|].
      eapply naf_weaken; exact Hnaf2.
    + apply no_limbo_app. split; [exact Hnl1|]. apply no_limbo_cons.
      split; [left; reflexivity|exact Hnl2].
    + split; [apply total_mid|].
      split; [rewrite alloc_blocks_app; reflexivity|].
      intros y Hy.
      assert (Hyr : y < h \/ h + bsz + 4 <= y).
      { destruct Hy as [Hy|Hy]; apply bpayload_range in Hy; trivial;
          unfold h in *; lia. }
      subst s3 s2; norm. rewrite !wr_other_byte by lia.
      subst s1; norm. apply (bframe_payload s _ m1 y Hfr1 HsL).
      apply bpayload_mid_other; [discriminate|exact Hy].
Qed.

(** * Growing the heap of part_000 *)

Lemma bextend_fail (s : state Z) (words : Z) :
  mem_max s < mem_brk s + Mm.extend_bytes words ->
  Basic._extend_heap words s = Done NULL s.
Proof.
  intros H. unfold Basic._extend_heap, bind, mem_sbrk.
  replace (mem_brk s + Mm.extend_bytes words <=? mem_max s) with false
    by (symmetry; apply Z.leb_gt; lia).
  rewrite andb_false_r. reflexivity.
Qed.

Lemma bextend_spec (s : state Z) (bs : list block) (fl : list Z) (words : Z) :
  let bytes := Mm.extend_bytes words in
  BRep s bs fl ->
  mem_brk s + bytes <= mem_max s -> 16 <= bytes -> bytes mod 8 = 0 ->
  exists r s',
    Basic._extend_heap words s = Done r s' /\ bextended s bs bytes r s'.
Proof.
  intros bytes (HW & Hnaf & Hnl) Hmax H16 Hm8.
  pose proof (BW_sizes _ _ _ HW) as Hs.
  pose proof (BW_bounds _ _ _ HW) as (Hlo & Hhp & Ht0 & Htb & Ht32 & _).
  destruct HW as (Hsc & Hpro & Hb & He & Hd & Hh & HP).
  pose proof Hsc as (_ & _ & _ & _ & H32).
  assert (Hb32 : bytes + 8 <= W32) by lia.
  set (e := first_hdr s + total bs) in *.
  assert (Hbrk : mem_brk s = e + 4) by (unfold e, first_hdr; lia).
  unfold Basic._extend_heap. fold bytes.
  assert (Hsbrk : mem_sbrk bytes s
                  = Done (e + 4) (set_brk s (mem_brk s + bytes))).
  { unfold mem_sbrk.
    replace (0 <=? bytes) with true by (symmetry; apply Z.leb_le; lia).
    replace (mem_brk s + bytes <=? mem_max s) with true
      by (symmetry; apply Z.leb_le; lia).
    simpl. rewrite Hbrk. reflexivity. }
  rstep ltac:(exact Hsbrk).
  replace (e + 4 =? SBRK_FAIL) with false
    by (symmetry; apply Z.eqb_neq; unfold SBRK_FAIL, e, first_hdr; lia).
  rewrite GET_HEADER_hdr.
  rewrite (pack_small bytes 0), Z.add_0_r by (trivial; lia).
  change (PACK 0 1) with 1.
  assert (Hhv : hdr bytes false false = bytes) by apply hdr_plain.
  rstep ltac:(apply WRITE_ok; unfold inb; norm; unfold e, first_hdr in *; lia).
  rstep ltac:(eapply (GET_FOOTER_hdr _ _ bytes false false);
              [unfold inb; norm; unfold e, first_hdr in *; lia
              |norm; rewrite Hhv; apply rd_wr_same_small; unfold W32 in *; lia
              |exact Hm8|lia|lia]).
  rstep ltac:(apply WRITE_ok; unfold inb; norm; unfold e, first_hdr in *; lia).
  rstep ltac:(apply SET_PRED_FREE_ok; unfold inb; norm;
              unfold e, first_hdr in *; lia).
  rstep ltac:(apply SET_SUCC_FREE_ok; unfold inb; norm;
              unfold e, first_hdr in *; lia).
  rewrite !enc_NULL.
  rstep ltac:(eapply (SUCC_BLK_hdr _ _ bytes false false);
              [unfold inb; norm; unfold e, first_hdr in *; lia
              |norm; rewrite !rd_wr_other by lia; rewrite Hhv;
               apply rd_wr_same_small; unfold W32 in *; lia
              |exact Hm8|lia|lia]).
  rewrite GET_HEADER_hdr.
  rstep ltac:(apply WRITE_ok; unfold inb; norm; unfold e, first_hdr in *; lia).
  match goal with
  | |- context [Basic._merge_free_blocks _ ?st] => set (s4 := st)
  end.
  assert (Hold : forall y, y < e -> mem s4 y = mem s y).
  { intros y Hy. subst s4; norm. rewrite !wr_other_byte by lia. reflexivity. }
  assert (Efh : first_hdr s4 = first_hdr s) by reflexivity.
  assert (Ehp : heap_ptr s4 = heap_ptr s) by reflexivity.
  assert (HW4 : BW s4 (bs ++ [(bytes, Limbo false)]) fl).
  { unfold BW. rewrite Efh, Ehp.
    split; [|split; [|split; [|split; [|split; [|split]]]]].
    - unfold bscalars, s4. norm. rewrite total_app. cbn [total].
      unfold e, first_hdr in *. lia.
    - rewrite <- Hpro. apply rd_ext. intros y Hy. apply Hold.
      unfold e, first_hdr. lia.
    - apply bblocks_app. split.
      + eapply bblocks_frame; [|exact Hb]. intros y Hy. apply Hold.
        apply bmeta_range in Hy; trivial. unfold e. lia.
      + simpl. repeat split; trivial.
    - rewrite total_app. cbn [total].
      replace (first_hdr s + (total bs + (bytes + 0))) with (e + bytes)
        by (unfold e; lia).
      change (hdr 0 false true) with 1.
      subst s4; norm. apply rd_wr_same_small. unfold W32; lia.
    - eapply dllseg_frame; [|exact Hd]. intros q y Hq Hy. apply Hold.
      assert (Hq' : In q (free_ptrs (first_hdr s) bs))
        by (eapply Permutation_in; eassumption).
      apply free_ptrs_range in Hq'; trivial. unfold e. lia.
    - exact Hh.
    - rewrite free_ptrs_app. simpl. rewrite app_nil_r. exact HP. }
  assert (Ehe : first_hdr s4 + total bs = e) by (rewrite Efh; reflexivity).
  destruct (bmerge_spec s4 bs [] bytes false fl HW4) as (r & s' & Hrun & Hm).
  { rewrite Ehe, Hhv. subst s4; norm. rewrite !rd_wr_other by lia.
    apply rd_wr_same_small. unfold W32 in *; lia. }
  { rewrite Ehe, Hhv. subst s4; norm. rewrite !rd_wr_other by lia.
    apply rd_wr_same_small. unfold W32 in *; lia. }
  { exact Hnaf. }
  { exact I. }
  { exact Hnl. }
  { constructor. }
  cbv zeta in Hrun. rewrite Ehe in Hrun.
  exists r, s'. split; [exact Hrun|].
  destruct Hm as (m' & fb' & bs' & fl' & -> & HRep & Htot & Hab & Hfr & Hres).
  rewrite Efh in Hab, Hfr, Hres.
  exists bs', fl'. split; [exact HRep|].
  split; [reflexivity|]. split; [reflexivity|]. split; [reflexivity|].
  split; [rewrite Htot; simpl; lia|].
  split; [rewrite Hab; simpl; apply app_nil_r|].
  split.
  - intros y Hy. change (m' y = mem s y). rewrite Hfr by (left; exact Hy).
    apply Hold. apply bpayload_range in Hy; trivial. unfold e. lia.
  - destruct Hres as (r1 & rsz & r2 & E1 & E2 & E3 & _).
    exists r1, rsz, r2. repeat split; assumption.
Qed.

(** * The search of part_000 *)

Lemma BW_chain (s : state Z) (bs : list block) (fl : list Z) :
  BW s bs fl ->
  exists l, chain s (free_blks s) l /\ map fst l = fl /\
            forall q n, In (q, n) l -> block_at (first_hdr s) bs q n Free.
Proof.
  intros HW. pose proof (BW_nodes _ _ _ HW) as Hnodes.
  pose proof (BW_sizes _ _ _ HW) as Hs.
  pose proof (BW_bounds _ _ _ HW) as (Hlo & Hhp & Ht0 & Htb & Ht32 & _).
  destruct HW as (Hsc & Hpro & Hb & He & Hd & Hh & HP).
  rewrite Hh. clear Hh.
  assert (Hin : forall q, In q fl -> In q (free_ptrs (first_hdr s) bs)).
  { intros q Hq. eapply Permutation_in; eassumption. }
  clear HP. revert Hd Hnodes Hin. generalize 0 at 1 as prev.
  induction fl as [|q r IH]; intros prev Hd Hnodes Hin.
  - exists []. repeat split; trivial. intros q n [].
  - cbn [dllseg] in Hd. destruct Hd as (Hq1 & Hq2 & Hd).
    destruct Hnodes as (Hall & Hfar). inversion Hall as [|? ? Hq Hall']; subst.
    destruct (IH q Hd) as (l & Hc & Hm & Hl).
    { split; [exact Hall'|apply Hfar]. }
    { intros q' Hq'. apply Hin. right. exact Hq'. }
    destruct (block_at_free _ _ _ (Hin q (or_introl eq_refl))) as (n & Hat).
    exists ((q, n) :: l). split; [|split].
    + cbn [chain hd]. destruct Hq as (Hq0 & Hqh & Hq32 & Hqlo & Hqbrk).
      pose proof Hat as (l1 & l2 & Ebs & Eq).
      rewrite Ebs in Hb, Hs, Ht0, Htb, Ht32.
      rewrite total_mid in Ht0, Htb, Ht32.
      apply sizes_ok_mid in Hs. destruct Hs as (Hs1 & [Hn Hn8] & Hs2).
      pose proof (total_nonneg _ Hs1). pose proof (total_nonneg _ Hs2).
      apply bblocks_mid in Hb. destruct Hb as (_ & _ & [Hhd _] & _).
      split; [reflexivity|]. split; [unfold NULL; lia|].
      split; [unfold inb, first_hdr in *; lia|].
      split; [unfold inb; lia|]. split.
      * replace (q - 4) with (first_hdr s + total l1) by lia.
        rewrite Hhd. apply hdr_size; trivial; lia.
      * rewrite Hq2. rewrite (dec_enc_node s).
        -- exact Hc.
        -- destruct r as [|q' r']; [left; reflexivity|right].
           inversion Hall'; assumption.
    + simpl. rewrite Hm. reflexivity.
    + intros q' n' [E|Hq']; [inversion E; subst; exact Hat|apply Hl, Hq'].
Qed.

Lemma ballocate_spec (s : state Z) (bs : list block) (fl : list Z)
      (fuel : nat) (size : Z) :
  BW s bs fl -> (length fl <= fuel)%nat ->
  exists r,
    Basic._allocate fuel size s = Done r s /\
    (r = NULL \/ exists n, block_at (first_hdr s) bs r n Free /\ size <= n).
Proof.
  intros HW Hf. destruct (BW_chain _ _ _ HW) as (l & Hc & Hm & Hl).
  pose proof (BW_bounds _ _ _ HW) as (Hlo & _).
  pose proof (BW_sizes _ _ _ HW) as Hs.
  set (fs := firstn 42 (filter (fits size) l)).
  exists (best_of fs). split.
  - apply Basic_allocate_spec; [exact Hc|].
    rewrite <- Hm, length_map in Hf. exact Hf.
  - assert (Hfs : forall q n, In (q, n) fs -> In (q, n) l /\ size <= n).
    { intros q n Hin. apply firstn_incl in Hin. apply filter_In in Hin.
      destruct Hin as [Hin Hfit]. split; [exact Hin|].
      unfold fits in Hfit. simpl in Hfit. apply Z.leb_le. exact Hfit. }
    destruct fs as [|b fs'] eqn:E; [left; apply best_of_nil|right].
    destruct (best_of_min (b :: fs')) as (n & Hin & _); [|discriminate|].
    + apply Forall_forall. intros [q n] Hin. simpl.
      destruct (Hfs q n Hin) as [Hq _].
      destruct (Hl q n Hq) as (l1 & l2 & Ebs & ->).
      rewrite Ebs in Hs. apply sizes_ok_mid in Hs.
      destruct Hs as (Hs1 & _). pose proof (total_nonneg _ Hs1).
      unfold NULL, first_hdr. lia.
    + destruct (Hfs _ _ Hin) as [Hq Hle].
      exists n. split; [apply Hl, Hq|exact Hle].
Qed.

(** * Request sizes of part_000 *)

Lemma badjust_eq (n : Z) :
  0 <= n -> n + 15 < W64 -> Basic.adjust n = 8 * ((n + 7) / 8 + 1).
Proof.
  intros Hn Hs. unfold Basic.adjust, DSIZE.
  replace (n + 8 - 1) with (n + 7) by lia.
  rewrite (Z.mod_small (n + 7)) by lia.
  assert (0 <= (n + 7) / 8) by (apply Z.div_pos; lia).
  assert (8 * ((n + 7) / 8) <= n + 7) by (apply Z.mul_div_le; lia).
  rewrite (Z.mod_small ((n + 7) / 8 + 1)) by (unfold W64 in *; lia).
  apply Z.mod_small. unfold W64 in *. lia.
Qed.

Lemma badjust_facts (n : Z) :
  0 < n -> n + 15 < W64 ->
  16 <= Basic.adjust n /\ Basic.adjust n mod 8 = 0 /\
  Basic.adjust n < W64 /\ n + 8 <= Basic.adjust n.
Proof.
  intros Hn Hs. rewrite badjust_eq by lia.
  assert (1 <= (n + 7) / 8) by (apply Z.div_le_lower_bound; lia).
  assert (8 * ((n + 7) / 8) <= n + 7) by (apply Z.mul_div_le; lia).
  pose proof (Z.div_mod (n + 7) 8 ltac:(lia)).
  pose proof (Z.mod_pos_bound (n + 7) 8 ltac:(lia)).
  split; [lia|]. split; [|split; [unfold W64 in *; lia|lia]].
  rewrite Z.mul_comm. apply Z.mod_mul. lia.
Qed.

(** The byte count of the extension [malloc] of part_000 asks for. *)
Lemma bextend_bytes_max (a : Z) :
  16 <= a < W64 -> a mod 8 = 0 ->
  Mm.extend_bytes (MAX a Basic.CHUNKSIZE / WSIZE) = Z.max a 4096.
Proof.
  intros Ha H8. rewrite MAX_spec. unfold Basic.CHUNKSIZE.
  set (b := Z.max a 4096).
  assert (Hb8 : b mod 8 = 0)
    by (unfold b; destruct (Z.max_spec a 4096) as [[_ ->]|[_ ->]]; trivial).
  assert (Hb : 16 <= b < W64) by (unfold b, W64 in *; lia).
  assert (Eb : b = 8 * (b / 8)).
  { pose proof (Z.div_mod b 8 ltac:(lia)). lia. }
  assert (Ew : b / WSIZE = 2 * (b / 8)).
  { unfold WSIZE. rewrite Eb at 1.
    replace (8 * (b / 8)) with ((2 * (b / 8)) * 4) by lia.
    apply Z.div_mul. lia. }
  unfold Mm.extend_bytes. rewrite Ew.
  change (Z.land (2 * (b / 8)) 1) with (Z.land (2 * (b / 8)) (Z.ones 1)).
  rewrite Z.land_ones by lia.
  change (2 ^ 1) with 2.
  rewrite Z.mul_comm, Z.mod_mul by lia. simpl negb. cbv iota.
  unfold WSIZE. replace (b / 8 * 2 * 4) with b by lia.
  apply Z.mod_small. lia.
Qed.

(** * [mm_init] of part_000 *)

Lemma bmm_init_spec (s0 : state Z) :
  0 < mem_lo s0 -> mem_brk s0 = mem_lo s0 ->
  mem_lo s0 + 24 + 4096 <= mem_max s0 -> mem_max s0 - mem_lo s0 < W32 ->
  exists s bs fl, Basic.mm_init s0 = Done 0 s /\ BRep s bs fl /\
                  alloc_blocks (first_hdr s) bs = [] /\
                  mem_lo s = mem_lo s0 /\ mem_max s = mem_max s0.
Proof.
  intros Hlo Hbrk Hmax H32.
  unfold Basic.mm_init, WSIZE, ESIZE, DSIZE.
  assert (Hsbrk : mem_sbrk (6 * 4) s0
                  = Done (mem_lo s0) (set_brk s0 (mem_lo s0 + 24))).
  { unfold mem_sbrk. rewrite Hbrk.
    replace (mem_lo s0 + 6 * 4 <=? mem_max s0) with true
      by (symmetry; apply Z.leb_le; lia).
    reflexivity. }
  rstep ltac:(exact Hsbrk).
  rstep ltac:(reflexivity).
  replace (mem_lo s0 =? SBRK_FAIL) with false
    by (symmetry; apply Z.eqb_neq; unfold SBRK_FAIL; lia).
  do 6 rstep ltac:(apply WRITE_ok; unfold inb; norm; lia).
  do 2 rstep ltac:(reflexivity).
  match goal with
  | |- context [bind (Basic._extend_heap _) _ ?st] => set (s1 := st)
  end.
  assert (HRep1 : BRep s1 [] []).
  { split; [|split; constructor].
    split; [|split; [|split; [|split; [|split; [|split]]]]];
      subst s1; norm; cbn [total].
    - unfold bscalars; norm. repeat split; lia.
    - replace (mem_lo s0 + 2 * 8) with (mem_lo s0 + 4 * 4) by lia.
      rewrite rd_wr_other by lia.
      rewrite rd_wr_same_small; [reflexivity|].
      unfold PACK, W32. simpl. lia.
    - exact I.
    - unfold first_hdr; norm.
      replace (mem_lo s0 + 20 + 0) with (mem_lo s0 + 5 * 4) by lia.
      rewrite rd_wr_same_small; [reflexivity|].
      unfold PACK, W32. simpl. lia.
    - exact I.
    - reflexivity.
    - constructor. }
  destruct (bextend_spec s1 [] [] (Basic.CHUNKSIZE / 4) HRep1)
    as (r & s2 & Hrun & Hext).
  { subst s1; norm. change (Mm.extend_bytes (Basic.CHUNKSIZE / 4)) with 4096. lia. }
  { change (Mm.extend_bytes (Basic.CHUNKSIZE / 4)) with 4096. lia. }
  { reflexivity. }
  rstep ltac:(exact Hrun).
  destruct Hext as (bs' & fl' & HRep' & Hlo' & Hmax' & _ & _ & Hab & _
                    & r1 & rsz & r2 & Ebs & -> & _).
  assert (Hr : (first_hdr s1 + total r1 + 4 =? NULL) = false).
  { apply Z.eqb_neq. pose proof (BW_sizes _ _ _ (BRep_BW _ _ _ HRep')) as Hs.
    rewrite Ebs in Hs. apply sizes_ok_mid in Hs. destruct Hs as (Hs1 & _).
    pose proof (total_nonneg _ Hs1). unfold NULL, first_hdr.
    subst s1; norm. lia. }
  rewrite Hr.
  exists s2, bs', fl'. split; [reflexivity|]. split; [exact HRep'|].
  split; [|split].
  - replace (first_hdr s2) with (first_hdr s1) by (unfold first_hdr; lia).
    exact Hab.
  - rewrite Hlo'. reflexivity.
  - rewrite Hmax'. reflexivity.
Qed.

(** * The entry points of part_000 *)

Lemma bmm_init_fail (s0 : state Z) :
  0 < mem_lo s0 -> mem_brk s0 = mem_lo s0 ->
  mem_max s0 < mem_lo s0 + 24 + 4096 ->
  exists s, Basic.mm_init s0 = Done (-1) s.
Proof.
  intros Hlo Hbrk Hmax.
  destruct (Z_lt_le_dec (mem_max s0) (mem_lo s0 + 24)) as [Hsmall|Hbig].
  - unfold Basic.mm_init, WSIZE, bind, mem_sbrk.
    replace (mem_brk s0 + 6 * 4 <=? mem_max s0) with false
      by (symmetry; apply Z.leb_gt; lia).
    simpl. eexists. reflexivity.
  - unfold Basic.mm_init, WSIZE, ESIZE, DSIZE.
    assert (Hsbrk : mem_sbrk (6 * 4) s0
                    = Done (mem_lo s0) (set_brk s0 (mem_lo s0 + 24))).
    { unfold mem_sbrk. rewrite Hbrk.
      replace (mem_lo s0 + 6 * 4 <=? mem_max s0) with true
        by (symmetry; apply Z.leb_le; lia).
      reflexivity. }
    rstep ltac:(exact Hsbrk).
    rstep ltac:(reflexivity).
    replace (mem_lo s0 =? SBRK_FAIL) with false
      by (symmetry; apply Z.eqb_neq; unfold SBRK_FAIL; lia).
    do 6 rstep ltac:(apply WRITE_ok; unfold inb; norm; lia).
    do 2 rstep ltac:(reflexivity).
    rstep ltac:(apply bextend_fail; norm;
                change (Mm.extend_bytes (Basic.CHUNKSIZE / 4)) with 4096; lia).
    change (NULL =? NULL) with true. cbv iota.
    eexists. reflexivity.
Qed.

Lemma bbuild_allocated (s : state Z) (l1 l2 : list block) (bsz size : Z)
      (fl : list Z) :
  BRep s (l1 ++ (bsz, Free) :: l2) fl ->
  16 <= size -> size mod 8 = 0 -> size <= bsz ->
  exists s',
    Basic._build (first_hdr s + total l1 + 4) size s = Done tt s' /\
    ballocated s (l1 ++ (bsz, Free) :: l2) size (first_hdr s + total l1 + 4) s'.
Proof.
  intros HRep H16 H8 Hle.
  destruct (bbuild_spec s l1 l2 bsz size fl HRep H16 H8 Hle) as (s' & Hrun & Hb).
  exists s'. split; [exact Hrun|].
  destruct Hb as (m' & fb' & bs' & fl' & -> & HRep' & Htot & Hab & Hfr).
  pose proof (BW_sizes _ _ _ (BRep_BW _ _ _ HRep)) as Hs.
  apply sizes_ok_mid in Hs. destruct Hs as (Hs1 & [Hbsz _] & Hs2).
  pose proof (total_nonneg _ Hs1).
  pose proof (BW_bounds _ _ _ (BRep_BW _ _ _ HRep)) as (Hlo & _).
  split; [unfold NULL, first_hdr; lia|].
  exists bs', fl', (built_size bsz size).
  split; [exact HRep'|]. split; [reflexivity|]. split; [reflexivity|].
  split; [unfold built_size; destruct (ESIZE <? bsz - size); lia|].
  split.
  - norm. rewrite Hab, alloc_blocks_mid_other by discriminate.
    apply Permutation_sym, Permutation_middle.
  - intros y Hy. norm. apply Hfr.
    apply bpayload_mid_other in Hy; [exact Hy|discriminate].
Qed.

Lemma bmalloc_spec (s : state Z) (bs : list block) (fl : list Z)
      (fuel : nat) (n : Z) :
  BRep s bs fl -> (length fl <= fuel)%nat -> 0 < n -> n + 15 < W64 ->
  exists p s',
    Basic.malloc fuel n s = Done p s' /\
    ((p = NULL /\ s' = s /\
      mem_max s < mem_brk s + Z.max (Basic.adjust n) 4096) \/
     ballocated s bs (Basic.adjust n) p s').
Proof.
  intros HRep Hfuel Hn Hn64.
  destruct (badjust_facts n Hn Hn64) as (H16 & H8 & H64 & _).
  unfold Basic.malloc.
  replace (n =? 0) with false by (symmetry; apply Z.eqb_neq; lia).
  cbv zeta.
  destruct (ballocate_spec s bs fl fuel (Basic.adjust n) (BRep_BW _ _ _ HRep) Hfuel)
    as (r & Hrun & Hr).
  rstep ltac:(exact Hrun).
  pose proof (bextend_bytes_max (Basic.adjust n) ltac:(lia) H8) as Ebytes.
  destruct Hr as [-> | (nq & (l1 & l2 & -> & ->) & Hle)].
  - (* no fit: extend the heap *)
    change (negb (NULL =? NULL)) with false. cbv iota.
    set (bytes := Z.max (Basic.adjust n) 4096) in *.
    assert (Hb8 : bytes mod 8 = 0).
    { unfold bytes.
      destruct (Z.max_spec (Basic.adjust n) 4096) as [[_ ->]|[_ ->]]; trivial. }
    destruct (Z_le_gt_dec (mem_brk s + bytes) (mem_max s)) as [Hroom|Hfull].
    + destruct (bextend_spec s bs fl (MAX (Basic.adjust n) Basic.CHUNKSIZE / WSIZE) HRep)
        as (r & s1 & Hrun1 & Hext); rewrite ?Ebytes; trivial; [unfold bytes; lia|].
      rewrite Ebytes in Hext.
      rstep ltac:(exact Hrun1).
      destruct Hext as (bs1 & fl1 & HRep1 & Hlo1 & Hmax1 & Hbrk1 & Htot1 & Hab1
                        & Hfr1 & r1 & rsz & r2 & -> & -> & Hrsz).
      assert (Efh : first_hdr s1 = first_hdr s) by (unfold first_hdr; lia).
      rewrite <- Efh.
      destruct (bbuild_allocated s1 r1 r2 rsz (Basic.adjust n) fl1 HRep1 H16 H8
                  ltac:(unfold bytes in *; lia))
        as (s2 & Hrun2 & Hal).
      destruct Hal as (Hp & bs2 & fl2 & cap & HRep2 & Hlo2 & Hmax2 & Hcap & HP2
                       & Hfr2).
      replace (first_hdr s1 + total r1 + 4 =? NULL) with false
        by (symmetry; apply Z.eqb_neq; exact Hp).
      rstep ltac:(exact Hrun2).
      eexists _, _. split; [reflexivity|]. right.
      split; [exact Hp|].
      exists bs2, fl2, cap.
      split; [exact HRep2|]. split; [lia|]. split; [lia|]. split; [exact Hcap|].
      rewrite Efh in *.
      split; [rewrite <- Hab1; exact HP2|].
      intros y Hy. rewrite Hfr2, Hfr1; trivial.
      eapply bpayload_alloc_eq; eassumption.
    + rstep ltac:(apply bextend_fail; rewrite Ebytes; lia).
      change (NULL =? NULL) with true. cbv iota.
      eexists _, _. split; [reflexivity|]. left. repeat split; lia.
  - destruct (bbuild_allocated s l1 l2 nq (Basic.adjust n) fl HRep H16 H8 Hle)
      as (s2 & Hrun2 & Hal).
    pose proof Hal as (Hp & _).
    replace (negb (first_hdr s + total l1 + 4 =? NULL)) with true
      by (symmetry; apply negb_true_iff, Z.eqb_neq; exact Hp).
    rstep ltac:(exact Hrun2).
    eexists _, _. split; [reflexivity|]. right. exact Hal.
Qed.

Lemma bfree_spec (s : state Z) (bs : list block) (fl : list Z) (p sz : Z) :
  BRep s bs fl -> block_at (first_hdr s) bs p sz Allocated ->
  exists s', Basic.free p s = Done tt s' /\ bfreed s bs p sz s'.
Proof.
  intros (HW & Hnaf & Hnl) (l1 & l2 & -> & ->).
  pose proof (BW_sizes _ _ _ HW) as Hs.
  pose proof (BW_bounds _ _ _ HW) as (Hlo & Hhp & Ht0 & Htb & Ht32 & Hmax).
  rewrite total_mid in Ht0, Htb, Ht32.
  apply sizes_ok_mid in Hs. destruct Hs as (Hs1 & [Hsz Hsz8] & Hs2).
  pose proof (total_nonneg _ Hs1) as Ht1. pose proof (total_nonneg _ Hs2) as Ht2.
  apply naf_app in Hnaf. destruct Hnaf as [Hnaf1 [_ Hnaf2]]. simpl next_pa in Hnaf2.
  apply no_limbo_app in Hnl. destruct Hnl as [Hnl1 Hnl2].
  apply no_limbo_cons in Hnl2. destruct Hnl2 as [_ Hnl2].
  pose proof HW as (_ & _ & Hb & _).
  apply bblocks_mid in Hb. destruct Hb as (_ & _ & [Hhdr _] & _).
  simpl is_alloc in Hhdr.
  set (h := first_hdr s + total l1) in *.
  assert (Hhb : inb s h) by (unfold inb, h, first_hdr; lia).
  assert (Hp0 : (h + 4 =? NULL) = false).
  { apply Z.eqb_neq. unfold NULL, h, first_hdr. lia. }
  unfold Basic.free. rewrite Hp0, ?GET_HEADER_hdr.
  rstep ltac:(eapply GET_SIZE_ok; [exact Hhb|exact Hhdr|exact Hsz8|lia|lia]).
  apply (BW_forget _ _ _ _ false) in HW.
  rewrite (pack_small sz 0), Z.add_0_r by (trivial; lia).
  rstep ltac:(apply WRITE_ok; exact Hhb).
  assert (HW2 := BW_write_limbo s l1 l2 sz false fl h sz HW
                   ltac:(fold h; lia) ltac:(fold h; lia)).
  set (s2 := set_mem s _) in *.
  assert (Hh2 : rd (mem s2) h = hdr sz false false).
  { subst s2; norm. rewrite hdr_plain. apply rd_wr_same_small.
    unfold W32 in *; lia. }
  rstep ltac:(eapply GET_FOOTER_hdr; [exact Hhb|exact Hh2|exact Hsz8|lia|lia]).
  rstep ltac:(apply WRITE_ok; unfold inb; subst s2; norm; unfold h, first_hdr in *; lia).
  assert (HW3 := BW_write_limbo s2 l1 l2 sz false fl (h + sz - 4) sz HW2
                   ltac:(subst s2; norm; fold h; lia)
                   ltac:(subst s2; norm; fold h; lia)).
  set (s3 := set_mem s2 _) in *.
  rstep ltac:(apply SET_PRED_FREE_ok; unfold inb; subst s3 s2; norm;
              unfold h, first_hdr in *; lia).
  assert (HW4 := BW_write_limbo s3 l1 l2 sz false fl (h + 4)
                   (enc (heap_ptr s3) 0) HW3
                   ltac:(subst s3 s2; norm; fold h; lia)
                   ltac:(subst s3 s2; norm; fold h; lia)).
  set (s4 := set_mem s3 _) in *.
  rstep ltac:(apply SET_SUCC_FREE_ok; unfold inb; subst s4 s3 s2; norm;
              unfold h, first_hdr in *; lia).
  assert (HW5 := BW_write_limbo s4 l1 l2 sz false fl (h + 4 + 4)
                   (enc (heap_ptr s4) 0) HW4
                   ltac:(subst s4 s3 s2; norm; fold h; lia)
                   ltac:(subst s4 s3 s2; norm; fold h; lia)).
  set (s5 := set_mem s4 _) in *.
  destruct (bmerge_spec s5 l1 l2 sz false fl HW5) as (r & s' & Hrun & Hm);
    trivial.
  { subst s5 s4 s3 s2; norm. fold h. rewrite !rd_wr_other by lia.
    rewrite hdr_plain. apply rd_wr_same_small. unfold W32 in *; lia. }
  { subst s5 s4 s3 s2; norm. fold h. rewrite !rd_wr_other by lia.
    rewrite hdr_plain. apply rd_wr_same_small. unfold W32 in *; lia. }
  cbv zeta in Hrun.
  replace (first_hdr s5) with (first_hdr s) in Hrun by reflexivity.
  fold h in Hrun.
  rstep ltac:(exact Hrun).
  eexists. split; [reflexivity|].
  destruct Hm as (m' & fb' & bs' & fl' & -> & HRep & Htot & Hab & Hfr & _).
  replace (first_hdr s5) with (first_hdr s) in Hab, Hfr by reflexivity.
  fold h in Hab, Hfr.
  exists bs', fl'. split; [exact HRep|].
  split; [reflexivity|]. split; [reflexivity|]. split; [reflexivity|].
  norm. split.
  - rewrite Hab, alloc_blocks_mid_alloc. fold h. apply Permutation_middle.
  - intros y Hy. change (m' y = mem s y).
    assert (Hy' : bpayload (first_hdr s) l1 y \/ bpayload (h + sz) l2 y).
    { apply bpayload_iff in Hy. rewrite Hab in Hy.
      destruct Hy as (q & n & Hin & Hq). apply in_app_or in Hin.
      destruct Hin; [left|right]; apply bpayload_iff; eauto. }
    rewrite Hfr by exact Hy'.
    assert (Hyr : y < h \/ h + sz + 4 <= y).
    { destruct Hy' as [Hy'|Hy']; apply bpayload_range in Hy'; trivial;
        unfold h in *; lia. }
    subst s5 s4 s3 s2; norm. rewrite !wr_other_byte by lia. reflexivity.
Qed.

(** ** Client stores into a payload *)

(** Any change confined to payload bytes keeps the representation. *)
Lemma BRep_payload_change (s : state Z) (bs : list block) (fl : list Z)
      (m' : memory) :
  BRep s bs fl ->
  (forall y, ~ bpayload (first_hdr s) bs y -> m' y = mem s y) ->
  BRep (set_mem s m') bs fl.
Proof.
  intros (HW & Hnaf & Hnl) Hm. split; [|split; assumption].
  pose proof (BW_sizes _ _ _ HW) as Hs.
  pose proof (BW_bounds _ _ _ HW) as (Hlo & Hhp & Ht0 & Htb & _).
  apply BW_frame; trivial.
  - intros y Hy. apply Hm. intros Hp. exact (bpayload_not_meta _ _ _ Hs Hp Hy).
  - intros y Hy. apply Hm. intros Hp. exact (bpayload_not_links _ _ _ Hs Hp Hy).
  - intros y Hy. apply Hm. intros Hp. apply bpayload_range in Hp; trivial.
    unfold first_hdr in *. lia.
  - intros y Hy. apply Hm. intros Hp. apply bpayload_range in Hp; trivial. lia.
Qed.

Lemma bstore_spec (s : state Z) (bs : list block) (fl : list Z) (y v : Z) :
  BRep s bs fl -> bpayload (first_hdr s) bs y ->
  BRep (set_mem s (store_byte (mem s) y v)) bs fl.
Proof.
  intros HRep Hy. apply BRep_payload_change; [exact HRep|].
  intros y' Hy'. apply store_byte_other. intros ->. exact (Hy' Hy).
Qed.

(** ** Fuel *)

Lemma BW_fuel (s : state Z) (bs : list block) (fl : list Z) :
  BW s bs fl -> (length fl <= heap_fuel s)%nat.
Proof.
  intros HW. pose proof (BW_sizes _ _ _ HW) as Hs.
  pose proof (BW_bounds _ _ _ HW) as (_ & _ & Ht0 & Htb & _).
  destruct HW as (_ & _ & _ & _ & _ & _ & HP).
  rewrite (Permutation_length HP).
  pose proof (free_ptrs_length (first_hdr s) bs Hs).
  unfold heap_fuel. lia.
Qed.

(** ** The words of an allocated block *)

Lemma BRep_alloc_header (s : state Z) (bs : list block) (fl : list Z) (p n : Z) :
  BRep s bs fl -> In (p, n) (alloc_blocks (first_hdr s) bs) ->
  inb s (p - 4) /\ p - 4 + n + 4 <= mem_brk s /\ mem_lo s + 24 <= p /\
  16 <= n /\ n mod 8 = 0 /\ n + 8 <= W32 /\
  rd (mem s) (p - 4) = hdr n false true.
Proof.
  intros (HW & _) Hin.
  pose proof (BW_sizes _ _ _ HW) as Hs.
  pose proof (BW_bounds _ _ _ HW) as (Hlo & Hhp & Ht0 & Htb & Ht32 & _).
  pose proof (alloc_blocks_bounds _ _ _ _ Hs Hin) as (H1 & H2 & H3 & H4 & _).
  apply alloc_blocks_at in Hin. destruct Hin as (l1 & l2 & E & ->).
  destruct HW as (_ & _ & Hb & _). rewrite E in Hb.
  apply bblocks_mid in Hb. destruct Hb as (_ & _ & [Hh _] & _).
  unfold inb, first_hdr in *.
  split; [lia|]. split; [lia|]. split; [lia|]. split; [lia|].
  split; [exact H4|]. split; [lia|].
  replace (mem_lo s + 20 + total l1 + 4 - 4) with (mem_lo s + 20 + total l1) by lia.
  exact Hh.
Qed.

Lemma BRep_GET_SIZE (s : state Z) (bs : list block) (fl : list Z) (p n : Z) :
  BRep s bs fl -> In (p, n) (alloc_blocks (first_hdr s) bs) ->
  GET_SIZE (GET_HEADER p) s = Done n s.
Proof.
  intros HRep Hin.
  destruct (BRep_alloc_header _ _ _ _ _ HRep Hin)
    as (Hb & _ & _ & H16 & H8 & H32 & Hh).
  unfold GET_HEADER, WSIZE. eapply GET_SIZE_ok; try eassumption. lia.
Qed.

(** * [realloc] and [calloc] of part_000 *)

Lemma Basic_copy_length_eq (osz nsz : Z) :
  16 <= osz -> 16 <= nsz -> osz < W64 -> nsz < W64 ->
  Basic.copy_length osz nsz = Z.min (osz - 8) (nsz - 8).
Proof.
  intros. unfold Basic.copy_length, DSIZE. rewrite MIN_spec.
  rewrite Z.mod_small by lia. lia.
Qed.

Lemma brealloc_spec (s : state Z) (bs : list block) (fl : list Z)
      (fuel : nat) (p psz n : Z) :
  BRep s bs fl -> In (p, psz) (alloc_blocks (first_hdr s) bs) ->
  (length fl <= fuel)%nat -> 0 < n -> n + 15 < W64 ->
  (Basic.realloc fuel p n s = Fault /\
   mem_max s < mem_brk s + Z.max (Basic.adjust n) 4096) \/
  exists q s', Basic.realloc fuel p n s = Done q s' /\
               breallocated s bs p psz n q s'.
Proof.
  intros HRep Hin Hfuel Hn Hn64.
  pose proof W32_lt_W64 as HW.
  destruct (BRep_alloc_header _ _ _ _ _ HRep Hin)
    as (Hpb & Hpbrk & Hplo & Hp16 & Hp8 & Hp32 & _).
  pose proof (BW_bounds _ _ _ (BRep_BW _ _ _ HRep)) as (Hlo & _).
  unfold Basic.realloc.
  replace (n =? 0) with false by (symmetry; apply Z.eqb_neq; lia).
  replace (p =? NULL) with false by (symmetry; apply Z.eqb_neq; unfold NULL; lia).
  destruct (bmalloc_spec s bs fl fuel n HRep Hfuel Hn Hn64)
    as (q & s1 & Hrun1 & [(-> & -> & Hoom)|Hal]).
  - left. split; [|exact Hoom].
    rstep ltac:(exact Hrun1).
    rstep ltac:(eapply BRep_GET_SIZE; eassumption).
    unfold GET_HEADER, GET_SIZE, READ, NULL, WSIZE, bind, in_heap.
    replace (mem_lo s <=? 0 - 4) with false by (symmetry; apply Z.leb_gt; lia).
    reflexivity.
  - right. destruct Hal as (Hq & bs1 & fl1 & cap & HRep1 & Hlo1 & Hmax1 & Hcap
                            & HP1 & Hfr1).
    assert (Efh : first_hdr s1 = first_hdr s) by (unfold first_hdr; lia).
    rewrite <- Efh in HP1.
    pose proof (BW_sizes _ _ _ (BRep_BW _ _ _ HRep1)) as Hs1.
    assert (Hin1 : In (p, psz) (alloc_blocks (first_hdr s1) bs1)).
    { eapply Permutation_in; [apply Permutation_sym; exact HP1|].
      right. rewrite Efh. exact Hin. }
    assert (Hqin1 : In (q, cap) (alloc_blocks (first_hdr s1) bs1)).
    { eapply Permutation_in; [apply Permutation_sym; exact HP1|]. left. reflexivity. }
    assert (Hqp : q <> p).
    { intros ->.
      pose proof (alloc_ptrs_NoDup (first_hdr s1) bs1 Hs1) as Hnd.
      rewrite alloc_ptrs_blocks in Hnd.
      eapply Permutation_NoDup in Hnd; [|apply Permutation_map; exact HP1].
      simpl in Hnd. inversion Hnd as [|? ? Hni _]; subst. apply Hni.
      rewrite Efh. apply (in_map fst _ _ Hin). }
    destruct (BRep_alloc_header _ _ _ _ _ HRep1 Hqin1)
      as (Hqb & Hqbrk & Hqlo & Hq16 & Hq8 & Hq32 & _).
    destruct (BRep_alloc_header _ _ _ _ _ HRep1 Hin1) as (_ & Hpbrk1 & _).
    rstep ltac:(exact Hrun1).
    rstep ltac:(eapply BRep_GET_SIZE; eassumption).
    rstep ltac:(eapply BRep_GET_SIZE; eassumption).
    rewrite Basic_copy_length_eq by lia.
    set (len := Z.min (psz - 8) (cap - 8)).
    assert (Hlen : 8 <= len /\ len <= psz - 8 /\ len <= cap - 8) by (unfold len; lia).
    assert (Hdisj : p + len <= q \/ q + len <= p).
    { destruct (alloc_blocks_disjoint _ _ _ _ _ _ Hs1 Hin1 Hqin1) as [E|H];
        [congruence|lia]. }
    set (m2 := copy_bytes (Z.to_nat len) (mem s1) q p).
    assert (Hcpy : memcpy q p len s1 = Done tt (set_mem s1 m2)).
    { unfold memcpy.
      replace (len =? 0) with false by (symmetry; apply Z.eqb_neq; lia).
      rewrite !in_heap_true by lia. reflexivity. }
    rstep ltac:(exact Hcpy).
    assert (HRep2 : BRep (set_mem s1 m2) bs1 fl1).
    { apply BRep_payload_change; [exact HRep1|].
      intros y Hy. unfold m2. apply copy_bytes_other.
      rewrite Z2Nat.id by lia.
      destruct (Z_lt_dec y q); [left; assumption|].
      destruct (Z_le_dec (q + len) y); [right; assumption|].
      exfalso. apply Hy. apply bpayload_iff. exists q, cap.
      split; [exact Hqin1|lia]. }
    destruct (bfree_spec (set_mem s1 m2) bs1 fl1 p psz HRep2) as (s3 & Hrun3 & Hfreed).
    { apply alloc_blocks_at. exact Hin1. }
    rstep ltac:(exact Hrun3).
    eexists _, _. split; [reflexivity|].
    destruct Hfreed as (bs3 & fl3 & HRep3 & Hlo3 & Hmax3 & _ & HP3 & Hfr3).
    norm. rewrite ?first_hdr_set_mem in *.
    split; [exact Hq|]. split; [exact Hqp|].
    exists bs3, fl3, cap.
    split; [exact HRep3|]. split; [lia|]. split; [lia|]. split; [exact Hcap|].
    rewrite Efh in *.
    split; [eapply Permutation_trans; eassumption|].
    fold len. intros i Hi.
    assert (Hq3 : In (q, cap) (alloc_blocks (first_hdr s) bs3)).
    { assert (H : In (q, cap) ((p, psz) :: alloc_blocks (first_hdr s) bs3))
        by (eapply Permutation_in; [apply Permutation_sym; exact HP3|exact Hqin1]).
      destruct H as [E|H]; [inversion E; congruence|exact H]. }
    unfold byte_at. rewrite Hfr3
      by (apply bpayload_iff; exists q, cap; split; [exact Hq3|lia]).
    unfold m2. rewrite copy_bytes_at by (rewrite Z2Nat.id by lia; lia).
    unfold byte_at. rewrite Z.mod_mod by lia.
    rewrite Hfr1; [reflexivity|].
    apply bpayload_iff. exists p, psz. split; [exact Hin|lia].
Qed.

Lemma bcalloc_spec (s : state Z) (bs : list block) (fl : list Z)
      (fuel : nat) (nmemb size : Z) :
  let bytes := (nmemb * size) mod W64 in
  BRep s bs fl -> (length fl <= fuel)%nat -> bytes + 15 < W64 ->
  Basic.calloc fuel nmemb size s = Fault \/
  (bytes = 0 /\ Basic.calloc fuel nmemb size s = Done NULL s) \/
  exists q s', Basic.calloc fuel nmemb size s = Done q s' /\
               bzero_allocated s bs bytes q s'.
Proof.
  intros bytes HRep Hfuel Hb64. unfold Basic.calloc. fold bytes.
  pose proof (Z.mod_pos_bound (nmemb * size) W64 ltac:(unfold W64; lia)) as Hb.
  fold bytes in Hb.
  pose proof (BW_bounds _ _ _ (BRep_BW _ _ _ HRep)) as (Hlo & _).
  destruct (Z.eq_dec bytes 0) as [E0|Hne].
  - right. left. split; [exact E0|]. rewrite E0. reflexivity.
  - destruct (bmalloc_spec s bs fl fuel bytes HRep Hfuel ltac:(lia) Hb64)
      as (q & s1 & Hrun1 & [(-> & -> & Hoom)|Hal]).
    + left. rstep ltac:(exact Hrun1).
      unfold memset, bind, in_heap, NULL.
      replace (bytes =? 0) with false by (symmetry; apply Z.eqb_neq; lia).
      replace (mem_lo s <=? 0) with false by (symmetry; apply Z.leb_gt; lia).
      reflexivity.
    + destruct Hal as (Hq & bs1 & fl1 & cap & HRep1 & Hlo1 & Hmax1 & Hcap
                       & HP1 & Hfr1).
      assert (Efh : first_hdr s1 = first_hdr s) by (unfold first_hdr; lia).
      rewrite <- Efh in HP1.
      assert (Hqin1 : In (q, cap) (alloc_blocks (first_hdr s1) bs1)).
      { eapply Permutation_in; [apply Permutation_sym; exact HP1|]. left. reflexivity. }
      destruct (BRep_alloc_header _ _ _ _ _ HRep1 Hqin1)
        as (Hqb & Hqbrk & Hqlo & Hq16 & Hq8 & Hq32 & _).
      destruct (badjust_facts bytes ltac:(lia) Hb64) as (_ & _ & _ & Hadj).
      rstep ltac:(exact Hrun1).
      right. right.
      set (m2 := fill_bytes (Z.to_nat bytes) (mem s1) q 0).
      assert (Hset : memset q 0 bytes s1 = Done tt (set_mem s1 m2)).
      { unfold memset.
        replace (bytes =? 0) with false by (symmetry; apply Z.eqb_neq; lia).
        rewrite in_heap_true by lia. reflexivity. }
      rstep ltac:(exact Hset).
      eexists _, _. split; [reflexivity|].
      split; [exact Hq|]. exists bs1, fl1, cap.
      split.
      { apply BRep_payload_change; [exact HRep1|].
        intros y Hy. unfold m2. apply fill_bytes_other.
        rewrite Z2Nat.id by lia.
        destruct (Z_lt_dec y q); [left; assumption|].
        destruct (Z_le_dec (q + bytes) y); [right; assumption|].
        exfalso. apply Hy. apply bpayload_iff. exists q, cap.
        split; [exact Hqin1|lia]. }
      norm. split; [lia|]. split; [lia|]. split; [exact Hcap|].
      split; [lia|]. rewrite <- Efh. split; [exact HP1|].
      intros i Hi. unfold byte_at, m2.
      rewrite fill_bytes_at by (rewrite Z2Nat.id by lia; lia). reflexivity.
Qed.

Lemma bmalloc_zero (fuel : nat) (s : state Z) :
  Basic.malloc fuel 0 s = Done NULL s.
Proof. reflexivity. Qed.

Lemma bheap_inv_alloc (lo max : Z) (s s' : state Z) (bs bs' : list block)
      (fl' : list Z) (L : list Z) (p cap : Z) :
  mem_lo s = lo -> mem_max s = max ->
  Permutation L (alloc_ptrs (first_hdr s) bs) ->
  BRep s' bs' fl' -> mem_lo s' = mem_lo s -> mem_max s' = mem_max s ->
  Permutation (alloc_blocks (first_hdr s) bs') ((p, cap) :: alloc_blocks (first_hdr s) bs) ->
  bheap_inv lo max s' (p :: L).
Proof.
  intros Hlo Hmax HP HRep' Hlo' Hmax' HP'.
  exists bs', fl'. split; [exact HRep'|]. split; [|split; lia].
  assert (E : first_hdr s' = first_hdr s) by (unfold first_hdr; lia).
  rewrite E, !alloc_ptrs_blocks.
  apply (Permutation_map fst) in HP'. simpl in HP'.
  rewrite HP'. apply perm_skip. rewrite <- alloc_ptrs_blocks. exact HP.
Qed.

(** Requests of [2^64 - 15] bytes or more: the adjusted size of part_000
    wraps around to 0 or to 8, below the 16 bytes of the smallest block. *)
Lemma badjust_wraps (n : Z) :
  W64 - 15 <= n < W64 ->
  (n < W64 - 7 -> Basic.adjust n = 0) /\ (W64 - 7 <= n -> Basic.adjust n = 8).
Proof.
  intros Hn. unfold Basic.adjust, DSIZE.
  change W64 with 18446744073709551616 in *.
  split; intros H.
  - rewrite (Z.mod_small (n + 8 - 1)) by lia.
    replace ((n + 8 - 1) / 8) with 2305843009213693951
      by (apply Z.div_unique with (r := n + 8 - 1 - 18446744073709551608); lia).
    reflexivity.
  - replace ((n + 8 - 1) mod 18446744073709551616) with (n + 7 - 18446744073709551616)
      by (apply Z.mod_unique with (q := 1); lia).
    rewrite Z.div_small by lia. reflexivity.
Qed.

Theorem breachable_inv (lo max : Z) (s : state Z) (L : list Z) :
  breachable (W64 - 15) lo max s L -> bheap_inv lo max s L.
Proof.
  induction 1 as [m s Hlo H32 Hrun
                 | s L fuel n p s' Hr IH Hfuel Hn Hn64 Hrun
                 | s L p L' s' Hr IH HPL Hrun
                 | s L fuel p n L' q s' Hr IH HPL Hfuel Hn Hn64 Hrun
                 | s L fuel nmemb size p s' Hr IH Hfuel Hb64 Hrun
                 | s L p sz y v Hr IH Hin Hsz Hy].
  - destruct (Z_lt_le_dec max (lo + 24 + 4096)) as [Hsmall|Hbig].
    + destruct (bmm_init_fail (boot m lo max)) as (s1 & E); simpl; trivial.
      rewrite E in Hrun. discriminate.
    + destruct (bmm_init_spec (boot m lo max))
        as (s1 & bs & fl & E & HRep & Hab & Hlo1 & Hmax1); simpl; trivial.
      rewrite E in Hrun. inversion Hrun; subst s1.
      exists bs, fl. split; [exact HRep|]. simpl in *.
      rewrite alloc_ptrs_blocks, Hab. repeat split; trivial.
  - destruct IH as (bs & fl & HRep & HP & Hlo & Hmax).
    destruct (Z.eq_dec n 0) as [->|Hn0].
    + rewrite bmalloc_zero in Hrun. inversion Hrun; subst. simpl.
      exists bs, fl. split; [exact HRep|]. repeat split; trivial.
    + pose proof (BW_fuel _ _ _ (BRep_BW _ _ _ HRep)) as Hf.
      destruct (bmalloc_spec s bs fl fuel n HRep ltac:(lia) ltac:(lia) ltac:(lia))
        as (p1 & s1 & E & Hpost).
      rewrite E in Hrun. inversion Hrun; subst p1 s1.
      destruct Hpost as [(-> & -> & _)|Hal].
      * simpl. exists bs, fl. split; [exact HRep|]. repeat split; trivial.
      * destruct Hal as (Hp & bs' & fl' & cap & HRep' & Hlo' & Hmax' & _ & HP' & _).
        replace (p =? NULL) with false by (symmetry; apply Z.eqb_neq; exact Hp).
        eapply bheap_inv_alloc; eassumption.
  - destruct IH as (bs & fl & HRep & HP & Hlo & Hmax).
    destruct (held_block s bs L p HP) as (psz & Hin).
    { eapply Permutation_in; [apply Permutation_sym; exact HPL|left; reflexivity]. }
    destruct (bfree_spec s bs fl p psz HRep) as (s1 & E & Hfr).
    { apply alloc_blocks_at. exact Hin. }
    rewrite E in Hrun. inversion Hrun; subst s1.
    destruct Hfr as (bs' & fl' & HRep' & Hlo' & Hmax' & _ & HP' & _).
    exists bs', fl'. split; [exact HRep'|]. split; [|split; lia].
    assert (Efh : first_hdr s' = first_hdr s) by (unfold first_hdr; lia).
    rewrite Efh. apply (Permutation_map fst) in HP'. simpl in HP'.
    rewrite <- !alloc_ptrs_blocks in HP'.
    apply Permutation_cons_inv with (a := p).
    rewrite HP', <- HP. apply Permutation_sym. exact HPL.
  - destruct IH as (bs & fl & HRep & HP & Hlo & Hmax).
    destruct (held_block s bs L p HP) as (psz & Hin).
    { eapply Permutation_in; [apply Permutation_sym; exact HPL|left; reflexivity]. }
    pose proof (BW_fuel _ _ _ (BRep_BW _ _ _ HRep)) as Hf.
    destruct (brealloc_spec s bs fl fuel p psz n HRep Hin ltac:(lia) Hn ltac:(lia))
      as [(E & _)|(q1 & s1 & E & Hpost)]; rewrite E in Hrun; [discriminate|].
    inversion Hrun; subst q1 s1.
    destruct Hpost as (_ & _ & bs' & fl' & cap & HRep' & Hlo' & Hmax' & _ & HP' & _).
    exists bs', fl'. split; [exact HRep'|]. split; [|split; lia].
    assert (Efh : first_hdr s' = first_hdr s) by (unfold first_hdr; lia).
    rewrite Efh. apply (Permutation_map fst) in HP'. simpl in HP'.
    rewrite <- !alloc_ptrs_blocks in HP'.
    apply Permutation_cons_inv with (a := p).
    rewrite HP', <- HP, HPL. apply perm_swap.
  - destruct IH as (bs & fl & HRep & HP & Hlo & Hmax).
    pose proof (BW_fuel _ _ _ (BRep_BW _ _ _ HRep)) as Hf.
    destruct (bcalloc_spec s bs fl fuel nmemb size HRep ltac:(lia) ltac:(lia))
      as [E|[(_ & E)|(q1 & s1 & E & Hpost)]]; rewrite E in Hrun;
      [discriminate| |].
    + inversion Hrun; subst. simpl. exists bs, fl. split; [exact HRep|]. repeat split; trivial.
    + inversion Hrun; subst q1 s1.
      destruct Hpost as (Hp & bs' & fl' & cap & HRep' & Hlo' & Hmax' & Hcap & _ & HP' & _).
      replace (p =? NULL) with false by (symmetry; apply Z.eqb_neq; exact Hp).
      eapply bheap_inv_alloc; eassumption.
  - destruct IH as (bs & fl & HRep & HP & Hlo & Hmax).
    destruct (held_block s bs L p HP Hin) as (psz & Hin').
    rewrite (BRep_GET_SIZE _ _ _ _ _ HRep Hin') in Hsz.
    inversion Hsz; subst sz.
    exists bs, fl. split; [|repeat split; trivial].
    apply bstore_spec; [exact HRep|].
    apply bpayload_iff. exists p, psz. split; [exact Hin'|unfold WSIZE in Hy; lia].
Qed.

Lemma bsize_ok_range (n : Z) : bsize_ok n = true -> 0 <= n /\ n + 15 < W64.
Proof. unfold bsize_ok. rewrite andb_true_iff, Z.leb_le, Z.ltb_lt. tauto. Qed.

Lemma bexec1_reachable (lo max : Z) (c : call) (s s' : state Z) (L L' : list Z) :
  breachable (W64 - 15) lo max s L -> bexec1 c s L = Some (s', L') ->
  breachable (W64 - 15) lo max s' L'.
Proof.
  intros Hr. destruct c as [n|p|p n|nmemb size|p i v]; simpl.
  - destruct (bsize_ok n) eqn:Hn; [|discriminate]. apply bsize_ok_range in Hn.
    destruct (Basic.malloc (heap_fuel s) n s) as [q s1| |] eqn:E; try discriminate.
    intros H; inversion H; subst.
    eapply BR_malloc; [exact Hr|reflexivity|apply Hn|unfold W64 in *; lia|exact E].
  - destruct (remove1 p L) as [L1|] eqn:HL; [|discriminate].
    destruct (Basic.free p s) as [[] s1| |] eqn:E; try discriminate.
    intros H; inversion H; subst. eapply BR_free; eauto using remove1_perm.
  - destruct (bsize_ok n) eqn:Hn; [|discriminate]. apply bsize_ok_range in Hn.
    destruct (0 <? n) eqn:Hpos; [|discriminate]. apply Z.ltb_lt in Hpos. simpl.
    destruct (remove1 p L) as [L1|] eqn:HL; [|discriminate].
    destruct (Basic.realloc (heap_fuel s) p n s) as [q s1| |] eqn:E; try discriminate.
    intros H; inversion H; subst.
    eapply BR_realloc;
      [exact Hr|apply remove1_perm; exact HL|reflexivity|exact Hpos|unfold W64 in *; lia|exact E].
  - destruct ((nmemb * size) mod W64 + 15 <? W64) eqn:Hb; [|discriminate].
    apply Z.ltb_lt in Hb.
    destruct (Basic.calloc (heap_fuel s) nmemb size s) as [q s1| |] eqn:E; try discriminate.
    intros H; inversion H; subst.
    eapply BR_calloc with (nmemb := nmemb) (size := size);
      [exact Hr|reflexivity|unfold W64 in *; lia|exact E].
  - destruct (held p L) eqn:Hh; [|discriminate]. apply held_In in Hh.
    destruct (GET_SIZE (GET_HEADER p) s) as [sz s1| |] eqn:E; try discriminate.
    destruct ((0 <=? i) && (i <? sz - 8)) eqn:Hi; [|discriminate].
    apply andb_true_iff in Hi. rewrite Z.leb_le, Z.ltb_lt in Hi.
    intros H; inversion H; subst.
    pose proof (GET_SIZE_state _ _ _ _ E). subst s1.
    eapply BR_store; eauto. unfold WSIZE. lia.
Qed.

Lemma bexec_reachable (lo max : Z) (cs : list call) :
  forall s L s' L',
    breachable (W64 - 15) lo max s L -> bexec cs s L = Some (s', L') ->
    breachable (W64 - 15) lo max s' L'.
Proof.
  induction cs as [|c r IH]; intros s L s' L' Hr H; simpl in H.
  - inversion H; subst. exact Hr.
  - destruct (bexec1 c s L) as [[s1 L1]|] eqn:E; [|discriminate].
    eapply IH; [|exact H]. eapply bexec1_reachable; eauto.
Qed.

Lemma bsession_reachable (m : memory) (lo max : Z) (cs : list call) :
  completes (bsession m lo max cs) = true ->
  breachable (W64 - 15) lo max (state_of (bsession m lo max cs))
             (held_of (bsession m lo max cs)).
Proof.
  unfold bsession.
  destruct ((0 <? lo) && (max - lo <? W32)) eqn:Hc; [|discriminate].
  apply andb_true_iff in Hc. rewrite !Z.ltb_lt in Hc.
  destruct (Basic.mm_init (boot m lo max)) as [r s| |] eqn:E; try discriminate.
  destruct (Z.eqb_spec r 0) as [->|]; [|discriminate].
  destruct (bexec cs s []) as [[s' L']|] eqn:Ex; [|discriminate].
  intros _. simpl. eapply bexec_reachable; [|exact Ex].
  eapply BR_init; [| |exact E]; lia.
Qed.

(** * The specification, claim by claim *)

Lemma returns_GET_SIZE {F} (p sz : Z) (s : state F) :
  returns (GET_SIZE p s) sz = true -> GET_SIZE p s = Done sz s.
Proof.
  intros H. rewrite (returns_Done _ _ s H) at 1. f_equal.
  destruct (GET_SIZE p s) as [v s1| |] eqn:E; try discriminate.
  simpl. exact (GET_SIZE_state _ _ _ _ E).
Qed.

Lemma held_split (p : Z) (L : list Z) :
  In p L -> exists L', Permutation L (p :: L').
Proof.
  intros H. apply in_split in H. destruct H as (l1 & l2 & ->).
  exists (l1 ++ l2). apply Permutation_sym, Permutation_middle.
Qed.

Lemma reachable_heap_ptr (lo max : Z) (s : state Z) (L : list Z) :
  reachable lo max s L -> heap_ptr s + WSIZE = first_hdr s.
Proof.
  intros Hr. destruct (reachable_inv _ _ _ _ Hr) as (bs & fl & HRep & _).
  destruct HRep as (((_ & Hhp & _) & _) & _).
  unfold first_hdr, WSIZE. lia.
Qed.

(** ** Adjacent free blocks *)

(** C3.  In every state reached from [mm_init] by public operations the
    walk over the heap ends at the epilogue and never meets two
    neighbouring blocks with ALLOC = 0: the coalescer has restored this
    after every [free] and after every split made by an allocation. *)
Theorem C3_no_adjacent_free_blocks (lo max : Z) (s : state Z) (L : list Z) :
  reachable lo max s L ->
  exists l, heap_walk (heap_fuel s) (mem s) (heap_ptr s + WSIZE) = Some l /\
            adjacent_free l = false.
Proof.
  intros Hr. rewrite (reachable_heap_ptr _ _ _ _ Hr).
  destruct (reachable_inv _ _ _ _ Hr) as (bs & fl & HRep & _).
  exists (map view bs). split.
  - apply Rep_heap_walk with (fl := fl). exact HRep.
  - destruct HRep as (_ & Hnaf & Hnl). eapply naf_adjacent_free; eassumption.
Qed.

Lemma C3_witness :
  exists l, heap_walk (heap_fuel c3_state) (mem c3_state) (heap_ptr c3_state + WSIZE)
            = Some l /\ adjacent_free l = false.
Proof.
  apply (C3_no_adjacent_free_blocks 1024 8192 c3_state
           (held_of (session zero_mem 1024 8192 c3_calls))).
  apply session_reachable. vm_compute. reflexivity.
Defined.

(** ** Alignment *)

Lemma held_aligned (lo max : Z) (s : state Z) (L : list Z) :
  reachable lo max s L -> lo mod 8 = 0 -> forall p, In p L -> p mod 8 = 0.
Proof.
  intros Hr Hlo p Hin.
  destruct (reachable_inv _ _ _ _ Hr) as (bs & fl & HRep & HP & Hlo' & _).
  destruct (held_block s bs L p HP Hin) as (psz & Hb).
  pose proof (alloc_blocks_bounds _ _ _ _ (W_sizes _ _ _ (Rep_W _ _ _ HRep)) Hb)
    as (_ & _ & _ & _ & Hal).
  unfold first_hdr in Hal. rewrite Hlo' in Hal.
  apply Z.mod_divide in Hlo; [|lia]. apply Z.mod_divide in Hal; [|lia].
  apply Z.mod_divide; [lia|].
  destruct Hlo as (a & Ea). destruct Hal as (b & Eb).
  exists (a + b + 3). lia.
Qed.

Lemma fresh_aligned (lo max : Z) (s : state Z) (L : list Z) (p : Z) :
  reachable lo max s (if p =? NULL then L else p :: L) ->
  lo mod 8 = 0 -> p mod 8 = 0.
Proof.
  intros Hr Hlo. destruct (Z.eqb_spec p NULL) as [E|Hne]; [rewrite E; reflexivity|].
  eapply held_aligned; [exact Hr|exact Hlo|left; reflexivity].
Qed.

(** With fuel for the free list the entry points never run out of fuel:
    [malloc] returns, and [realloc] and [calloc] return or fault. *)
Lemma malloc_returns (lo max : Z) (s : state Z) (L : list Z) (fuel : nat) (n : Z) :
  reachable lo max s L -> (heap_fuel s <= fuel)%nat -> 0 <= n < W64 ->
  exists p s', Mm.malloc fuel n s = Done p s'.
Proof.
  intros Hr Hf Hn.
  destruct (reachable_inv _ _ _ _ Hr) as (bs & fl & HRep & _).
  pose proof (W_fuel _ _ _ (Rep_W _ _ _ HRep)) as Hfl.
  destruct (Z.eq_dec n 0) as [->|Hn0]; [exists NULL, s; reflexivity|].
  destruct (malloc_spec s bs fl fuel n HRep ltac:(lia) ltac:(lia))
    as (p & s' & E & _).
  exists p, s'. exact E.
Qed.

Lemma realloc_returns (lo max : Z) (s : state Z) (L : list Z) (fuel : nat)
      (p n : Z) :
  reachable lo max s L -> In p L -> (heap_fuel s <= fuel)%nat -> 0 < n < W64 ->
  (Mm.realloc fuel p n s = Fault /\ mem_max s < mem_brk s + Mm.adjust n) \/
  exists q s', Mm.realloc fuel p n s = Done q s'.
Proof.
  intros Hr Hin Hf Hn.
  destruct (reachable_inv _ _ _ _ Hr) as (bs & fl & HRep & HP & _).
  destruct (held_block s bs L p HP Hin) as (psz & Hb).
  pose proof (W_fuel _ _ _ (Rep_W _ _ _ HRep)) as Hfl.
  destruct (realloc_spec s bs fl fuel p psz n HRep Hb ltac:(lia) Hn)
    as [H|(q & s' & E & _)]; [left; exact H|right; eauto].
Qed.

Lemma calloc_returns (lo max : Z) (s : state Z) (L : list Z) (fuel : nat)
      (nmemb size : Z) :
  reachable lo max s L -> (heap_fuel s <= fuel)%nat ->
  Mm.calloc fuel nmemb size s = Fault \/
  exists p s', Mm.calloc fuel nmemb size s = Done p s'.
Proof.
  intros Hr Hf.
  destruct (reachable_inv _ _ _ _ Hr) as (bs & fl & HRep & _).
  pose proof (W_fuel _ _ _ (Rep_W _ _ _ HRep)) as Hfl.
  destruct (calloc_spec s bs fl fuel nmemb size HRep ltac:(lia))
    as [E|[(_ & E)|(q & s' & E & _)]]; [left; exact E|right; eauto|right; eauto].
Qed.

(** C8.  With an 8-byte aligned heap base, in every reachable state and
    for every request, [malloc] returns a multiple of 8, and [realloc]
    and [calloc], unless they fault, return a multiple of 8. *)
Theorem C8_payload_pointers_aligned (lo max : Z) (s : state Z) (L : list Z)
        (fuel : nat) :
  lo mod 8 = 0 -> reachable lo max s L -> (heap_fuel s <= fuel)%nat ->
  (forall n, 0 <= n < W64 ->
             exists p s', Mm.malloc fuel n s = Done p s' /\ p mod 8 = 0) /\
  (forall q n, In q L -> 0 < n < W64 ->
               Mm.realloc fuel q n s = Fault \/
               exists p s', Mm.realloc fuel q n s = Done p s' /\ p mod 8 = 0) /\
  (forall nmemb size, 0 <= nmemb < W64 -> 0 <= size < W64 ->
                      Mm.calloc fuel nmemb size s = Fault \/
                      exists p s', Mm.calloc fuel nmemb size s = Done p s' /\
                                   p mod 8 = 0).
Proof.
  intros Hlo Hr Hf. split; [|split].
  - intros n Hn.
    destruct (malloc_returns lo max s L fuel n Hr Hf Hn) as (p & s' & Hrun).
    exists p, s'. split; [exact Hrun|].
    apply (fresh_aligned lo max s' L); [|exact Hlo].
    eapply R_malloc; eassumption.
  - intros q n Hq Hn.
    destruct (realloc_returns lo max s L fuel q n Hr Hq Hf Hn)
      as [(E & _)|(p & s' & Hrun)]; [left; exact E|right].
    exists p, s'. split; [exact Hrun|].
    destruct (held_split q L Hq) as (L' & HP).
    apply (held_aligned lo max s' (p :: L')); [|exact Hlo|left; reflexivity].
    eapply R_realloc; eassumption.
  - intros nmemb size Hm Hn.
    destruct (calloc_returns lo max s L fuel nmemb size Hr Hf)
      as [E|(p & s' & Hrun)]; [left; exact E|right].
    exists p, s'. split; [exact Hrun|].
    apply (fresh_aligned lo max s' L); [|exact Hlo].
    eapply R_calloc; [exact Hr|exact Hf|exact Hm|exact Hn|exact Hrun].
Qed.

Lemma C8_witness :
  exists p s', Mm.malloc (heap_fuel c3_state) 100 c3_state = Done p s' /\
               p mod 8 = 0.
Proof.
  refine (proj1 (C8_payload_pointers_aligned 1024 8192 c3_state
                   (held_of (session zero_mem 1024 8192 c3_calls))
                   (heap_fuel c3_state) _ _ _) 100 _).
  - reflexivity.
  - apply session_reachable. vm_compute. reflexivity.
  - apply le_n.
  - unfold W64. lia.
Defined.

(** ** [realloc] *)

(** C10.  In a reachable state a [realloc] of a held pointer [p] to a
    nonzero size either faults, the provider being exhausted, or returns
    a non-null pointer different from [p]: the new block is taken while
    the old one is still allocated. *)
Theorem C10_realloc_returns_other_pointer (lo max : Z) (s : state Z)
        (L : list Z) (fuel : nat) (p n : Z) :
  reachable lo max s L -> In p L -> (heap_fuel s <= fuel)%nat ->
  0 < n < W64 ->
  (Mm.realloc fuel p n s = Fault /\ mem_max s < mem_brk s + Mm.adjust n) \/
  (exists q s', Mm.realloc fuel p n s = Done q s' /\
                p <> NULL /\ q <> NULL /\ q <> p).
Proof.
  intros Hr Hin Hf Hn.
  destruct (reachable_inv _ _ _ _ Hr) as (bs & fl & HRep & HP & _).
  destruct (held_block s bs L p HP Hin) as (psz & Hb).
  pose proof (W_fuel _ _ _ (Rep_W _ _ _ HRep)) as Hfl.
  destruct (Rep_alloc_header _ _ _ _ _ HRep Hb) as (_ & _ & Hplo & _).
  pose proof HRep as (((Hlo & _) & _) & _).
  destruct (realloc_spec s bs fl fuel p psz n HRep Hb ltac:(lia) Hn)
    as [H|(q & s' & E & Hq & Hqp & _)]; [left; exact H|right].
  exists q, s'. split; [exact E|].
  split; [unfold NULL; lia|]. split; assumption.
Qed.

Lemma C10_witness :
  exists q s', Mm.realloc (heap_fuel c3_state) 1096 8 c3_state = Done q s' /\
               1096 <> NULL /\ q <> NULL /\ q <> 1096.
Proof.
  destruct (C10_realloc_returns_other_pointer 1024 8192 c3_state
              (held_of (session zero_mem 1024 8192 c3_calls)) (heap_fuel c3_state)
              1096 8) as [(E & _)|H].
  - apply session_reachable. vm_compute. reflexivity.
  - apply held_In. vm_compute. reflexivity.
  - apply le_n.
  - unfold W64. lia.
  - exfalso.
    assert (Hf : faults (Mm.realloc (heap_fuel c3_state) 1096 8 c3_state) = false)
      by (vm_compute; reflexivity).
    rewrite E in Hf. discriminate Hf.
  - exact H.
Defined.

(** C4 fails for requests near [2^64]: the adjusted size wraps around, the
    new block is smaller than the old one, and fewer than
    [min (n, n')] bytes are copied.  In mm.c the new block has 16 bytes and
    byte 20 is lost; in part_000 the new block has 8 bytes, no byte is
    copied and the first byte at the new pointer is the low byte of the
    block's own footer. *)
Lemma C4_counterexample :
  let s := c4_state in
  let r := Mm.realloc (heap_fuel s) 1048 (W64 - 1) s in
  let t := c4_basic_state in
  let u := Basic.realloc (heap_fuel t) 1048 (W64 - 1) t in
  (completes (session zero_mem 1024 8192 c4_calls) = true /\
   held 1048 (held_of (session zero_mem 1024 8192 c4_calls)) = true /\
   returns (GET_SIZE (GET_HEADER 1048) s) 32 = true /\
   returns r 1080 = true /\
   20 < Z.min (32 - WSIZE) (W64 - 1) /\
   byte_at (mem s) (1048 + 20) = 7 /\
   byte_at (mem (final r s)) (1080 + 20) = 0) /\
  (completes (bsession zero_mem 1024 8192 c4_basic_calls) = true /\
   held 1048 (held_of (bsession zero_mem 1024 8192 c4_basic_calls)) = true /\
   returns (GET_SIZE (GET_HEADER 1048) t) 32 = true /\
   returns u 1080 = true /\
   0 < Z.min (32 - 2 * WSIZE) (W64 - 1) /\
   byte_at (mem t) 1048 = 7 /\
   byte_at (mem (final u t)) 1080 = 9).
Proof. vm_compute. repeat split. Qed.

(** C4, amended.  For a held pointer [p] of mm.c whose block has [sz]
    bytes, and for [0 < n'] with [n' + 11 < 2^64], [realloc (p, n')]
    either faults, the provider being exhausted, or returns a pointer at
    which the first [min (sz - WSIZE) n'] bytes of the old payload are
    found; the length handed to [memcpy] is the smaller block size minus
    one word.  For a held pointer [q] of part_000 whose block has [tsz]
    bytes, in a state reached with requests below [2^64 - 15], and for
    [n' + 15 < 2^64], the same holds with two words in place of one. *)
Theorem C4_realloc_preserves_payload (lo max blo bmax : Z) (s t : state Z)
        (L K : list Z) (fuel gas : nat) (p q n' sz tsz : Z) :
  reachable lo max s L -> In p L -> (heap_fuel s <= fuel)%nat ->
  GET_SIZE (GET_HEADER p) s = Done sz s ->
  breachable (W64 - 15) blo bmax t K -> In q K -> (heap_fuel t <= gas)%nat ->
  GET_SIZE (GET_HEADER q) t = Done tsz t ->
  0 < n' -> n' + 11 < W64 ->
  ((Mm.realloc fuel p n' s = Fault /\ mem_max s < mem_brk s + Mm.adjust n') \/
   (exists p' s',
       Mm.realloc fuel p n' s = Done p' s' /\
       (forall i, 0 <= i < Z.min (sz - WSIZE) n' ->
                  byte_at (mem s') (p' + i) = byte_at (mem s) (p + i)) /\
       (exists nsz, GET_SIZE (GET_HEADER p') s' = Done nsz s' /\
                    n' <= nsz - WSIZE /\
                    Mm.copy_length sz nsz = Z.min (sz - WSIZE) (nsz - WSIZE)))) /\
  (n' + 15 < W64 ->
   (Basic.realloc gas q n' t = Fault /\
    mem_max t < mem_brk t + Z.max (Basic.adjust n') 4096) \/
   (exists q' t',
       Basic.realloc gas q n' t = Done q' t' /\
       (forall i, 0 <= i < Z.min (tsz - 2 * WSIZE) n' ->
                  byte_at (mem t') (q' + i) = byte_at (mem t) (q + i)) /\
       (exists nsz, GET_SIZE (GET_HEADER q') t' = Done nsz t' /\
                    n' <= nsz - 2 * WSIZE /\
                    Basic.copy_length tsz nsz
                    = Z.min (tsz - 2 * WSIZE) (nsz - 2 * WSIZE)))).
Proof.
  intros Hr Hin Hf Hsz Hbr Hbin Hbf Htsz Hn Hn11.
  pose proof W32_lt_W64 as HW.
  split.
  - destruct (reachable_inv _ _ _ _ Hr) as (bs & fl & HRep & HP & _).
    destruct (held_block s bs L p HP Hin) as (psz & Hb).
    pose proof (W_fuel _ _ _ (Rep_W _ _ _ HRep)) as Hfl.
    rewrite (Rep_GET_SIZE _ _ _ _ _ HRep Hb) in Hsz. inversion Hsz; subst sz.
    destruct (Rep_alloc_header _ _ _ _ _ HRep Hb)
      as (_ & _ & _ & Hp16 & _ & Hp32 & _).
    destruct (realloc_spec s bs fl fuel p psz n' HRep Hb ltac:(lia) ltac:(lia))
      as [H|(p' & s' & E & Hpost)]; [left; exact H|right].
    exists p', s'. split; [exact E|].
    destruct Hpost as (Hq & Hqp & bs' & fl' & cap & HRep' & Hlo' & _ & Hcap
                       & HP' & Hbytes).
    destruct (adjust_facts n' ltac:(lia)) as (_ & _ & _ & Hadj).
    specialize (Hadj Hn11).
    assert (Hqin : In (p', cap) (alloc_blocks (first_hdr s') bs')).
    { assert (Efh : first_hdr s' = first_hdr s) by (unfold first_hdr; lia).
      rewrite Efh.
      assert (H : In (p', cap) ((p, psz) :: alloc_blocks (first_hdr s) bs'))
        by (eapply Permutation_in;
            [apply Permutation_sym; exact HP'|left; reflexivity]).
      destruct H as [E'|H]; [inversion E'; congruence|exact H]. }
    destruct (Rep_alloc_header _ _ _ _ _ HRep' Hqin)
      as (_ & _ & _ & Hq16 & _ & Hq32 & _).
    split.
    + intros i Hi. apply Hbytes. unfold WSIZE in Hi. lia.
    + exists cap. split; [exact (Rep_GET_SIZE _ _ _ _ _ HRep' Hqin)|].
      unfold WSIZE. split; [lia|]. apply copy_length_eq; lia.
  - intros Hn15.
    destruct (breachable_inv _ _ _ _ Hbr) as (bs & fl & HRep & HP & _).
    destruct (held_block t bs K q HP Hbin) as (psz & Hb).
    pose proof (BW_fuel _ _ _ (BRep_BW _ _ _ HRep)) as Hfl.
    rewrite (BRep_GET_SIZE _ _ _ _ _ HRep Hb) in Htsz. inversion Htsz; subst tsz.
    destruct (BRep_alloc_header _ _ _ _ _ HRep Hb)
      as (_ & _ & _ & Hp16 & _ & Hp32 & _).
    destruct (brealloc_spec t bs fl gas q psz n' HRep Hb ltac:(lia) Hn Hn15)
      as [H|(q' & t' & E & Hpost)]; [left; exact H|right].
    exists q', t'. split; [exact E|].
    destruct Hpost as (Hq & Hqp & bs' & fl' & cap & HRep' & Hlo' & _ & Hcap
                       & HP' & Hbytes).
    destruct (badjust_facts n' Hn Hn15) as (_ & _ & _ & Hadj).
    assert (Hqin : In (q', cap) (alloc_blocks (first_hdr t') bs')).
    { assert (Efh : first_hdr t' = first_hdr t) by (unfold first_hdr; lia).
      rewrite Efh.
      assert (H : In (q', cap) ((q, psz) :: alloc_blocks (first_hdr t) bs'))
        by (eapply Permutation_in;
            [apply Permutation_sym; exact HP'|left; reflexivity]).
      destruct H as [E'|H]; [inversion E'; congruence|exact H]. }
    destruct (BRep_alloc_header _ _ _ _ _ HRep' Hqin)
      as (_ & _ & _ & Hq16 & _ & Hq32 & _).
    split.
    + intros i Hi. apply Hbytes. unfold WSIZE in Hi. lia.
    + exists cap. split; [exact (BRep_GET_SIZE _ _ _ _ _ HRep' Hqin)|].
      unfold WSIZE. split; [lia|].
      rewrite Basic_copy_length_eq by lia. reflexivity.
Qed.

Lemma C4_witness :
  let s := c4_state in
  let t := c4_basic_state in
  (exists p' s',
      Mm.realloc (heap_fuel s) 1048 24 s = Done p' s' /\
      (forall i, 0 <= i < Z.min (32 - WSIZE) 24 ->
                 byte_at (mem s') (p' + i) = byte_at (mem s) (1048 + i)) /\
      (exists nsz, GET_SIZE (GET_HEADER p') s' = Done nsz s' /\
                   24 <= nsz - WSIZE /\
                   Mm.copy_length 32 nsz = Z.min (32 - WSIZE) (nsz - WSIZE))) /\
  (exists q' t',
      Basic.realloc (heap_fuel t) 1048 24 t = Done q' t' /\
      (forall i, 0 <= i < Z.min (32 - 2 * WSIZE) 24 ->
                 byte_at (mem t') (q' + i) = byte_at (mem t) (1048 + i)) /\
      (exists nsz, GET_SIZE (GET_HEADER q') t' = Done nsz t' /\
                   24 <= nsz - 2 * WSIZE /\
                   Basic.copy_length 32 nsz
                   = Z.min (32 - 2 * WSIZE) (nsz - 2 * WSIZE))).
Proof.
  destruct (C4_realloc_preserves_payload 1024 8192 1024 8192
              c4_state c4_basic_state
              (held_of (session zero_mem 1024 8192 c4_calls))
              (held_of (bsession zero_mem 1024 8192 c4_basic_calls))
              (heap_fuel c4_state) (heap_fuel c4_basic_state)
              1048 1048 24 32 32) as [[(E & _)|H] Hb].
  - apply session_reachable. vm_compute. reflexivity.
  - apply held_In. vm_compute. reflexivity.
  - apply le_n.
  - apply returns_GET_SIZE. vm_compute. reflexivity.
  - apply bsession_reachable. vm_compute. reflexivity.
  - apply held_In. vm_compute. reflexivity.
  - apply le_n.
  - apply returns_GET_SIZE. vm_compute. reflexivity.
  - lia.
  - unfold W64. lia.
  - exfalso.
    assert (Hf : faults (Mm.realloc (heap_fuel c4_state) 1048 24 c4_state) = false)
      by (vm_compute; reflexivity).
    rewrite E in Hf. discriminate Hf.
  - split; [exact H|].
    destruct (Hb ltac:(unfold W64; lia)) as [(E & _)|Hb'].
    + exfalso.
      assert (Hf : faults (Basic.realloc (heap_fuel c4_basic_state) 1048 24
                             c4_basic_state) = false)
        by (vm_compute; reflexivity).
      rewrite E in Hf. discriminate Hf.
    + exact Hb'.
Defined.

(** C9.  [calloc] asks [malloc] for the product reduced modulo [2^64] and
    never compares it with the true product: for [2^63 + 1] elements of 2
    bytes it requests 2 bytes and returns a block of 16 bytes. *)
Theorem C9_calloc_product_wraps :
  (forall fuel nmemb size s,
      Mm.calloc fuel nmemb size s
      = (newptr <- Mm.malloc fuel ((nmemb * size) mod W64) ;;
         memset newptr 0 ((nmemb * size) mod W64) ;;;
         ret newptr) s) /\
  let nmemb := 2 ^ 63 + 1 in
  let size := 2 in
  let r := Mm.calloc (heap_fuel fresh_state) nmemb size fresh_state in
  0 <= nmemb < W64 /\ 0 <= size < W64 /\
  W64 - 1 < nmemb * size /\ (nmemb * size) mod W64 = 2 /\
  returns r 1048 = true /\ 1048 <> NULL /\
  returns (GET_SIZE (GET_HEADER 1048) (final r fresh_state)) 16 = true /\
  16 - WSIZE < nmemb * size.
Proof.
  split; [reflexivity|]. vm_compute. repeat split; discriminate.
Qed.

(** ** Exhausted address space *)

(** Whenever the [malloc] inside [realloc] or [calloc] returns null, the
    call faults. *)
Lemma realloc_null_faults (lo max : Z) (s : state Z) (L : list Z) (fuel : nat)
      (p n : Z) (s' : state Z) :
  reachable lo max s L -> In p L -> (heap_fuel s <= fuel)%nat -> 0 < n < W64 ->
  Mm.malloc fuel n s = Done NULL s' ->
  Mm.realloc fuel p n s = Fault.
Proof.
  intros Hr Hin Hf Hn Hm.
  destruct (reachable_inv _ _ _ _ Hr) as (bs & fl & HRep & HP & _).
  destruct (held_block s bs L p HP Hin) as (psz & Hb).
  pose proof (W_fuel _ _ _ (Rep_W _ _ _ HRep)) as Hfl.
  destruct (Rep_alloc_header _ _ _ _ _ HRep Hb) as (_ & _ & Hplo & _).
  pose proof HRep as (((Hlo & _) & _) & _).
  destruct (malloc_spec s bs fl fuel n HRep ltac:(lia) Hn)
    as (q & s1 & E & [(-> & -> & _)|(Hq & _)]); rewrite E in Hm;
    inversion Hm; subst; [|contradiction].
  unfold Mm.realloc.
  replace (n =? 0) with false by (symmetry; apply Z.eqb_neq; lia).
  replace (p =? NULL) with false by (symmetry; apply Z.eqb_neq; unfold NULL; lia).
  rstep ltac:(exact E).
  rstep ltac:(eapply Rep_GET_SIZE; eassumption).
  unfold GET_HEADER, GET_SIZE, READ, NULL, WSIZE, bind, in_heap.
  replace (mem_lo s' <=? 0 - 4) with false by (symmetry; apply Z.leb_gt; lia).
  reflexivity.
Qed.

Lemma calloc_null_faults (lo max : Z) (s : state Z) (L : list Z) (fuel : nat)
      (nmemb size : Z) (s' : state Z) :
  reachable lo max s L -> (heap_fuel s <= fuel)%nat ->
  (nmemb * size) mod W64 <> 0 ->
  Mm.malloc fuel ((nmemb * size) mod W64) s = Done NULL s' ->
  Mm.calloc fuel nmemb size s = Fault.
Proof.
  intros Hr Hf Hne Hm.
  destruct (reachable_inv _ _ _ _ Hr) as (bs & fl & HRep & _).
  pose proof (W_fuel _ _ _ (Rep_W _ _ _ HRep)) as Hfl.
  pose proof HRep as (((Hlo & _) & _) & _).
  pose proof (Z.mod_pos_bound (nmemb * size) W64 ltac:(unfold W64; lia)) as Hb.
  destruct (malloc_spec s bs fl fuel ((nmemb * size) mod W64) HRep
              ltac:(lia) ltac:(lia))
    as (q & s1 & E & [(-> & -> & _)|(Hq & _)]); rewrite E in Hm;
    inversion Hm; subst; [|contradiction].
  unfold Mm.calloc. rstep ltac:(exact E).
  unfold memset, bind, in_heap, NULL.
  replace ((nmemb * size) mod W64 =? 0) with false
    by (symmetry; apply Z.eqb_neq; exact Hne).
  replace (mem_lo s' <=? 0) with false by (symmetry; apply Z.leb_gt; lia).
  reflexivity.
Qed.

(** C1.  When the provider refuses to extend, [malloc] returns null, but
    [realloc] reads the header of the null pointer it got from [malloc]
    and [calloc] hands it to [memset]: both fault instead of returning
    null, in mm.c and in its two siblings. *)
Theorem C1_null_result_dereferenced :
  let s := c1_state in
  let t := c1_seg_state in
  let b := c1_basic_state in
  (completes (session zero_mem 1024 1064 c1_calls) = true /\
   held_of (session zero_mem 1024 1064 c1_calls) = [1048] /\
   mem_brk s = mem_max s /\
   returns (Mm.malloc (heap_fuel s) 8 s) NULL = true /\
   Mm.realloc (heap_fuel s) 1048 64 s = Fault /\
   Mm.calloc (heap_fuel s) 1 8 s = Fault) /\
  (finishes (seg_session zero_mem 1024 1064 c1_calls) = true /\
   mem_brk t = mem_max t /\
   returns (Seg.malloc (heap_fuel t) 8 t) NULL = true /\
   Seg.realloc (heap_fuel t) 1048 64 t = Fault /\
   Seg.calloc (heap_fuel t) 1 8 t = Fault) /\
  (finishes (basic_session zero_mem 1024 5144 c1_calls) = true /\
   mem_brk b = mem_max b /\
   returns (Basic.malloc (heap_fuel b) 5000 b) NULL = true /\
   Basic.realloc (heap_fuel b) 1048 5000 b = Fault /\
   Basic.calloc (heap_fuel b) 1 5000 b = Fault).
Proof. vm_compute. repeat split. Qed.

Lemma extended_state_written {F} (s : state F) (bytes : Z) :
  8 <= bytes -> bytes mod 8 = 0 -> bytes + 8 <= W32 ->
  extension_written s bytes.
Proof.
  intros H8 Hm8 H32. unfold extension_written, extended_state.
  cbn [mem mem_brk heap_end].
  set (he := heap_end s). set (w := rd (mem s) he).
  rewrite (land2_bit w). set (pa := negb (Z.land w 2 =? 0)).
  assert (Hhd : PACK bytes (bit_pa pa) = hdr bytes pa false).
  { rewrite pack_small by (trivial; destruct pa; simpl; lia).
    unfold hdr. simpl. lia. }
  assert (Hrd : rd (wr (wr (wr (mem s) he (PACK bytes (bit_pa pa)))
                           (he + bytes - 4) (PACK bytes 0))
                       (he + bytes) (PACK 0 1)) he = hdr bytes pa false).
  { rewrite !rd_wr_other by lia. rewrite Hhd.
    apply rd_wr_same_small. apply hdr_fits; lia. }
  split; [reflexivity|].
  rewrite Hrd.
  split; [apply hdr_size; trivial; lia|].
  split; [rewrite hdr_alloc by exact Hm8; reflexivity|].
  split; [apply hdr_prealloc; exact Hm8|].
  split.
  { unfold WSIZE. rewrite rd_wr_other by lia.
    apply rd_wr_same_small. rewrite pack_small by (trivial; lia). unfold W32 in *. lia. }
  split; [reflexivity|].
  rewrite rd_wr_same_small by (unfold W32; simpl; lia).
  split; reflexivity.
Qed.

Lemma extend_bytes_mod8 (words : Z) :
  0 <= words < W64 ->
  Mm.extend_bytes words mod 8 = 0 /\ 0 <= Mm.extend_bytes words < W64.
Proof.
  intros Hw. unfold Mm.extend_bytes, WSIZE.
  assert (H8 : (8 | W64)) by (exists 2305843009213693952; reflexivity).
  assert (H2 : (2 | W64)) by (exists 9223372036854775808; reflexivity).
  change (Z.land words 1) with (Z.land words (Z.ones 1)).
  rewrite Z.land_ones by lia. change (2 ^ 1) with 2.
  pose proof (Z.mod_pos_bound words 2 ltac:(lia)) as Hb.
  pose proof (Z.div_mod words 2 ltac:(lia)) as Hd.
  destruct (Z.eqb_spec (words mod 2) 0) as [E|E]; cbn [negb].
  - split; [|apply Z.mod_pos_bound; unfold W64; lia].
    rewrite Z.mod_mod_divide by exact H8.
    replace (words * 4) with ((words / 2) * 8) by lia.
    apply Z.mod_mul. lia.
  - split; [|apply Z.mod_pos_bound; unfold W64; lia].
    rewrite Z.mod_mod_divide by exact H8.
    assert (Hev : ((words + 1) mod W64) mod 2 = 0).
    { rewrite Z.mod_mod_divide by exact H2.
      replace (words + 1) with ((words / 2 + 1) * 2) by lia.
      apply Z.mod_mul. lia. }
    pose proof (Z.div_mod ((words + 1) mod W64) 2 ltac:(lia)) as Hd2.
    replace ((words + 1) mod W64 * 4) with ((((words + 1) mod W64) / 2) * 8) by lia.
    apply Z.mod_mul. lia.
Qed.

(** Without wrap-around the byte count of [_extend_heap] is the word
    count rounded up to an even number, times the word size. *)
Lemma extend_bytes_rounded (words : Z) :
  0 <= words -> WSIZE * (words + 1) < W64 ->
  Mm.extend_bytes words = WSIZE * (words + words mod 2).
Proof.
  intros Hw Hlt. unfold Mm.extend_bytes, WSIZE in *.
  change (Z.land words 1) with (Z.land words (Z.ones 1)).
  rewrite Z.land_ones by lia. change (2 ^ 1) with 2.
  pose proof (Z.mod_pos_bound words 2 ltac:(lia)) as Hb.
  destruct (Z.eqb_spec (words mod 2) 0) as [E|E]; cbn [negb].
  - rewrite E, Z.mod_small by lia. lia.
  - replace (words mod 2) with 1 by lia.
    rewrite (Z.mod_small (words + 1)) by lia.
    rewrite Z.mod_small by lia. lia.
Qed.

Lemma rounded_mod8 (words : Z) : (WSIZE * (words + words mod 2)) mod 8 = 0.
Proof.
  unfold WSIZE.
  pose proof (Z.div_mod words 2 ltac:(lia)) as Hd.
  pose proof (Z.mod_pos_bound words 2 ltac:(lia)) as Hb.
  assert (Hc : words mod 2 = 0 \/ words mod 2 = 1) by lia.
  destruct Hc as [E|E]; rewrite E.
  - replace (4 * (words + 0)) with ((words / 2) * 8) by lia. apply Z.mod_mul. lia.
  - replace (4 * (words + 1)) with ((words / 2 + 1) * 8) by lia. apply Z.mod_mul. lia.
Qed.

(** In a reachable state of mm.c every extension the provider grants
    meets [can_extend]. *)
Lemma reachable_can_extend (lo max : Z) (s : state Z) (L : list Z) (words : Z) :
  reachable lo max s L -> 0 < words ->
  mem_brk s + WSIZE * (words + words mod 2) <= mem_max s ->
  can_extend s words.
Proof.
  intros Hr Hw Hmax.
  destruct (reachable_inv _ _ _ _ Hr) as (bs & fl & HRep & _).
  pose proof (W_bounds _ _ _ (Rep_W _ _ _ HRep)) as (Ht0 & Htb & Ht32 & _).
  destruct HRep as (((Hlo & Hhp & Hend & Hbrk & _ & H32) & _) & _).
  unfold can_extend, WSIZE in *. repeat split; lia.
Qed.

(** In a reachable state of mm.c the extension by at least one minimal
    block returns: the coalescer it ends with terminates. *)
Lemma extend_heap_returns (lo max : Z) (s : state Z) (L : list Z) (words : Z) :
  reachable lo max s L -> 0 <= words < W64 -> 16 <= Mm.extend_bytes words ->
  mem_brk s + Mm.extend_bytes words <= mem_max s ->
  exists r s', Mm._extend_heap words s = Done r s' /\ r <> NULL.
Proof.
  intros Hr Hw H16 Hmax.
  destruct (reachable_inv _ _ _ _ Hr) as (bs & fl & HRep & _).
  destruct (extend_bytes_mod8 words Hw) as (Hm8 & _).
  destruct (extend_spec s bs fl words HRep Hmax H16 Hm8) as (r & s' & E & Hext).
  exists r, s'. split; [exact E|].
  unfold extended in Hext. cbv zeta in Hext.
  destruct Hext as (bs' & fl' & HRep' & _ & _ & _ & _ & _ & _
                    & r1 & rsz & r2 & Ebs & Er & _).
  pose proof HRep as (((Hlo & _) & _) & _).
  pose proof (W_sizes _ _ _ (Rep_W _ _ _ HRep')) as Hs'.
  rewrite Ebs in Hs'. apply sizes_ok_mid in Hs'. destruct Hs' as (Hs1 & _).
  pose proof (total_nonneg _ Hs1).
  unfold NULL, first_hdr in *. lia.
Qed.

(** C5.  A successful extension by [words] words, in mm.c and in part_001
    alike.  The byte count is [words] rounded up to an even number, times
    the word size; the word at the old epilogue becomes the header of the
    new block, with that byte count as size, ALLOC = 0 and the PREV_ALLOC
    bit of the old epilogue; the last word of the new block is its footer;
    the word after it is the new epilogue (size 0, ALLOC = 1), which
    [heap_end] now names; and the function ends by calling the coalescer
    on the new block. *)
Theorem C5_extend_heap_layout (s : state Z) (t : state Seg.heads) (words : Z) :
  let bytes := WSIZE * (words + words mod 2) in
  can_extend s words -> can_extend t words ->
  (WSIZE * words <= bytes <= WSIZE * words + WSIZE /\ bytes mod 8 = 0) /\
  (Mm._extend_heap words s
   = Mm._merge_free_blocks (heap_end s + WSIZE) (extended_state s bytes) /\
   extension_written s bytes) /\
  (Seg._extend_heap words t
   = Seg._merge_free_blocks (heap_end t + WSIZE) (extended_state t bytes) /\
   extension_written t bytes).
Proof.
  intros bytes (Hw & Hs1 & Hs2 & Hs3 & Hs4 & Hs5)
         (_ & Ht1 & Ht2 & Ht3 & Ht4 & Ht5).
  pose proof (rounded_mod8 words) as Hm8. fold bytes in Hm8, Hs4, Hs5, Ht4, Ht5.
  pose proof (Z.mod_pos_bound words 2 ltac:(lia)) as Hb.
  assert (Hr : WSIZE * words <= bytes <= WSIZE * words + WSIZE)
    by (unfold bytes, WSIZE; lia).
  assert (H8 : 8 <= bytes).
  { pose proof (Z.div_mod bytes 8 ltac:(lia)) as Hd.
    unfold bytes, WSIZE in *. lia. }
  assert (E : Mm.extend_bytes words = bytes).
  { apply extend_bytes_rounded; [lia|].
    pose proof W32_lt_W64. unfold bytes, WSIZE in *. lia. }
  split; [split; assumption|].
  split; (split; [|apply extended_state_written; assumption]).
  - rewrite <- E. apply extend_run; rewrite ?E; unfold WSIZE in *; assumption.
  - rewrite <- E. apply Seg_extend_run; rewrite ?E; unfold WSIZE in *; assumption.
Qed.

Lemma C5_witness :
  (WSIZE * 5 <= 24 <= WSIZE * 5 + WSIZE /\ 24 mod 8 = 0) /\
  (Mm._extend_heap 5 fresh_state
   = Mm._merge_free_blocks (heap_end fresh_state + WSIZE)
                           (extended_state fresh_state 24) /\
   extension_written fresh_state 24) /\
  (Seg._extend_heap 5 seg_fresh_state
   = Seg._merge_free_blocks (heap_end seg_fresh_state + WSIZE)
                            (extended_state seg_fresh_state 24) /\
   extension_written seg_fresh_state 24).
Proof.
  apply (C5_extend_heap_layout fresh_state seg_fresh_state 5).
  - unfold can_extend. vm_compute. repeat split; discriminate.
  - unfold can_extend. vm_compute. repeat split; discriminate.
Defined.

(** ** Placement with a split *)

Lemma Rep_free_header (s : state Z) (bs : list block) (fl : list Z) (l1 l2 : list block)
      (n : Z) :
  Rep s bs fl -> bs = l1 ++ (n, Free) :: l2 ->
  let h := first_hdr s + total l1 in
  rd (mem s) h = hdr n (tail_pa true l1) false /\
  GET_SIZE (GET_HEADER (h + 4)) s = Done n s /\
  16 <= n /\ n mod 8 = 0 /\ n + 8 <= W32.
Proof.
  intros HRep -> h.
  pose proof (Rep_W _ _ _ HRep) as HW.
  pose proof (W_sizes _ _ _ HW) as Hs.
  pose proof (W_bounds _ _ _ HW) as (Ht0 & Htb & Ht32 & _).
  rewrite total_mid in Ht0, Htb, Ht32.
  apply sizes_ok_mid in Hs. destruct Hs as (Hs1 & [Hn Hn8] & Hs2).
  pose proof (total_nonneg _ Hs1). pose proof (total_nonneg _ Hs2).
  pose proof HW as (_ & Hb & _). apply blocks_mid in Hb.
  destruct Hb as (_ & _ & [Hhdr _] & _).
  split; [exact Hhdr|].
  split; [|repeat split; lia].
  rewrite GET_HEADER_hdr.
  eapply GET_SIZE_ok; [|exact Hhdr|exact Hn8|lia|lia].
  unfold inb, h, first_hdr. lia.
Qed.

Lemma in_heap_inb {F} (s : state F) (p : Z) : in_heap s p 4 = true -> inb s p.
Proof.
  unfold in_heap, inb. rewrite andb_true_iff, !Z.leb_le. tauto.
Qed.

Lemma chainb_chain {F} (s : state F) (l : list (Z * Z)) :
  forall head, chainb s head l = true -> chain s head l.
Proof.
  induction l as [|[q n] r IH]; intros head H; simpl in H.
  - apply Z.eqb_eq in H. exact H.
  - repeat (apply andb_true_iff in H; destruct H as [H ?]).
    cbn [chain]. repeat split.
    + apply Z.eqb_eq. assumption.
    + apply Z.eqb_neq. apply negb_true_iff. assumption.
    + apply in_heap_inb. assumption.
    + apply in_heap_inb. assumption.
    + apply in_heap_inb. assumption.
    + apply in_heap_inb. assumption.
    + apply Z.eqb_eq. assumption.
    + apply IH. assumption.
Qed.

Lemma class_chainsb_chains (s : state Seg.heads) (cls : list (list (Z * Z))) :
  forall i, class_chainsb s i cls = true -> class_chains s i cls.
Proof.
  induction cls as [|l r IH]; intros i H; simpl in H; [exact I|].
  apply andb_true_iff in H. destruct H as [H1 H2].
  split; [apply chainb_chain; exact H1|apply IH; exact H2].
Qed.

(** C7 as stated fails: 29 non-fitting blocks come before the first fit
    (48 bytes) and a single one after it; the search of mm.c returns at
    that block with the 48-byte block, while by the claim it would go on
    and find the 32-byte block. *)
Lemma C7_counterexample :
  let s := c7_state in
  completes (session zero_mem 1024 16384 c7_calls) = true /\
  chainb s (free_blks s) c7_list = true /\
  returns (Mm._allocate (heap_fuel s) 32 s) 1128 = true /\
  claimed_nfit_scan 32 c7_list NULL 0 0 0 = 1048.
Proof. vm_compute. repeat split. Qed.

Lemma chain_head {F} (s : state F) (p : Z) (l : list (Z * Z)) :
  chain s p l -> p = hd NULL (map fst l).
Proof. destruct l as [|[q n] r]; simpl; [tauto|]. intros (E & _). exact E. Qed.

(** The loop of mm.c over a prefix of the list that makes it return
    nowhere: it arrives at the rest with the counters and the best fit of
    the prefix. *)
Lemma allocate_loop_prefix (s : state Z) (size : Z) (l1 l2 : list (Z * Z)) :
  forall (fuel : nat) (head best bsz fit nfit f nf : Z),
    chain s head (l1 ++ l2) -> (length l1 <= fuel)%nat ->
    counters size l1 fit nfit = Some (f, nf) ->
    exists p,
      chain s p l2 /\
      Mm._allocate_loop fuel size head best bsz fit nfit s
      = Mm._allocate_loop (fuel - length l1) size p
                          (fst (pick best bsz (filter (fits size) l1)))
                          (snd (pick best bsz (filter (fits size) l1))) f nf s.
Proof.
  induction l1 as [|[q n] r IH]; intros fuel head best bsz fit nfit f nf Hc Hf Hcnt.
  - simpl in Hcnt. inversion Hcnt; subst. exists head. split; [exact Hc|].
    cbn [length filter pick fst snd]. rewrite Nat.sub_0_r. reflexivity.
  - cbn [app] in Hc. pose proof Hc as (-> & Hq & _ & _ & _ & Hc').
    destruct fuel as [|fuel]; [simpl in Hf; lia|].
    simpl in Hf. cbn [counters] in Hcnt. rewrite filter_fits_cons.
    cbn [length Nat.sub Mm._allocate_loop].
    replace (q =? NULL) with false by (symmetry; apply Z.eqb_neq; exact Hq).
    rewrite (bind_rw _ _ _ _ _ (chain_size _ _ _ _ Hc)).
    destruct (size <=? n).
    + cbv zeta. destruct (fit + 1 =? Mm.MAX_FIT); [discriminate|].
      rewrite (bind_rw _ _ _ _ _ (chain_next _ _ _ _ Hc)).
      destruct (IH fuel _ (if (best =? NULL) || (n <? bsz) then q else best)
                   (if (best =? NULL) || (n <? bsz) then n else bsz)
                   _ _ f nf Hc' ltac:(lia) Hcnt) as (p & Hp & E).
      exists p. split; [exact Hp|]. rewrite E. cbn [pick].
      destruct ((best =? NULL) || (n <? bsz)); reflexivity.
    + cbv zeta.
      destruct ((Mm.MAX_NFIT <? nfit + 1) && negb (fit =? 0)); [discriminate|].
      rewrite (bind_rw _ _ _ _ _ (chain_next _ _ _ _ Hc)).
      destruct (IH fuel _ best bsz _ _ f nf Hc' ltac:(lia) Hcnt) as (p & Hp & E).
      exists p. split; [exact Hp|]. exact E.
Qed.

(** C7, amended.  Let the search of mm.c have walked the blocks [l1]
    without returning, having seen [f] fitting and [nf] non-fitting
    blocks in all, before or after the first fit alike, and let the next
    block [q] not fit.  The bound [MAX_NFIT] is 28.  If a fit has been
    found and [nf >= 28], so that [q] is at least the 29th non-fitting
    block, [_allocate] returns the best fit so far; otherwise it goes on:
    it is the loop of the code entered at the block after [q] (NULL when
    [q] is the last), with the best fit unchanged, [f] fits and [nf + 1]
    non-fitting blocks counted. *)
Theorem C7_nfit_rule (s : state Z) (fuel : nat) (size : Z)
        (l1 l2 : list (Z * Z)) (q n f nf : Z) :
  chain s (free_blks s) (l1 ++ (q, n) :: l2) ->
  (length (l1 ++ (q, n) :: l2) <= fuel)%nat ->
  counters size l1 0 0 = Some (f, nf) -> n < size ->
  Mm.MAX_NFIT = 28 /\ Mm.MAX_FIT = 6 /\
  f = count_fit size l1 /\ nf = count_nfit size l1 /\
  (0 < f -> 28 <= nf ->
   Mm._allocate fuel size s = Done (best_of (filter (fits size) l1)) s) /\
  (f = 0 \/ nf < 28 ->
   Mm._allocate fuel size s
   = Mm._allocate_loop (fuel - S (length l1)) size (hd NULL (map fst l2))
                       (fst (pick NULL 0 (filter (fits size) l1)))
                       (snd (pick NULL 0 (filter (fits size) l1)))
                       f (nf + 1) s).
Proof.
  intros Hc Hf Hcnt Hn.
  destruct (counters_count size l1 0 0 f nf Hcnt) as [Ef Enf].
  split; [reflexivity|]. split; [reflexivity|].
  split; [lia|]. split; [lia|].
  rewrite length_app in Hf. cbn [length] in Hf.
  destruct (allocate_loop_prefix s size l1 ((q, n) :: l2) fuel (free_blks s)
              NULL 0 0 0 f nf Hc ltac:(lia) Hcnt) as (p & Hp & E).
  pose proof Hp as (-> & Hq & _ & _ & _ & Hp').
  assert (Erun : Mm._allocate fuel size s
                 = Mm._allocate_loop (S (fuel - S (length l1))) size q
                     (fst (pick NULL 0 (filter (fits size) l1)))
                     (snd (pick NULL 0 (filter (fits size) l1))) f nf s).
  { unfold Mm._allocate. rstep ltac:(reflexivity). rewrite E.
    f_equal. lia. }
  rewrite Erun. cbn [Mm._allocate_loop].
  replace (q =? NULL) with false by (symmetry; apply Z.eqb_neq; exact Hq).
  rewrite (bind_rw _ _ _ _ _ (chain_size _ _ _ _ Hp)).
  replace (size <=? n) with false by (symmetry; apply Z.leb_gt; exact Hn).
  cbv zeta. change Mm.MAX_NFIT with 28.
  split.
  - intros Hfpos Hnf.
    replace (28 <? nf + 1) with true by (symmetry; apply Z.ltb_lt; lia).
    replace (f =? 0) with false by (symmetry; apply Z.eqb_neq; lia).
    reflexivity.
  - intros Hcase.
    replace ((28 <? nf + 1) && negb (f =? 0)) with false.
    + rewrite (bind_rw _ _ _ _ _ (chain_next _ _ _ _ Hp)).
      rewrite (chain_head _ _ _ Hp'). reflexivity.
    + symmetry. destruct Hcase as [-> | Hlt]; [apply andb_false_r|].
      replace (28 <? nf + 1) with false by (symmetry; apply Z.ltb_ge; lia).
      reflexivity.
Qed.

Lemma C7_witness :
  (let l1 := run_down 29 2088 16 ++ [(1128, 48)] in
   Mm.MAX_NFIT = 28 /\ Mm.MAX_FIT = 6 /\
   1 = count_fit 32 l1 /\ 29 = count_nfit 32 l1 /\
   (0 < 1 -> 28 <= 29 ->
    Mm._allocate (heap_fuel c7_state) 32 c7_state
    = Done (best_of (filter (fits 32) l1)) c7_state) /\
   (1 = 0 \/ 29 < 28 ->
    Mm._allocate (heap_fuel c7_state) 32 c7_state
    = Mm._allocate_loop (heap_fuel c7_state - S (length l1)) 32
                        (hd NULL (map fst [(1048, 32)]))
                        (fst (pick NULL 0 (filter (fits 32) l1)))
                        (snd (pick NULL 0 (filter (fits 32) l1)))
                        1 (29 + 1) c7_state)) /\
  (let l1 := run_down 5 2088 16 in
   let l2 := run_down 23 1896 16 ++ [(1128, 48); (1096, 16); (1048, 32)] in
   Mm.MAX_NFIT = 28 /\ Mm.MAX_FIT = 6 /\
   0 = count_fit 32 l1 /\ 5 = count_nfit 32 l1 /\
   (0 < 0 -> 28 <= 5 ->
    Mm._allocate (heap_fuel c7_state) 32 c7_state
    = Done (best_of (filter (fits 32) l1)) c7_state) /\
   (0 = 0 \/ 5 < 28 ->
    Mm._allocate (heap_fuel c7_state) 32 c7_state
    = Mm._allocate_loop (heap_fuel c7_state - S (length l1)) 32
                        (hd NULL (map fst l2))
                        (fst (pick NULL 0 (filter (fits 32) l1)))
                        (snd (pick NULL 0 (filter (fits 32) l1)))
                        0 (5 + 1) c7_state)).
Proof.
  split.
  - apply (C7_nfit_rule c7_state (heap_fuel c7_state) 32
             (run_down 29 2088 16 ++ [(1128, 48)]) [(1048, 32)] 1096 16 1 29).
    + apply chainb_chain. vm_compute. reflexivity.
    + apply Nat.leb_le. vm_compute. reflexivity.
    + vm_compute. reflexivity.
    + lia.
  - apply (C7_nfit_rule c7_state (heap_fuel c7_state) 32
             (run_down 5 2088 16)
             (run_down 23 1896 16 ++ [(1128, 48); (1096, 16); (1048, 32)])
             1928 16 0 5).
    + apply chainb_chain. vm_compute. reflexivity.
    + apply Nat.leb_le. vm_compute. reflexivity.
    + vm_compute. reflexivity.
    + lia.
Defined.

(** C2 as stated fails for the segregated program: with seven fitting
    blocks in the class, the seventh being the smallest, its search
    returns the seventh, which is not among the first six. *)
Lemma C2_counterexample :
  let s := c2_seg_state in
  finishes (seg_session zero_mem 1024 8192 c2_calls) = true /\
  Seg._get_level 16 = 0%nat /\
  class_chainsb s 0 c2_classes = true /\
  first_fit_class 16 c2_classes = c2_list /\
  returns (Seg._allocate (heap_fuel s) 16 s) 1048 = true /\
  best_of (firstn 6 (filter (fits 16) c2_list)) = 1320 /\
  existsb (fun b => fst b =? 1048) (firstn 6 (filter (fits 16) c2_list)) = false.
Proof. vm_compute. repeat split. Qed.

(** C2, amended.  The bound on the fitting blocks is 6 in mm.c and 42 in
    part_000 and in part_001.  Each search returns the smallest of the
    fitting blocks it takes into account, the earliest among equals, or
    null when there is none: mm.c the first 6 fitting blocks among those
    it examines before a stopping rule ends the walk, part_000 the first
    42 fitting blocks of the list, part_001 the first 42 fitting blocks of
    the first class, from the class of the request upwards, that has a
    fitting block. *)
Theorem C2_bounded_best_fit (sm sb : state Z) (ss : state Seg.heads)
        (fuel : nat) (size : Z) (lm lb : list (Z * Z)) (cls : list (list (Z * Z))) :
  chain sm (free_blks sm) lm -> (length lm <= fuel)%nat ->
  chain sb (free_blks sb) lb -> (length lb <= fuel)%nat ->
  class_chains ss (Seg._get_level size) cls ->
  length cls = (S Seg.max_level - Seg._get_level size)%nat ->
  Forall (fun l => (length l <= fuel)%nat) cls ->
  (Mm.MAX_FIT = 6 /\
   Mm._allocate fuel size sm
   = Done (best_of (firstn 6 (filter (fits size) (examined size lm 0 0)))) sm) /\
  Basic._allocate fuel size sb
  = Done (best_of (firstn 42 (filter (fits size) lb))) sb /\
  Seg._allocate fuel size ss
  = Done (best_of (firstn 42 (filter (fits size) (first_fit_class size cls)))) ss /\
  (forall l, Forall (fun b => fst b <> NULL) l -> l <> [] ->
             exists n, In (best_of l, n) l /\
                       forall q' n', In (q', n') l -> n <= n').
Proof.
  intros Hm Hfm Hb Hfb Hs Hlen Hfs.
  split; [split; [reflexivity|]|split; [|split]].
  - unfold Mm._allocate. rstep ltac:(reflexivity).
    rewrite (allocate_loop_scan sm size lm fuel _ NULL 0 0 0 Hm Hfm).
    rewrite scan_pick, examined_first_fits. reflexivity.
  - apply Basic_allocate_spec; assumption.
  - apply Seg_allocate_spec; assumption.
  - apply best_of_min.
Qed.

Lemma C2_witness :
  (Mm.MAX_FIT = 6 /\
   Mm._allocate (heap_fuel c2_mm_state) 16 c2_mm_state
   = Done (best_of (firstn 6 (filter (fits 16) (examined 16 c2_list 0 0))))
          c2_mm_state) /\
  Basic._allocate (heap_fuel c2_mm_state) 16 c2_basic_state
  = Done (best_of (firstn 42 (filter (fits 16) (c2_list ++ [(1368, 3776)]))))
         c2_basic_state /\
  Seg._allocate (heap_fuel c2_mm_state) 16 c2_seg_state
  = Done (best_of (firstn 42 (filter (fits 16) (first_fit_class 16 c2_classes))))
         c2_seg_state /\
  (forall l, Forall (fun b => fst b <> NULL) l -> l <> [] ->
             exists n, In (best_of l, n) l /\
                       forall q' n', In (q', n') l -> n <= n').
Proof.
  apply (C2_bounded_best_fit c2_mm_state c2_basic_state c2_seg_state
           (heap_fuel c2_mm_state) 16 c2_list (c2_list ++ [(1368, 3776)]) c2_classes).
  - apply chainb_chain. vm_compute. reflexivity.
  - apply Nat.leb_le. vm_compute. reflexivity.
  - apply chainb_chain. vm_compute. reflexivity.
  - apply Nat.leb_le. vm_compute. reflexivity.
  - apply class_chainsb_chains. vm_compute. reflexivity.
  - vm_compute. reflexivity.
  - apply Forall_forall. intros l Hl. apply Nat.leb_le.
    revert l Hl. apply Forall_forall.
    repeat (constructor; [vm_compute; reflexivity|]). constructor.
Defined.

(** * Further properties of mm.c *)

(** The size of a held block, read from its header. *)
Lemma held_size (s : state Z) (bs : list block) (fl : list Z) (L : list Z)
      (q qsz : Z) :
  Rep s bs fl -> Permutation L (alloc_ptrs (first_hdr s) bs) -> In q L ->
  GET_SIZE (GET_HEADER q) s = Done qsz s ->
  In (q, qsz) (alloc_blocks (first_hdr s) bs).
Proof.
  intros HRep HP Hin Hsz.
  destruct (held_block s bs L q HP Hin) as (psz & Hb).
  rewrite (Rep_GET_SIZE _ _ _ _ _ HRep Hb) in Hsz. inversion Hsz; subst.
  exact Hb.
Qed.

(** An allocated block that survives an operation keeps its size and, when
    the operation leaves its payload alone, its contents. *)
Lemma block_kept (s s' : state Z) (bs' : list block) (fl' : list Z)
      (q qsz : Z) :
  Rep s' bs' fl' ->
  In (q, qsz) (alloc_blocks (first_hdr s') bs') ->
  (forall y, q <= y < q + qsz - 4 -> mem s' y = mem s y) ->
  GET_SIZE (GET_HEADER q) s' = Done qsz s' /\
  forall i, 0 <= i < qsz - WSIZE ->
            byte_at (mem s') (q + i) = byte_at (mem s) (q + i).
Proof.
  intros HRep Hin Hfr. split; [eapply Rep_GET_SIZE; eassumption|].
  intros i Hi. unfold byte_at, WSIZE in *. rewrite Hfr by lia. reflexivity.
Qed.

Lemma fresh_not_held (a : Z) (bs bs' : list block) (L : list Z) (p cap : Z) :
  sizes_ok bs' ->
  Permutation L (alloc_ptrs a bs) ->
  Permutation (alloc_blocks a bs') ((p, cap) :: alloc_blocks a bs) ->
  ~ In p L.
Proof.
  intros Hs HP HP' Hin.
  pose proof (alloc_ptrs_NoDup a bs' Hs) as Hnd.
  rewrite alloc_ptrs_blocks in Hnd.
  eapply Permutation_NoDup in Hnd; [|apply Permutation_map; exact HP'].
  simpl in Hnd. inversion Hnd as [|? ? Hni _]; subst. apply Hni.
  rewrite <- alloc_ptrs_blocks. eapply Permutation_in; eassumption.
Qed.

(** X1.  [mm_init] on a fresh image.  With room for six words it returns
    0 and leaves an empty heap: the region has 24 bytes, the prologue
    block and the epilogue word are written, no block lies between them
    and the free list is empty.  Without that room it returns -1 and
    takes nothing from the provider. *)
Theorem X1_mm_init_empty_heap (m : memory) (lo max : Z) :
  0 < lo -> max - lo < W32 ->
  (lo + 24 <= max ->
   exists s,
     Mm.mm_init (boot m lo max) = Done 0 s /\
     reachable lo max s [] /\
     mem_brk s = lo + 24 /\ heap_ptr s = lo + 16 /\ heap_end s = lo + 20 /\
     free_blks s = NULL /\
     rd (mem s) (lo + 4) = PACK 16 1 /\ rd (mem s) (lo + 16) = PACK 16 1 /\
     rd (mem s) (lo + 20) = PACK 0 3 /\
     heap_walk (heap_fuel s) (mem s) (heap_ptr s + WSIZE) = Some []) /\
  (max < lo + 24 ->
   exists s,
     Mm.mm_init (boot m lo max) = Done (-1) s /\
     mem_brk s = lo /\ mem s = m).
Proof.
  intros Hlo H32. split.
  - intros Hroom.
    destruct (mm_init_spec (boot m lo max)) as (s & E & HRep & Hlo1 & Hmax1);
      simpl; trivial.
    exists s. split; [exact E|].
    assert (Hr : reachable lo max s []) by (eapply R_init; eassumption).
    split; [exact Hr|].
    pose proof (Rep_heap_walk _ _ _ HRep) as Hwalk.
    rewrite <- (reachable_heap_ptr _ _ _ _ Hr) in Hwalk.
    revert E. unfold Mm.mm_init, WSIZE, ESIZE, DSIZE.
    assert (Hsbrk : mem_sbrk (6 * 4) (boot m lo max)
                    = Done lo (set_brk (boot m lo max) (lo + 24))).
    { unfold mem_sbrk, boot. norm.
      replace (lo + 6 * 4 <=? max) with true by (symmetry; apply Z.leb_le; lia).
      reflexivity. }
    rstep ltac:(exact Hsbrk).
    rstep ltac:(reflexivity).
    replace (lo =? SBRK_FAIL) with false
      by (symmetry; apply Z.eqb_neq; unfold SBRK_FAIL; lia).
    do 6 rstep ltac:(apply WRITE_ok; unfold inb, boot; norm; lia).
    do 3 rstep ltac:(reflexivity).
    intros E. inversion E; subst s. norm.
    split; [reflexivity|]. split; [lia|]. split; [lia|].
    split; [reflexivity|].
    split; [|split; [|split]].
    + rewrite !rd_wr_other by lia.
      replace (lo + 1 * 4) with (lo + 4) by lia.
      apply rd_wr_same_small. vm_compute. split; [discriminate|reflexivity].
    + rewrite rd_wr_other by lia.
      replace (lo + 4 * 4) with (lo + 16) by lia.
      apply rd_wr_same_small. vm_compute. split; [discriminate|reflexivity].
    + replace (lo + 5 * 4) with (lo + 20) by lia.
      apply rd_wr_same_small. vm_compute. split; [discriminate|reflexivity].
    + exact Hwalk.
  - intros Hsmall. unfold Mm.mm_init, WSIZE, bind, mem_sbrk, boot. norm.
    replace (lo + 6 * 4 <=? max) with false by (symmetry; apply Z.leb_gt; lia).
    rewrite andb_false_r. simpl. eexists. split; [reflexivity|].
    split; reflexivity.
Qed.

Lemma X1_witness :
  (exists s,
     Mm.mm_init (boot zero_mem 1024 8192) = Done 0 s /\
     reachable 1024 8192 s [] /\
     mem_brk s = 1024 + 24 /\ heap_ptr s = 1024 + 16 /\ heap_end s = 1024 + 20 /\
     free_blks s = NULL /\
     rd (mem s) (1024 + 4) = PACK 16 1 /\ rd (mem s) (1024 + 16) = PACK 16 1 /\
     rd (mem s) (1024 + 20) = PACK 0 3 /\
     heap_walk (heap_fuel s) (mem s) (heap_ptr s + WSIZE) = Some []) /\
  (exists s,
     Mm.mm_init (boot zero_mem 1024 1040) = Done (-1) s /\
     mem_brk s = 1024 /\ mem s = zero_mem).
Proof.
  split.
  - apply (X1_mm_init_empty_heap zero_mem 1024 8192); [lia|unfold W32; lia|lia].
  - apply (X1_mm_init_empty_heap zero_mem 1024 1040); [lia|unfold W32; lia|lia].
Defined.

(** X2.  [malloc] in a reachable state, for a request that the size
    adjustment does not wrap.  It returns: either NULL, with the state
    unchanged and the provider unable to supply the adjusted size; or a
    pointer the client did not hold, to a block with room for the request
    that overlaps no held block, every held block keeping its size and
    its payload bytes. *)
Theorem X2_malloc_fresh_block (lo max : Z) (s : state Z) (L : list Z)
        (fuel : nat) (n : Z) :
  reachable lo max s L -> (heap_fuel s <= fuel)%nat ->
  0 < n -> n + 11 < W64 ->
  exists p s',
    Mm.malloc fuel n s = Done p s' /\
    ((p = NULL /\ s' = s /\ mem_max s < mem_brk s + Mm.adjust n) \/
     (p <> NULL /\ ~ In p L /\
      exists cap,
        GET_SIZE (GET_HEADER p) s' = Done cap s' /\ n <= cap - WSIZE /\
        forall q qsz,
          In q L -> GET_SIZE (GET_HEADER q) s = Done qsz s ->
          GET_SIZE (GET_HEADER q) s' = Done qsz s' /\
          (p + cap <= q \/ q + qsz <= p) /\
          forall i, 0 <= i < qsz - WSIZE ->
                    byte_at (mem s') (q + i) = byte_at (mem s) (q + i))).
Proof.
  intros Hr Hf Hn Hn11.
  destruct (reachable_inv _ _ _ _ Hr) as (bs & fl & HRep & HP & _).
  pose proof (W_fuel _ _ _ (Rep_W _ _ _ HRep)) as Hfl.
  destruct (malloc_spec s bs fl fuel n HRep ltac:(lia) ltac:(lia))
    as (p & s' & E & [H|Hal]).
  - exists p, s'. split; [exact E|left; exact H].
  - exists p, s'. split; [exact E|right].
    destruct Hal as (Hp & bs' & fl' & cap & HRep' & Hlo' & Hmax' & Hcap & HP' & Hfr).
    assert (Efh : first_hdr s' = first_hdr s) by (unfold first_hdr; lia).
    pose proof (W_sizes _ _ _ (Rep_W _ _ _ HRep')) as Hs'.
    assert (Hpin : In (p, cap) (alloc_blocks (first_hdr s') bs')).
    { rewrite Efh. eapply Permutation_in; [apply Permutation_sym; exact HP'|].
      left. reflexivity. }
    split; [exact Hp|].
    split; [eapply fresh_not_held; eassumption|].
    exists cap. split; [eapply Rep_GET_SIZE; eassumption|].
    destruct (adjust_facts n ltac:(lia)) as (_ & _ & _ & Hadj).
    specialize (Hadj Hn11). split; [unfold WSIZE; lia|].
    intros q qsz Hq Hqsz.
    pose proof (held_size _ _ _ _ _ _ HRep HP Hq Hqsz) as Hqin.
    assert (Hqin' : In (q, qsz) (alloc_blocks (first_hdr s') bs')).
    { rewrite Efh. eapply Permutation_in; [apply Permutation_sym; exact HP'|].
      right. exact Hqin. }
    destruct (block_kept s s' bs' fl' q qsz HRep' Hqin') as (Hsz' & Hbytes).
    { intros y Hy. apply Hfr. apply in_payload_iff. eauto. }
    split; [exact Hsz'|]. split; [|exact Hbytes].
    destruct (alloc_blocks_disjoint _ _ _ _ _ _ Hs' Hpin Hqin') as [->|Hd]; [|lia].
    exfalso. eapply fresh_not_held; eassumption.
Qed.

Lemma X2_witness :
  exists p s',
    Mm.malloc (heap_fuel c3_state) 100 c3_state = Done p s' /\
    ((p = NULL /\ s' = c3_state /\
      mem_max c3_state < mem_brk c3_state + Mm.adjust 100) \/
     (p <> NULL /\ ~ In p (held_of (session zero_mem 1024 8192 c3_calls)) /\
      exists cap,
        GET_SIZE (GET_HEADER p) s' = Done cap s' /\ 100 <= cap - WSIZE /\
        forall q qsz,
          In q (held_of (session zero_mem 1024 8192 c3_calls)) ->
          GET_SIZE (GET_HEADER q) c3_state = Done qsz c3_state ->
          GET_SIZE (GET_HEADER q) s' = Done qsz s' /\
          (p + cap <= q \/ q + qsz <= p) /\
          forall i, 0 <= i < qsz - WSIZE ->
                    byte_at (mem s') (q + i) = byte_at (mem c3_state) (q + i))).
Proof.
  apply (X2_malloc_fresh_block 1024 8192 c3_state
           (held_of (session zero_mem 1024 8192 c3_calls))
           (heap_fuel c3_state) 100).
  - apply session_reachable. vm_compute. reflexivity.
  - apply le_n.
  - lia.
  - unfold W64. lia.
Defined.

(** X3.  [free] of a held pointer in a reachable state returns, neither
    grows nor shrinks the region, and leaves every other held block its
    size and its payload bytes. *)
Theorem X3_free_keeps_other_blocks (lo max : Z) (s : state Z) (L L' : list Z)
        (p : Z) :
  reachable lo max s L -> Permutation L (p :: L') ->
  exists s',
    Mm.free p s = Done tt s' /\
    reachable lo max s' L' /\
    mem_brk s' = mem_brk s /\
    forall q qsz,
      In q L' -> GET_SIZE (GET_HEADER q) s = Done qsz s ->
      GET_SIZE (GET_HEADER q) s' = Done qsz s' /\
      forall i, 0 <= i < qsz - WSIZE ->
                byte_at (mem s') (q + i) = byte_at (mem s) (q + i).
Proof.
  intros Hr HPL.
  destruct (reachable_inv _ _ _ _ Hr) as (bs & fl & HRep & HP & _).
  assert (Hpin : In p L)
    by (eapply Permutation_in; [apply Permutation_sym; exact HPL|left; reflexivity]).
  destruct (held_block s bs L p HP Hpin) as (psz & Hb).
  destruct (free_spec s bs fl p psz HRep) as (s' & E & Hfreed).
  { apply alloc_blocks_at. exact Hb. }
  exists s'. split; [exact E|].
  split; [eapply R_free; eassumption|].
  destruct Hfreed as (bs' & fl' & HRep' & Hlo' & Hmax' & Hbrk' & HP' & Hfr).
  split; [exact Hbrk'|].
  assert (Efh : first_hdr s' = first_hdr s) by (unfold first_hdr; lia).
  pose proof (W_sizes _ _ _ (Rep_W _ _ _ HRep)) as Hs.
  intros q qsz Hq Hqsz.
  assert (HqL : In q L)
    by (eapply Permutation_in; [apply Permutation_sym; exact HPL|right; exact Hq]).
  pose proof (held_size _ _ _ _ _ _ HRep HP HqL Hqsz) as Hqin.
  assert (Hqp : q <> p).
  { intros ->.
    pose proof (alloc_ptrs_NoDup (first_hdr s) bs Hs) as Hnd.
    eapply Permutation_NoDup in Hnd; [|apply Permutation_sym; exact HP].
    eapply Permutation_NoDup in Hnd; [|exact HPL].
    inversion Hnd; subst. contradiction. }
  assert (Hqin' : In (q, qsz) (alloc_blocks (first_hdr s') bs')).
  { rewrite Efh.
    assert (H : In (q, qsz) ((p, psz) :: alloc_blocks (first_hdr s) bs'))
      by (eapply Permutation_in; [apply Permutation_sym; exact HP'|exact Hqin]).
    destruct H as [H|H]; [inversion H; congruence|exact H]. }
  apply (block_kept s s' bs' fl' q qsz HRep' Hqin').
  intros y Hy. apply Hfr. apply in_payload_iff. exists q, qsz.
  rewrite <- Efh. split; [exact Hqin'|exact Hy].
Qed.

Lemma X3_witness :
  exists s',
    Mm.free 1080 x3_state = Done tt s' /\
    reachable 1024 8192 s' [1096; 1048] /\
    mem_brk s' = mem_brk x3_state /\
    forall q qsz,
      In q [1096; 1048] -> GET_SIZE (GET_HEADER q) x3_state = Done qsz x3_state ->
      GET_SIZE (GET_HEADER q) s' = Done qsz s' /\
      forall i, 0 <= i < qsz - WSIZE ->
                byte_at (mem s') (q + i) = byte_at (mem x3_state) (q + i).
Proof.
  apply (X3_free_keeps_other_blocks 1024 8192 x3_state
           (held_of (session zero_mem 1024 8192 x3_calls)) [1096; 1048] 1080).
  - apply session_reachable. vm_compute. reflexivity.
  - vm_compute held_of. apply perm_swap.
Defined.

(** ** [realloc] and [calloc] of mm.c and the other blocks *)

(** [realloc] of a live block to a nonzero size, with what happens to the
    blocks it is not about. *)
Lemma realloc_spec_frame (s : state Z) (bs : list block) (fl : list Z)
      (fuel : nat) (p psz n : Z) :
  Rep s bs fl -> In (p, psz) (alloc_blocks (first_hdr s) bs) ->
  (length fl <= fuel)%nat -> 0 < n < W64 ->
  (Mm.realloc fuel p n s = Fault /\ mem_max s < mem_brk s + Mm.adjust n) \/
  exists q s' bs' fl' cap,
    Mm.realloc fuel p n s = Done q s' /\
    Rep s' bs' fl' /\ first_hdr s' = first_hdr s /\
    ~ In q (alloc_ptrs (first_hdr s) bs) /\
    Permutation ((p, psz) :: alloc_blocks (first_hdr s) bs')
                ((q, cap) :: alloc_blocks (first_hdr s) bs) /\
    forall r rsz, In (r, rsz) (alloc_blocks (first_hdr s) bs) -> r <> p ->
                  forall y, r <= y < r + rsz - 4 -> mem s' y = mem s y.
Proof.
  intros HRep Hin Hfuel Hn.
  pose proof W32_lt_W64 as HW.
  destruct (Rep_alloc_header _ _ _ _ _ HRep Hin)
    as (Hpb & Hpbrk & Hplo & Hp16 & Hp8 & Hp32 & _).
  pose proof HRep as (((Hlo & _) & _) & _).
  unfold Mm.realloc.
  replace (n =? 0) with false by (symmetry; apply Z.eqb_neq; lia).
  replace (p =? NULL) with false by (symmetry; apply Z.eqb_neq; unfold NULL; lia).
  destruct (malloc_spec s bs fl fuel n HRep Hfuel Hn)
    as (q & s1 & Hrun1 & [(-> & -> & Hoom)|Hal]).
  - left. split; [|exact Hoom].
    rstep ltac:(exact Hrun1).
    rstep ltac:(eapply Rep_GET_SIZE; eassumption).
    unfold GET_HEADER, GET_SIZE, READ, NULL, WSIZE, bind, in_heap.
    replace (mem_lo s <=? 0 - 4) with false by (symmetry; apply Z.leb_gt; lia).
    reflexivity.
  - right. destruct Hal as (Hq & bs1 & fl1 & cap & HRep1 & Hlo1 & Hmax1 & Hcap
                            & HP1 & Hfr1).
    assert (Efh : first_hdr s1 = first_hdr s) by (unfold first_hdr; lia).
    pose proof (W_sizes _ _ _ (Rep_W _ _ _ HRep1)) as Hs1.
    assert (Hfresh : ~ In q (alloc_ptrs (first_hdr s) bs))
      by (eapply fresh_not_held; [exact Hs1|reflexivity|exact HP1]).
    rewrite <- Efh in HP1.
    assert (Hin1 : In (p, psz) (alloc_blocks (first_hdr s1) bs1)).
    { eapply Permutation_in; [apply Permutation_sym; exact HP1|].
      right. rewrite Efh. exact Hin. }
    assert (Hqin1 : In (q, cap) (alloc_blocks (first_hdr s1) bs1)).
    { eapply Permutation_in; [apply Permutation_sym; exact HP1|]. left. reflexivity. }
    destruct (Rep_alloc_header _ _ _ _ _ HRep1 Hqin1)
      as (Hqb & Hqbrk & Hqlo & Hq16 & Hq8 & Hq32 & _).
    destruct (Rep_alloc_header _ _ _ _ _ HRep1 Hin1) as (_ & Hpbrk1 & _).
    rstep ltac:(exact Hrun1).
    rstep ltac:(eapply Rep_GET_SIZE; eassumption).
    rstep ltac:(eapply Rep_GET_SIZE; eassumption).
    rewrite copy_length_eq by lia.
    set (len := Z.min (psz - 4) (cap - 4)).
    assert (Hlen : 12 <= len /\ len <= psz - 4 /\ len <= cap - 4) by (unfold len; lia).
    set (m2 := copy_bytes (Z.to_nat len) (mem s1) q p).
    assert (Hcpy : memcpy q p len s1 = Done tt (set_mem s1 m2)).
    { unfold memcpy.
      replace (len =? 0) with false by (symmetry; apply Z.eqb_neq; lia).
      rewrite !in_heap_true by lia. reflexivity. }
    rstep ltac:(exact Hcpy).
    assert (HRep2 : Rep (set_mem s1 m2) bs1 fl1).
    { apply Rep_payload_change; [exact HRep1|].
      intros y Hy. unfold m2. apply copy_bytes_other.
      rewrite Z2Nat.id by lia.
      destruct (Z_lt_dec y q); [left; assumption|].
      destruct (Z_le_dec (q + len) y); [right; assumption|].
      exfalso. apply Hy. apply in_payload_iff. exists q, cap.
      split; [exact Hqin1|lia]. }
    destruct (free_spec (set_mem s1 m2) bs1 fl1 p psz HRep2) as (s3 & Hrun3 & Hfreed).
    { apply alloc_blocks_at. exact Hin1. }
    rstep ltac:(exact Hrun3).
    destruct Hfreed as (bs3 & fl3 & HRep3 & Hlo3 & Hmax3 & _ & HP3 & Hfr3).
    norm. rewrite ?first_hdr_set_mem in *.
    exists q, s3, bs3, fl3, cap. split; [reflexivity|].
    split; [exact HRep3|].
    assert (Efh3 : first_hdr s3 = first_hdr s) by (unfold first_hdr in *; lia).
    split; [exact Efh3|].
    split; [exact Hfresh|].
    rewrite Efh in *.
    split; [eapply Permutation_trans; eassumption|].
    intros r rsz Hr Hrp y Hy.
    assert (Hr1 : In (r, rsz) (alloc_blocks (first_hdr s) bs1)).
    { eapply Permutation_in; [apply Permutation_sym; exact HP1|right; exact Hr]. }
    assert (Hr3 : In (r, rsz) (alloc_blocks (first_hdr s) bs3)).
    { assert (H : In (r, rsz) ((p, psz) :: alloc_blocks (first_hdr s) bs3))
        by (eapply Permutation_in; [apply Permutation_sym; exact HP3|exact Hr1]).
      destruct H as [E|H]; [inversion E; congruence|exact H]. }
    rewrite Hfr3 by (apply in_payload_iff; exists r, rsz; split; assumption).
    norm. unfold m2. rewrite copy_bytes_other.
    + apply Hfr1. apply in_payload_iff. exists r, rsz. split; assumption.
    + rewrite Z2Nat.id by lia.
      destruct (alloc_blocks_disjoint _ _ _ _ _ _ Hs1 Hr1 Hqin1) as [->|Hd]; [|lia].
      exfalso. apply Hfresh. rewrite alloc_ptrs_blocks.
      apply (in_map fst _ _ Hr).
Qed.

(** X4.  A [realloc] of a held pointer to a nonzero size, when it returns,
    hands out a pointer the client did not hold and leaves every other
    held block its size and its payload bytes. *)
Theorem X4_realloc_keeps_other_blocks (lo max : Z) (s : state Z)
        (L L' : list Z) (fuel : nat) (p n : Z) :
  reachable lo max s L -> Permutation L (p :: L') ->
  (heap_fuel s <= fuel)%nat -> 0 < n < W64 ->
  (Mm.realloc fuel p n s = Fault /\ mem_max s < mem_brk s + Mm.adjust n) \/
  exists q s',
    Mm.realloc fuel p n s = Done q s' /\
    reachable lo max s' (q :: L') /\ ~ In q L /\
    forall r rsz,
      In r L' -> GET_SIZE (GET_HEADER r) s = Done rsz s ->
      GET_SIZE (GET_HEADER r) s' = Done rsz s' /\
      forall i, 0 <= i < rsz - WSIZE ->
                byte_at (mem s') (r + i) = byte_at (mem s) (r + i).
Proof.
  intros Hr HPL Hf Hn.
  destruct (reachable_inv _ _ _ _ Hr) as (bs & fl & HRep & HP & _).
  assert (Hpin : In p L)
    by (eapply Permutation_in; [apply Permutation_sym; exact HPL|left; reflexivity]).
  destruct (held_block s bs L p HP Hpin) as (psz & Hb).
  pose proof (W_fuel _ _ _ (Rep_W _ _ _ HRep)) as Hfl.
  pose proof (W_sizes _ _ _ (Rep_W _ _ _ HRep)) as Hs.
  destruct (realloc_spec_frame s bs fl fuel p psz n HRep Hb ltac:(lia) Hn)
    as [H|(q & s' & bs' & fl' & cap & E & HRep' & Efh & Hfresh & HP' & Hfr)];
    [left; exact H|right].
  exists q, s'. split; [exact E|].
  split; [eapply R_realloc; eassumption|].
  split; [intros Hq; apply Hfresh; eapply Permutation_in; eassumption|].
  intros r rsz Hr' Hrsz.
  assert (HrL : In r L)
    by (eapply Permutation_in; [apply Permutation_sym; exact HPL|right; exact Hr']).
  pose proof (held_size _ _ _ _ _ _ HRep HP HrL Hrsz) as Hrin.
  assert (Hrp : r <> p).
  { intros ->.
    pose proof (alloc_ptrs_NoDup (first_hdr s) bs Hs) as Hnd.
    eapply Permutation_NoDup in Hnd; [|apply Permutation_sym; exact HP].
    eapply Permutation_NoDup in Hnd; [|exact HPL].
    inversion Hnd; subst. contradiction. }
  assert (Hrin' : In (r, rsz) (alloc_blocks (first_hdr s') bs')).
  { rewrite Efh.
    assert (H : In (r, rsz) ((p, psz) :: alloc_blocks (first_hdr s) bs')).
    { eapply Permutation_in; [apply Permutation_sym; exact HP'|].
      right. exact Hrin. }
    destruct H as [H|H]; [inversion H; congruence|exact H]. }
  apply (block_kept s s' bs' fl' r rsz HRep' Hrin').
  intros y Hy. eapply Hfr; eassumption.
Qed.

Lemma X4_witness :
  exists q s',
    Mm.realloc (heap_fuel x3_state) 1080 40 x3_state = Done q s' /\
    reachable 1024 8192 s' [q; 1096; 1048] /\
    ~ In q (held_of (session zero_mem 1024 8192 x3_calls)) /\
    forall r rsz,
      In r [1096; 1048] -> GET_SIZE (GET_HEADER r) x3_state = Done rsz x3_state ->
      GET_SIZE (GET_HEADER r) s' = Done rsz s' /\
      forall i, 0 <= i < rsz - WSIZE ->
                byte_at (mem s') (r + i) = byte_at (mem x3_state) (r + i).
Proof.
  destruct (X4_realloc_keeps_other_blocks 1024 8192 x3_state
              (held_of (session zero_mem 1024 8192 x3_calls)) [1096; 1048]
              (heap_fuel x3_state) 1080 40) as [(E & _)|H].
  - apply session_reachable. vm_compute. reflexivity.
  - vm_compute held_of. apply perm_swap.
  - apply le_n.
  - unfold W64. lia.
  - exfalso.
    assert (Hf : faults (Mm.realloc (heap_fuel x3_state) 1080 40 x3_state) = false)
      by (vm_compute; reflexivity).
    rewrite E in Hf. discriminate Hf.
  - exact H.
Defined.

(** X5.  [calloc] in a reachable state, for a product that is not 0 modulo
    [2^64] and that the size adjustment does not wrap.  It faults when the
    provider cannot supply the block (the fill is applied to the NULL that
    [malloc] returned); otherwise it returns a pointer the client did not
    hold, the first [bytes] bytes behind it are 0, and every held block
    keeps its size and its payload bytes. *)
Theorem X5_calloc_zeroes_block (lo max : Z) (s : state Z) (L : list Z)
        (fuel : nat) (nmemb size bytes : Z) :
  reachable lo max s L -> (heap_fuel s <= fuel)%nat ->
  bytes = (nmemb * size) mod W64 -> 0 < bytes -> bytes + 11 < W64 ->
  (Mm.calloc fuel nmemb size s = Fault /\
   mem_max s < mem_brk s + Mm.adjust bytes) \/
  exists q s',
    Mm.calloc fuel nmemb size s = Done q s' /\
    q <> NULL /\ ~ In q L /\
    (forall i, 0 <= i < bytes -> byte_at (mem s') (q + i) = 0) /\
    forall r rsz,
      In r L -> GET_SIZE (GET_HEADER r) s = Done rsz s ->
      GET_SIZE (GET_HEADER r) s' = Done rsz s' /\
      forall i, 0 <= i < rsz - WSIZE ->
                byte_at (mem s') (r + i) = byte_at (mem s) (r + i).
Proof.
  intros Hr Hf Eb Hb0 Hb11.
  destruct (reachable_inv _ _ _ _ Hr) as (bs & fl & HRep & HP & _).
  pose proof (W_fuel _ _ _ (Rep_W _ _ _ HRep)) as Hfl.
  pose proof HRep as (((Hlo & _) & _) & _).
  unfold Mm.calloc. rewrite <- Eb.
  destruct (malloc_spec s bs fl fuel bytes HRep ltac:(lia) ltac:(lia))
    as (q & s1 & Hrun1 & [(-> & -> & Hoom)|Hal]).
  - left. split; [|exact Hoom]. rstep ltac:(exact Hrun1).
    unfold memset, bind, in_heap, NULL.
    replace (bytes =? 0) with false by (symmetry; apply Z.eqb_neq; lia).
    replace (mem_lo s <=? 0) with false by (symmetry; apply Z.leb_gt; lia).
    reflexivity.
  - right.
    destruct Hal as (Hq & bs1 & fl1 & cap & HRep1 & Hlo1 & Hmax1 & Hcap
                     & HP1 & Hfr1).
    assert (Efh : first_hdr s1 = first_hdr s) by (unfold first_hdr; lia).
    pose proof (W_sizes _ _ _ (Rep_W _ _ _ HRep1)) as Hs1.
    assert (Hfresh : ~ In q L) by (eapply fresh_not_held; eassumption).
    rewrite <- Efh in HP1.
    assert (Hqin1 : In (q, cap) (alloc_blocks (first_hdr s1) bs1)).
    { eapply Permutation_in; [apply Permutation_sym; exact HP1|]. left. reflexivity. }
    destruct (Rep_alloc_header _ _ _ _ _ HRep1 Hqin1)
      as (Hqb & Hqbrk & Hqlo & Hq16 & Hq8 & Hq32 & _).
    destruct (adjust_facts bytes ltac:(lia)) as (_ & _ & _ & Hadj).
    specialize (Hadj Hb11).
    rstep ltac:(exact Hrun1).
    set (m2 := fill_bytes (Z.to_nat bytes) (mem s1) q 0).
    assert (Hset : memset q 0 bytes s1 = Done tt (set_mem s1 m2)).
    { unfold memset.
      replace (bytes =? 0) with false by (symmetry; apply Z.eqb_neq; lia).
      rewrite in_heap_true by lia. reflexivity. }
    rstep ltac:(exact Hset).
    eexists _, _. split; [reflexivity|].
    split; [exact Hq|]. split; [exact Hfresh|].
    assert (HRep2 : Rep (set_mem s1 m2) bs1 fl1).
    { apply Rep_payload_change; [exact HRep1|].
      intros y Hy. unfold m2. apply fill_bytes_other.
      rewrite Z2Nat.id by lia.
      destruct (Z_lt_dec y q); [left; assumption|].
      destruct (Z_le_dec (q + bytes) y); [right; assumption|].
      exfalso. apply Hy. apply in_payload_iff. exists q, cap.
      split; [exact Hqin1|lia]. }
    split.
    + intros i Hi. unfold byte_at, m2. norm.
      rewrite fill_bytes_at by (rewrite Z2Nat.id by lia; lia). reflexivity.
    + intros r rsz Hr' Hrsz.
      pose proof (held_size _ _ _ _ _ _ HRep HP Hr' Hrsz) as Hrin.
      assert (Hrin1 : In (r, rsz) (alloc_blocks (first_hdr s1) bs1)).
      { eapply Permutation_in; [apply Permutation_sym; exact HP1|].
        right. rewrite Efh. exact Hrin. }
      apply (block_kept s (set_mem s1 m2) bs1 fl1 r rsz HRep2 Hrin1).
      intros y Hy. norm. unfold m2. rewrite fill_bytes_other.
      * apply Hfr1. apply in_payload_iff. exists r, rsz. split; assumption.
      * rewrite Z2Nat.id by lia.
        destruct (alloc_blocks_disjoint _ _ _ _ _ _ Hs1 Hrin1 Hqin1) as [->|Hd];
          [|lia].
        exfalso. exact (Hfresh Hr').
Qed.

Lemma X5_witness :
  exists q s',
    Mm.calloc (heap_fuel x5_state) 3 7 x5_state = Done q s' /\
    q <> NULL /\ ~ In q (held_of (session zero_mem 1024 8192 x5_calls)) /\
    (forall i, 0 <= i < 21 -> byte_at (mem s') (q + i) = 0) /\
    forall r rsz,
      In r (held_of (session zero_mem 1024 8192 x5_calls)) ->
      GET_SIZE (GET_HEADER r) x5_state = Done rsz x5_state ->
      GET_SIZE (GET_HEADER r) s' = Done rsz s' /\
      forall i, 0 <= i < rsz - WSIZE ->
                byte_at (mem s') (r + i) = byte_at (mem x5_state) (r + i).
Proof.
  destruct (X5_calloc_zeroes_block 1024 8192 x5_state
              (held_of (session zero_mem 1024 8192 x5_calls))
              (heap_fuel x5_state) 3 7 21) as [(E & _)|H].
  - apply session_reachable. vm_compute. reflexivity.
  - apply le_n.
  - reflexivity.
  - lia.
  - unfold W64. lia.
  - exfalso.
    assert (Hf : faults (Mm.calloc (heap_fuel x5_state) 3 7 x5_state) = false)
      by (vm_compute; reflexivity).
    rewrite E in Hf. discriminate Hf.
  - exact H.
Defined.

(** ** The search of mm.c on the heap *)

Lemma scan_nonnull (size : Z) (l : list (Z * Z)) :
  Forall (fun b => fst b <> NULL) l ->
  forall best bsz fit nfit,
    best <> NULL -> scan size l best bsz fit nfit <> NULL.
Proof.
  induction 1 as [|[q n] r Hq Hr IH]; intros best bsz fit nfit Hb; simpl;
    [exact Hb|].
  simpl in Hq.
  destruct (size <=? n).
  - destruct (fit + 1 =? Mm.MAX_FIT).
    + destruct ((best =? NULL) || (n <? bsz)); assumption.
    + apply IH. destruct ((best =? NULL) || (n <? bsz)); assumption.
  - destruct ((Mm.MAX_NFIT <? nfit + 1) && negb (fit =? 0)); [exact Hb|].
    apply IH, Hb.
Qed.

Lemma scan_null (size : Z) (l : list (Z * Z)) :
  Forall (fun b => fst b <> NULL) l ->
  forall bsz nfit,
    scan size l NULL bsz 0 nfit = NULL ->
    forall q n, In (q, n) l -> n < size.
Proof.
  induction 1 as [|[q n] r Hq Hr IH]; intros bsz nfit E q' n' Hin;
    [contradiction|].
  simpl in Hq, E.
  destruct (Z.leb_spec size n) as [Hfit|Hno].
  - exfalso. exact (scan_nonnull size r Hr q n 1 nfit Hq E).
  - change (negb (0 =? 0)) with false in E. rewrite andb_false_r in E.
    destruct Hin as [Hin|Hin]; [inversion Hin; subst; exact Hno|].
    eapply IH; eassumption.
Qed.

Lemma block_at_fun (a : Z) (bs : list block) (p n n' : Z) (t t' : status) :
  sizes_ok bs -> block_at a bs p n t -> block_at a bs p n' t' ->
  n = n' /\ t = t'.
Proof.
  revert a; induction bs as [|[sz st] r IH]; intros a Hs H1 H2.
  - destruct H1 as (l1 & l2 & E & _). destruct l1; discriminate.
  - apply sizes_ok_cons in Hs. destruct Hs as [[Hsz _] Hs].
    assert (Hcase : forall m u, block_at a ((sz, st) :: r) p m u ->
                                (p = a + 4 /\ m = sz /\ u = st) \/
                                (a + sz + 4 <= p /\ block_at (a + sz) r p m u)).
    { intros m u (l1 & l2 & E & Ep). destruct l1 as [|b l1]; simpl in E.
      - inversion E; subst. left. simpl. repeat split; lia.
      - inversion E; subst. right.
        assert (Hs1 : sizes_ok l1)
          by (apply sizes_ok_app in Hs; tauto).
        pose proof (total_nonneg _ Hs1). simpl. split; [lia|].
        exists l1, l2. split; [reflexivity|lia]. }
    destruct (Hcase _ _ H1) as [(E1 & -> & ->)|(G1 & B1)],
             (Hcase _ _ H2) as [(E2 & -> & ->)|(G2 & B2)]; try lia.
    + split; reflexivity.
    + eapply IH; eassumption.
Qed.

(** X6.  [_allocate] in a reachable state reads the free list and changes
    nothing.  It returns NULL only when every block on the free list is
    smaller than the request; otherwise it returns the payload pointer of a
    block on the list that the client does not hold, whose header has
    ALLOC = 0 and a size that covers the request. *)
Theorem X6_allocate_finds_free_block (lo max : Z) (s : state Z) (L : list Z)
        (fuel : nat) (size : Z) :
  reachable lo max s L -> (heap_fuel s <= fuel)%nat ->
  exists r l,
    Mm._allocate fuel size s = Done r s /\
    chain s (free_blks s) l /\
    ((r = NULL /\ forall q n, In (q, n) l -> n < size) \/
     (r <> NULL /\ ~ In r L /\
      exists n, In (r, n) l /\ size <= n /\
                GET_SIZE (GET_HEADER r) s = Done n s /\
                GET_ALLOC (GET_HEADER r) s = Done 0 s)).
Proof.
  intros Hr Hf.
  destruct (reachable_inv _ _ _ _ Hr) as (bs & fl & HRep & HP & _).
  pose proof (Rep_W _ _ _ HRep) as HW.
  pose proof (W_fuel _ _ _ HW) as Hfl.
  pose proof (W_sizes _ _ _ HW) as Hs.
  pose proof (W_bounds _ _ _ HW) as (Ht0 & Htb & Ht32 & _).
  destruct (W_chain _ _ _ HW) as (l & Hc & Hm & Hl).
  pose proof (chain_nonnull s l _ Hc) as Hnn.
  exists (scan size l NULL 0 0 0), l. split; [|split; [exact Hc|]].
  - unfold Mm._allocate. rstep ltac:(reflexivity).
    apply allocate_loop_scan; [exact Hc|].
    rewrite <- Hm, length_map in Hfl. lia.
  - destruct (scan_result size l NULL 0 0 0) as [E|(n & Hin & Hle)].
    + left. split; [exact E|]. eapply scan_null; eassumption.
    + right.
      assert (Hne : scan size l NULL 0 0 0 <> NULL).
      { rewrite Forall_forall in Hnn. exact (Hnn _ Hin). }
      split; [exact Hne|].
      pose proof (Hl _ _ Hin) as Hat.
      split.
      * intros HinL. eapply Permutation_in in HinL; [|exact HP].
        destruct (block_at_alloc _ _ _ HinL) as (n2 & Hat2).
        destruct (block_at_fun _ _ _ _ _ _ _ Hs Hat Hat2) as [_ E].
        discriminate.
      * exists n. split; [exact Hin|]. split; [exact Hle|].
        destruct Hat as (l1 & l2 & Ebs & Ep).
        destruct HW as (_ & Hb & _). rewrite Ebs in Hb, Hs, Ht0, Htb, Ht32.
        rewrite total_mid in Ht0, Htb, Ht32.
        apply sizes_ok_mid in Hs. destruct Hs as (Hs1 & [Hn Hn8] & Hs2).
        pose proof (total_nonneg _ Hs1). pose proof (total_nonneg _ Hs2).
        apply blocks_mid in Hb. destruct Hb as (_ & _ & [Hhd _] & _).
        rewrite Ep, GET_HEADER_hdr.
        assert (Hb' : inb s (first_hdr s + total l1))
          by (unfold inb, first_hdr; lia).
        split.
        -- eapply GET_SIZE_ok; [exact Hb'|exact Hhd|exact Hn8|lia|lia].
        -- change 0 with (bit_al false).
           eapply GET_ALLOC_ok; [exact Hb'|exact Hhd|exact Hn8].
Qed.

Lemma X6_witness :
  exists r l,
    Mm._allocate (heap_fuel c3_state) 40 c3_state = Done r c3_state /\
    chain c3_state (free_blks c3_state) l /\
    ((r = NULL /\ forall q n, In (q, n) l -> n < 40) \/
     (r <> NULL /\ ~ In r (held_of (session zero_mem 1024 8192 c3_calls)) /\
      exists n, In (r, n) l /\ 40 <= n /\
                GET_SIZE (GET_HEADER r) c3_state = Done n c3_state /\
                GET_ALLOC (GET_HEADER r) c3_state = Done 0 c3_state)).
Proof.
  apply (X6_allocate_finds_free_block 1024 8192 c3_state
           (held_of (session zero_mem 1024 8192 c3_calls)) (heap_fuel c3_state) 40).
  - apply session_reachable. vm_compute. reflexivity.
  - apply le_n.
Defined.

Lemma chain_list_walk {F} (s : state F) (l : list (Z * Z)) :
  forall (fuel : nat) (head : Z),
    chain s head l -> (length l <= fuel)%nat ->
    list_walk fuel (mem s) (heap_ptr s) head = Some (map fst l).
Proof.
  induction l as [|[q n] r IH]; intros fuel head Hc Hf.
  - simpl in Hc. subst head. destruct fuel; reflexivity.
  - destruct Hc as (-> & Hq & _ & _ & _ & Hc).
    destruct fuel as [|k]; [simpl in Hf; lia|].
    cbn [list_walk].
    replace (q =? NULL) with false by (symmetry; apply Z.eqb_neq; exact Hq).
    rewrite (IH k _ Hc) by (simpl in Hf; lia). reflexivity.
Qed.

Lemma free_of_view (bs : list block) :
  forall a, no_limbo bs -> free_of a (map view bs) = free_ptrs a bs.
Proof.
  induction bs as [|[sz t] r IH]; intros a Hnl; [reflexivity|].
  apply no_limbo_cons in Hnl. destruct Hnl as [Ht Hnl].
  cbn [map view free_of free_ptrs fst snd]. rewrite (IH _ Hnl).
  destruct Ht as [-> | ->]; reflexivity.
Qed.

Lemma dllseg_back_links (s : state Z) (l : list Z) :
  forall prev next,
    dllseg (mem s) (heap_ptr s) prev l next ->
    prev = 0 \/ node_ok s prev -> Forall (node_ok s) l ->
    back_links (mem s) (heap_ptr s) prev l = true.
Proof.
  induction l as [|q r IH]; intros prev next Hd Hp Hall; [reflexivity|].
  destruct Hd as (Hq & _ & Hd). inversion Hall as [|? ? Hqn Hr]; subst.
  cbn [back_links]. rewrite Hq, (dec_enc_node s prev Hp), Z.eqb_refl.
  apply (IH q next Hd); [right; exact Hqn|exact Hr].
Qed.

Lemma blocks_count (bs : list block) :
  sizes_ok bs -> 16 * Z.of_nat (length bs) <= total bs.
Proof.
  induction bs as [|[sz t] r IH]; intros Hs; [simpl; lia|].
  apply sizes_ok_cons in Hs. destruct Hs as [[? ?] Hs]. specialize (IH Hs).
  cbn [total length]. lia.
Qed.

Lemma heap_check_blocks (m : memory) (brk : Z) (bs : list block) :
  forall (a : Z) (pa : bool) (fuel : nat),
    blocks m a pa bs -> no_limbo bs -> naf pa bs -> total bs + 8 <= W32 ->
    rd m (a + total bs) = hdr 0 (tail_pa pa bs) true ->
    a + total bs + 4 = brk -> (length bs <= fuel)%nat ->
    heap_check fuel m a (bit_pa pa) brk = true.
Proof.
  induction bs as [|[sz t] r IH]; intros a pa fuel Hb Hnl Hnaf H32 Hep Hbrk Hf.
  - cbn [total tail_pa] in Hep, Hbrk. rewrite Z.add_0_r in Hep, Hbrk.
    assert (E : heap_check fuel m a (bit_pa pa) brk
                = (Z.land (rd m a) 1 =? 1) && (Z.land (rd m a) 2 =? bit_pa pa)
                  && (a + 4 =? brk)).
    { destruct fuel; cbn [heap_check]; rewrite Hep;
        rewrite hdr_size by (try reflexivity; unfold W32; lia); reflexivity. }
    rewrite E, Hep, hdr_alloc, hdr_prealloc by reflexivity.
    replace (a + 4 =? brk) with true
      by (symmetry; apply Z.eqb_eq; exact Hbrk).
    rewrite !Z.eqb_refl. reflexivity.
  - destruct fuel as [|k]; [simpl in Hf; lia|].
    pose proof (blocks_sizes _ _ _ _ Hb) as Hs.
    apply sizes_ok_cons in Hs. destruct Hs as [[Hsz Hm8] Hs].
    pose proof (total_nonneg _ Hs) as Ht.
    apply no_limbo_cons in Hnl. destruct Hnl as [Ht' Hnl].
    destruct Hnaf as (Hpa & Hnaf).
    cbn [total tail_pa] in H32, Hep, Hbrk. cbn [blocks] in Hb.
    destruct Hb as (_ & Hh & Hb).
    assert (Hrec : heap_check k m (a + sz) (bit_pa (next_pa t)) brk = true).
    { apply IH; trivial; try lia.
      - rewrite <- Hep. f_equal. lia.
      - simpl in Hf. lia. }
    cbn [heap_check].
    destruct Ht' as [-> | ->].
    + rewrite Hh, hdr_size, hdr_alloc, hdr_prealloc by (trivial; lia).
      replace (sz =? 0) with false by (symmetry; apply Z.eqb_neq; lia).
      replace (16 <=? sz) with true by (symmetry; apply Z.leb_le; lia).
      rewrite Z.eqb_refl. cbn [bit_al]. change (1 =? 1) with true.
      cbn [orb andb]. exact Hrec.
    + destruct Hh as (Hh & Hft). specialize (Hpa eq_refl). subst pa.
      rewrite Hh, hdr_size, hdr_alloc, hdr_prealloc by (trivial; lia).
      replace (sz =? 0) with false by (symmetry; apply Z.eqb_neq; lia).
      replace (16 <=? sz) with true by (symmetry; apply Z.leb_le; lia).
      rewrite Hft, !Z.eqb_refl. cbn [bit_al bit_pa].
      change (0 =? 1) with false. change (2 =? 2) with true.
      cbn [orb andb]. exact Hrec.
Qed.

(** X7.  In every reachable state of mm.c the explicit free list is the
    set of free blocks of the heap: following the successor links from
    [free_blks] ends at NULL, visits no node twice, and visits exactly the
    payload pointers of the blocks whose header has ALLOC = 0 in the walk
    over the headers; each node's predecessor link names the node before
    it, and no node is a pointer the client holds. *)
Theorem X7_free_list_matches_heap (lo max : Z) (s : state Z) (L : list Z) :
  reachable lo max s L ->
  exists l w,
    list_walk (heap_fuel s) (mem s) (heap_ptr s) (free_blks s) = Some l /\
    heap_walk (heap_fuel s) (mem s) (heap_ptr s + WSIZE) = Some w /\
    Permutation l (free_of (heap_ptr s + WSIZE) w) /\
    NoDup l /\
    back_links (mem s) (heap_ptr s) NULL l = true /\
    forall q, In q l -> ~ In q L.
Proof.
  intros Hr.
  destruct (reachable_inv _ _ _ _ Hr) as (bs & fl & HRep & HP & _).
  pose proof HRep as (HW & _ & Hnl).
  pose proof (W_sizes _ _ _ HW) as Hs.
  pose proof (W_nodes _ _ _ HW) as (Hall & Hfar).
  pose proof (W_fuel _ _ _ HW) as Hfl.
  destruct (W_chain _ _ _ HW) as (l & Hc & Hm & _).
  pose proof HW as ((_ & Hhp & _) & _ & _ & Hd & _ & HPf).
  assert (Efh : heap_ptr s + WSIZE = first_hdr s)
    by (unfold first_hdr, WSIZE; lia).
  rewrite Efh.
  exists fl, (map view bs).
  split.
  { rewrite <- Hm. apply chain_list_walk; [exact Hc|].
    rewrite <- Hm, length_map in Hfl. exact Hfl. }
  split; [exact (Rep_heap_walk s bs fl HRep)|].
  split; [rewrite free_of_view by exact Hnl; exact HPf|].
  split; [apply far_apart_NoDup; exact Hfar|].
  split.
  { eapply dllseg_back_links; [exact Hd|left; reflexivity|exact Hall]. }
  intros q Hq HqL.
  eapply Permutation_in in Hq; [|exact HPf].
  eapply Permutation_in in HqL; [|exact HP].
  destruct (block_at_free _ _ _ Hq) as (n1 & H1).
  destruct (block_at_alloc _ _ _ HqL) as (n2 & H2).
  destruct (block_at_fun _ _ _ _ _ _ _ Hs H1 H2) as [_ E]. discriminate.
Qed.

Lemma X7_witness :
  exists l w,
    list_walk (heap_fuel x7_state) (mem x7_state) (heap_ptr x7_state)
              (free_blks x7_state) = Some l /\
    heap_walk (heap_fuel x7_state) (mem x7_state) (heap_ptr x7_state + WSIZE)
    = Some w /\
    Permutation l (free_of (heap_ptr x7_state + WSIZE) w) /\
    NoDup l /\
    back_links (mem x7_state) (heap_ptr x7_state) NULL l = true /\
    forall q, In q l ->
              ~ In q (held_of (session zero_mem 1024 8192 x7_calls)).
Proof.
  apply (X7_free_list_matches_heap 1024 8192).
  apply session_reachable. vm_compute. reflexivity.
Defined.

(** X8.  In every reachable state of mm.c the headers are consistent: from
    the first header to the break every block has a size of at least 16,
    its PREV_ALLOC bit is the ALLOC bit of the block before it (set for the
    first block), a free block follows an allocated one and carries its
    size in its last word, and the walk ends at the epilogue header, which
    has size 0, ALLOC set and lies in the last word of the heap. *)
Theorem X8_headers_consistent (lo max : Z) (s : state Z) (L : list Z) :
  reachable lo max s L ->
  heap_check (heap_fuel s) (mem s) (heap_ptr s + WSIZE) 2 (mem_brk s) = true.
Proof.
  intros Hr.
  destruct (reachable_inv _ _ _ _ Hr) as (bs & fl & HRep & _).
  pose proof HRep as (HW & Hnaf & Hnl).
  pose proof (W_sizes _ _ _ HW) as Hs.
  pose proof (W_bounds _ _ _ HW) as (Ht0 & Htb & Ht32 & _).
  pose proof HW as ((_ & Hhp & Hend & Hbrk & _) & Hb & Hep & _).
  pose proof (blocks_count _ Hs) as Hcnt.
  replace (heap_ptr s + WSIZE) with (first_hdr s)
    by (unfold first_hdr, WSIZE; lia).
  change 2 with (bit_pa true).
  eapply heap_check_blocks; try eassumption; try lia.
  - unfold first_hdr. rewrite <- Hend. exact Hep.
  - unfold first_hdr. lia.
  - unfold heap_fuel. lia.
Qed.

Lemma X8_witness :
  heap_check (heap_fuel x7_state) (mem x7_state) (heap_ptr x7_state + WSIZE) 2
             (mem_brk x7_state) = true.
Proof.
  apply (X8_headers_consistent 1024 8192 x7_state
           (held_of (session zero_mem 1024 8192 x7_calls))).
  apply session_reachable. vm_compute. reflexivity.
Defined.

Lemma bheld_size (s : state Z) (bs : list block) (fl : list Z) (L : list Z)
      (q qsz : Z) :
  BRep s bs fl -> Permutation L (alloc_ptrs (first_hdr s) bs) -> In q L ->
  GET_SIZE (GET_HEADER q) s = Done qsz s ->
  In (q, qsz) (alloc_blocks (first_hdr s) bs).
Proof.
  intros HRep HP Hin Hsz.
  destruct (held_block s bs L q HP Hin) as (psz & Hb).
  rewrite (BRep_GET_SIZE _ _ _ _ _ HRep Hb) in Hsz. inversion Hsz; subst.
  exact Hb.
Qed.

Lemma bblock_kept (s s' : state Z) (bs' : list block) (fl' : list Z)
      (q qsz : Z) :
  BRep s' bs' fl' ->
  In (q, qsz) (alloc_blocks (first_hdr s') bs') ->
  (forall y, q <= y < q + qsz - 8 -> mem s' y = mem s y) ->
  GET_SIZE (GET_HEADER q) s' = Done qsz s' /\
  forall i, 0 <= i < qsz - 2 * WSIZE ->
            byte_at (mem s') (q + i) = byte_at (mem s) (q + i).
Proof.
  intros HRep Hin Hfr. split; [eapply BRep_GET_SIZE; eassumption|].
  intros i Hi. unfold byte_at, WSIZE in *. rewrite Hfr by lia. reflexivity.
Qed.

Lemma in_cons_other (x y : Z * Z) (l : list (Z * Z)) :
  In x (y :: l) -> fst x <> fst y -> In x l.
Proof. intros [E|H] Hne; [subst; contradiction|exact H]. Qed.

Lemma perm_not_head (L L' : list Z) (p : Z) :
  NoDup L -> Permutation L (p :: L') -> ~ In p L'.
Proof.
  intros Hnd HP. eapply Permutation_NoDup in Hnd; [|exact HP].
  inversion Hnd; assumption.
Qed.

Lemma bblocks_heap_walk (m : memory) (bs : list block) :
  forall (a : Z) (fuel : nat),
    bblocks m a bs -> no_limbo bs -> total bs + 8 <= W32 ->
    Z.land (rd m (a + total bs)) MASK_SIZE = 0 ->
    (length bs <= fuel)%nat ->
    heap_walk fuel m a = Some (map view bs).
Proof.
  induction bs as [|[sz t] r IH]; intros a fuel Hb Hnl H32 Hep Hf.
  - simpl in Hep. rewrite Z.add_0_r in Hep.
    destruct fuel; simpl; rewrite Hep; reflexivity.
  - destruct fuel as [|k]; [simpl in Hf; lia|].
    pose proof (bblocks_sizes _ _ _ Hb) as Hs.
    apply sizes_ok_cons in Hs. destruct Hs as [[Hsz Hm8] Hs].
    pose proof (total_nonneg _ Hs) as Ht.
    apply no_limbo_cons in Hnl. destruct Hnl as [Ht' Hnl].
    cbn [total] in H32, Hep. cbn [bblocks] in Hb. destruct Hb as (_ & Hh & Hb).
    assert (Hw : rd m a = hdr sz false (is_alloc t))
      by (destruct Ht' as [-> | ->]; apply Hh).
    cbn [heap_walk]. rewrite Hw, hdr_size, hdr_alloc by (trivial; lia).
    replace (sz =? 0) with false by (symmetry; apply Z.eqb_neq; lia).
    rewrite (IH (a + sz) k); trivial; try lia.
    + cbn [map view fst snd]. destruct Ht' as [-> | ->]; reflexivity.
    + rewrite <- Hep. f_equal. f_equal. lia.
    + simpl in Hf. lia.
Qed.

Lemma BRep_heap_walk (s : state Z) (bs : list block) (fl : list Z) :
  BRep s bs fl ->
  heap_walk (heap_fuel s) (mem s) (first_hdr s) = Some (map view bs).
Proof.
  intros (HW & _ & Hnl).
  pose proof (BW_sizes _ _ _ HW) as Hs.
  pose proof (BW_bounds _ _ _ HW) as (_ & _ & Ht0 & Htb & Ht32 & _).
  pose proof HW as (_ & _ & Hb & Hep & _).
  pose proof (blocks_count _ Hs) as Hcnt.
  eapply bblocks_heap_walk; try eassumption; try lia.
  - rewrite Hep. apply hdr_size; [reflexivity|lia|unfold W32; lia].
  - unfold heap_fuel. lia.
Qed.

Lemma bheap_check_blocks (m : memory) (brk : Z) (bs : list block) :
  forall (a : Z) (pa : bool) (fuel : nat),
    bblocks m a bs -> no_limbo bs -> naf pa bs -> total bs + 8 <= W32 ->
    rd m (a + total bs) = hdr 0 false true ->
    a + total bs + 4 = brk -> (length bs <= fuel)%nat ->
    bheap_check fuel m a (bit_al pa) brk = true.
Proof.
  induction bs as [|[sz t] r IH]; intros a pa fuel Hb Hnl Hnaf H32 Hep Hbrk Hf.
  - cbn [total] in Hep, Hbrk. rewrite Z.add_0_r in Hep, Hbrk.
    assert (E : bheap_check fuel m a (bit_al pa) brk
                = (rd m a =? PACK 0 1) && (a + 4 =? brk)).
    { destruct fuel; cbn [bheap_check]; rewrite Hep; reflexivity. }
    rewrite E, Hep.
    replace (a + 4 =? brk) with true by (symmetry; apply Z.eqb_eq; exact Hbrk).
    reflexivity.
  - destruct fuel as [|k]; [simpl in Hf; lia|].
    pose proof (bblocks_sizes _ _ _ Hb) as Hs.
    apply sizes_ok_cons in Hs. destruct Hs as [[Hsz Hm8] Hs].
    pose proof (total_nonneg _ Hs) as Ht.
    apply no_limbo_cons in Hnl. destruct Hnl as [Ht' Hnl].
    destruct Hnaf as (Hpa & Hnaf).
    cbn [total] in H32, Hep, Hbrk. cbn [bblocks] in Hb.
    destruct Hb as (_ & Hh & Hb).
    assert (Hrec : bheap_check k m (a + sz) (bit_al (next_pa t)) brk = true).
    { apply IH; trivial; try lia.
      - rewrite <- Hep. f_equal. lia.
      - simpl in Hf. lia. }
    cbn [bheap_check].
    destruct Ht' as [-> | ->]; destruct Hh as (Hh & Hft); cbn [is_alloc] in *.
    + rewrite Hh, hdr_size, Hft, hdr_alloc, hdr_prealloc by (trivial; lia).
      replace (sz =? 0) with false by (symmetry; apply Z.eqb_neq; lia).
      replace (16 <=? sz) with true by (symmetry; apply Z.leb_le; lia).
      rewrite !Z.eqb_refl. cbn [bit_al bit_pa orb andb]. exact Hrec.
    + specialize (Hpa eq_refl). subst pa.
      rewrite Hh, hdr_size, Hft, hdr_alloc, hdr_prealloc by (trivial; lia).
      replace (sz =? 0) with false by (symmetry; apply Z.eqb_neq; lia).
      replace (16 <=? sz) with true by (symmetry; apply Z.leb_le; lia).
      rewrite !Z.eqb_refl. cbn [bit_al bit_pa]. change (0 =? 1) with false.
      cbn [orb andb]. exact Hrec.
Qed.

(** [mm_init] of part_000 with room for the first chunk: the heap is one
    free block of [CHUNKSIZE] bytes. *)
Lemma bmm_init_heap (s0 : state Z) :
  0 < mem_lo s0 -> mem_brk s0 = mem_lo s0 ->
  mem_lo s0 + 24 + 4096 <= mem_max s0 -> mem_max s0 - mem_lo s0 < W32 ->
  exists s fl, Basic.mm_init s0 = Done 0 s /\ BRep s [(4096, Free)] fl /\
               mem_lo s = mem_lo s0 /\ mem_max s = mem_max s0 /\
               mem_brk s = mem_lo s0 + 4120.
Proof.
  intros Hlo Hbrk Hmax H32.
  unfold Basic.mm_init, WSIZE, ESIZE, DSIZE.
  assert (Hsbrk : mem_sbrk (6 * 4) s0
                  = Done (mem_lo s0) (set_brk s0 (mem_lo s0 + 24))).
  { unfold mem_sbrk. rewrite Hbrk.
    replace (mem_lo s0 + 6 * 4 <=? mem_max s0) with true
      by (symmetry; apply Z.leb_le; lia).
    reflexivity. }
  rstep ltac:(exact Hsbrk).
  rstep ltac:(reflexivity).
  replace (mem_lo s0 =? SBRK_FAIL) with false
    by (symmetry; apply Z.eqb_neq; unfold SBRK_FAIL; lia).
  do 6 rstep ltac:(apply WRITE_ok; unfold inb; norm; lia).
  do 2 rstep ltac:(reflexivity).
  match goal with
  | |- context [bind (Basic._extend_heap _) _ ?st] => set (s1 := st)
  end.
  assert (HRep1 : BRep s1 [] []).
  { split; [|split; constructor].
    split; [|split; [|split; [|split; [|split; [|split]]]]];
      subst s1; norm; cbn [total].
    - unfold bscalars; norm. repeat split; lia.
    - replace (mem_lo s0 + 2 * 8) with (mem_lo s0 + 4 * 4) by lia.
      rewrite rd_wr_other by lia.
      rewrite rd_wr_same_small; [reflexivity|].
      unfold PACK, W32. simpl. lia.
    - exact I.
    - unfold first_hdr; norm.
      replace (mem_lo s0 + 20 + 0) with (mem_lo s0 + 5 * 4) by lia.
      rewrite rd_wr_same_small; [reflexivity|].
      unfold PACK, W32. simpl. lia.
    - exact I.
    - reflexivity.
    - constructor. }
  destruct (bextend_spec s1 [] [] (Basic.CHUNKSIZE / 4) HRep1)
    as (r & s2 & Hrun & Hext).
  { subst s1; norm. change (Mm.extend_bytes (Basic.CHUNKSIZE / 4)) with 4096. lia. }
  { change (Mm.extend_bytes (Basic.CHUNKSIZE / 4)) with 4096. lia. }
  { reflexivity. }
  rstep ltac:(exact Hrun).
  change (Mm.extend_bytes (Basic.CHUNKSIZE / 4)) with 4096 in Hext.
  destruct Hext as (bs' & fl' & HRep' & Hlo' & Hmax' & Hbrk' & Htot & _ & _
                    & r1 & rsz & r2 & Ebs & -> & Hrsz).
  pose proof (BW_sizes _ _ _ (BRep_BW _ _ _ HRep')) as Hs.
  rewrite Ebs in Hs, Htot. rewrite total_mid in Htot. cbn [total] in Htot.
  apply sizes_ok_mid in Hs. destruct Hs as (Hs1 & _ & Hs2).
  pose proof (blocks_count _ Hs1) as Hc1.
  pose proof (blocks_count _ Hs2) as Hc2.
  assert (E1 : r1 = []) by (destruct r1; [reflexivity|simpl length in Hc1; lia]).
  assert (E2 : r2 = []) by (destruct r2; [reflexivity|simpl length in Hc2; lia]).
  subst r1 r2. cbn [total] in *. cbn [app] in Ebs.
  assert (rsz = 4096) by lia. subst rsz bs'.
  assert (Hr : (first_hdr s1 + 0 + 4 =? NULL) = false).
  { apply Z.eqb_neq. unfold NULL, first_hdr. subst s1; norm. lia. }
  rewrite Hr.
  exists s2, fl'. split; [reflexivity|]. split; [exact HRep'|].
  split; [rewrite Hlo'; reflexivity|]. split; [rewrite Hmax'; reflexivity|].
  rewrite Hbrk'. subst s1; norm. lia.
Qed.

(** [realloc] of part_000 on a live block, with what happens to the blocks
    it is not about. *)
Lemma brealloc_spec_frame (s : state Z) (bs : list block) (fl : list Z)
      (fuel : nat) (p psz n : Z) :
  BRep s bs fl -> In (p, psz) (alloc_blocks (first_hdr s) bs) ->
  (length fl <= fuel)%nat -> 0 < n -> n + 15 < W64 ->
  (Basic.realloc fuel p n s = Fault /\
   mem_max s < mem_brk s + Z.max (Basic.adjust n) 4096) \/
  exists q s' bs' fl' cap,
    Basic.realloc fuel p n s = Done q s' /\
    BRep s' bs' fl' /\ first_hdr s' = first_hdr s /\
    ~ In q (alloc_ptrs (first_hdr s) bs) /\
    Permutation ((p, psz) :: alloc_blocks (first_hdr s) bs')
                ((q, cap) :: alloc_blocks (first_hdr s) bs) /\
    forall r rsz, In (r, rsz) (alloc_blocks (first_hdr s) bs) -> r <> p ->
                  forall y, r <= y < r + rsz - 8 -> mem s' y = mem s y.
Proof.
  intros HRep Hin Hfuel Hn Hn64.
  pose proof W32_lt_W64 as HW.
  destruct (BRep_alloc_header _ _ _ _ _ HRep Hin)
    as (Hpb & Hpbrk & Hplo & Hp16 & Hp8 & Hp32 & _).
  pose proof (BW_bounds _ _ _ (BRep_BW _ _ _ HRep)) as (Hlo & _).
  unfold Basic.realloc.
  replace (n =? 0) with false by (symmetry; apply Z.eqb_neq; lia).
  replace (p =? NULL) with false by (symmetry; apply Z.eqb_neq; unfold NULL; lia).
  destruct (bmalloc_spec s bs fl fuel n HRep Hfuel Hn Hn64)
    as (q & s1 & Hrun1 & [(-> & -> & Hoom)|Hal]).
  - left. split; [|exact Hoom].
    rstep ltac:(exact Hrun1).
    rstep ltac:(eapply BRep_GET_SIZE; eassumption).
    unfold GET_HEADER, GET_SIZE, READ, NULL, WSIZE, bind, in_heap.
    replace (mem_lo s <=? 0 - 4) with false by (symmetry; apply Z.leb_gt; lia).
    reflexivity.
  - right. destruct Hal as (Hq & bs1 & fl1 & cap & HRep1 & Hlo1 & Hmax1 & Hcap
                            & HP1 & Hfr1).
    assert (Efh : first_hdr s1 = first_hdr s) by (unfold first_hdr; lia).
    pose proof (BW_sizes _ _ _ (BRep_BW _ _ _ HRep1)) as Hs1.
    assert (Hfresh : ~ In q (alloc_ptrs (first_hdr s) bs))
      by (eapply fresh_not_held; [exact Hs1|reflexivity|exact HP1]).
    rewrite <- Efh in HP1.
    assert (Hin1 : In (p, psz) (alloc_blocks (first_hdr s1) bs1)).
    { eapply Permutation_in; [apply Permutation_sym; exact HP1|].
      right. rewrite Efh. exact Hin. }
    assert (Hqin1 : In (q, cap) (alloc_blocks (first_hdr s1) bs1)).
    { eapply Permutation_in; [apply Permutation_sym; exact HP1|]. left. reflexivity. }
    destruct (BRep_alloc_header _ _ _ _ _ HRep1 Hqin1)
      as (Hqb & Hqbrk & Hqlo & Hq16 & Hq8 & Hq32 & _).
    destruct (BRep_alloc_header _ _ _ _ _ HRep1 Hin1) as (_ & Hpbrk1 & _).
    rstep ltac:(exact Hrun1).
    rstep ltac:(eapply BRep_GET_SIZE; eassumption).
    rstep ltac:(eapply BRep_GET_SIZE; eassumption).
    rewrite Basic_copy_length_eq by lia.
    set (len := Z.min (psz - 8) (cap - 8)).
    assert (Hlen : 8 <= len /\ len <= psz - 8 /\ len <= cap - 8) by (unfold len; lia).
    set (m2 := copy_bytes (Z.to_nat len) (mem s1) q p).
    assert (Hcpy : memcpy q p len s1 = Done tt (set_mem s1 m2)).
    { unfold memcpy.
      replace (len =? 0) with false by (symmetry; apply Z.eqb_neq; lia).
      rewrite !in_heap_true by lia. reflexivity. }
    rstep ltac:(exact Hcpy).
    assert (HRep2 : BRep (set_mem s1 m2) bs1 fl1).
    { apply BRep_payload_change; [exact HRep1|].
      intros y Hy. unfold m2. apply copy_bytes_other.
      rewrite Z2Nat.id by lia.
      destruct (Z_lt_dec y q); [left; assumption|].
      destruct (Z_le_dec (q + len) y); [right; assumption|].
      exfalso. apply Hy. apply bpayload_iff. exists q, cap.
      split; [exact Hqin1|lia]. }
    destruct (bfree_spec (set_mem s1 m2) bs1 fl1 p psz HRep2) as (s3 & Hrun3 & Hfreed).
    { apply alloc_blocks_at. exact Hin1. }
    rstep ltac:(exact Hrun3).
    destruct Hfreed as (bs3 & fl3 & HRep3 & Hlo3 & Hmax3 & _ & HP3 & Hfr3).
    norm. rewrite ?first_hdr_set_mem in *.
    exists q, s3, bs3, fl3, cap. split; [reflexivity|].
    split; [exact HRep3|].
    assert (Efh3 : first_hdr s3 = first_hdr s) by (unfold first_hdr in *; lia).
    split; [exact Efh3|].
    split; [exact Hfresh|].
    rewrite Efh in *.
    split; [eapply Permutation_trans; eassumption|].
    intros r rsz Hr Hrp y Hy.
    assert (Hr1 : In (r, rsz) (alloc_blocks (first_hdr s) bs1)).
    { eapply Permutation_in; [apply Permutation_sym; exact HP1|right; exact Hr]. }
    assert (Hr3 : In (r, rsz) (alloc_blocks (first_hdr s) bs3)).
    { apply (in_cons_other (r, rsz) (p, psz)); [|exact Hrp].
      eapply Permutation_in; [apply Permutation_sym; exact HP3|exact Hr1]. }
    rewrite Hfr3 by (apply bpayload_iff; exists r, rsz; split; assumption).
    norm. unfold m2. rewrite copy_bytes_other.
    + apply Hfr1. apply bpayload_iff. exists r, rsz. split; assumption.
    + rewrite Z2Nat.id by lia.
      destruct (alloc_blocks_disjoint _ _ _ _ _ _ Hs1 Hr1 Hqin1) as [->|Hd]; [|lia].
      exfalso. apply Hfresh. rewrite alloc_ptrs_blocks.
      apply (in_map fst _ _ Hr).
Qed.

(** X9.  [mm_init] of part_000 on a fresh image.  With room for the six
    words of the frame and one chunk of 4096 bytes it returns 0 and the
    heap is a single free block of 4096 bytes, which is the head of the
    free list.  With less room it returns -1, and when the six words did
    fit they stay taken from the provider. *)
Theorem X9_basic_mm_init_one_chunk (m : memory) (lo max : Z) :
  0 < lo -> max - lo < W32 ->
  (lo + 4120 <= max ->
   exists s,
     Basic.mm_init (boot m lo max) = Done 0 s /\
     (forall lim, breachable lim lo max s []) /\
     mem_brk s = lo + 4120 /\ heap_ptr s = lo + 16 /\
     free_blks s = lo + 24 /\
     heap_walk (heap_fuel s) (mem s) (heap_ptr s + WSIZE) = Some [(4096, 0)]) /\
  (max < lo + 4120 ->
   exists s,
     Basic.mm_init (boot m lo max) = Done (-1) s /\
     mem_brk s = (if lo + 24 <=? max then lo + 24 else lo)).
Proof.
  intros Hlo H32. split.
  - intros Hroom.
    destruct (bmm_init_heap (boot m lo max))
      as (s & fl & E & HRep & Hlo1 & Hmax1 & Hbrk1); simpl; trivial; try lia.
    simpl in Hlo1, Hmax1, Hbrk1.
    exists s. split; [exact E|].
    split; [intros lim; eapply BR_init; eassumption|].
    split; [exact Hbrk1|].
    pose proof (BW_bounds _ _ _ (BRep_BW _ _ _ HRep)) as (_ & Hhp & _).
    split; [lia|].
    pose proof (BRep_heap_walk _ _ _ HRep) as Hwalk.
    replace (heap_ptr s + WSIZE) with (first_hdr s)
      by (unfold first_hdr, WSIZE; lia).
    split; [|exact Hwalk].
    destruct HRep as ((_ & _ & _ & _ & _ & Hhd & HP) & _).
    cbn [free_ptrs app] in HP. apply Permutation_sym in HP.
    apply Permutation_length_1_inv in HP. rewrite Hhd, HP.
    unfold first_hdr. simpl. lia.
  - intros Hsmall.
    destruct (Z.leb_spec (lo + 24) max) as [Hbig|Hless].
    + unfold Basic.mm_init, WSIZE, ESIZE, DSIZE.
      assert (Hsbrk : mem_sbrk (6 * 4) (boot m lo max)
                      = Done lo (set_brk (boot m lo max) (lo + 24))).
      { unfold mem_sbrk, boot. norm.
        replace (lo + 6 * 4 <=? max) with true by (symmetry; apply Z.leb_le; lia).
        reflexivity. }
      rstep ltac:(exact Hsbrk).
      rstep ltac:(reflexivity).
      replace (lo =? SBRK_FAIL) with false
        by (symmetry; apply Z.eqb_neq; unfold SBRK_FAIL; lia).
      do 6 rstep ltac:(apply WRITE_ok; unfold inb, boot; norm; lia).
      do 2 rstep ltac:(reflexivity).
      rstep ltac:(apply bextend_fail; unfold boot; norm;
                  change (Mm.extend_bytes (Basic.CHUNKSIZE / 4)) with 4096; lia).
      change (NULL =? NULL) with true. cbv iota.
      eexists. split; [reflexivity|]. reflexivity.
    + unfold Basic.mm_init, WSIZE, bind, mem_sbrk, boot. norm.
      replace (lo + 6 * 4 <=? max) with false by (symmetry; apply Z.leb_gt; lia).
      rewrite andb_false_r. simpl. eexists. split; reflexivity.
Qed.

Lemma X9_witness :
  (exists s,
     Basic.mm_init (boot zero_mem 1024 8192) = Done 0 s /\
     (forall lim, breachable lim 1024 8192 s []) /\
     mem_brk s = 1024 + 4120 /\ heap_ptr s = 1024 + 16 /\
     free_blks s = 1024 + 24 /\
     heap_walk (heap_fuel s) (mem s) (heap_ptr s + WSIZE) = Some [(4096, 0)]) /\
  (exists s,
     Basic.mm_init (boot zero_mem 1024 4096) = Done (-1) s /\
     mem_brk s = (if 1024 + 24 <=? 4096 then 1024 + 24 else 1024)).
Proof.
  split.
  - apply (X9_basic_mm_init_one_chunk zero_mem 1024 8192);
      [lia|unfold W32; lia|lia].
  - apply (X9_basic_mm_init_one_chunk zero_mem 1024 4096);
      [lia|unfold W32; lia|lia].
Defined.

(** X10.  [malloc] of part_000 in a state reached with requests below
    [2^64 - 15], for a request below that bound, which the size adjustment
    does not wrap.  It returns: either NULL, with the state
    unchanged and the provider unable to supply the larger of the adjusted
    size and one chunk; or a pointer the client did not hold, to a block
    with room for the request between its header and its footer that
    overlaps no held block, every held block keeping its size and its
    payload bytes. *)
Theorem X10_basic_malloc_fresh_block (lo max : Z) (s : state Z) (L : list Z)
        (fuel : nat) (n : Z) :
  breachable (W64 - 15) lo max s L -> (heap_fuel s <= fuel)%nat ->
  0 < n -> n + 15 < W64 ->
  exists p s',
    Basic.malloc fuel n s = Done p s' /\
    ((p = NULL /\ s' = s /\
      mem_max s < mem_brk s + Z.max (Basic.adjust n) 4096) \/
     (p <> NULL /\ ~ In p L /\
      exists cap,
        GET_SIZE (GET_HEADER p) s' = Done cap s' /\ n <= cap - 2 * WSIZE /\
        forall q qsz,
          In q L -> GET_SIZE (GET_HEADER q) s = Done qsz s ->
          GET_SIZE (GET_HEADER q) s' = Done qsz s' /\
          (p + cap <= q \/ q + qsz <= p) /\
          forall i, 0 <= i < qsz - 2 * WSIZE ->
                    byte_at (mem s') (q + i) = byte_at (mem s) (q + i))).
Proof.
  intros Hr Hf Hn Hn15.
  destruct (breachable_inv _ _ _ _ Hr) as (bs & fl & HRep & HP & _).
  pose proof (BW_fuel _ _ _ (BRep_BW _ _ _ HRep)) as Hfl.
  destruct (bmalloc_spec s bs fl fuel n HRep ltac:(lia) Hn Hn15)
    as (p & s' & E & [H|Hal]).
  - exists p, s'. split; [exact E|left; exact H].
  - exists p, s'. split; [exact E|right].
    destruct Hal as (Hp & bs' & fl' & cap & HRep' & Hlo' & Hmax' & Hcap & HP' & Hfr).
    assert (Efh : first_hdr s' = first_hdr s) by (unfold first_hdr; lia).
    pose proof (BW_sizes _ _ _ (BRep_BW _ _ _ HRep')) as Hs'.
    assert (Hpin : In (p, cap) (alloc_blocks (first_hdr s') bs')).
    { rewrite Efh. eapply Permutation_in; [apply Permutation_sym; exact HP'|].
      left. reflexivity. }
    split; [exact Hp|].
    split; [eapply fresh_not_held; eassumption|].
    exists cap. split; [eapply BRep_GET_SIZE; eassumption|].
    destruct (badjust_facts n Hn Hn15) as (_ & _ & _ & Hadj).
    split; [unfold WSIZE; lia|].
    intros q qsz Hq Hqsz.
    pose proof (bheld_size _ _ _ _ _ _ HRep HP Hq Hqsz) as Hqin.
    assert (Hqin' : In (q, qsz) (alloc_blocks (first_hdr s') bs')).
    { rewrite Efh. eapply Permutation_in; [apply Permutation_sym; exact HP'|].
      right. exact Hqin. }
    destruct (bblock_kept s s' bs' fl' q qsz HRep' Hqin') as (Hsz' & Hbytes).
    { intros y Hy. apply Hfr. apply bpayload_iff. eauto. }
    split; [exact Hsz'|]. split; [|exact Hbytes].
    destruct (alloc_blocks_disjoint _ _ _ _ _ _ Hs' Hpin Hqin') as [->|Hd]; [|lia].
    exfalso. eapply fresh_not_held; eassumption.
Qed.

Lemma X10_witness :
  exists p s',
    Basic.malloc (heap_fuel xb_state) 100 xb_state = Done p s' /\
    ((p = NULL /\ s' = xb_state /\
      mem_max xb_state < mem_brk xb_state + Z.max (Basic.adjust 100) 4096) \/
     (p <> NULL /\ ~ In p xb_held /\
      exists cap,
        GET_SIZE (GET_HEADER p) s' = Done cap s' /\ 100 <= cap - 2 * WSIZE /\
        forall q qsz,
          In q xb_held -> GET_SIZE (GET_HEADER q) xb_state = Done qsz xb_state ->
          GET_SIZE (GET_HEADER q) s' = Done qsz s' /\
          (p + cap <= q \/ q + qsz <= p) /\
          forall i, 0 <= i < qsz - 2 * WSIZE ->
                    byte_at (mem s') (q + i) = byte_at (mem xb_state) (q + i))).
Proof.
  apply (X10_basic_malloc_fresh_block 1024 8192 xb_state xb_held
           (heap_fuel xb_state) 100).
  - apply bsession_reachable. vm_compute. reflexivity.
  - apply le_n.
  - lia.
  - unfold W64. lia.
Defined.

(** X11.  [free] of part_000 on a held pointer, in a state reached with
    requests below [2^64 - 15], returns, neither grows nor shrinks the region, and leaves every other
    held block its size and its payload bytes. *)
Theorem X11_basic_free_keeps_other_blocks (lo max : Z) (s : state Z)
        (L L' : list Z) (p : Z) :
  breachable (W64 - 15) lo max s L -> Permutation L (p :: L') ->
  exists s',
    Basic.free p s = Done tt s' /\
    breachable (W64 - 15) lo max s' L' /\
    mem_brk s' = mem_brk s /\
    forall q qsz,
      In q L' -> GET_SIZE (GET_HEADER q) s = Done qsz s ->
      GET_SIZE (GET_HEADER q) s' = Done qsz s' /\
      forall i, 0 <= i < qsz - 2 * WSIZE ->
                byte_at (mem s') (q + i) = byte_at (mem s) (q + i).
Proof.
  intros Hr HPL.
  destruct (breachable_inv _ _ _ _ Hr) as (bs & fl & HRep & HP & _).
  assert (Hpin : In p L)
    by (eapply Permutation_in; [apply Permutation_sym; exact HPL|left; reflexivity]).
  destruct (held_block s bs L p HP Hpin) as (psz & Hb).
  destruct (bfree_spec s bs fl p psz HRep) as (s' & E & Hfreed).
  { apply alloc_blocks_at. exact Hb. }
  exists s'. split; [exact E|].
  split; [eapply BR_free; eassumption|].
  destruct Hfreed as (bs' & fl' & HRep' & Hlo' & Hmax' & Hbrk' & HP' & Hfr).
  split; [exact Hbrk'|].
  assert (Efh : first_hdr s' = first_hdr s) by (unfold first_hdr; lia).
  pose proof (BW_sizes _ _ _ (BRep_BW _ _ _ HRep)) as Hs.
  assert (Hnd : NoDup L).
  { eapply Permutation_NoDup; [apply Permutation_sym; exact HP|].
    apply alloc_ptrs_NoDup. exact Hs. }
  intros q qsz Hq Hqsz.
  assert (HqL : In q L)
    by (eapply Permutation_in; [apply Permutation_sym; exact HPL|right; exact Hq]).
  pose proof (bheld_size _ _ _ _ _ _ HRep HP HqL Hqsz) as Hqin.
  assert (Hqp : q <> p).
  { intros ->. exact (perm_not_head _ _ _ Hnd HPL Hq). }
  assert (Hqin' : In (q, qsz) (alloc_blocks (first_hdr s') bs')).
  { rewrite Efh. apply (in_cons_other (q, qsz) (p, psz)); [|exact Hqp].
    eapply Permutation_in; [apply Permutation_sym; exact HP'|exact Hqin]. }
  apply (bblock_kept s s' bs' fl' q qsz HRep' Hqin').
  intros y Hy. apply Hfr. apply bpayload_iff. exists q, qsz.
  rewrite <- Efh. split; [exact Hqin'|exact Hy].
Qed.

Lemma X11_witness :
  exists s',
    Basic.free 1080 xb_state = Done tt s' /\
    breachable (W64 - 15) 1024 8192 s' [1128] /\
    mem_brk s' = mem_brk xb_state /\
    forall q qsz,
      In q [1128] -> GET_SIZE (GET_HEADER q) xb_state = Done qsz xb_state ->
      GET_SIZE (GET_HEADER q) s' = Done qsz s' /\
      forall i, 0 <= i < qsz - 2 * WSIZE ->
                byte_at (mem s') (q + i) = byte_at (mem xb_state) (q + i).
Proof.
  apply (X11_basic_free_keeps_other_blocks 1024 8192 xb_state xb_held
           [1128] 1080).
  - apply bsession_reachable. vm_compute. reflexivity.
  - unfold xb_held. vm_compute held_of. apply perm_swap.
Defined.

(** X12.  [realloc] of part_000 on a held pointer, in a state reached with
    requests below [2^64 - 15], to a nonzero size below that bound, which
    the adjustment does not wrap: when it returns, the result is a pointer
    other than the old one that the client did not hold, and every other
    held block keeps its size and its payload bytes. *)
Theorem X12_basic_realloc_keeps_other_blocks (lo max : Z) (s : state Z)
        (L L' : list Z) (fuel : nat) (p n : Z) :
  breachable (W64 - 15) lo max s L -> Permutation L (p :: L') ->
  (heap_fuel s <= fuel)%nat -> 0 < n -> n + 15 < W64 ->
  (Basic.realloc fuel p n s = Fault /\
   mem_max s < mem_brk s + Z.max (Basic.adjust n) 4096) \/
  exists q s',
    Basic.realloc fuel p n s = Done q s' /\
    breachable (W64 - 15) lo max s' (q :: L') /\ q <> p /\ ~ In q L /\
    forall r rsz,
      In r L' -> GET_SIZE (GET_HEADER r) s = Done rsz s ->
      GET_SIZE (GET_HEADER r) s' = Done rsz s' /\
      forall i, 0 <= i < rsz - 2 * WSIZE ->
                byte_at (mem s') (r + i) = byte_at (mem s) (r + i).
Proof.
  intros Hr HPL Hf Hn Hn15.
  destruct (breachable_inv _ _ _ _ Hr) as (bs & fl & HRep & HP & _).
  assert (Hpin : In p L)
    by (eapply Permutation_in; [apply Permutation_sym; exact HPL|left; reflexivity]).
  destruct (held_block s bs L p HP Hpin) as (psz & Hb).
  pose proof (BW_fuel _ _ _ (BRep_BW _ _ _ HRep)) as Hfl.
  pose proof (BW_sizes _ _ _ (BRep_BW _ _ _ HRep)) as Hs.
  assert (Hnd : NoDup L).
  { eapply Permutation_NoDup; [apply Permutation_sym; exact HP|].
    apply alloc_ptrs_NoDup. exact Hs. }
  destruct (brealloc_spec_frame s bs fl fuel p psz n HRep Hb ltac:(lia) Hn Hn15)
    as [H|(q & s' & bs' & fl' & cap & E & HRep' & Efh & Hfresh & HP' & Hfr)];
    [left; exact H|right].
  exists q, s'. split; [exact E|].
  split; [eapply BR_realloc; try eassumption; lia|].
  assert (HqL : ~ In q L)
    by (intros Hq; apply Hfresh; eapply Permutation_in; eassumption).
  split; [intros ->; exact (HqL Hpin)|].
  split; [exact HqL|].
  intros r rsz Hr' Hrsz.
  assert (HrL : In r L)
    by (eapply Permutation_in; [apply Permutation_sym; exact HPL|right; exact Hr']).
  pose proof (bheld_size _ _ _ _ _ _ HRep HP HrL Hrsz) as Hrin.
  assert (Hrp : r <> p).
  { intros ->. exact (perm_not_head _ _ _ Hnd HPL Hr'). }
  assert (Hrin' : In (r, rsz) (alloc_blocks (first_hdr s') bs')).
  { rewrite Efh. apply (in_cons_other (r, rsz) (p, psz)); [|exact Hrp].
    eapply Permutation_in; [apply Permutation_sym; exact HP'|].
    right. exact Hrin. }
  apply (bblock_kept s s' bs' fl' r rsz HRep' Hrin').
  intros y Hy. eapply Hfr; eassumption.
Qed.

Lemma X12_witness :
  exists q s',
    Basic.realloc (heap_fuel xb_state) 1080 40 xb_state = Done q s' /\
    breachable (W64 - 15) 1024 8192 s' [q; 1128] /\ q <> 1080 /\ ~ In q xb_held /\
    forall r rsz,
      In r [1128] -> GET_SIZE (GET_HEADER r) xb_state = Done rsz xb_state ->
      GET_SIZE (GET_HEADER r) s' = Done rsz s' /\
      forall i, 0 <= i < rsz - 2 * WSIZE ->
                byte_at (mem s') (r + i) = byte_at (mem xb_state) (r + i).
Proof.
  destruct (X12_basic_realloc_keeps_other_blocks 1024 8192 xb_state xb_held
              [1128] (heap_fuel xb_state) 1080 40) as [(E & _)|H].
  - apply bsession_reachable. vm_compute. reflexivity.
  - unfold xb_held. vm_compute held_of. apply perm_swap.
  - apply le_n.
  - lia.
  - unfold W64. lia.
  - exfalso.
    assert (Hf : faults (Basic.realloc (heap_fuel xb_state) 1080 40 xb_state)
                 = false) by (vm_compute; reflexivity).
    rewrite E in Hf. discriminate Hf.
  - exact H.
Defined.

(** X13.  [calloc] of part_000 in a state reached with requests below
    [2^64 - 15], for a product that is not 0 modulo [2^64] and below that
    bound, which the size adjustment does not wrap.  It
    faults when the provider cannot supply the block; otherwise it returns
    a pointer the client did not hold, the first [bytes] bytes behind it
    are 0, and every held block keeps its size and its payload bytes. *)
Theorem X13_basic_calloc_zeroes_block (lo max : Z) (s : state Z) (L : list Z)
        (fuel : nat) (nmemb size bytes : Z) :
  breachable (W64 - 15) lo max s L -> (heap_fuel s <= fuel)%nat ->
  bytes = (nmemb * size) mod W64 -> 0 < bytes -> bytes + 15 < W64 ->
  (Basic.calloc fuel nmemb size s = Fault /\
   mem_max s < mem_brk s + Z.max (Basic.adjust bytes) 4096) \/
  exists q s',
    Basic.calloc fuel nmemb size s = Done q s' /\
    q <> NULL /\ ~ In q L /\
    (forall i, 0 <= i < bytes -> byte_at (mem s') (q + i) = 0) /\
    forall r rsz,
      In r L -> GET_SIZE (GET_HEADER r) s = Done rsz s ->
      GET_SIZE (GET_HEADER r) s' = Done rsz s' /\
      forall i, 0 <= i < rsz - 2 * WSIZE ->
                byte_at (mem s') (r + i) = byte_at (mem s) (r + i).
Proof.
  intros Hr Hf Eb Hb0 Hb15.
  destruct (breachable_inv _ _ _ _ Hr) as (bs & fl & HRep & HP & _).
  pose proof (BW_fuel _ _ _ (BRep_BW _ _ _ HRep)) as Hfl.
  pose proof (BW_bounds _ _ _ (BRep_BW _ _ _ HRep)) as (Hlo & _).
  unfold Basic.calloc. rewrite <- Eb.
  destruct (bmalloc_spec s bs fl fuel bytes HRep ltac:(lia) Hb0 Hb15)
    as (q & s1 & Hrun1 & [(-> & -> & Hoom)|Hal]).
  - left. split; [|exact Hoom]. rstep ltac:(exact Hrun1).
    unfold memset, bind, in_heap, NULL.
    replace (bytes =? 0) with false by (symmetry; apply Z.eqb_neq; lia).
    replace (mem_lo s <=? 0) with false by (symmetry; apply Z.leb_gt; lia).
    reflexivity.
  - right.
    destruct Hal as (Hq & bs1 & fl1 & cap & HRep1 & Hlo1 & Hmax1 & Hcap
                     & HP1 & Hfr1).
    assert (Efh : first_hdr s1 = first_hdr s) by (unfold first_hdr; lia).
    pose proof (BW_sizes _ _ _ (BRep_BW _ _ _ HRep1)) as Hs1.
    assert (Hfresh : ~ In q L) by (eapply fresh_not_held; eassumption).
    rewrite <- Efh in HP1.
    assert (Hqin1 : In (q, cap) (alloc_blocks (first_hdr s1) bs1)).
    { eapply Permutation_in; [apply Permutation_sym; exact HP1|]. left. reflexivity. }
    destruct (BRep_alloc_header _ _ _ _ _ HRep1 Hqin1)
      as (Hqb & Hqbrk & Hqlo & Hq16 & Hq8 & Hq32 & _).
    destruct (badjust_facts bytes Hb0 Hb15) as (_ & _ & _ & Hadj).
    rstep ltac:(exact Hrun1).
    set (m2 := fill_bytes (Z.to_nat bytes) (mem s1) q 0).
    assert (Hset : memset q 0 bytes s1 = Done tt (set_mem s1 m2)).
    { unfold memset.
      replace (bytes =? 0) with false by (symmetry; apply Z.eqb_neq; lia).
      rewrite in_heap_true by lia. reflexivity. }
    rstep ltac:(exact Hset).
    eexists _, _. split; [reflexivity|].
    split; [exact Hq|]. split; [exact Hfresh|].
    assert (HRep2 : BRep (set_mem s1 m2) bs1 fl1).
    { apply BRep_payload_change; [exact HRep1|].
      intros y Hy. unfold m2. apply fill_bytes_other.
      rewrite Z2Nat.id by lia.
      destruct (Z_lt_dec y q); [left; assumption|].
      destruct (Z_le_dec (q + bytes) y); [right; assumption|].
      exfalso. apply Hy. apply bpayload_iff. exists q, cap.
      split; [exact Hqin1|lia]. }
    split.
    + intros i Hi. unfold byte_at, m2. norm.
      rewrite fill_bytes_at by (rewrite Z2Nat.id by lia; lia). reflexivity.
    + intros r rsz Hr' Hrsz.
      pose proof (bheld_size _ _ _ _ _ _ HRep HP Hr' Hrsz) as Hrin.
      assert (Hrin1 : In (r, rsz) (alloc_blocks (first_hdr s1) bs1)).
      { eapply Permutation_in; [apply Permutation_sym; exact HP1|].
        right. rewrite Efh. exact Hrin. }
      apply (bblock_kept s (set_mem s1 m2) bs1 fl1 r rsz HRep2 Hrin1).
      intros y Hy. norm. unfold m2. rewrite fill_bytes_other.
      * apply Hfr1. apply bpayload_iff. exists r, rsz. split; assumption.
      * rewrite Z2Nat.id by lia.
        destruct (alloc_blocks_disjoint _ _ _ _ _ _ Hs1 Hrin1 Hqin1) as [->|Hd];
          [|lia].
        exfalso. exact (Hfresh Hr').
Qed.

Lemma X13_witness :
  exists q s',
    Basic.calloc (heap_fuel x13_state) 3 7 x13_state = Done q s' /\
    q <> NULL /\ ~ In q (held_of (bsession zero_mem 1024 8192 x13_calls)) /\
    (forall i, 0 <= i < 21 -> byte_at (mem s') (q + i) = 0) /\
    forall r rsz,
      In r (held_of (bsession zero_mem 1024 8192 x13_calls)) ->
      GET_SIZE (GET_HEADER r) x13_state = Done rsz x13_state ->
      GET_SIZE (GET_HEADER r) s' = Done rsz s' /\
      forall i, 0 <= i < rsz - 2 * WSIZE ->
                byte_at (mem s') (r + i) = byte_at (mem x13_state) (r + i).
Proof.
  destruct (X13_basic_calloc_zeroes_block 1024 8192 x13_state
              (held_of (bsession zero_mem 1024 8192 x13_calls))
              (heap_fuel x13_state) 3 7 21) as [(E & _)|H].
  - apply bsession_reachable. vm_compute. reflexivity.
  - apply le_n.
  - reflexivity.
  - lia.
  - unfold W64. lia.
  - exfalso.
    assert (Hf : faults (Basic.calloc (heap_fuel x13_state) 3 7 x13_state)
                 = false) by (vm_compute; reflexivity).
    rewrite E in Hf. discriminate Hf.
  - exact H.
Defined.

(** X14.  In every state of part_000 reached with requests below
    [2^64 - 15] the boundary tags are consistent: the word before the first header is the prologue footer
    [PACK(16, 1)], and from the first header to the break every block has
    a size of at least 16 and a footer equal to its header, no two
    neighbouring blocks are both free, and the walk ends at the epilogue
    word [PACK(0, 1)] in the last word of the heap. *)
Theorem X14_basic_boundary_tags_consistent (lo max : Z) (s : state Z)
        (L : list Z) :
  breachable (W64 - 15) lo max s L ->
  rd (mem s) (heap_ptr s) = PACK 16 1 /\
  bheap_check (heap_fuel s) (mem s) (heap_ptr s + WSIZE) 1 (mem_brk s) = true.
Proof.
  intros Hr.
  destruct (breachable_inv _ _ _ _ Hr) as (bs & fl & HRep & _).
  pose proof HRep as (HW & Hnaf & Hnl).
  pose proof (BW_sizes _ _ _ HW) as Hs.
  pose proof (BW_bounds _ _ _ HW) as (_ & Hhp & Ht0 & Htb & Ht32 & _).
  pose proof HW as (_ & Hpro & Hb & Hep & _).
  pose proof (blocks_count _ Hs) as Hcnt.
  split; [exact Hpro|].
  replace (heap_ptr s + WSIZE) with (first_hdr s)
    by (unfold first_hdr, WSIZE; lia).
  change 1 with (bit_al true).
  eapply bheap_check_blocks; try eassumption; try lia.
  - unfold first_hdr. lia.
  - unfold heap_fuel. lia.
Qed.

Lemma X14_witness :
  rd (mem xb_state) (heap_ptr xb_state) = PACK 16 1 /\
  bheap_check (heap_fuel xb_state) (mem xb_state) (heap_ptr xb_state + WSIZE) 1
              (mem_brk xb_state) = true.
Proof.
  apply (X14_basic_boundary_tags_consistent 1024 8192 xb_state xb_held).
  apply bsession_reachable. vm_compute. reflexivity.
Defined.

(** X15.  In every state of part_000 reached with requests below
    [2^64 - 15] the explicit free list is the set of free blocks of the
    heap: following the successor links from
    [free_blks] ends at NULL, visits no node twice, and visits exactly the
    payload pointers of the blocks with ALLOC = 0 in the walk over the
    headers; each node's predecessor link names the node before it, and no
    node is a pointer the client holds. *)
Theorem X15_basic_free_list_matches_heap (lo max : Z) (s : state Z)
        (L : list Z) :
  breachable (W64 - 15) lo max s L ->
  exists l w,
    list_walk (heap_fuel s) (mem s) (heap_ptr s) (free_blks s) = Some l /\
    heap_walk (heap_fuel s) (mem s) (heap_ptr s + WSIZE) = Some w /\
    Permutation l (free_of (heap_ptr s + WSIZE) w) /\
    NoDup l /\
    back_links (mem s) (heap_ptr s) NULL l = true /\
    forall q, In q l -> ~ In q L.
Proof.
  intros Hr.
  destruct (breachable_inv _ _ _ _ Hr) as (bs & fl & HRep & HP & _).
  pose proof HRep as (HW & _ & Hnl).
  pose proof (BW_sizes _ _ _ HW) as Hs.
  pose proof (BW_nodes _ _ _ HW) as (Hall & Hfar).
  pose proof (BW_fuel _ _ _ HW) as Hfl.
  pose proof (BW_bounds _ _ _ HW) as (_ & Hhp & _).
  destruct (BW_chain _ _ _ HW) as (l & Hc & Hm & _).
  pose proof HW as (_ & _ & _ & _ & Hd & _ & HPf).
  assert (Efh : heap_ptr s + WSIZE = first_hdr s)
    by (unfold first_hdr, WSIZE; lia).
  rewrite Efh.
  exists fl, (map view bs).
  split.
  { rewrite <- Hm. apply chain_list_walk; [exact Hc|].
    rewrite <- Hm, length_map in Hfl. exact Hfl. }
  split; [exact (BRep_heap_walk s bs fl HRep)|].
  split; [rewrite free_of_view by exact Hnl; exact HPf|].
  split; [apply far_apart_NoDup; exact Hfar|].
  split.
  { eapply dllseg_back_links; [exact Hd|left; reflexivity|exact Hall]. }
  intros q Hq HqL.
  eapply Permutation_in in Hq; [|exact HPf].
  eapply Permutation_in in HqL; [|exact HP].
  destruct (block_at_free _ _ _ Hq) as (n1 & H1).
  destruct (block_at_alloc _ _ _ HqL) as (n2 & H2).
  destruct (block_at_fun _ _ _ _ _ _ _ Hs H1 H2) as [_ E]. discriminate.
Qed.

Lemma X15_witness :
  exists l w,
    list_walk (heap_fuel xb_state) (mem xb_state) (heap_ptr xb_state)
              (free_blks xb_state) = Some l /\
    heap_walk (heap_fuel xb_state) (mem xb_state) (heap_ptr xb_state + WSIZE)
    = Some w /\
    Permutation l (free_of (heap_ptr xb_state + WSIZE) w) /\
    NoDup l /\
    back_links (mem xb_state) (heap_ptr xb_state) NULL l = true /\
    forall q, In q l -> ~ In q xb_held.
Proof.
  apply (X15_basic_free_list_matches_heap 1024 8192).
  apply bsession_reachable. vm_compute. reflexivity.
Defined.

(** X16.  With an 8-byte aligned heap base, in every state of part_000
    reached with requests below [2^64 - 15], every pointer the client
    holds is 8-byte aligned, and its block lies between the prologue and
    the epilogue. *)
Theorem X16_basic_payload_pointers_aligned (lo max : Z) (s : state Z)
        (L : list Z) (p sz : Z) :
  breachable (W64 - 15) lo max s L -> lo mod 8 = 0 -> In p L ->
  GET_SIZE (GET_HEADER p) s = Done sz s ->
  p mod 8 = 0 /\ lo + 24 <= p /\ p + sz <= mem_brk s /\
  16 <= sz /\ sz mod 8 = 0.
Proof.
  intros Hr Hlo Hin Hsz.
  destruct (breachable_inv _ _ _ _ Hr) as (bs & fl & HRep & HP & Hlo' & _).
  pose proof (bheld_size _ _ _ _ _ _ HRep HP Hin Hsz) as Hb.
  pose proof (BW_sizes _ _ _ (BRep_BW _ _ _ HRep)) as Hs.
  pose proof (BW_bounds _ _ _ (BRep_BW _ _ _ HRep)) as (_ & _ & _ & Htb & _).
  pose proof (alloc_blocks_bounds _ _ _ _ Hs Hb) as (H1 & H2 & H3 & H4 & Hal).
  unfold first_hdr in *. rewrite Hlo' in *.
  split; [|repeat split; lia].
  apply Z.mod_divide in Hlo; [|lia]. apply Z.mod_divide in Hal; [|lia].
  apply Z.mod_divide; [lia|].
  destruct Hlo as (a & Ea). destruct Hal as (b & Eb).
  exists (a + b + 3). lia.
Qed.

Lemma X16_witness :
  1128 mod 8 = 0 /\ 1024 + 24 <= 1128 /\ 1128 + 48 <= mem_brk xb_state /\
  16 <= 48 /\ 48 mod 8 = 0.
Proof.
  apply (X16_basic_payload_pointers_aligned 1024 8192 xb_state xb_held 1128 48).
  - apply bsession_reachable. vm_compute. reflexivity.
  - reflexivity.
  - vm_compute. left. reflexivity.
  - vm_compute. reflexivity.
Defined.

(** ** The bound on the requests is needed *)

Lemma breachable_mono (lim lim' lo max : Z) (s : state Z) (L : list Z) :
  lim <= lim' -> breachable lim lo max s L -> breachable lim' lo max s L.
Proof.
  intros Hle. induction 1.
  - eapply BR_init; eassumption.
  - eapply BR_malloc; try eassumption. lia.
  - eapply BR_free; eassumption.
  - eapply BR_realloc; try eassumption. lia.
  - eapply BR_calloc; try eassumption. lia.
  - eapply BR_store; eassumption.
Qed.

(** A request of [2^64 - 10] bytes is adjusted to 0 bytes: [malloc] hands
    out the first free block and leaves it at the head of the free list,
    and the next [malloc] hands out the same pointer again.  So the states
    a client reaches with unbounded requests do not keep the properties
    above. *)
Lemma basic_wrapped_request :
  Basic.adjust (W64 - 10) = 0 /\
  breachable W64 1024 8192 bwrap_state [1048] /\
  free_blks bwrap_state = 1048 /\
  returns (Basic.malloc (heap_fuel bwrap_state) 24 bwrap_state) 1048 = true.
Proof.
  split; [reflexivity|]. split; [|split; vm_compute; reflexivity].
  set (s0 := state_of (bsession zero_mem 1024 8192 [])).
  change [1048] with (if 1048 =? NULL then [] else [1048]).
  apply (BR_malloc W64 1024 8192 s0 [] (heap_fuel s0) (W64 - 10) 1048 bwrap_state).
  - apply (breachable_mono (W64 - 15) W64); [lia|].
    apply (bsession_reachable zero_mem 1024 8192 []). vm_compute. reflexivity.
  - apply le_n.
  - unfold W64. lia.
  - unfold W64. lia.
  - unfold bwrap_state. fold s0.
    apply (returns_Done (Basic.malloc (heap_fuel s0) (W64 - 10) s0) 1048 s0).
    vm_compute. reflexivity.
Qed.

(** ** Lists of lists *)

Lemma upd_length {A} (k : nat) (v : A) (l : list A) :
  length (upd k v l) = length l.
Proof.
  revert k; induction l as [|x r IH]; intros k; [reflexivity|].
  destruct k; simpl; [reflexivity|]. rewrite IH. reflexivity.
Qed.

Lemma upd_nth_same {A} (k : nat) (v d : A) (l : list A) :
  (k < length l)%nat -> nth k (upd k v l) d = v.
Proof.
  revert k; induction l as [|x r IH]; intros k H; simpl in H; [lia|].
  destruct k; simpl; [reflexivity|]. apply IH. lia.
Qed.

Lemma upd_nth_other {A} (k j : nat) (v d : A) (l : list A) :
  j <> k -> nth j (upd k v l) d = nth j l d.
Proof.
  revert k j; induction l as [|x r IH]; intros k j H; [reflexivity|].
  destruct k, j; simpl; try reflexivity; try lia. apply IH. lia.
Qed.

Lemma upd_same {A} (k : nat) (d : A) (l : list A) :
  upd k (nth k l d) l = l.
Proof.
  revert k; induction l as [|x r IH]; intros k; [reflexivity|].
  destruct k; simpl; [reflexivity|]. rewrite IH. reflexivity.
Qed.

Lemma upd_upd {A} (k : nat) (v w : A) (l : list A) :
  upd k v (upd k w l) = upd k v l.
Proof.
  revert k; induction l as [|x r IH]; intros k; [reflexivity|].
  destruct k; simpl; [reflexivity|]. rewrite IH. reflexivity.
Qed.

Lemma concat_upd {A} (k : nat) (v : list A) (l : list (list A)) :
  (k < length l)%nat ->
  Permutation (concat (upd k v l)) (v ++ concat (upd k [] l)).
Proof.
  revert k; induction l as [|x r IH]; intros k H; simpl in H; [lia|].
  destruct k; simpl; [reflexivity|].
  rewrite IH by lia. rewrite !app_assoc.
  apply Permutation_app_tail, Permutation_app_comm.
Qed.

Lemma concat_upd_remove {A} (k : nat) (f1 f2 : list A) (x : A)
      (l : list (list A)) :
  (k < length l)%nat -> nth k l [] = f1 ++ x :: f2 ->
  Permutation (concat l) (x :: concat (upd k (f1 ++ f2) l)).
Proof.
  intros Hk E.
  pose proof (concat_upd k (nth k l []) l Hk) as H1. rewrite upd_same in H1.
  pose proof (concat_upd k (f1 ++ f2) l Hk) as H2.
  eapply Permutation_trans; [exact H1|]. rewrite E.
  eapply Permutation_trans; [|apply perm_skip, Permutation_sym, H2].
  apply Permutation_sym. rewrite <- !app_assoc. simpl.
  apply Permutation_middle.
Qed.

Lemma concat_upd_cons {A} (k : nat) (x : A) (l : list (list A)) :
  (k < length l)%nat ->
  Permutation (concat (upd k (x :: nth k l []) l)) (x :: concat l).
Proof.
  intros Hk.
  eapply Permutation_trans; [apply concat_upd, Hk|]. simpl. apply perm_skip.
  pose proof (concat_upd k (nth k l []) l Hk) as H. rewrite upd_same in H.
  apply Permutation_sym, H.
Qed.

Lemma in_concat_nth {A} (x : A) (l : list (list A)) :
  In x (concat l) -> exists k, (k < length l)%nat /\ In x (nth k l []).
Proof.
  induction l as [|y r IH]; simpl; [contradiction|].
  intros H. apply in_app_or in H. destruct H as [H|H].
  - exists 0%nat. split; [lia|exact H].
  - destruct (IH H) as (k & Hk & Hin). exists (S k). split; [lia|exact Hin].
Qed.

Lemma nth_in_concat {A} (x : A) (k : nat) (l : list (list A)) :
  In x (nth k l []) -> In x (concat l).
Proof.
  revert k; induction l as [|y r IH]; intros k H.
  - destruct k; contradiction.
  - simpl. apply in_or_app. destruct k; [left; exact H|right; eapply IH, H].
Qed.

(** [set_head] is [upd] on the array of heads. *)
Lemma set_head_upd (fb : Seg.heads) (k : nat) (v : Z) :
  Seg.set_head fb k v = upd k v fb.
Proof.
  revert k; induction fb as [|x r IH]; intros k; [destruct k; reflexivity|].
  destruct k; simpl; [reflexivity|]. rewrite IH. reflexivity.
Qed.

Lemma set_head_same (fb : Seg.heads) (k : nat) :
  Seg.set_head fb k (Seg.head_at fb k) = fb.
Proof. rewrite set_head_upd. apply upd_same. Qed.

Lemma head_at_set_same (fb : Seg.heads) (k : nat) (v : Z) :
  (k < length fb)%nat -> Seg.head_at (Seg.set_head fb k v) k = v.
Proof. intros H. rewrite set_head_upd. apply upd_nth_same, H. Qed.

Lemma head_at_set_other (fb : Seg.heads) (k j : nat) (v : Z) :
  j <> k -> Seg.head_at (Seg.set_head fb k v) j = Seg.head_at fb j.
Proof. intros H. rewrite set_head_upd. apply upd_nth_other, H. Qed.

Lemma set_head_length (fb : Seg.heads) (k : nat) (v : Z) :
  length (Seg.set_head fb k v) = length fb.
Proof. rewrite set_head_upd. apply upd_length. Qed.

(** ** Free blocks *)

Lemma free_blocks_app (a : Z) (l1 l2 : list block) :
  free_blocks a (l1 ++ l2) = free_blocks a l1 ++ free_blocks (a + total l1) l2.
Proof.
  revert a; induction l1 as [|[sz t] r IH]; intros a; simpl.
  - rewrite Z.add_0_r. reflexivity.
  - rewrite IH, <- app_assoc. shift_addr a sz r. reflexivity.
Qed.

Lemma free_ptrs_blocks (a : Z) (bs : list block) :
  free_ptrs a bs = map fst (free_blocks a bs).
Proof.
  revert a; induction bs as [|[sz t] r IH]; intros a; simpl; [reflexivity|].
  rewrite map_app, IH. destruct t; reflexivity.
Qed.

Lemma free_blocks_mid_other (a : Z) (l1 l2 : list block) (sz : Z) (t : status) :
  t <> Free ->
  free_blocks a (l1 ++ (sz, t) :: l2)
  = free_blocks a l1 ++ free_blocks (a + total l1 + sz) l2.
Proof.
  intros Ht. rewrite free_blocks_app. simpl.
  destruct t; try congruence; reflexivity.
Qed.

Lemma free_blocks_mid_free (a : Z) (l1 l2 : list block) (sz : Z) :
  free_blocks a (l1 ++ (sz, Free) :: l2)
  = free_blocks a l1 ++ (a + total l1 + 4, sz) :: free_blocks (a + total l1 + sz) l2.
Proof. rewrite free_blocks_app. reflexivity. Qed.

Lemma free_blocks_at (a : Z) (bs : list block) (p n : Z) :
  In (p, n) (free_blocks a bs) <-> block_at a bs p n Free.
Proof.
  revert a; induction bs as [|[sz t] r IH]; intros a; simpl.
  - split; [contradiction|]. intros (l1 & l2 & E & _). destruct l1; discriminate.
  - rewrite in_app_iff, IH. split.
    + intros [H|(l1 & l2 & -> & ->)].
      * destruct t; simpl in H; try contradiction.
        destruct H as [H|[]]. inversion H; subst.
        exists [], r. split; [reflexivity|simpl; lia].
      * exists ((sz, t) :: l1), l2. split; [reflexivity|simpl; lia].
    + intros (l1 & l2 & E & ->). destruct l1 as [|b l1]; simpl in E.
      * inversion E; subst. left. left. f_equal. simpl. lia.
      * inversion E; subst. right. exists l1, l2.
        split; [reflexivity|simpl; lia].
Qed.

(** ** The single-list code simulates the code of one class *)

(** Case analysis on the tests of two programs laid side by side. *)
Ltac sim_cases :=
  repeat (cbn [mem mem_lo mem_brk mem_max heap_ptr heap_end free_blks];
          match goal with
          | |- context [if ?c then _ else _] => destruct c eqn:?
          end);
  cbn [mem mem_lo mem_brk mem_max heap_ptr heap_end free_blks];
  try discriminate;
  intros H; inversion H; subst;
  rewrite ?set_head_same; reflexivity.

Lemma Seg_delete_sim (s : state Seg.heads) (q sz : Z) (m' : memory) (h' : Z) :
  q <> NULL -> GET_SIZE (GET_HEADER q) s = Done sz s ->
  let k := Seg._get_level sz in
  Mm._delete_free_block q (proj k s)
  = Done tt (set_free_blks (set_mem (proj k s) m') h') ->
  Seg._delete_free_block q s
  = Done tt (set_free_blks (set_mem s m') (Seg.set_head (free_blks s) k h')).
Proof.
  intros Hq Hsz k Hrun.
  unfold Seg._delete_free_block.
  replace (q =? NULL) with false by (symmetry; apply Z.eqb_neq; exact Hq).
  rewrite (bind_rw _ _ _ _ _ Hsz). fold k.
  revert Hrun. unfold Mm._delete_free_block.
  replace (q =? NULL) with false by (symmetry; apply Z.eqb_neq; exact Hq).
  clear Hsz. destruct s as [m lo brk mx hp he fb].
  unfold SUCC_FREE, PRED_FREE, SET_PRED_FREE, SET_SUCC_FREE, READ, WRITE,
    get_free_blks, put_free_blks, get_heap_ptr, bind, ret, in_heap, proj,
    set_free_blks, set_mem.
  sim_cases.
Qed.

Lemma Seg_insert_sim (s : state Seg.heads) (q sz : Z) (m' : memory) (h' : Z) :
  q <> NULL -> GET_SIZE (GET_HEADER q) s = Done sz s ->
  let k := Seg._get_level sz in
  Mm._insert_free_block q (proj k s)
  = Done tt (set_free_blks (set_mem (proj k s) m') h') ->
  Seg._insert_free_block q s
  = Done tt (set_free_blks (set_mem s m') (Seg.set_head (free_blks s) k h')).
Proof.
  intros Hq Hsz k Hrun.
  unfold Seg._insert_free_block.
  replace (q =? NULL) with false by (symmetry; apply Z.eqb_neq; exact Hq).
  rewrite (bind_rw _ _ _ _ _ Hsz). fold k.
  revert Hrun. unfold Mm._insert_free_block.
  replace (q =? NULL) with false by (symmetry; apply Z.eqb_neq; exact Hq).
  clear Hsz. destruct s as [m lo brk mx hp he fb].
  unfold SUCC_FREE, PRED_FREE, SET_PRED_FREE, SET_SUCC_FREE, READ, WRITE,
    get_free_blks, put_free_blks, get_heap_ptr, bind, ret, in_heap, proj,
    set_free_blks, set_mem.
  sim_cases.
Qed.

(** * The weak representation of part_001 *)

Lemma sfirst_hdr_set_mem (s : state Seg.heads) (m : memory) :
  sfirst_hdr (set_mem s m) = sfirst_hdr s.
Proof. reflexivity. Qed.

Lemma sfirst_hdr_set_free_blks (s : state Seg.heads) (f : Seg.heads) :
  sfirst_hdr (set_free_blks s f) = sfirst_hdr s.
Proof. reflexivity. Qed.

Lemma sfirst_hdr_set_heap_end (s : state Seg.heads) (e : Z) :
  sfirst_hdr (set_heap_end s e) = sfirst_hdr s.
Proof. reflexivity. Qed.

Lemma sfirst_hdr_set_brk (s : state Seg.heads) (b : Z) :
  sfirst_hdr (set_brk s b) = sfirst_hdr s.
Proof. reflexivity. Qed.

Ltac norm ::=
  repeat rewrite ?first_hdr_set_mem, ?first_hdr_set_free_blks,
    ?first_hdr_set_heap_end, ?first_hdr_set_brk,
    ?sfirst_hdr_set_mem, ?sfirst_hdr_set_free_blks,
    ?sfirst_hdr_set_heap_end, ?sfirst_hdr_set_brk in *;
  cbn [mem mem_lo mem_brk mem_max heap_ptr heap_end free_blks
       set_mem set_brk set_heap_ptr set_heap_end set_free_blks] in *.

Lemma free_blocks_join (a : Z) (l1 l2 : list block) (n1 n2 : Z) (b1 b2 b : bool) :
  free_blocks a (l1 ++ (n1, Limbo b1) :: (n2, Limbo b2) :: l2)
  = free_blocks a (l1 ++ (n1 + n2, Limbo b) :: l2).
Proof.
  rewrite !free_blocks_app. simpl.
  replace (a + total l1 + n1 + n2) with (a + total l1 + (n1 + n2)) by lia.
  reflexivity.
Qed.

Lemma cls_upd_same (k : nat) (v : list (Z * Z)) (fls : list (list (Z * Z))) :
  (k < length fls)%nat -> cls k (upd k v fls) = map fst v.
Proof. intros H. unfold cls. rewrite upd_nth_same by exact H. reflexivity. Qed.

Lemma cls_upd_other (k j : nat) (v : list (Z * Z)) (fls : list (list (Z * Z))) :
  j <> k -> cls j (upd k v fls) = cls j fls.
Proof. intros H. unfold cls. rewrite upd_nth_other by exact H. reflexivity. Qed.

Lemma cls_in_concat (k : nat) (fls : list (list (Z * Z))) (q : Z) :
  In q (cls k fls) -> In q (map fst (concat fls)).
Proof.
  unfold cls. intros H. apply in_map_iff in H. destruct H as (x & E & H).
  apply in_map_iff. exists x. split; [exact E|]. eapply nth_in_concat, H.
Qed.

Lemma concat_cls_perm (k : nat) (fls : list (list (Z * Z))) :
  (k < length fls)%nat ->
  Permutation (map fst (concat fls))
              (cls k fls ++ map fst (concat (upd k [] fls))).
Proof.
  intros H. unfold cls. rewrite <- map_app. apply Permutation_map.
  rewrite <- (upd_same k [] fls) at 1. apply concat_upd, H.
Qed.

Lemma SW_sizes (s : state Seg.heads) (bs : list block)
      (fls : list (list (Z * Z))) :
  SW s bs fls -> sizes_ok bs.
Proof. intros (_ & Hb & _). eapply blocks_sizes; exact Hb. Qed.

Lemma SW_bounds (s : state Seg.heads) (bs : list block)
      (fls : list (list (Z * Z))) :
  SW s bs fls ->
  0 <= total bs /\ mem_lo s + 24 + total bs = mem_brk s /\
  total bs + 24 < W32 /\ mem_brk s <= mem_max s.
Proof.
  intros HW. pose proof (SW_sizes _ _ _ HW) as Hs.
  destruct HW as ((Hlo & Hhp & Hend & Hbrk & Hmax & H32) & _).
  pose proof (total_nonneg _ Hs). lia.
Qed.

Lemma SW_ptrs (s : state Seg.heads) (bs : list block)
      (fls : list (list (Z * Z))) :
  SW s bs fls ->
  Permutation (map fst (concat fls)) (free_ptrs (sfirst_hdr s) bs).
Proof.
  intros (_ & _ & _ & _ & _ & HP). rewrite free_ptrs_blocks.
  apply Permutation_map, HP.
Qed.

Lemma SW_nodes (s : state Seg.heads) (bs : list block)
      (fls : list (list (Z * Z))) :
  SW s bs fls -> nodes_ok (proj 0 s) (map fst (concat fls)).
Proof.
  intros HW. pose proof (SW_ptrs _ _ _ HW) as HP.
  pose proof (SW_sizes _ _ _ HW) as Hs.
  destruct HW as (Hsc & _).
  eapply nodes_ok_perm; [apply Permutation_sym; exact HP|].
  exact (free_ptrs_nodes (proj 0 s) bs Hsc Hs).
Qed.

(** The nodes of one class, and their distance from the nodes of the
    others. *)
Lemma SW_cls_nodes (s : state Seg.heads) (bs : list block)
      (fls : list (list (Z * Z))) (k : nat) :
  SW s bs fls -> (k < length fls)%nat ->
  nodes_ok (proj k s) (cls k fls) /\
  forall j p q, j <> k -> In p (cls j fls) -> In q (cls k fls) ->
                p + 8 <= q \/ q + 8 <= p.
Proof.
  intros HW Hk. pose proof (SW_nodes _ _ _ HW) as Hn.
  apply (nodes_ok_perm _ _ _ (concat_cls_perm k fls Hk)) in Hn.
  destruct Hn as (Hall & Hfar).
  apply Forall_app in Hall. destruct Hall as [Hall _].
  apply far_apart_app in Hfar. destruct Hfar as (Hf1 & _ & Hsep).
  split; [split; [exact Hall|exact Hf1]|].
  intros j p q Hj Hp Hq.
  assert (Hp' : In p (map fst (concat (upd k [] fls)))).
  { apply (cls_in_concat j). rewrite cls_upd_other by exact Hj. exact Hp. }
  specialize (Hsep q p Hq Hp'). lia.
Qed.

Lemma seg_lists_frame (m m' : memory) (hp : Z) (heads : Seg.heads)
      (fls : list (list (Z * Z))) :
  (forall k q y, In q (cls k fls) -> q <= y < q + 8 -> m' y = m y) ->
  seg_lists m hp heads fls -> seg_lists m' hp heads fls.
Proof.
  intros Hfr (Hl1 & Hl2 & H). split; [exact Hl1|]. split; [exact Hl2|].
  intros k Hk. destruct (H k Hk) as [Hd Hh]. split; [|exact Hh].
  eapply dllseg_frame; [|exact Hd]. intros q y Hq Hy. eapply Hfr; eassumption.
Qed.

(** Changing memory outside metadata and link words keeps [SW]. *)
Lemma SW_frame (s : state Seg.heads) (bs : list block)
      (fls : list (list (Z * Z))) (m' : memory) :
  SW s bs fls ->
  (forall y, meta (sfirst_hdr s) bs y -> m' y = mem s y) ->
  (forall y, in_links (sfirst_hdr s) bs y -> m' y = mem s y) ->
  (forall y, heap_end s <= y < heap_end s + 4 -> m' y = mem s y) ->
  SW (set_mem s m') bs fls.
Proof.
  intros HW Hm Hl Hep. pose proof (SW_ptrs _ _ _ HW) as HPp.
  destruct HW as (Hsc & Hb & He & Hd & Hlv & HP).
  split; [exact Hsc|]. norm.
  split; [|split; [|split; [|split]]]; trivial.
  - eapply blocks_frame; [|exact Hb]. exact Hm.
  - rewrite <- He. apply rd_ext. exact Hep.
  - eapply seg_lists_frame; [|exact Hd].
    intros k q y Hq Hy. apply Hl. exists q. split; [|exact Hy].
    eapply Permutation_in; [exact HPp|]. eapply cls_in_concat, Hq.
Qed.

(** A write inside a block in limbo keeps [SW]. *)
Lemma SW_write_limbo (s : state Seg.heads) (l1 l2 : list block) (sz : Z)
      (nb : bool) (fls : list (list (Z * Z))) (x v : Z) :
  SW s (l1 ++ (sz, Limbo nb) :: l2) fls ->
  sfirst_hdr s + total l1 <= x -> x + 4 <= sfirst_hdr s + total l1 + sz ->
  SW (set_mem s (wr (mem s) x v)) (l1 ++ (sz, Limbo nb) :: l2) fls.
Proof.
  intros HW Hx1 Hx2. pose proof (SW_sizes _ _ _ HW) as Hs.
  assert (Hlim : forall y, x <= y < x + 4 ->
                           in_limbo (sfirst_hdr s) (l1 ++ (sz, Limbo nb) :: l2) y).
  { intros y Hy. apply in_limbo_mid. lia. }
  apply SW_frame; trivial.
  - intros y Hy. apply wr_other_byte.
    destruct (Z_lt_dec y x); [lia|]. destruct (Z_le_dec (x + 4) y); [lia|].
    exfalso. eapply limbo_not_meta; [exact Hs|apply Hlim|exact Hy]. lia.
  - intros y Hy. apply wr_other_byte.
    destruct (Z_lt_dec y x); [lia|]. destruct (Z_le_dec (x + 4) y); [lia|].
    exfalso. eapply limbo_not_links; [exact Hs|apply Hlim|exact Hy]. lia.
  - intros y Hy. apply wr_other_byte.
    destruct HW as ((_ & _ & Hend & _) & _).
    rewrite total_app in Hend. simpl in Hend.
    apply sizes_ok_app in Hs. destruct Hs as [_ Hs].
    apply sizes_ok_cons in Hs. destruct Hs as [_ Hs].
    pose proof (total_nonneg _ Hs). unfold sfirst_hdr in *. lia.
Qed.

(** ** Status changes that leave memory alone *)

Lemma SW_forget_alloc (s : state Seg.heads) (l1 l2 : list block) (sz : Z)
      (fls : list (list (Z * Z))) :
  SW s (l1 ++ (sz, Allocated) :: l2) fls ->
  SW s (l1 ++ (sz, Limbo true) :: l2) fls.
Proof.
  intros (Hsc & Hb & He & Hd & Hlv & HP).
  rewrite total_mid in Hsc. rewrite tail_pa_mid in He.
  rewrite free_blocks_mid_other in HP by discriminate.
  apply blocks_mid in Hb.
  split; [rewrite total_mid; exact Hsc|].
  split; [apply blocks_mid; tauto|].
  split; [rewrite tail_pa_mid; exact He|].
  rewrite free_blocks_mid_other by discriminate. tauto.
Qed.

Lemma SW_claim (s : state Seg.heads) (l1 l2 : list block) (sz : Z)
      (fls : list (list (Z * Z))) :
  SW s (l1 ++ (sz, Limbo true) :: l2) fls ->
  rd (mem s) (sfirst_hdr s + total l1) = hdr sz (tail_pa true l1) true ->
  SW s (l1 ++ (sz, Allocated) :: l2) fls.
Proof.
  intros (Hsc & Hb & He & Hd & Hlv & HP) Hhdr.
  rewrite total_mid in Hsc. rewrite tail_pa_mid in He.
  rewrite free_blocks_mid_other in HP by discriminate.
  apply blocks_mid in Hb.
  split; [rewrite total_mid; exact Hsc|].
  split; [apply blocks_mid; tauto|].
  split; [rewrite tail_pa_mid; exact He|].
  rewrite free_blocks_mid_other by discriminate. tauto.
Qed.

(** Two neighbours in limbo are one block in limbo, and conversely. *)
Lemma SW_join (s : state Seg.heads) (l1 l2 : list block) (n1 n2 : Z)
      (b1 b2 : bool) (fls : list (list (Z * Z))) :
  SW s (l1 ++ (n1, Limbo b1) :: (n2, Limbo b2) :: l2) fls ->
  SW s (l1 ++ (n1 + n2, Limbo b2) :: l2) fls.
Proof.
  intros (Hsc & Hb & He & Hd & Hlv & HP).
  rewrite total_mid in Hsc. rewrite tail_pa_mid in He.
  rewrite free_blocks_mid_other in HP by discriminate.
  apply blocks_mid in Hb. simpl in *.
  destruct Hb as (Hb1 & [? ?] & _ & [? ?] & _ & Hb2).
  split; [rewrite total_mid; replace (total l1 + (n1 + n2) + total l2)
            with (total l1 + n1 + (n2 + total l2)) by lia; exact Hsc|].
  split; [apply blocks_mid; repeat split; trivial; try lia|].
  - rewrite Z.add_mod, H0, H2 by lia. reflexivity.
  - replace (sfirst_hdr s + total l1 + (n1 + n2))
      with (sfirst_hdr s + total l1 + n1 + n2) by lia. exact Hb2.
  - split; [rewrite tail_pa_mid; exact He|].
    rewrite free_blocks_mid_other by discriminate.
    replace (sfirst_hdr s + total l1 + (n1 + n2))
      with (sfirst_hdr s + total l1 + n1 + n2) by lia. tauto.
Qed.

Lemma SW_split (s : state Seg.heads) (l1 l2 : list block) (n n1 : Z)
      (b b1 : bool) (fls : list (list (Z * Z))) :
  SW s (l1 ++ (n, Limbo b) :: l2) fls ->
  16 <= n1 -> n1 mod 8 = 0 -> 16 <= n - n1 ->
  SW s (l1 ++ (n1, Limbo b1) :: (n - n1, Limbo b) :: l2) fls.
Proof.
  intros (Hsc & Hb & He & Hd & Hlv & HP) H1 H2 H3.
  rewrite total_mid in Hsc. rewrite tail_pa_mid in He.
  rewrite free_blocks_mid_other in HP by discriminate.
  apply blocks_mid in Hb. simpl in *.
  destruct Hb as (Hb1 & [? Hn] & _ & Hb2).
  assert (Hm : (n - n1) mod 8 = 0).
  { rewrite Zminus_mod, Hn, H2. reflexivity. }
  split; [rewrite total_mid; simpl;
          replace (total l1 + n1 + (n - n1 + total l2))
            with (total l1 + n + total l2) by lia; exact Hsc|].
  split; [apply blocks_mid; simpl; repeat split; trivial|].
  - replace (sfirst_hdr s + total l1 + n1 + (n - n1))
      with (sfirst_hdr s + total l1 + n) by lia. exact Hb2.
  - split; [rewrite tail_pa_mid; exact He|].
    rewrite free_blocks_mid_other by discriminate. simpl.
    replace (sfirst_hdr s + total l1 + n1 + (n - n1))
      with (sfirst_hdr s + total l1 + n) by lia. tauto.
Qed.

(** ** The header after a block in limbo *)

Lemma SW_next_header (s : state Seg.heads) (l1 l2 : list block) (sz : Z)
      (nb : bool) (fls : list (list (Z * Z))) :
  SW s (l1 ++ (sz, Limbo nb) :: l2) fls -> head_settled l2 ->
  let x := sfirst_hdr s + total l1 + sz in
  inb s x /\
  rd (mem s) x = hdr (head_size l2) nb (head_alloc l2) /\
  head_size l2 mod 8 = 0 /\ 0 <= head_size l2 /\ head_size l2 + 8 <= W32 /\
  forall nb',
    SW (set_mem s (wr (mem s) x (hdr (head_size l2) nb' (head_alloc l2))))
       (l1 ++ (sz, Limbo nb') :: l2) fls.
Proof.
  intros HW Hset x.
  pose proof (SW_sizes _ _ _ HW) as Hs.
  pose proof (SW_bounds _ _ _ HW) as (Ht0 & Htb & Ht32 & Hmax).
  pose proof (SW_ptrs _ _ _ HW) as HPp.
  destruct HW as (Hsc & Hb & He & Hd & Hlv & HP).
  pose proof Hsc as (Hlo & Hhp & Hend & Hbrk & _).
  rewrite total_mid in *. rewrite tail_pa_mid in He. simpl next_pa in He.
  apply sizes_ok_mid in Hs. destruct Hs as (Hs1 & [Hsz Hsz8] & Hs2).
  pose proof (total_nonneg _ Hs1) as Ht1. pose proof (total_nonneg _ Hs2) as Ht2.
  apply blocks_mid in Hb. destruct Hb as (Hb1 & _ & _ & Hb2).
  simpl next_pa in Hb2. fold x in Hb2.
  rewrite free_blocks_mid_other in HP by discriminate. fold x in HP.
  assert (Hlinks : forall y, in_links (sfirst_hdr s) (l1 ++ (sz, Limbo nb) :: l2) y ->
                             y < x \/ x + 4 <= y).
  { intros y Hy. apply in_links_mid_other in Hy; [|discriminate]. fold x in Hy.
    destruct Hy as [Hy|Hy].
    - apply in_links_range in Hy; trivial. unfold x. lia.
    - destruct l2 as [|[n t] r]; [destruct Hy as (? & [] & _)|].
      apply in_links_cons in Hy. destruct Hy as [[_ Hy]|Hy]; [lia|].
      apply sizes_ok_cons in Hs2. destruct Hs2 as [[? ?] Hs2].
      apply in_links_range in Hy; trivial. lia. }
  assert (Hdll : forall v, seg_lists (wr (mem s) x v) (heap_ptr s) (free_blks s) fls).
  { intros v. eapply seg_lists_frame; [|exact Hd].
    intros k q y Hq Hy. apply wr_other_byte.
    apply Hlinks. exists q. split; [|exact Hy].
    eapply Permutation_in; [exact HPp|]. eapply cls_in_concat, Hq. }
  assert (Hb1' : forall v, blocks (wr (mem s) x v) (sfirst_hdr s) true l1).
  { intros v. eapply blocks_frame; [|exact Hb1].
    intros y Hy. apply wr_other_byte. apply meta_range in Hy; trivial.
    unfold x. lia. }
  destruct l2 as [|[n t] r].
  - (* the epilogue *)
    simpl in *. assert (Hx : x = heap_end s) by (unfold x, sfirst_hdr; lia).
    split; [unfold inb, x, sfirst_hdr; lia|].
    split; [rewrite Hx; exact He|].
    split; [reflexivity|]. split; [lia|]. split; [unfold W32; lia|].
    intros nb'. split; [rewrite total_mid; exact Hsc|]. norm.
    split; [apply blocks_mid; repeat split; trivial; apply Hb1'|].
    split; [|split; [apply Hdll|split; trivial]].
    + rewrite tail_pa_mid. simpl. rewrite <- Hx.
      apply rd_wr_same_small. apply hdr_fits; unfold W32; lia.
    + rewrite free_blocks_mid_other by discriminate. exact HP.
  - (* a settled block *)
    apply sizes_ok_cons in Hs2. destruct Hs2 as [[Hn Hn8] Hsr].
    pose proof (total_nonneg _ Hsr) as Htr.
    simpl total in *. simpl head_size. simpl in Hb2.
    destruct Hb2 as (_ & Hhd & Hbr).
    assert (Hrd : rd (mem s) x = hdr n nb (head_alloc ((n, t) :: r))).
    { destruct t; simpl; [exact Hhd|apply Hhd|contradiction]. }
    split; [unfold inb, x, sfirst_hdr; lia|].
    split; [exact Hrd|]. split; [exact Hn8|]. split; [lia|].
    split; [lia|].
    intros nb'. split; [rewrite total_mid; exact Hsc|]. norm.
    assert (Hfit : 0 <= hdr n nb' (head_alloc ((n, t) :: r)) < W32)
      by (apply hdr_fits; lia).
    split; [|split; [|split; [apply Hdll|split; trivial]]].
    + apply blocks_mid. split; [apply Hb1'|]. split; [tauto|]. split; [exact I|].
      fold x. simpl. split; [tauto|]. split.
      * destruct t; simpl in *; [|split|contradiction].
        -- apply rd_wr_same_small. exact Hfit.
        -- apply rd_wr_same_small. exact Hfit.
        -- rewrite rd_wr_other by lia. apply Hhd.
      * eapply blocks_frame; [|exact Hbr].
        intros y Hy. apply wr_other_byte. apply meta_range in Hy; trivial. lia.
    + rewrite tail_pa_mid. simpl. rewrite rd_wr_other; [exact He|].
      unfold x, sfirst_hdr in *. lia.
    + rewrite free_blocks_mid_other by discriminate. exact HP.
Qed.

(** ** Taking a free block off the list of its class *)

Lemma SW_unlist (s : state Seg.heads) (l1 l2 : list block) (sz : Z)
      (fls : list (list (Z * Z))) :
  SW s (l1 ++ (sz, Free) :: l2) fls ->
  exists m' fb' fls',
    Seg._delete_free_block (sfirst_hdr s + total l1 + 4) s
    = Done tt (set_free_blks (set_mem s m') fb') /\
    SW (set_free_blks (set_mem s m') fb')
       (l1 ++ (sz, Limbo false) :: l2) fls' /\
    slinks_frame s (l1 ++ (sz, Limbo false) :: l2) m'.
Proof.
  intros HW.
  pose proof (SW_sizes _ _ _ HW) as Hsz.
  pose proof (SW_bounds _ _ _ HW) as (Ht0 & Htb & Ht32 & Hmax).
  pose proof (SW_ptrs _ _ _ HW) as HPp.
  pose proof HW as (Hsc & Hb & He & (Hlen & Hlenh & Hd) & Hlv & HP).
  set (a := sfirst_hdr s) in *. set (q := a + total l1 + 4).
  rewrite free_blocks_mid_free in HP. fold q in HP.
  rewrite free_ptrs_mid_free in HPp. fold q in HPp.
  assert (Hin : In (q, sz) (concat fls)).
  { eapply Permutation_in; [apply Permutation_sym; exact HP|].
    apply in_or_app. right. left. reflexivity. }
  destruct (in_concat_nth _ _ Hin) as (k & Hk & Hink).
  pose proof (Hlv _ _ _ Hink) as Ek.
  destruct (in_split _ _ Hink) as (g1 & g2 & Eg).
  assert (Ecls : cls k fls = map fst g1 ++ q :: map fst g2).
  { unfold cls. rewrite Eg, map_app. reflexivity. }
  destruct (SW_cls_nodes s _ fls k HW Hk) as (Hnodes & Hsep).
  destruct (Hd k ltac:(lia)) as (Hdk & Hhk).
  fold (cls k fls) in Hdk, Hhk. rewrite Ecls in Hnodes, Hdk, Hhk.
  destruct (delete_spec (proj k s) (map fst g1) (map fst g2) q Hnodes Hdk Hhk)
    as (m' & Hrun & Hd' & Hfr).
  pose proof Hsz as Hsz0.
  apply sizes_ok_mid in Hsz0. destruct Hsz0 as (Hs1 & [Hn Hn8] & Hs2).
  pose proof (total_nonneg _ Hs1) as Ht1. pose proof (total_nonneg _ Hs2) as Ht2.
  rewrite total_mid in Ht0, Htb, Ht32.
  assert (Hq0 : q <> NULL).
  { unfold q, a, sfirst_hdr, NULL. destruct Hsc as (? & _). lia. }
  assert (Hgs : GET_SIZE (GET_HEADER q) s = Done sz s).
  { unfold q. rewrite GET_HEADER_hdr.
    apply blocks_mid in Hb. destruct Hb as (_ & _ & [Hh _] & _).
    eapply GET_SIZE_ok; [|exact Hh|exact Hn8|lia|lia].
    unfold inb, a, sfirst_hdr. lia. }
  pose proof (Seg_delete_sim s q sz m' (hd 0 (map fst g1 ++ map fst g2))
                Hq0 Hgs) as Hsim.
  cbv zeta in Hsim. rewrite Ek in Hsim. specialize (Hsim Hrun).
  assert (Hsz' : sizes_ok (l1 ++ (sz, Limbo false) :: l2))
    by (apply sizes_ok_mid; tauto).
  assert (Hframe : slinks_frame s (l1 ++ (sz, Limbo false) :: l2) m').
  { intros y Hy. apply Hfr. intros p Hp.
    destruct (Z_lt_dec y p); [left; assumption|].
    destruct (Z_le_dec (p + 8) y); [right; assumption|].
    exfalso. apply Hy. exists p. split; [|lia].
    rewrite free_ptrs_mid_other by discriminate.
    assert (Hp' : In p (q :: free_ptrs a l1 ++ free_ptrs (a + total l1 + sz) l2)).
    { eapply Permutation_in;
        [apply Permutation_sym, Permutation_middle|].
      eapply Permutation_in; [exact HPp|].
      apply (cls_in_concat k). rewrite Ecls.
      apply in_app_or in Hp. apply in_or_app.
      destruct Hp as [Hp|Hp]; [left; exact Hp|right; right; exact Hp]. }
    destruct Hp' as [E|Hp']; [|exact Hp'].
    exfalso. subst p.
    destruct Hnodes as (_ & Hfar). apply far_apart_mid in Hfar.
    destruct Hfar as (_ & Hfar). specialize (Hfar q Hp). lia. }
  exists m', (Seg.set_head (free_blks s) k (hd 0 (map fst g1 ++ map fst g2))),
    (upd k (g1 ++ g2) fls).
  split; [exact Hsim|]. split; [|exact Hframe].
  split; [rewrite total_mid in *; exact Hsc|]. norm. fold a.
  split; [|split; [|split; [|split]]].
  - eapply blocks_frame.
    + intros y Hy. apply Hframe. eapply meta_not_links; eassumption.
    + apply blocks_mid in Hb. apply blocks_mid. tauto.
  - rewrite tail_pa_mid in *. simpl next_pa in *.
    rewrite <- He. apply rd_ext. intros y Hy.
    apply Hframe. intros Hl. apply in_links_range in Hl; trivial.
    destruct Hsc as (_ & _ & Hend & _). rewrite total_mid in *.
    fold a in Hl. unfold a, sfirst_hdr in *. lia.
  - split; [rewrite upd_length; exact Hlen|].
    split; [rewrite set_head_length; exact Hlenh|].
    intros j Hj. fold (cls j (upd k (g1 ++ g2) fls)).
    destruct (Nat.eq_dec j k) as [->|Hjk].
    + rewrite cls_upd_same by exact Hk. rewrite map_app.
      split; [exact Hd'|]. apply head_at_set_same.
      change Seg.max_level with 17%nat in Hlen. lia.
    + rewrite cls_upd_other by exact Hjk.
      rewrite head_at_set_other by exact Hjk.
      destruct (Hd j Hj) as (Hdj & Hhj). split; [|exact Hhj].
      eapply dllseg_frame; [|exact Hdj].
      intros p y Hp Hy. apply Hfr. intros p' Hp'.
      assert (Hp'k : In p' (cls k fls)).
      { rewrite Ecls. apply in_app_or in Hp'. apply in_or_app.
        destruct Hp' as [H|H]; [left; exact H|right; right; exact H]. }
      specialize (Hsep j p p' Hjk Hp Hp'k). lia.
  - intros j p n Hp.
    destruct (Nat.eq_dec j k) as [->|Hjk].
    + rewrite upd_nth_same in Hp by exact Hk. apply (Hlv k p n).
      rewrite Eg. apply in_app_or in Hp. apply in_or_app.
      destruct Hp as [H|H]; [left; exact H|right; right; exact H].
    + rewrite upd_nth_other in Hp by exact Hjk. exact (Hlv j p n Hp).
  - rewrite free_blocks_mid_other by discriminate.
    pose proof (concat_upd_remove k g1 g2 (q, sz) fls Hk Eg) as HPc.
    apply (Permutation_cons_inv (a := (q, sz))).
    eapply Permutation_trans; [apply Permutation_sym; exact HPc|].
    eapply Permutation_trans; [exact HP|].
    apply Permutation_sym, Permutation_middle.
Qed.

(** ** Putting a block in limbo on the list of its class *)

Lemma SW_list (s : state Seg.heads) (l1 l2 : list block) (sz : Z)
      (fls : list (list (Z * Z))) :
  SW s (l1 ++ (sz, Limbo false) :: l2) fls ->
  rd (mem s) (sfirst_hdr s + total l1) = hdr sz (tail_pa true l1) false ->
  rd (mem s) (sfirst_hdr s + total l1 + sz - 4) = sz ->
  exists m' fb' fls',
    Seg._insert_free_block (sfirst_hdr s + total l1 + 4) s
    = Done tt (set_free_blks (set_mem s m') fb') /\
    SW (set_free_blks (set_mem s m') fb')
       (l1 ++ (sz, Free) :: l2) fls' /\
    slinks_frame s (l1 ++ (sz, Free) :: l2) m'.
Proof.
  intros HW Hhdr Hftr.
  pose proof (SW_sizes _ _ _ HW) as Hsz.
  pose proof (SW_bounds _ _ _ HW) as (Ht0 & Htb & Ht32 & Hmax).
  pose proof (SW_ptrs _ _ _ HW) as HPp.
  pose proof HW as (Hsc & Hb & He & (Hlen & Hlenh & Hd) & Hlv & HP).
  set (a := sfirst_hdr s) in *. set (q := a + total l1 + 4).
  rewrite free_blocks_mid_other in HP by discriminate.
  rewrite free_ptrs_mid_other in HPp by discriminate.
  pose proof Hsz as Hsz0.
  apply sizes_ok_mid in Hsz0. destruct Hsz0 as (Hs1 & [Hn Hn8] & Hs2).
  pose proof (total_nonneg _ Hs1) as Ht1. pose proof (total_nonneg _ Hs2) as Ht2.
  rewrite total_mid in Ht0, Htb, Ht32.
  assert (Hsz' : sizes_ok (l1 ++ (sz, Free) :: l2))
    by (apply sizes_ok_mid; tauto).
  set (k := Seg._get_level sz).
  assert (Hk : (k < length fls)%nat).
  { rewrite Hlen. pose proof (Seg_get_level_le sz). fold k in H. lia. }
  set (fls' := upd k ((q, sz) :: nth k fls []) fls).
  assert (HP' : Permutation (concat fls')
                            (free_blocks a (l1 ++ (sz, Free) :: l2))).
  { rewrite free_blocks_mid_free. fold q.
    eapply Permutation_trans; [apply concat_upd_cons; exact Hk|].
    apply Permutation_cons_app. exact HP. }
  assert (Hsc' : sscalars s (total (l1 ++ (sz, Free) :: l2)))
    by (rewrite total_mid in *; exact Hsc).
  assert (HPp' : Permutation (map fst (concat fls'))
                             (free_ptrs a (l1 ++ (sz, Free) :: l2))).
  { rewrite free_ptrs_blocks. apply Permutation_map, HP'. }
  assert (Hnall : nodes_ok (proj k s) (map fst (concat fls'))).
  { eapply nodes_ok_perm; [apply Permutation_sym; exact HPp'|].
    exact (free_ptrs_nodes (proj k s) _ Hsc' Hsz'). }
  assert (Hlen' : length fls' = length fls) by apply upd_length.
  assert (Hk' : (k < length fls')%nat) by lia.
  assert (Ecls' : cls k fls' = q :: cls k fls).
  { unfold fls'. rewrite cls_upd_same by exact Hk. reflexivity. }
  pose proof (nodes_ok_perm _ _ _ (concat_cls_perm k fls' Hk') Hnall)
    as (Hall & Hfar).
  apply Forall_app in Hall. destruct Hall as [Hall _].
  apply far_apart_app in Hfar. destruct Hfar as (Hf1 & _ & Hsep).
  rewrite Ecls' in Hall, Hf1, Hsep.
  destruct (Hd k ltac:(lia)) as (Hdk & Hhk).
  fold (cls k fls) in Hdk, Hhk.
  destruct (insert_spec (proj k s) (cls k fls) q (conj Hall Hf1) Hdk Hhk)
    as (m' & Hrun & Hd' & Hfr).
  assert (Hq0 : q <> NULL).
  { unfold q, a, sfirst_hdr, NULL. destruct Hsc as (? & _). lia. }
  assert (Hgs : GET_SIZE (GET_HEADER q) s = Done sz s).
  { unfold q. rewrite GET_HEADER_hdr.
    eapply GET_SIZE_ok; [|exact Hhdr|exact Hn8|lia|lia].
    unfold inb, a, sfirst_hdr. lia. }
  pose proof (Seg_insert_sim s q sz m' q Hq0 Hgs) as Hsim.
  cbv zeta in Hsim. fold k in Hsim. specialize (Hsim Hrun).
  assert (Hframe : slinks_frame s (l1 ++ (sz, Free) :: l2) m').
  { intros y Hy. apply Hfr. intros p Hp.
    destruct (Z_lt_dec y p); [left; assumption|].
    destruct (Z_le_dec (p + 8) y); [right; assumption|].
    exfalso. apply Hy. exists p. split; [|lia].
    eapply Permutation_in; [exact HPp'|].
    apply (cls_in_concat k). rewrite Ecls'. exact Hp. }
  exists m', (Seg.set_head (free_blks s) k q), fls'.
  split; [exact Hsim|]. split; [|exact Hframe].
  split; [exact Hsc'|]. norm. fold a.
  split; [|split; [|split; [|split]]].
  - eapply blocks_frame.
    + intros y Hy. apply Hframe. eapply meta_not_links; eassumption.
    + apply blocks_mid in Hb. apply blocks_mid. tauto.
  - rewrite tail_pa_mid in *. simpl next_pa in *.
    rewrite <- He. apply rd_ext. intros y Hy.
    apply Hframe. intros Hl. apply in_links_range in Hl; trivial.
    destruct Hsc as (_ & _ & Hend & _). rewrite total_mid in *.
    fold a in Hl. unfold a, sfirst_hdr in *. lia.
  - split; [rewrite Hlen'; exact Hlen|].
    split; [rewrite set_head_length; exact Hlenh|].
    intros j Hj. fold (cls j fls').
    destruct (Nat.eq_dec j k) as [->|Hjk].
    + rewrite Ecls'. split; [exact Hd'|]. apply head_at_set_same.
      change Seg.max_level with 17%nat in Hlen. lia.
    + unfold fls'. rewrite cls_upd_other by exact Hjk.
      rewrite head_at_set_other by exact Hjk.
      destruct (Hd j Hj) as (Hdj & Hhj). split; [|exact Hhj].
      eapply dllseg_frame; [|exact Hdj].
      intros p y Hp Hy. apply Hfr. intros p' Hp'.
      assert (Hpc : In p (map fst (concat (upd k [] fls')))).
      { apply (cls_in_concat j). rewrite cls_upd_other by exact Hjk.
        unfold fls'. rewrite cls_upd_other by exact Hjk. exact Hp. }
      specialize (Hsep p' p Hp' Hpc). lia.
  - intros j p n Hp. unfold fls' in Hp.
    destruct (Nat.eq_dec j k) as [->|Hjk].
    + rewrite upd_nth_same in Hp by exact Hk.
      destruct Hp as [E|Hp]; [inversion E; subst; reflexivity|].
      exact (Hlv k p n Hp).
    + rewrite upd_nth_other in Hp by exact Hjk. exact (Hlv j p n Hp).
  - exact HP'.
Qed.

(** * The coalescer of part_001 *)

Lemma slinks_frame_join (s : state Seg.heads) (l1 l2 : list block) (n1 n2 : Z)
      (b1 b2 b : bool) (m' : memory) :
  slinks_frame s (l1 ++ (n1, Limbo b1) :: (n2, Limbo b2) :: l2) m' ->
  slinks_frame s (l1 ++ (n1 + n2, Limbo b) :: l2) m'.
Proof.
  unfold slinks_frame, in_links. intros H y Hy. apply H.
  rewrite (free_ptrs_join _ _ _ _ _ _ _ b). exact Hy.
Qed.

Lemma sframe_rd (s : state Seg.heads) (bs : list block) (m' : memory) (x : Z) :
  slinks_frame s bs m' ->
  (forall y, x <= y < x + 4 -> ~ in_links (sfirst_hdr s) bs y) ->
  rd m' x = rd (mem s) x.
Proof. intros Hf Hx. apply rd_ext. intros y Hy. apply Hf, Hx, Hy. Qed.

Lemma sframe_rd_limbo (s : state Seg.heads) (l1 l2 : list block) (sz : Z) (nb : bool)
      (m' : memory) (x : Z) :
  slinks_frame s (l1 ++ (sz, Limbo nb) :: l2) m' ->
  sizes_ok (l1 ++ (sz, Limbo nb) :: l2) ->
  sfirst_hdr s + total l1 <= x -> x + 4 <= sfirst_hdr s + total l1 + sz ->
  rd m' x = rd (mem s) x.
Proof.
  intros Hf Hs H1 H2. eapply sframe_rd; [exact Hf|].
  intros y Hy. apply limbo_not_links; [exact Hs|]. apply in_limbo_mid. lia.
Qed.

Lemma sframe_payload (s : state Seg.heads) (bs : list block) (m' : memory) (y : Z) :
  slinks_frame s bs m' -> sizes_ok bs -> in_payload (sfirst_hdr s) bs y ->
  m' y = mem s y.
Proof. intros Hf Hs Hy. apply Hf. apply payload_not_links; assumption. Qed.

Lemma set_mem_same {F} (s : state F) : set_mem s (mem s) = s.
Proof. destruct s; reflexivity. Qed.

Lemma hdr_lxor (n : Z) (al : bool) :
  n mod 8 = 0 -> Z.lxor (hdr n true al) 2 = hdr n false al.
Proof.
  intros H.
  replace (hdr n true al) with (hdr n false al + 2)
    by (unfold hdr; simpl; lia).
  rewrite Z.add_nocarry_lxor by (apply (hdr_prealloc n false al H)).
  rewrite Z.lxor_assoc, Z.lxor_nilpotent, Z.lxor_0_r. reflexivity.
Qed.

(** [if (GET_PREALLOC(h)) WRITE(h, READ(h) ^ 2)] on the header after a
    block in limbo: the PREV_ALLOC bit there is clear afterwards, and no
    other word has changed. *)
Lemma sclear_spec (s : state Seg.heads) (l1 l2 : list block) (sz : Z)
      (nb : bool) (fls : list (list (Z * Z))) (ptr : Z) :
  SW s (l1 ++ (sz, Limbo nb) :: l2) fls -> head_settled l2 ->
  SUCC_BLK ptr s = Done (sfirst_hdr s + total l1 + sz + 4) s ->
  exists m4,
    Seg.clear_succ_prealloc ptr s = Done tt (set_mem s m4) /\
    SW (set_mem s m4) (l1 ++ (sz, Limbo false) :: l2) fls /\
    (forall y, y < sfirst_hdr s + total l1 + sz \/
               sfirst_hdr s + total l1 + sz + 4 <= y -> m4 y = mem s y) /\
    (forall p, p + 4 <= sfirst_hdr s + total l1 + sz \/
               sfirst_hdr s + total l1 + sz + 4 <= p -> rd m4 p = rd (mem s) p).
Proof.
  intros HW Hset Hsb.
  destruct (SW_next_header s l1 l2 sz nb fls HW Hset)
    as (Hxb & Hxr & Hx8 & Hx0 & Hx32 & Hxw).
  set (x := sfirst_hdr s + total l1 + sz) in *.
  unfold Seg.clear_succ_prealloc.
  rstep ltac:(exact Hsb). rewrite GET_HEADER_hdr.
  rstep ltac:(eapply GET_PREALLOC_ok; [exact Hxb|exact Hxr|exact Hx8]).
  destruct nb; cbn [bit_pa Z.eqb negb].
  - rstep ltac:(exact Hsb). rstep ltac:(exact Hsb). rewrite GET_HEADER_hdr.
    rstep ltac:(apply READ_ok; exact Hxb).
    rewrite Hxr, hdr_lxor by exact Hx8.
    exists (wr (mem s) x (hdr (head_size l2) false (head_alloc l2))).
    split; [apply WRITE_ok; exact Hxb|].
    split; [apply Hxw|].
    split; [intros y Hy; apply wr_other_byte; lia|].
    intros p Hp. apply rd_wr_other. lia.
  - exists (mem s). rewrite set_mem_same.
    split; [reflexivity|]. split; [exact HW|]. split; reflexivity.
Qed.

Lemma smerge_spec (s : state Seg.heads) (l1 l2 : list block) (sz : Z) (nb : bool)
      (fls : list (list (Z * Z))) :
  let a := sfirst_hdr s in
  SW s (l1 ++ (sz, Limbo nb) :: l2) fls ->
  rd (mem s) (a + total l1) = hdr sz (tail_pa true l1) false ->
  rd (mem s) (a + total l1 + sz - 4) = sz ->
  naf true l1 -> naf true l2 -> no_limbo l1 -> no_limbo l2 ->
  exists r s',
    Seg._merge_free_blocks (a + total l1 + 4) s = Done r s' /\
    smerged s l1 l2 sz r s'.
Proof.
  intros a HW Hhdr Hftr Hnaf1 Hnaf2 Hnl1 Hnl2. subst a.
  pose proof (SW_sizes _ _ _ HW) as Hs.
  pose proof (SW_bounds _ _ _ HW) as (Ht0 & Htb & Ht32 & Hmax).
  rewrite total_mid in Ht0, Htb, Ht32.
  apply sizes_ok_mid in Hs. destruct Hs as (Hs1 & [Hsz Hsz8] & Hs2).
  pose proof (total_nonneg _ Hs1) as Ht1. pose proof (total_nonneg _ Hs2) as Ht2.
  destruct (SW_next_header s l1 l2 sz nb fls HW (no_limbo_settled _ Hnl2))
    as (Hxb & Hxr & Hx8 & Hx0 & Hx32 & Hxw).
  assert (Hhb : inb s (sfirst_hdr s + total l1)) by (unfold inb, sfirst_hdr; lia).
  unfold Seg._merge_free_blocks. rewrite !GET_HEADER_hdr.
  astep ltac:(eapply GET_PREALLOC_ok; [exact Hhb|exact Hhdr|exact Hsz8]).
  astep ltac:(eapply SUCC_HEADER_hdr; [exact Hhb|exact Hhdr|exact Hsz8|lia|lia]).
  astep ltac:(eapply GET_ALLOC_ok; [exact Hxb|exact Hxr|exact Hx8]).
  destruct (tail_pa true l1) eqn:Epa; destruct (head_alloc l2) eqn:Eal;
    cbn [bit_pa bit_al Z.eqb negb andb].
  - (* both neighbours allocated *)
    destruct (sclear_spec s l1 l2 sz nb fls (sfirst_hdr s + total l1 + 4) HW
                (no_limbo_settled _ Hnl2))
      as (m4 & Hrun4 & HW4 & Hb4 & Hr4).
    { eapply SUCC_BLK_hdr; [exact Hhb|exact Hhdr|exact Hsz8|lia|lia]. }
    astep ltac:(exact Hrun4).
    astep ltac:(reflexivity).
    set (s1 := set_mem s m4) in *.
    destruct (SW_list s1 l1 l2 sz fls HW4) as (m' & fb' & fls' & Hrun & HW' & Hfr).
    { subst s1. norm. rewrite Hr4 by lia. rewrite Epa. exact Hhdr. }
    { subst s1. norm. rewrite Hr4 by lia. exact Hftr. }
    subst s1. norm.
    astep ltac:(exact Hrun).
    eexists _, _. split; [reflexivity|].
    exists m', fb', (l1 ++ (sz, Free) :: l2), fls'.
    split; [reflexivity|].
    split; [split; [exact HW'|split]|].
    + apply naf_app. split; [exact Hnaf1|]. rewrite Epa. simpl.
      split; [reflexivity|]. apply head_alloc_naf; assumption.
    + apply no_limbo_app. split; [exact Hnl1|]. apply no_limbo_cons.
      split; [right; reflexivity|exact Hnl2].
    + split; [apply total_mid|].
      split; [rewrite alloc_blocks_app; reflexivity|].
      split.
      * intros y Hy. unfold slinks_frame in Hfr. norm.
        rewrite Hfr.
        -- apply Hb4. destruct Hy as [Hy|Hy].
           ++ apply in_payload_range in Hy; trivial. lia.
           ++ apply in_payload_range in Hy; trivial. lia.
        -- apply payload_not_links.
           ++ apply sizes_ok_mid. tauto.
           ++ apply in_payload_mid_other; [discriminate|exact Hy].
      * exists l1, sz, l2. repeat split; trivial; lia.
  - (* predecessor allocated, successor free *)
    destruct (head_alloc_false l2 Hnl2 Eal) as (sz2 & l2' & ->).
    simpl head_size in *. simpl total in *.
    apply sizes_ok_cons in Hs2. destruct Hs2 as [[Hsz2 Hsz28] Hs2].
    pose proof (total_nonneg _ Hs2) as Ht2'.
    astep ltac:(eapply SUCC_BLK_hdr; [exact Hhb|exact Hhdr|exact Hsz8|lia|lia]).
    assert (HW2 : SW s ((l1 ++ [(sz, Limbo nb)]) ++ (sz2, Free) :: l2') fls)
      by (rewrite <- app_assoc; exact HW).
    destruct (SW_unlist s _ _ _ _ HW2) as (m1 & fb1 & fls1 & Hrun1 & HW1 & Hfr1).
    rewrite total_app in Hrun1. simpl total in Hrun1.
    replace (sfirst_hdr s + (total l1 + (sz + 0)) + 4)
      with (sfirst_hdr s + total l1 + sz + 4) in Hrun1 by lia.
    astep ltac:(exact Hrun1).
    rewrite <- app_assoc in HW1, Hfr1. cbn [app] in HW1, Hfr1.
    apply SW_join in HW1. apply (slinks_frame_join _ _ _ _ _ _ _ false) in Hfr1.
    set (N := sz + sz2) in *.
    set (s1 := set_free_blks (set_mem s m1) fb1) in *.
    pose proof (SW_sizes _ _ _ HW1) as HsN.
    assert (Hh1 : rd (mem s1) (sfirst_hdr s + total l1) = hdr sz true false).
    { subst s1; norm. rewrite <- Hhdr.
      eapply sframe_rd_limbo; [exact Hfr1|exact HsN|lia|unfold N; lia]. }
    assert (Hx1 : rd (mem s1) (sfirst_hdr s + total l1 + sz) = hdr sz2 nb false).
    { subst s1; norm. rewrite <- Hxr.
      eapply sframe_rd_limbo; [exact Hfr1|exact HsN|lia|unfold N; lia]. }
    assert (Hhb1 : inb s1 (sfirst_hdr s + total l1)) by exact Hhb.
    assert (Hxb1 : inb s1 (sfirst_hdr s + total l1 + sz)) by exact Hxb.
    rewrite ?GET_HEADER_hdr.
    astep ltac:(eapply GET_SIZE_ok; [exact Hhb1|exact Hh1|exact Hsz8|lia|lia]).
    astep ltac:(eapply SUCC_HEADER_hdr; [exact Hhb1|exact Hh1|exact Hsz8|lia|lia]).
    astep ltac:(eapply GET_SIZE_ok; [exact Hxb1|exact Hx1|exact Hsz28|lia|lia]).
    fold N. rewrite (Z.mod_small N) by (unfold N; lia).
    assert (HN8 : N mod 8 = 0)
      by (unfold N; rewrite Z.add_mod, Hsz8, Hsz28 by lia; reflexivity).
    rewrite !pack_small by (trivial; lia). rewrite Z.add_0_r.
    replace (N + 2) with (hdr N true false) by (unfold hdr; simpl; lia).
    astep ltac:(apply WRITE_ok; exact Hhb1).
    assert (HW2' := SW_write_limbo s1 l1 l2' N false fls1 (sfirst_hdr s + total l1)
                      (hdr N true false) HW1 ltac:(subst s1; norm; lia)
                      ltac:(subst s1; norm; lia)).
    set (s2 := set_mem s1 _) in *.
    assert (Hh2 : rd (mem s2) (sfirst_hdr s + total l1) = hdr N true false).
    { subst s2; norm. apply rd_wr_same_small. apply hdr_fits; lia. }
    astep ltac:(eapply GET_FOOTER_hdr; [exact Hhb1|exact Hh2|exact HN8|lia|lia]).
    astep ltac:(apply WRITE_ok; unfold inb; subst s2 s1; norm; unfold sfirst_hdr in *; lia).
    assert (HW3 := SW_write_limbo s2 l1 l2' N false fls1 (sfirst_hdr s + total l1 + N - 4)
                      N HW2' ltac:(subst s2 s1; norm; lia)
                      ltac:(subst s2 s1; norm; lia)).
    set (s3 := set_mem s2 _) in *.
    destruct (SW_list s3 l1 l2' N fls1 HW3) as (m' & fb' & fls' & Hrun & HW' & Hfr).
    { subst s3 s2 s1; norm. rewrite rd_wr_other by lia.
      rewrite Epa. apply rd_wr_same_small. apply hdr_fits; lia. }
    { subst s3 s2 s1; norm. apply rd_wr_same_small. unfold W32 in *. lia. }
    replace (sfirst_hdr s3) with (sfirst_hdr s) in Hrun, HW', Hfr by reflexivity.
    astep ltac:(reflexivity).
    astep ltac:(exact Hrun).
    eexists _, _. split; [reflexivity|].
    exists m', fb', (l1 ++ (N, Free) :: l2'), fls'.
    split; [reflexivity|].
    split; [split; [exact HW'|split]|].
    + apply naf_app. split; [exact Hnaf1|]. rewrite Epa. simpl.
      split; [reflexivity|]. simpl in Hnaf2. tauto.
    + apply no_limbo_app. split; [exact Hnl1|]. apply no_limbo_cons.
      split; [right; reflexivity|].
      apply no_limbo_cons in Hnl2. tauto.
    + split; [rewrite total_mid; simpl; unfold N; lia|].
      split; [rewrite alloc_blocks_app; simpl;
              replace (sfirst_hdr s + total l1 + N) with (sfirst_hdr s + total l1 + sz + sz2)
                by (unfold N; lia); reflexivity|].
      split.
      * intros y Hy.
        assert (Hy' : in_payload (sfirst_hdr s) l1 y \/ in_payload (sfirst_hdr s + total l1 + N) l2' y).
        { destruct Hy as [Hy|Hy]; [left; exact Hy|right].
          simpl in Hy. destruct Hy as [[E _]|Hy]; [discriminate|].
          replace (sfirst_hdr s + total l1 + N) with (sfirst_hdr s + total l1 + sz + sz2)
            by (unfold N; lia). exact Hy. }
        assert (Hyr : y < sfirst_hdr s + total l1 \/ sfirst_hdr s + total l1 + N + 4 <= y).
        { destruct Hy' as [Hy'|Hy']; apply in_payload_range in Hy'; trivial; lia. }
        rewrite (sframe_payload s3 _ m' y Hfr).
        -- subst s3 s2 s1; norm. rewrite !wr_other_byte by lia.
           apply (sframe_payload s _ m1 y Hfr1 HsN).
           apply in_payload_mid_other; [discriminate|exact Hy'].
        -- apply sizes_ok_mid. split; [exact Hs1|]. split; [lia|exact Hs2].
        -- apply in_payload_mid_other; [discriminate|exact Hy'].
      * exists l1, N, l2'. repeat split; trivial; unfold N; lia.
  - (* predecessor free, successor allocated *)
    destruct (tail_pa_false l1 Hnl1 Epa) as (l1' & sz0 & ->).
    pose proof Epa as Hpa1.
    assert (Eh : sfirst_hdr s + total (l1' ++ [(sz0, Free)])
                 = sfirst_hdr s + total l1' + sz0)
      by (rewrite total_app; simpl; lia).
    rewrite total_app in Ht0, Htb, Ht32, Ht1. simpl total in Ht0, Htb, Ht32, Ht1.
    rewrite Eh in *.
    apply sizes_ok_app in Hs1. destruct Hs1 as [Hs1 Hs0].
    apply sizes_ok_cons in Hs0. destruct Hs0 as [[Hsz0 Hsz08] _].
    pose proof (total_nonneg _ Hs1) as Ht1'.
    rewrite <- app_assoc in HW. cbn [app] in HW.
    assert (Hpa0 : tail_pa true l1' = true).
    { apply naf_app in Hnaf1. destruct Hnaf1 as [_ [H _]]. apply H. reflexivity. }
    pose proof HW as (_ & Hb & _).
    apply blocks_mid in Hb. destruct Hb as (_ & _ & [Hph Hpf] & _).
    rewrite Hpa0 in Hph.
    set (h0 := sfirst_hdr s + total l1') in *.
    assert (Hb0 : inb s h0 /\ inb s (h0 + sz0 - 4))
      by (unfold inb, h0, sfirst_hdr; lia).
    replace (h0 + sz0 + sz - 4) with (h0 + sz0 - 4 + sz) in Hftr by lia.
    rewrite <- hdr_plain in Hpf.
    astep ltac:(eapply PRED_BLK_hdr; [apply Hb0|exact Hpf|exact Hsz08|lia|lia]).
    replace (h0 + sz0 - sz0 + 4) with (h0 + 4) by lia.
    destruct (SW_unlist s _ _ _ _ HW) as (m1 & fb1 & fls1 & Hrun1 & HW1 & Hfr1).
    fold h0 in Hrun1. astep ltac:(exact Hrun1).
    set (N := sz0 + sz).
    apply SW_join in HW1. apply (slinks_frame_join _ _ _ _ _ _ _ nb) in Hfr1.
    fold N in HW1, Hfr1.
    set (s1 := set_free_blks (set_mem s m1) fb1) in *.
    pose proof (SW_sizes _ _ _ HW1) as HsN.
    assert (Hrd1 : forall x, h0 <= x -> x + 4 <= h0 + N ->
                             rd (mem s1) x = rd (mem s) x).
    { intros x H1 H2. subst s1; norm.
      eapply sframe_rd_limbo; [exact Hfr1|exact HsN|exact H1|exact H2]. }
    assert (Hh1 : rd (mem s1) (h0 + sz0) = hdr sz false false)
      by (rewrite Hrd1 by (unfold N; lia); exact Hhdr).
    assert (Hp1 : rd (mem s1) (h0 + sz0 - 4) = hdr sz0 false false)
      by (rewrite Hrd1 by (unfold N; lia); exact Hpf).
    assert (Hq1 : rd (mem s1) h0 = hdr sz0 true false)
      by (rewrite Hrd1 by (unfold N; lia); exact Hph).
    assert (Hhb1 : inb s1 (h0 + sz0)) by exact Hhb.
    rewrite ?PRED_FOOTER_hdr.
    astep ltac:(eapply GET_SIZE_ok; [exact Hhb1|exact Hh1|exact Hsz8|lia|lia]).
    astep ltac:(eapply GET_SIZE_ok; [apply Hb0|exact Hp1|exact Hsz08|lia|lia]).
    replace (sz + sz0) with N by (unfold N; lia).
    rewrite (Z.mod_small N) by (unfold N; lia).
    assert (HN8 : N mod 8 = 0)
      by (unfold N; rewrite Z.add_mod, Hsz8, Hsz08 by lia; reflexivity).
    astep ltac:(eapply PRED_BLK_hdr; [apply Hb0|exact Hp1|exact Hsz08|lia|lia]).
    replace (h0 + sz0 - sz0 + 4) with (h0 + 4) by lia. rewrite GET_HEADER_hdr.
    astep ltac:(eapply GET_PREALLOC_ok; [apply Hb0|exact Hq1|exact Hsz08]).
    astep ltac:(eapply PRED_BLK_hdr; [apply Hb0|exact Hp1|exact Hsz08|lia|lia]).
    replace (h0 + sz0 - sz0 + 4) with (h0 + 4) by lia. rewrite GET_HEADER_hdr.
    rewrite !pack_small by (trivial; simpl; lia). rewrite Z.add_0_r.
    replace (N + bit_pa true) with (hdr N true false) by (unfold hdr; simpl; lia).
    astep ltac:(apply WRITE_ok; apply Hb0).
    assert (HW2 := SW_write_limbo s1 l1' l2 N nb fls1 h0
                      (hdr N true false) HW1 ltac:(subst s1; norm; lia)
                      ltac:(subst s1; norm; unfold N; lia)).
    set (s2 := set_mem s1 _) in *.
    assert (Hh2 : rd (mem s2) (h0 + sz0) = hdr sz false false).
    { subst s2; norm. rewrite rd_wr_other by lia. exact Hh1. }
    astep ltac:(eapply GET_FOOTER_hdr; [exact Hhb1|exact Hh2|exact Hsz8|lia|lia]).
    astep ltac:(apply WRITE_ok; unfold inb; subst s2 s1; norm; unfold h0, sfirst_hdr in *; lia).
    assert (HW3 := SW_write_limbo s2 l1' l2 N nb fls1 (h0 + sz0 + sz - 4)
                      N HW2 ltac:(subst s2 s1; norm; lia)
                      ltac:(subst s2 s1; norm; unfold N; lia)).
    set (s3 := set_mem s2 _) in *.
    assert (Hh3 : rd (mem s3) (h0 + sz0) = hdr sz false false).
    { subst s3; norm. rewrite rd_wr_other by lia. exact Hh2. }
    destruct (sclear_spec s3 l1' l2 N nb fls1 (h0 + sz0 + 4) HW3
                (no_limbo_settled _ Hnl2)) as (m4 & Hrun4 & Hxw3 & Hb4 & Hr4).
    { replace (sfirst_hdr s3 + total l1' + N + 4) with (h0 + sz0 + sz + 4)
        by (unfold N, h0; subst s3 s2 s1; norm; lia).
      eapply SUCC_BLK_hdr; [exact Hhb1|exact Hh3|exact Hsz8|lia|lia]. }
    replace (sfirst_hdr s3 + total l1' + N) with (h0 + sz0 + sz) in Hb4, Hr4
      by (unfold N, h0; subst s3 s2 s1; norm; lia).
    astep ltac:(exact Hrun4).
    set (s4 := set_mem s3 m4) in *.
    assert (Hp4 : rd (mem s4) (h0 + sz0 - 4) = hdr sz0 false false).
    { subst s4; norm. rewrite Hr4 by lia.
      subst s3 s2; norm. rewrite !rd_wr_other by lia. exact Hp1. }
    astep ltac:(eapply PRED_BLK_hdr; [apply Hb0|exact Hp4|exact Hsz08|lia|lia]).
    replace (h0 + sz0 - sz0 + 4) with (h0 + 4) by lia.
    destruct (SW_list s4 l1' l2 N fls1 Hxw3) as (m' & fb' & fls' & Hrun & HW' & Hfr).
    { subst s4 s3 s2 s1; norm. fold h0. rewrite Hr4 by lia.
      rewrite !rd_wr_other by lia.
      rewrite Hpa0. apply rd_wr_same_small. apply hdr_fits; unfold N; lia. }
    { subst s4 s3 s2 s1; norm. fold h0. rewrite Hr4 by (unfold N; lia).
      replace (h0 + N - 4) with (h0 + sz0 + sz - 4) by (unfold N; lia).
      apply rd_wr_same_small. unfold N, W32 in *. lia. }
    replace (sfirst_hdr s4) with (sfirst_hdr s) in Hrun, HW', Hfr by reflexivity.
    fold h0 in Hrun, HW'.
    astep ltac:(exact Hrun).
    eexists _, _. split; [reflexivity|].
    exists m', fb', (l1' ++ (N, Free) :: l2), fls'.
    split; [reflexivity|].
    split; [split; [exact HW'|split]|].
    + apply naf_app. apply naf_app in Hnaf1. split; [tauto|]. rewrite Hpa0. simpl.
      split; [reflexivity|]. apply head_alloc_naf; assumption.
    + apply no_limbo_app. apply no_limbo_app in Hnl1.
      split; [tauto|]. apply no_limbo_cons.
      split; [right; reflexivity|exact Hnl2].
    + split; [rewrite total_mid, total_app; simpl; unfold N; lia|].
      split.
      { rewrite !alloc_blocks_app. simpl. rewrite app_nil_r, Eh.
        replace (h0 + sz0 + sz) with (sfirst_hdr s + total l1' + N)
          by (unfold N, h0; lia). reflexivity. }
      split.
      * intros y Hy.
        assert (Hy' : in_payload (sfirst_hdr s) l1' y \/
                      in_payload (sfirst_hdr s + total l1' + N) l2 y).
        { destruct Hy as [Hy|Hy].
          - apply in_payload_app in Hy. destruct Hy as [Hy|Hy]; [left; exact Hy|].
            simpl in Hy. destruct Hy as [[E _]|[]]. discriminate.
          - right. rewrite Eh in Hy.
            replace (sfirst_hdr s + total l1' + N) with (h0 + sz0 + sz)
              by (unfold N, h0; lia). exact Hy. }
        assert (Hyr : y < h0 \/ h0 + N + 4 <= y).
        { destruct Hy' as [Hy'|Hy']; apply in_payload_range in Hy'; trivial;
            unfold h0; lia. }
        rewrite (sframe_payload s4 _ m' y Hfr).
        -- subst s4 s3 s2 s1; norm. rewrite Hb4 by (unfold N in *; lia).
           rewrite !wr_other_byte by (unfold N in *; lia).
           apply (sframe_payload s _ m1 y Hfr1 HsN).
           apply in_payload_mid_other; [discriminate|exact Hy'].
        -- apply sizes_ok_mid. split; [exact Hs1|].
           split; [split; [unfold N; lia|exact HN8]|exact Hs2].
        -- apply in_payload_mid_other; [discriminate|exact Hy'].
      * exists l1', N, l2. repeat split; try (unfold N, h0; lia).
        intros E. rewrite Hpa1 in E. discriminate.
  - (* both neighbours free *)
    destruct (tail_pa_false l1 Hnl1 Epa) as (l1' & sz0 & ->).
    pose proof Epa as Hpa1.
    destruct (head_alloc_false l2 Hnl2 Eal) as (sz2 & l2' & ->).
    assert (Eh : sfirst_hdr s + total (l1' ++ [(sz0, Free)])
                 = sfirst_hdr s + total l1' + sz0)
      by (rewrite total_app; simpl; lia).
    rewrite total_app in Ht0, Htb, Ht32, Ht1. simpl total in *.
    simpl head_size in *.
    rewrite Eh in *.
    apply sizes_ok_app in Hs1. destruct Hs1 as [Hs1 Hs0].
    apply sizes_ok_cons in Hs0. destruct Hs0 as [[Hsz0 Hsz08] _].
    apply sizes_ok_cons in Hs2. destruct Hs2 as [[Hsz2 Hsz28] Hs2].
    pose proof (total_nonneg _ Hs1) as Ht1'.
    pose proof (total_nonneg _ Hs2) as Ht2'.
    rewrite <- app_assoc in HW. cbn [app] in HW.
    assert (Hpa0 : tail_pa true l1' = true).
    { apply naf_app in Hnaf1. destruct Hnaf1 as [_ [H _]]. apply H. reflexivity. }
    pose proof HW as (_ & Hb & _).
    apply blocks_mid in Hb. destruct Hb as (_ & _ & [Hph Hpf] & _).
    rewrite Hpa0 in Hph.
    set (h0 := sfirst_hdr s + total l1') in *.
    assert (Hb0 : inb s h0 /\ inb s (h0 + sz0 - 4))
      by (unfold inb, h0, sfirst_hdr; lia).
    rewrite <- hdr_plain in Hpf.
    astep ltac:(eapply PRED_BLK_hdr; [apply Hb0|exact Hpf|exact Hsz08|lia|lia]).
    replace (h0 + sz0 - sz0 + 4) with (h0 + 4) by lia.
    destruct (SW_unlist s _ _ _ _ HW) as (m1 & fb1 & fls1 & Hrun1 & HW1 & Hfr1).
    fold h0 in Hrun1. astep ltac:(exact Hrun1).
    apply SW_join in HW1. apply (slinks_frame_join _ _ _ _ _ _ _ nb) in Hfr1.
    set (s1 := set_free_blks (set_mem s m1) fb1) in *.
    pose proof (SW_sizes _ _ _ HW1) as HsN1.
    assert (Hrd1 : forall x, h0 <= x -> x + 4 <= h0 + (sz0 + sz) ->
                             rd (mem s1) x = rd (mem s) x).
    { intros x H1 H2. subst s1; norm.
      eapply sframe_rd_limbo; [exact Hfr1|exact HsN1|exact H1|exact H2]. }
    assert (Hh1 : rd (mem s1) (h0 + sz0) = hdr sz false false)
      by (rewrite Hrd1 by lia; exact Hhdr).
    assert (Hhb1 : inb s1 (h0 + sz0)) by exact Hhb.
    astep ltac:(eapply SUCC_BLK_hdr; [exact Hhb1|exact Hh1|exact Hsz8|lia|lia]).
    assert (HW1' : SW s1 ((l1' ++ [(sz0 + sz, Limbo nb)]) ++ (sz2, Free) :: l2') fls1)
      by (rewrite <- app_assoc; exact HW1).
    destruct (SW_unlist s1 _ _ _ _ HW1') as (m2 & fb2 & fls2 & Hrun2 & HW2 & Hfr2).
    rewrite total_app in Hrun2. simpl total in Hrun2.
    replace (sfirst_hdr s1 + (total l1' + (sz0 + sz + 0)) + 4)
      with (h0 + sz0 + sz + 4) in Hrun2 by (unfold h0; subst s1; norm; lia).
    astep ltac:(exact Hrun2).
    rewrite <- app_assoc in HW2, Hfr2. cbn [app] in HW2, Hfr2.
    apply SW_join in HW2. apply (slinks_frame_join _ _ _ _ _ _ _ false) in Hfr2.
    set (N := sz0 + sz + sz2) in *.
    set (s2 := set_free_blks (set_mem s1 m2) fb2) in *.
    pose proof (SW_sizes _ _ _ HW2) as HsN.
    assert (Hrd2 : forall x, h0 <= x -> x + 4 <= h0 + N ->
                             rd (mem s2) x = rd (mem s1) x).
    { intros x H1 H2. subst s2; norm.
      eapply sframe_rd_limbo; [exact Hfr2|exact HsN|exact H1|exact H2]. }
    assert (Hx1 : rd (mem s1) (h0 + sz0 + sz) = hdr sz2 nb false).
    { pose proof HW1 as (_ & Hb & _).
      apply blocks_mid in Hb. destruct Hb as (_ & _ & _ & Hb). simpl in Hb.
      replace (sfirst_hdr s1 + total l1' + (sz0 + sz)) with (h0 + sz0 + sz) in Hb
        by (unfold h0; subst s1; norm; lia).
      apply Hb. }
    assert (Hh2 : rd (mem s2) (h0 + sz0) = hdr sz false false)
      by (rewrite Hrd2 by (unfold N; lia); exact Hh1).
    assert (Hp2 : rd (mem s2) (h0 + sz0 - 4) = hdr sz0 false false)
      by (rewrite Hrd2, Hrd1 by (unfold N; lia); exact Hpf).
    assert (Hq2 : rd (mem s2) h0 = hdr sz0 true false)
      by (rewrite Hrd2, Hrd1 by (unfold N; lia); exact Hph).
    assert (Hx2 : rd (mem s2) (h0 + sz0 + sz) = hdr sz2 nb false)
      by (rewrite Hrd2 by (unfold N; lia); exact Hx1).
    assert (Hhb2 : inb s2 (h0 + sz0)) by exact Hhb.
    assert (Hxb2 : inb s2 (h0 + sz0 + sz)) by exact Hxb.
    rewrite ?PRED_FOOTER_hdr, ?GET_HEADER_hdr.
    astep ltac:(eapply GET_SIZE_ok; [exact Hhb2|exact Hh2|exact Hsz8|lia|lia]).
    astep ltac:(eapply GET_SIZE_ok; [apply Hb0|exact Hp2|exact Hsz08|lia|lia]).
    astep ltac:(eapply SUCC_HEADER_hdr; [exact Hhb2|exact Hh2|exact Hsz8|lia|lia]).
    astep ltac:(eapply GET_SIZE_ok; [exact Hxb2|exact Hx2|exact Hsz28|lia|lia]).
    rewrite (Z.mod_small (sz + sz0)) by lia.
    replace (sz + sz0 + sz2) with N by (unfold N; lia).
    rewrite (Z.mod_small N) by (unfold N; lia).
    assert (HN8 : N mod 8 = 0).
    { unfold N. rewrite Z.add_mod, (Z.add_mod sz0), Hsz8, Hsz08, Hsz28 by lia.
      reflexivity. }
    astep ltac:(eapply PRED_BLK_hdr; [apply Hb0|exact Hp2|exact Hsz08|lia|lia]).
    replace (h0 + sz0 - sz0 + 4) with (h0 + 4) by lia. rewrite GET_HEADER_hdr.
    astep ltac:(eapply GET_PREALLOC_ok; [apply Hb0|exact Hq2|exact Hsz08]).
    astep ltac:(eapply PRED_BLK_hdr; [apply Hb0|exact Hp2|exact Hsz08|lia|lia]).
    replace (h0 + sz0 - sz0 + 4) with (h0 + 4) by lia. rewrite GET_HEADER_hdr.
    rewrite !pack_small by (trivial; simpl; lia). rewrite Z.add_0_r.
    replace (N + bit_pa true) with (hdr N true false) by (unfold hdr; simpl; lia).
    astep ltac:(apply WRITE_ok; apply Hb0).
    assert (HW3 := SW_write_limbo s2 l1' l2' N false fls2 h0
                      (hdr N true false) HW2 ltac:(subst s2 s1; norm; lia)
                      ltac:(subst s2 s1; norm; unfold N; lia)).
    set (s3 := set_mem s2 _) in *.
    assert (Hh3 : rd (mem s3) (h0 + sz0) = hdr sz false false).
    { subst s3; norm. rewrite rd_wr_other by lia. exact Hh2. }
    assert (Hx3 : rd (mem s3) (h0 + sz0 + sz) = hdr sz2 nb false).
    { subst s3; norm. rewrite rd_wr_other by lia. exact Hx2. }
    astep ltac:(eapply SUCC_BLK_hdr; [exact Hhb2|exact Hh3|exact Hsz8|lia|lia]).
    astep ltac:(eapply GET_FOOTER_hdr; [exact Hxb2|exact Hx3|exact Hsz28|lia|lia]).
    astep ltac:(apply WRITE_ok; unfold inb; subst s3 s2 s1; norm; unfold h0, sfirst_hdr in *; lia).
    assert (HW4 := SW_write_limbo s3 l1' l2' N false fls2 (h0 + sz0 + sz + sz2 - 4)
                      N HW3 ltac:(subst s3 s2 s1; norm; lia)
                      ltac:(subst s3 s2 s1; norm; unfold N; lia)).
    set (s4 := set_mem s3 _) in *.
    assert (Hp4 : rd (mem s4) (h0 + sz0 - 4) = hdr sz0 false false).
    { subst s4 s3; norm. rewrite !rd_wr_other by lia. exact Hp2. }
    astep ltac:(eapply PRED_BLK_hdr; [apply Hb0|exact Hp4|exact Hsz08|lia|lia]).
    replace (h0 + sz0 - sz0 + 4) with (h0 + 4) by lia.
    destruct (SW_list s4 l1' l2' N fls2 HW4) as (m' & fb' & fls' & Hrun & HW' & Hfr).
    { subst s4 s3 s2 s1; norm. fold h0. rewrite !rd_wr_other by lia.
      rewrite Hpa0. apply rd_wr_same_small. apply hdr_fits; unfold N; lia. }
    { subst s4 s3 s2 s1; norm. fold h0.
      replace (h0 + N - 4) with (h0 + sz0 + sz + sz2 - 4) by (unfold N; lia).
      apply rd_wr_same_small. unfold N, W32 in *. lia. }
    replace (sfirst_hdr s4) with (sfirst_hdr s) in Hrun, HW', Hfr by reflexivity.
    fold h0 in Hrun, HW'.
    astep ltac:(exact Hrun).
    eexists _, _. split; [reflexivity|].
    exists m', fb', (l1' ++ (N, Free) :: l2'), fls'.
    split; [reflexivity|].
    split; [split; [exact HW'|split]|].
    + apply naf_app. apply naf_app in Hnaf1. split; [tauto|]. rewrite Hpa0. simpl.
      split; [reflexivity|]. simpl in Hnaf2. tauto.
    + apply no_limbo_app. apply no_limbo_app in Hnl1.
      split; [tauto|]. apply no_limbo_cons.
      split; [right; reflexivity|]. apply no_limbo_cons in Hnl2. tauto.
    + split; [rewrite total_mid, total_app; simpl; unfold N; lia|].
      split.
      { rewrite !alloc_blocks_app. simpl. rewrite app_nil_r, Eh.
        replace (h0 + sz0 + sz + sz2) with (sfirst_hdr s + total l1' + N)
          by (unfold N, h0; lia). reflexivity. }
      split.
      * intros y Hy.
        assert (Hy' : in_payload (sfirst_hdr s) l1' y \/
                      in_payload (sfirst_hdr s + total l1' + N) l2' y).
        { destruct Hy as [Hy|Hy].
          - apply in_payload_app in Hy. destruct Hy as [Hy|Hy]; [left; exact Hy|].
            simpl in Hy. destruct Hy as [[E _]|[]]. discriminate.
          - right. rewrite Eh in Hy. simpl in Hy.
            destruct Hy as [[E _]|Hy]; [discriminate|].
            replace (sfirst_hdr s + total l1' + N) with (h0 + sz0 + sz + sz2)
              by (unfold N, h0; lia). exact Hy. }
        assert (Hyr : y < h0 \/ h0 + N + 4 <= y).
        { destruct Hy' as [Hy'|Hy']; apply in_payload_range in Hy'; trivial;
            unfold h0; lia. }
        rewrite (sframe_payload s4 _ m' y Hfr).
        -- subst s4 s3; norm. rewrite !wr_other_byte by (unfold N in *; lia).
           subst s2; norm.
           rewrite (sframe_payload s1 _ m2 y Hfr2 HsN).
           ++ subst s1; norm.
              apply (sframe_payload s _ m1 y Hfr1 HsN1).
              apply in_payload_mid_other; [discriminate|].
              destruct Hy' as [Hy'|Hy']; [left; exact Hy'|right].
              simpl. right.
              replace (sfirst_hdr s + total l1' + (sz0 + sz) + sz2)
                with (sfirst_hdr s + total l1' + N) by (unfold N; lia).
              exact Hy'.
           ++ apply in_payload_mid_other; [discriminate|exact Hy'].
        -- apply sizes_ok_mid. split; [exact Hs1|].
           split; [split; [unfold N; lia|exact HN8]|exact Hs2].
        -- apply in_payload_mid_other; [discriminate|exact Hy'].
      * exists l1', N, l2'. repeat split; try (unfold N, h0; lia).
        intros E. rewrite Hpa1 in E. discriminate.
Qed.

Lemma SRep_SW (s : state Seg.heads) (bs : list block) (fls : list (list (Z * Z))) :
  SRep s bs fls -> SW s bs fls.
Proof. intros H; apply H. Qed.

Lemma sbuild_spec (s : state Seg.heads) (l1 l2 : list block) (bsz size : Z) (fls : list (list (Z * Z))) :
  SRep s (l1 ++ (bsz, Free) :: l2) fls ->
  16 <= size -> size mod 8 = 0 -> size <= bsz ->
  exists s',
    Seg._build (sfirst_hdr s + total l1 + 4) size s = Done tt s' /\
    sbuilt s l1 l2 bsz size s'.
Proof.
  intros (HW & Hnaf & Hnl) Hsize Hsize8 Hle.
  pose proof (SW_sizes _ _ _ HW) as Hs.
  pose proof (SW_bounds _ _ _ HW) as (Ht0 & Htb & Ht32 & Hmax).
  rewrite total_mid in Ht0, Htb, Ht32.
  apply sizes_ok_mid in Hs. destruct Hs as (Hs1 & [Hbsz Hbsz8] & Hs2).
  pose proof (total_nonneg _ Hs1) as Ht1. pose proof (total_nonneg _ Hs2) as Ht2.
  apply naf_app in Hnaf. destruct Hnaf as [Hnaf1 [Hpa1 Hnaf2]].
  specialize (Hpa1 eq_refl). simpl next_pa in Hnaf2.
  apply no_limbo_app in Hnl. destruct Hnl as [Hnl1 Hnl2].
  apply no_limbo_cons in Hnl2. destruct Hnl2 as [_ Hnl2].
  pose proof HW as (_ & Hb & _).
  apply blocks_mid in Hb. destruct Hb as (_ & _ & [Hhdr Hftr] & _).
  set (h := sfirst_hdr s + total l1) in *.
  assert (Hhb : inb s h) by (unfold inb, h, sfirst_hdr; lia).
  assert (Hp0 : (h + 4 =? NULL) = false).
  { apply Z.eqb_neq. destruct HW as ((Hlo & _) & _).
    unfold NULL, h, sfirst_hdr. lia. }
  unfold Seg._build. rewrite Hp0, ?GET_HEADER_hdr.
  destruct (SW_unlist s _ _ _ _ HW) as (m1 & fb1 & fls1 & Hrun1 & HW1 & Hfr1).
  fold h in Hrun1. rstep ltac:(exact Hrun1).
  set (s1 := set_free_blks (set_mem s m1) fb1) in *.
  pose proof (SW_sizes _ _ _ HW1) as HsL.
  assert (Hrd1 : forall x, h <= x -> x + 4 <= h + bsz ->
                           rd (mem s1) x = rd (mem s) x).
  { intros x H1 H2. subst s1; norm.
    eapply sframe_rd_limbo; [exact Hfr1|exact HsL|exact H1|exact H2]. }
  assert (Hh1 : rd (mem s1) h = hdr bsz (tail_pa true l1) false)
    by (rewrite Hrd1 by lia; exact Hhdr).
  assert (Hhb1 : inb s1 h) by exact Hhb.
  rstep ltac:(eapply GET_SIZE_ok; [exact Hhb1|exact Hh1|exact Hbsz8|lia|lia]).
  rstep ltac:(eapply GET_PREALLOC_ok; [exact Hhb1|exact Hh1|exact Hbsz8]).
  rewrite (Z.mod_small (bsz - size)) by (unfold W64, W32 in *; lia).
  change 1 with (bit_al true) at 1 3.
  rewrite !pack_hdr by assumption.
  unfold sbuilt, built_size. fold h.
  destruct (Z.ltb_spec ESIZE (bsz - size)) as [Hsplit|Hwhole].
  - (* split *)
    unfold ESIZE, DSIZE in Hsplit.
    rstep ltac:(apply WRITE_ok; exact Hhb1).
    assert (HW2 := SW_write_limbo s1 l1 l2 bsz false fls1 h
                     (hdr size (tail_pa true l1) true) HW1
                     ltac:(subst s1; norm; fold h; lia)
                     ltac:(subst s1; norm; fold h; lia)).
    set (s2 := set_mem s1 _) in *.
    assert (Hh2 : rd (mem s2) h = hdr size (tail_pa true l1) true).
    { subst s2; norm. apply rd_wr_same_small. apply hdr_fits; lia. }
    rstep ltac:(eapply GET_FOOTER_hdr; [exact Hhb1|exact Hh2|exact Hsize8|lia|lia]).
    rstep ltac:(apply WRITE_ok; unfold inb; subst s2 s1; norm; unfold h, sfirst_hdr in *; lia).
    assert (HW3 := SW_write_limbo s2 l1 l2 bsz false fls1 (h + size - 4)
                     (PACK size 1) HW2
                     ltac:(subst s2 s1; norm; fold h; lia)
                     ltac:(subst s2 s1; norm; fold h; lia)).
    set (s3 := set_mem s2 _) in *.
    assert (Hh3 : rd (mem s3) h = hdr size (tail_pa true l1) true).
    { subst s3; norm. rewrite rd_wr_other by lia. exact Hh2. }
    rstep ltac:(eapply SUCC_BLK_hdr; [exact Hhb1|exact Hh3|exact Hsize8|lia|lia]).
    rewrite GET_HEADER_hdr.
    assert (Hrem8 : (bsz - size) mod 8 = 0)
      by (rewrite Zminus_mod, Hbsz8, Hsize8; reflexivity).
    rewrite (pack_small (bsz - size) 2), (pack_small (bsz - size) 0)
      by (trivial; lia).
    rewrite Z.add_0_r.
    replace (bsz - size + 2) with (hdr (bsz - size) true false)
      by (unfold hdr; simpl; lia).
    rstep ltac:(apply WRITE_ok; unfold inb; subst s3 s2 s1; norm; unfold h, sfirst_hdr in *; lia).
    assert (HW4 := SW_write_limbo s3 l1 l2 bsz false fls1 (h + size)
                     (hdr (bsz - size) true false) HW3
                     ltac:(subst s3 s2 s1; norm; fold h; lia)
                     ltac:(subst s3 s2 s1; norm; fold h; lia)).
    set (s4 := set_mem s3 _) in *.
    assert (Hx4 : rd (mem s4) (h + size) = hdr (bsz - size) true false).
    { subst s4; norm. apply rd_wr_same_small. apply hdr_fits; lia. }
    assert (Hxb4 : inb s4 (h + size))
      by (unfold inb; subst s4 s3 s2 s1; norm; unfold h, sfirst_hdr in *; lia).
    rstep ltac:(eapply GET_FOOTER_hdr; [exact Hxb4|exact Hx4|exact Hrem8|lia|lia]).
    replace (h + size + (bsz - size) - 4) with (h + bsz - 4) by lia.
    rstep ltac:(apply WRITE_ok; unfold inb; subst s4 s3 s2 s1; norm; unfold h, sfirst_hdr in *; lia).
    assert (HW5 := SW_write_limbo s4 l1 l2 bsz false fls1 (h + bsz - 4)
                     (bsz - size) HW4
                     ltac:(subst s4 s3 s2 s1; norm; fold h; lia)
                     ltac:(subst s4 s3 s2 s1; norm; fold h; lia)).
    set (s5 := set_mem s4 _) in *.
    apply (SW_split _ _ _ _ size _ true) in HW5; trivial; [|lia].
    apply SW_claim in HW5;
      [|subst s5 s4 s3 s2 s1; norm; fold h; rewrite !rd_wr_other by lia;
        apply rd_wr_same_small; apply hdr_fits; lia].
    assert (HW6 : SW s5 ((l1 ++ [(size, Allocated)]) ++ (bsz - size, Limbo false) :: l2) fls1)
      by (rewrite <- app_assoc; exact HW5).
    assert (Eh : sfirst_hdr s5 + total (l1 ++ [(size, Allocated)]) = h + size)
      by (rewrite total_app; simpl; unfold h; subst s5 s4 s3 s2 s1; norm; lia).
    destruct (smerge_spec s5 (l1 ++ [(size, Allocated)]) l2 (bsz - size) false fls1 HW6)
      as (r & s' & Hrun & Hm).
    { rewrite Eh, tail_pa_app. simpl.
      subst s5 s4; norm. rewrite rd_wr_other by lia.
      apply rd_wr_same_small. apply hdr_fits; lia. }
    { rewrite Eh. replace (h + size + (bsz - size) - 4) with (h + bsz - 4) by lia.
      subst s5; norm. apply rd_wr_same_small. unfold W32 in *; lia. }
    { apply naf_app. split; [exact Hnaf1|]. simpl. split; [discriminate|exact I]. }
    { eapply naf_weaken; exact Hnaf2. }
    { apply no_limbo_app. split; [exact Hnl1|]. apply no_limbo_cons.
      split; [left; reflexivity|constructor]. }
    { exact Hnl2. }
    cbv zeta in Hrun. rewrite Eh in Hrun.
    rstep ltac:(exact Hrun).
    eexists. split; [reflexivity|].
    destruct Hm as (m' & fb' & bs' & fls' & -> & HRep & Htot & Hab & Hfr
                    & r1 & rsz & r2 & Ebs & _ & Hrsz & Hr1).
    rewrite Eh in Hab, Hfr.
    replace (sfirst_hdr s5) with (sfirst_hdr s) in Hab, Hfr by reflexivity.
    replace (h + size + (bsz - size)) with (h + bsz) in Hab, Hfr by lia.
    exists m', fb', bs', fls'. split; [reflexivity|].
    split; [exact HRep|].
    split; [rewrite Htot, total_app; simpl; lia|].
    split; [rewrite Hab, alloc_blocks_app; simpl; rewrite <- app_assoc; reflexivity|].
    assert (Hown : forall y, h + 4 <= y < h + size ->
                             m' y = mem s5 y).
    { intros y Hy. apply Hfr. left. apply in_payload_app. right. simpl.
      left. split; [reflexivity|fold h; lia]. }
    split; [|split; [|split; [|split]]].
    + intros y Hy. rewrite Hfr.
      * assert (Hyr : y < h \/ h + bsz + 4 <= y).
        { destruct Hy as [Hy|Hy]; apply in_payload_range in Hy; trivial;
            unfold h in *; lia. }
        subst s5 s4 s3 s2; norm. rewrite !wr_other_byte by lia.
        subst s1; norm. apply (sframe_payload s _ m1 y Hfr1 HsL).
        apply in_payload_mid_other; [discriminate|exact Hy].
      * destruct Hy as [Hy|Hy]; [left|right; exact Hy].
        apply in_payload_app. left. exact Hy.
    + intros y Hy. rewrite Hown by lia.
      subst s5 s4 s3 s2; norm. rewrite !wr_other_byte by lia.
      subst s1; norm. apply Hfr1. apply limbo_not_links; [exact HsL|].
      apply in_limbo_mid. fold h. lia.
    + transitivity (rd (mem s5) h).
      * rewrite Hr1 in Ebs by (rewrite tail_pa_app; reflexivity).
        rewrite <- app_assoc in Ebs. cbn [app] in Ebs.
        pose proof HRep as ((_ & Hb' & _) & _). rewrite Ebs in Hb'.
        apply blocks_mid in Hb'. destruct Hb' as (_ & _ & Hb' & _).
        change (rd m' h = hdr size (tail_pa true l1) true) in Hb'. rewrite Hb'.
        subst s5 s4 s3; norm. rewrite !rd_wr_other by lia. symmetry. exact Hh2.
      * subst s5 s4 s3; norm. rewrite !rd_wr_other by lia. exact Hh2.
    + transitivity (rd (mem s5) (h + size - 4)).
      * apply rd_ext. intros y Hy. apply Hown. lia.
      * subst s5 s4 s3; norm. rewrite !rd_wr_other by lia.
        apply rd_wr_same_small. rewrite pack_small by (trivial; lia).
        unfold W32 in *; lia.
    + intros _. exists rsz, r2. split; [|exact Hrsz].
      rewrite Hr1 in Ebs by (rewrite tail_pa_app; reflexivity).
      rewrite <- app_assoc in Ebs. exact Ebs.
  - (* the whole block *)
    unfold ESIZE, DSIZE in Hwhole.
    rstep ltac:(apply WRITE_ok; exact Hhb1).
    assert (HW2 := SW_write_limbo s1 l1 l2 bsz false fls1 h
                     (hdr bsz (tail_pa true l1) true) HW1
                     ltac:(subst s1; norm; fold h; lia)
                     ltac:(subst s1; norm; fold h; lia)).
    set (s2 := set_mem s1 _) in *.
    assert (Hh2 : rd (mem s2) h = hdr bsz (tail_pa true l1) true).
    { subst s2; norm. apply rd_wr_same_small. apply hdr_fits; lia. }
    rstep ltac:(eapply GET_FOOTER_hdr; [exact Hhb1|exact Hh2|exact Hbsz8|lia|lia]).
    rstep ltac:(apply WRITE_ok; unfold inb; subst s2 s1; norm; unfold h, sfirst_hdr in *; lia).
    assert (HW3 := SW_write_limbo s2 l1 l2 bsz false fls1 (h + bsz - 4)
                     (PACK bsz 1) HW2
                     ltac:(subst s2 s1; norm; fold h; lia)
                     ltac:(subst s2 s1; norm; fold h; lia)).
    set (s3 := set_mem s2 _) in *.
    assert (Hh3 : rd (mem s3) h = hdr bsz (tail_pa true l1) true).
    { subst s3; norm. rewrite rd_wr_other by lia. exact Hh2. }
    rstep ltac:(eapply SUCC_BLK_hdr; [exact Hhb1|exact Hh3|exact Hbsz8|lia|lia]).
    rewrite GET_HEADER_hdr.
    destruct (SW_next_header s3 l1 l2 bsz false fls1 HW3 (no_limbo_settled _ Hnl2))
      as (Hxb & Hxr & Hx8 & Hx0 & Hx32 & Hxw).
    replace (sfirst_hdr s3 + total l1 + bsz) with (h + bsz) in Hxb, Hxr, Hxw
      by reflexivity.
    change (bind (READ (h + bsz)) (fun w => WRITE (h + bsz) (Z.lor w 2)) s3)
      with (SET_PREALLOC (h + bsz) s3).
    erewrite SET_PREALLOC_ok; [|exact Hxb|exact Hxr|exact Hx8].
    specialize (Hxw true).
    set (s4 := set_mem s3 _) in *.
    apply SW_claim in Hxw;
      [|subst s4 s3 s2 s1; norm; fold h; rewrite !rd_wr_other by lia;
        apply rd_wr_same_small; apply hdr_fits; lia].
    eexists. split; [reflexivity|].
    exists (mem s4), fb1, (l1 ++ (bsz, Allocated) :: l2), fls1.
    split; [reflexivity|].
    split; [split; [exact Hxw|split]|].
    + apply naf_app. split; [exact Hnaf1|]. simpl. split; [discriminate|].
      eapply naf_weaken; exact Hnaf2.
    + apply no_limbo_app. split; [exact Hnl1|]. apply no_limbo_cons.
      split; [left; reflexivity|exact Hnl2].
    + split; [apply total_mid|].
      split; [rewrite alloc_blocks_app; reflexivity|].
      split; [|split; [|split; [|split]]].
      * intros y Hy.
        assert (Hyr : y < h \/ h + bsz + 4 <= y).
        { destruct Hy as [Hy|Hy]; apply in_payload_range in Hy; trivial;
            unfold h in *; lia. }
        subst s4 s3 s2; norm. rewrite !wr_other_byte by lia.
        subst s1; norm. apply (sframe_payload s _ m1 y Hfr1 HsL).
        apply in_payload_mid_other; [discriminate|exact Hy].
      * intros y Hy.
        subst s4 s3 s2; norm. rewrite !wr_other_byte by lia.
        subst s1; norm. apply Hfr1. apply limbo_not_links; [exact HsL|].
        apply in_limbo_mid. fold h. lia.
      * subst s4 s3; norm. rewrite !rd_wr_other by lia. exact Hh2.
      * subst s4 s3; norm. rewrite rd_wr_other by lia.
        apply rd_wr_same_small. rewrite pack_small by (trivial; lia).
        unfold W32 in *; lia.
      * unfold ESIZE, DSIZE. intros Hc. lia.
Qed.

(** * Growing the heap of part_001 *)

Lemma sextend_fail (s : state Seg.heads) (words : Z) :
  mem_max s < mem_brk s + Mm.extend_bytes words ->
  Seg._extend_heap words s = Done NULL s.
Proof.
  intros H. unfold Seg._extend_heap, bind, mem_sbrk.
  replace (mem_brk s + Mm.extend_bytes words <=? mem_max s) with false
    by (symmetry; apply Z.leb_gt; lia).
  rewrite andb_false_r. reflexivity.
Qed.

Lemma sextend_spec (s : state Seg.heads) (bs : list block) (fls : list (list (Z * Z))) (words : Z) :
  let bytes := Mm.extend_bytes words in
  SRep s bs fls ->
  mem_brk s + bytes <= mem_max s -> 16 <= bytes -> bytes mod 8 = 0 ->
  exists r s',
    Seg._extend_heap words s = Done r s' /\ sextended s bs bytes r s'.
Proof.
  intros bytes (HW & Hnaf & Hnl) Hmax H16 Hm8.
  pose proof (SW_sizes _ _ _ HW) as Hs.
  pose proof (SW_bounds _ _ _ HW) as (Ht0 & Htb & Ht32 & _).
  pose proof (SW_ptrs _ _ _ HW) as HPp.
  destruct HW as (Hsc & Hb & He & Hd & Hh & HP).
  pose proof Hsc as (Hlo & Hhp & Hend & Hbrk & _ & H32).
  assert (Hb32 : bytes + 8 <= W32) by lia.
  rewrite Seg_extend_run by (trivial; lia). fold bytes.
  set (s4 := extended_state s bytes).
  assert (Hpre : Z.land (rd (mem s) (heap_end s)) 2 = bit_pa (tail_pa true bs))
    by (rewrite He; apply hdr_prealloc; reflexivity).
  assert (Hhdv : PACK bytes (bit_pa (tail_pa true bs)) = hdr bytes (tail_pa true bs) false).
  { rewrite pack_small by (trivial; destruct (tail_pa true bs); simpl; lia).
    unfold hdr. simpl. lia. }
  assert (Hmem : mem s4 = wr (wr (wr (mem s) (heap_end s) (hdr bytes (tail_pa true bs) false))
                                 (heap_end s + bytes - 4) bytes)
                             (heap_end s + bytes) 1).
  { unfold s4, extended_state. cbn [mem]. rewrite Hpre, Hhdv.
    rewrite pack_small by (trivial; lia). rewrite Z.add_0_r. reflexivity. }
  assert (Hold : forall y, y < heap_end s -> mem s4 y = mem s y).
  { intros y Hy. rewrite Hmem. rewrite !wr_other_byte by lia. reflexivity. }
  assert (Efh : sfirst_hdr s4 = sfirst_hdr s) by reflexivity.
  assert (Ehp : heap_ptr s4 = heap_ptr s) by reflexivity.
  assert (HW4 : SW s4 (bs ++ [(bytes, Limbo false)]) fls).
  { unfold SW. rewrite Efh, Ehp.
    split; [|split; [|split; [|split; [|split]]]].
    - unfold sscalars, s4, extended_state.
      cbn [mem_lo mem_brk mem_max heap_ptr heap_end].
      rewrite total_app. cbn [total]. lia.
    - apply blocks_app. split.
      + eapply blocks_frame; [|exact Hb]. intros y Hy. apply Hold.
        apply meta_range in Hy; trivial. unfold sfirst_hdr in *. lia.
      + simpl. repeat split; trivial.
    - rewrite tail_pa_app. cbn [tail_pa next_pa].
      replace (heap_end s4) with (heap_end s + bytes) by reflexivity.
      rewrite Hmem. apply rd_wr_same_small. apply hdr_fits; unfold W32; lia.
    - eapply seg_lists_frame; [|exact Hd]. intros k q y Hq Hy. apply Hold.
      assert (Hq' : In q (free_ptrs (sfirst_hdr s) bs))
        by (eapply Permutation_in; [exact HPp|]; eapply cls_in_concat, Hq).
      apply free_ptrs_range in Hq'; trivial. unfold sfirst_hdr in *. lia.
    - exact Hh.
    - rewrite free_blocks_app. simpl. rewrite app_nil_r. exact HP. }
  assert (Ehe : sfirst_hdr s4 + total bs = heap_end s)
    by (rewrite Efh; unfold sfirst_hdr in *; lia).
  destruct (smerge_spec s4 bs [] bytes false fls HW4) as (r & s' & Hrun & Hm).
  { rewrite Ehe, Hmem. rewrite !rd_wr_other by lia.
    apply rd_wr_same_small. apply hdr_fits; lia. }
  { rewrite Ehe, Hmem. rewrite rd_wr_other by lia.
    apply rd_wr_same_small. unfold W32 in *; lia. }
  { exact Hnaf. }
  { exact I. }
  { exact Hnl. }
  { constructor. }
  cbv zeta in Hrun. rewrite Ehe in Hrun.
  exists r, s'. split; [exact Hrun|].
  destruct Hm as (m' & fb' & bs' & fls' & -> & HRep & Htot & Hab & Hfr & Hres).
  rewrite Efh in Hab, Hfr, Hres.
  exists bs', fls'. split; [exact HRep|].
  split; [reflexivity|]. split; [reflexivity|]. split; [reflexivity|].
  split; [rewrite Htot; simpl; lia|].
  split; [rewrite Hab; simpl; apply app_nil_r|].
  split.
  - intros y Hy. change (m' y = mem s y). rewrite Hfr by (left; exact Hy).
    apply Hold. apply in_payload_range in Hy; trivial. unfold sfirst_hdr in *. lia.
  - destruct Hres as (r1 & rsz & r2 & E1 & E2 & E3 & _).
    exists r1, rsz, r2. repeat split; assumption.
Qed.

(** * The search of part_001 on a represented heap *)

Lemma SW_free_at (s : state Seg.heads) (bs : list block)
      (fls : list (list (Z * Z))) (k : nat) (q n : Z) :
  SW s bs fls -> In (q, n) (nth k fls []) ->
  block_at (sfirst_hdr s) bs q n Free.
Proof.
  intros (_ & _ & _ & _ & _ & HP) Hq. apply free_blocks_at.
  eapply Permutation_in; [exact HP|]. eapply nth_in_concat, Hq.
Qed.

(** The list of class [k] is a chain from [free_blks[k]], and it carries
    the sizes the headers hold. *)
Lemma SW_class_chain (s : state Seg.heads) (bs : list block)
      (fls : list (list (Z * Z))) (k : nat) :
  SW s bs fls -> (k <= Seg.max_level)%nat ->
  chain s (Seg.head_at (free_blks s) k) (nth k fls []).
Proof.
  intros HW Hk.
  pose proof (SW_sizes _ _ _ HW) as Hs.
  pose proof (SW_bounds _ _ _ HW) as (Ht0 & Htb & Ht32 & _).
  pose proof HW as (Hsc & Hb & He & (Hlen & Hlenh & Hd) & Hlv & HP).
  assert (Hkl : (k < length fls)%nat) by lia.
  destruct (SW_cls_nodes s bs fls k HW Hkl) as (Hnodes & _).
  destruct (Hd k Hk) as (Hdk & Hhk). rewrite Hhk. clear Hhk.
  unfold cls in Hnodes.
  assert (Hgen : forall l prev,
             dllseg (mem s) (heap_ptr s) prev (map fst l) 0 ->
             nodes_ok (proj k s) (map fst l) ->
             (forall q n, In (q, n) l -> block_at (sfirst_hdr s) bs q n Free) ->
             chain s (hd 0 (map fst l)) l).
  { induction l as [|[q n] r IH]; intros prev Hd' Hn' Hin'; [reflexivity|].
    cbn [map fst dllseg] in Hd'. destruct Hd' as (Hq1 & Hq2 & Hd').
    destruct Hn' as (Hall & Hfar). cbn [map fst] in Hall, Hfar.
    inversion Hall as [|? ? Hq Hall']; subst.
    pose proof (Hin' q n (or_introl eq_refl)) as Hat.
    cbn [map fst hd chain].
    destruct Hq as (Hq0 & Hqh & Hq32 & Hqlo & Hqbrk).
    unfold proj in Hq0, Hqh, Hq32, Hqlo, Hqbrk. norm.
    pose proof Hat as (l1 & l2 & Ebs & Eq).
    rewrite Ebs in Hb, Hs, Ht0, Htb, Ht32.
    rewrite total_mid in Ht0, Htb, Ht32.
    apply sizes_ok_mid in Hs. destruct Hs as (Hs1 & [Hn Hn8] & Hs2).
    pose proof (total_nonneg _ Hs1). pose proof (total_nonneg _ Hs2).
    apply blocks_mid in Hb. destruct Hb as (_ & _ & [Hhd _] & _).
    split; [reflexivity|]. split; [unfold NULL; lia|].
    split; [unfold inb, sfirst_hdr in *; lia|].
    split; [unfold inb; lia|]. split.
    - replace (q - 4) with (sfirst_hdr s + total l1) by lia.
      rewrite Hhd. apply hdr_size; trivial; lia.
    - rewrite Hq2.
      assert (E : dec (heap_ptr s) (enc (heap_ptr s) (hd 0 (map fst r)))
                  = hd 0 (map fst r)).
      { apply (dec_enc_node (proj k s)).
        destruct r as [|[q' n'] r']; [left; reflexivity|right].
        inversion Hall'; assumption. }
      rewrite E. apply (IH q Hd').
      + split; [exact Hall'|apply Hfar].
      + intros q' n' Hq'. apply Hin'. right. exact Hq'. }
  apply (Hgen _ 0 Hdk Hnodes).
  intros q n Hq. eapply SW_free_at; eassumption.
Qed.

Lemma skipn_nth {A} (d : A) (l : list A) :
  forall i, (i < length l)%nat -> skipn i l = nth i l d :: skipn (S i) l.
Proof.
  induction l as [|x r IH]; intros i H; simpl in H; [lia|].
  destruct i; [reflexivity|]. simpl. apply IH. lia.
Qed.

Lemma skipn_all_nil {A} (l : list A) :
  forall i, (length l <= i)%nat -> skipn i l = [].
Proof.
  induction l as [|x r IH]; intros i H; [destruct i; reflexivity|].
  destruct i; simpl in *; [lia|]. apply IH. lia.
Qed.

Lemma skipn_len {A} (l : list A) :
  forall i, length (skipn i l) = (length l - i)%nat.
Proof.
  induction l as [|x r IH]; intros i; [destruct i; reflexivity|].
  destruct i; [reflexivity|]. simpl. apply IH.
Qed.

Lemma skipn_in {A} (l : list A) (x : A) :
  forall i, In x (skipn i l) -> In x l.
Proof.
  induction l as [|y r IH]; intros i H; [destruct i; exact H|].
  destruct i; [exact H|]. right. exact (IH _ H).
Qed.

Lemma SW_class_chains (s : state Seg.heads) (bs : list block)
      (fls : list (list (Z * Z))) :
  SW s bs fls ->
  forall n i, (i + n = S Seg.max_level)%nat ->
              class_chains s i (skipn i fls).
Proof.
  intros HW. pose proof HW as (_ & _ & _ & (Hlen & _) & _).
  induction n as [|n IH]; intros i Hi.
  - rewrite skipn_all_nil by lia. exact I.
  - rewrite (skipn_nth [] fls i) by lia. split.
    + apply (SW_class_chain s bs fls i HW). lia.
    + apply IH. lia.
Qed.

Lemma concat_length_nth {A} (l : list (list A)) (k : nat) :
  (length (nth k l []) <= length (concat l))%nat.
Proof.
  revert k; induction l as [|x r IH]; intros k; [destruct k; simpl; lia|].
  simpl. rewrite length_app. destruct k; [lia|]. specialize (IH k). lia.
Qed.

Lemma free_blocks_length (a : Z) (bs : list block) :
  length (free_blocks a bs) = length (free_ptrs a bs).
Proof. rewrite free_ptrs_blocks, length_map. reflexivity. Qed.

Lemma SW_fuel (s : state Seg.heads) (bs : list block)
      (fls : list (list (Z * Z))) (k : nat) :
  SW s bs fls -> (length (nth k fls []) <= heap_fuel s)%nat.
Proof.
  intros HW. pose proof (SW_sizes _ _ _ HW) as Hs.
  pose proof (SW_bounds _ _ _ HW) as (Ht0 & Htb & _).
  destruct HW as (_ & _ & _ & _ & _ & HP).
  pose proof (concat_length_nth fls k) as H1.
  rewrite (Permutation_length HP), free_blocks_length in H1.
  pose proof (free_ptrs_length (sfirst_hdr s) bs Hs).
  unfold heap_fuel. lia.
Qed.

Lemma first_fit_class_in (size : Z) (cls : list (list (Z * Z))) (x : Z * Z) :
  In x (first_fit_class size cls) -> exists l, In l cls /\ In x l.
Proof.
  induction cls as [|l r IH]; simpl; [contradiction|].
  destruct (existsb (fits size) l).
  - intros H. exists l. split; [left; reflexivity|exact H].
  - intros H. destruct (IH H) as (l' & Hl' & Hx). exists l'. split; [right|]; assumption.
Qed.

(** [_allocate] of part_001 on a represented heap: with fuel for every
    class list it returns NULL or a free block that covers the request. *)
Lemma sallocate_spec (s : state Seg.heads) (bs : list block)
      (fls : list (list (Z * Z))) (fuel : nat) (size : Z) :
  SW s bs fls -> (heap_fuel s <= fuel)%nat ->
  exists r,
    Seg._allocate fuel size s = Done r s /\
    (r = NULL \/ exists n, block_at (sfirst_hdr s) bs r n Free /\ size <= n).
Proof.
  intros HW Hf. pose proof HW as (Hsc & _ & _ & (Hlen & _) & _ & HP).
  set (i := Seg._get_level size).
  pose proof (Seg_get_level_le size) as Hi. fold i in Hi.
  assert (Hin : forall l, In l (skipn i fls) -> exists k, l = nth k fls []).
  { intros l Hl. apply skipn_in in Hl.
    destruct (In_nth _ _ [] Hl) as (k & _ & E). exists k. symmetry. exact E. }
  assert (Hrun := Seg_allocate_spec s size fuel (skipn i fls)
                    (SW_class_chains s bs fls HW (S Seg.max_level - i) i ltac:(lia))).
  fold i in Hrun. rewrite skipn_len, Hlen in Hrun. specialize (Hrun eq_refl).
  rewrite Hrun.
  2:{ apply Forall_forall. intros l Hl. destruct (Hin l Hl) as (k & ->).
      pose proof (SW_fuel s bs fls k HW). lia. }
  eexists. split; [reflexivity|].
  set (F := firstn 42 (filter (fits size) (first_fit_class size (skipn i fls)))).
  assert (HF : forall q n, In (q, n) F ->
                           block_at (sfirst_hdr s) bs q n Free /\ size <= n).
  { intros q n Hq. apply firstn_incl in Hq. apply filter_In in Hq.
    destruct Hq as [Hq Hfit]. unfold fits in Hfit. simpl in Hfit.
    apply Z.leb_le in Hfit. split; [|exact Hfit].
    apply first_fit_class_in in Hq. destruct Hq as (l & Hl & Hq).
    destruct (Hin l Hl) as (k & ->). eapply SW_free_at; eassumption. }
  destruct F as [|b F'] eqn:EF; [left; reflexivity|right].
  destruct (best_of_min (b :: F')) as (n & Hn & _); [|discriminate|].
  - apply Forall_forall. intros [q n] Hq. simpl.
    destruct (HF q n Hq) as ((l1 & l2 & Ebs & ->) & _).
    pose proof (SW_sizes _ _ _ HW) as Hs. rewrite Ebs in Hs.
    apply sizes_ok_mid in Hs. destruct Hs as (Hs1 & _).
    pose proof (total_nonneg _ Hs1). destruct Hsc as (Hlo & _).
    unfold NULL, sfirst_hdr. lia.
  - exists n. apply HF. exact Hn.
Qed.

(** * The public operations of part_001 on a represented heap *)

(** ** [mm_init] *)

Lemma clear_heads_spec (n : nat) :
  forall (i : nat) (fb : Seg.heads),
    length (Seg.clear_heads n i fb) = length fb /\
    (forall k, (k < i)%nat ->
               Seg.head_at (Seg.clear_heads n i fb) k = Seg.head_at fb k) /\
    (forall k, (i <= k < i + n)%nat -> (k < length fb)%nat ->
               Seg.head_at (Seg.clear_heads n i fb) k = NULL).
Proof.
  induction n as [|n IH]; intros i fb; cbn [Seg.clear_heads].
  - split; [reflexivity|]. split; [reflexivity|]. intros k Hk. lia.
  - destruct (IH (S i) (Seg.set_head fb i NULL)) as (Hl & Hlow & Hnull).
    rewrite set_head_length in Hl, Hnull.
    split; [exact Hl|]. split.
    + intros k Hk. rewrite Hlow by lia. apply head_at_set_other. lia.
    + intros k Hk Hkl. destruct (Nat.eq_dec k i) as [->|Hne].
      * rewrite Hlow by lia. apply head_at_set_same. exact Hkl.
      * apply Hnull; lia.
Qed.

Lemma nth_repeat_nil {A} (k n : nat) : nth k (repeat (@nil A) n) [] = [].
Proof.
  revert k; induction n as [|n IH]; intros k; [destruct k; reflexivity|].
  destruct k; [reflexivity|]. apply IH.
Qed.

Lemma concat_repeat_nil {A} (n : nat) : concat (repeat (@nil A) n) = [].
Proof. induction n as [|n IH]; [reflexivity|exact IH]. Qed.

Lemma smm_init_spec (s0 : state Seg.heads) :
  0 < mem_lo s0 -> mem_brk s0 = mem_lo s0 ->
  mem_lo s0 + 24 <= mem_max s0 -> mem_max s0 - mem_lo s0 < W32 ->
  length (free_blks s0) = 20%nat ->
  exists s, Seg.mm_init s0 = Done 0 s /\
            SRep s [] (repeat [] (S Seg.max_level)) /\
            mem_lo s = mem_lo s0 /\ mem_max s = mem_max s0.
Proof.
  intros Hlo Hbrk Hmax H32 Hfb.
  unfold Seg.mm_init, WSIZE, ESIZE, DSIZE.
  assert (Hsbrk : mem_sbrk (6 * 4) s0
                  = Done (mem_lo s0) (set_brk s0 (mem_lo s0 + 24))).
  { unfold mem_sbrk. rewrite Hbrk.
    replace (mem_lo s0 + 6 * 4 <=? mem_max s0) with true
      by (symmetry; apply Z.leb_le; lia).
    reflexivity. }
  rstep ltac:(exact Hsbrk).
  rstep ltac:(reflexivity).
  replace (mem_lo s0 =? SBRK_FAIL) with false
    by (symmetry; apply Z.eqb_neq; unfold SBRK_FAIL; lia).
  do 6 rstep ltac:(apply WRITE_ok; unfold inb; norm; lia).
  do 4 rstep ltac:(reflexivity).
  destruct (clear_heads_spec (S Seg.max_level) 0 (free_blks s0))
    as (Hl & _ & Hnull).
  eexists. split; [reflexivity|]. split; [|split; reflexivity].
  split; [|split; constructor].
  split; [|split; [|split; [|split; [|split]]]]; norm; cbn [total].
  - unfold sscalars; norm. repeat split; lia.
  - exact I.
  - cbn [tail_pa]. replace (mem_lo s0 + 5 * 4) with (mem_lo s0 + 20) by lia.
    rewrite rd_wr_same_small; [reflexivity|].
    unfold PACK, W32. simpl. lia.
  - split; [apply repeat_length|]. split; [rewrite Hl; exact Hfb|].
    intros k Hk. rewrite nth_repeat_nil. split; [exact I|].
    apply Hnull; [lia|]. rewrite Hfb. unfold Seg.max_level in Hk. lia.
  - intros k q sz Hq. rewrite nth_repeat_nil in Hq. contradiction.
  - rewrite concat_repeat_nil. constructor.
Qed.

Lemma smm_init_fail (s0 : state Seg.heads) :
  mem_brk s0 = mem_lo s0 -> mem_max s0 < mem_lo s0 + 24 ->
  exists s, Seg.mm_init s0 = Done (-1) s.
Proof.
  intros Hbrk Hmax. unfold Seg.mm_init, WSIZE, bind, mem_sbrk.
  replace (mem_brk s0 + 6 * 4 <=? mem_max s0) with false
    by (symmetry; apply Z.leb_gt; lia).
  simpl. eexists. reflexivity.
Qed.

Lemma sbuild_allocated (s : state Seg.heads) (l1 l2 : list block) (bsz size : Z)
      (fls : list (list (Z * Z))) :
  SRep s (l1 ++ (bsz, Free) :: l2) fls ->
  16 <= size -> size mod 8 = 0 -> size <= bsz ->
  exists s',
    Seg._build (sfirst_hdr s + total l1 + 4) size s = Done tt s' /\
    sallocated s (l1 ++ (bsz, Free) :: l2) size (sfirst_hdr s + total l1 + 4) s'.
Proof.
  intros HRep H16 H8 Hle.
  destruct (sbuild_spec s l1 l2 bsz size fls HRep H16 H8 Hle) as (s' & Hrun & Hb).
  exists s'. split; [exact Hrun|].
  destruct Hb as (m' & fb' & bs' & fls' & -> & HRep' & Htot & Hab & Hfr & Hown & _ & Hft).
  pose proof (SW_sizes _ _ _ (SRep_SW _ _ _ HRep)) as Hs.
  apply sizes_ok_mid in Hs. destruct Hs as (Hs1 & [Hbsz _] & Hs2).
  pose proof (total_nonneg _ Hs1).
  destruct HRep as (((Hlo & _) & _) & _).
  split; [unfold NULL, sfirst_hdr; lia|].
  exists bs', fls', (built_size bsz size).
  split; [exact HRep'|]. split; [reflexivity|]. split; [reflexivity|].
  split; [unfold built_size; destruct (ESIZE <? bsz - size); lia|].
  split.
  - norm. rewrite Hab, alloc_blocks_mid_other by discriminate.
    apply Permutation_sym, Permutation_middle.
  - intros y Hy. norm. apply Hfr.
    apply in_payload_mid_other in Hy; [exact Hy|discriminate].
Qed.

Lemma smalloc_spec (s : state Seg.heads) (bs : list block) (fls : list (list (Z * Z)))
      (fuel : nat) (n : Z) :
  SRep s bs fls -> (heap_fuel s <= fuel)%nat -> 0 < n < W64 ->
  exists p s',
    Seg.malloc fuel n s = Done p s' /\
    ((p = NULL /\ s' = s /\ mem_max s < mem_brk s + Mm.adjust n) \/
     sallocated s bs (Mm.adjust n) p s').
Proof.
  intros HRep Hfuel Hn.
  destruct (adjust_facts n ltac:(lia)) as (H16 & H8 & H64 & _).
  unfold Seg.malloc.
  replace (n =? 0) with false by (symmetry; apply Z.eqb_neq; lia).
  cbv zeta.
  destruct (sallocate_spec s bs fls fuel (Mm.adjust n) (SRep_SW _ _ _ HRep) Hfuel)
    as (r & Hrun & Hr).
  rstep ltac:(exact Hrun).
  destruct Hr as [-> | (nq & (l1 & l2 & -> & ->) & Hle)].
  - (* no fit: extend the heap *)
    change (negb (NULL =? NULL)) with false. cbv iota.
    destruct (Z_le_gt_dec (mem_brk s + Mm.adjust n) (mem_max s)) as [Hroom|Hfull].
    + destruct (sextend_spec s bs fls (Mm.adjust n / WSIZE) HRep) as (r & s1 & Hrun1 & Hext);
        rewrite ?extend_bytes_adjust by lia; trivial.
      rewrite extend_bytes_adjust in Hext by lia.
      rstep ltac:(exact Hrun1).
      destruct Hext as (bs1 & fls1 & HRep1 & Hlo1 & Hmax1 & Hbrk1 & Htot1 & Hab1
                        & Hfr1 & r1 & rsz & r2 & -> & -> & Hrsz).
      assert (Efh : sfirst_hdr s1 = sfirst_hdr s) by (unfold sfirst_hdr; lia).
      rewrite <- Efh.
      destruct (sbuild_allocated s1 r1 r2 rsz (Mm.adjust n) fls1 HRep1 H16 H8 Hrsz)
        as (s2 & Hrun2 & Hal).
      destruct Hal as (Hp & bs2 & fls2 & cap & HRep2 & Hlo2 & Hmax2 & Hcap & HP2
                       & Hfr2).
      replace (sfirst_hdr s1 + total r1 + 4 =? NULL) with false
        by (symmetry; apply Z.eqb_neq; exact Hp).
      rstep ltac:(exact Hrun2).
      eexists _, _. split; [reflexivity|]. right.
      split; [exact Hp|].
      exists bs2, fls2, cap.
      split; [exact HRep2|]. split; [lia|]. split; [lia|]. split; [exact Hcap|].
      rewrite Efh in *.
      split; [rewrite <- Hab1; exact HP2|].
      intros y Hy. rewrite Hfr2, Hfr1; trivial.
      eapply in_payload_alloc_eq; eassumption.
    + rstep ltac:(apply sextend_fail; rewrite extend_bytes_adjust by lia; lia).
      change (NULL =? NULL) with true. cbv iota.
      eexists _, _. split; [reflexivity|]. left. repeat split; lia.
  - destruct (sbuild_allocated s l1 l2 nq (Mm.adjust n) fls HRep H16 H8 Hle)
      as (s2 & Hrun2 & Hal).
    pose proof Hal as (Hp & _).
    replace (negb (sfirst_hdr s + total l1 + 4 =? NULL)) with true
      by (symmetry; apply negb_true_iff, Z.eqb_neq; exact Hp).
    rstep ltac:(exact Hrun2).
    eexists _, _. split; [reflexivity|]. right. exact Hal.
Qed.

Lemma sfree_spec (s : state Seg.heads) (bs : list block) (fls : list (list (Z * Z))) (p sz : Z) :
  SRep s bs fls -> block_at (sfirst_hdr s) bs p sz Allocated ->
  exists s', Seg.free p s = Done tt s' /\ sfreed s bs p sz s'.
Proof.
  intros (HW & Hnaf & Hnl) (l1 & l2 & -> & ->).
  pose proof (SW_sizes _ _ _ HW) as Hs.
  pose proof (SW_bounds _ _ _ HW) as (Ht0 & Htb & Ht32 & Hmax).
  rewrite total_mid in Ht0, Htb, Ht32.
  apply sizes_ok_mid in Hs. destruct Hs as (Hs1 & [Hsz Hsz8] & Hs2).
  pose proof (total_nonneg _ Hs1) as Ht1. pose proof (total_nonneg _ Hs2) as Ht2.
  apply naf_app in Hnaf. destruct Hnaf as [Hnaf1 [_ Hnaf2]]. simpl next_pa in Hnaf2.
  apply no_limbo_app in Hnl. destruct Hnl as [Hnl1 Hnl2].
  apply no_limbo_cons in Hnl2. destruct Hnl2 as [_ Hnl2].
  pose proof HW as (_ & Hb & _).
  apply blocks_mid in Hb. destruct Hb as (_ & _ & Hhdr & _).
  set (h := sfirst_hdr s + total l1) in *.
  assert (Hhb : inb s h) by (unfold inb, h, sfirst_hdr; lia).
  assert (Hp0 : (h + 4 =? NULL) = false).
  { apply Z.eqb_neq. destruct HW as ((Hlo & _) & _).
    unfold NULL, h, sfirst_hdr. lia. }
  unfold Seg.free. rewrite Hp0, ?GET_HEADER_hdr.
  rstep ltac:(eapply GET_SIZE_ok; [exact Hhb|exact Hhdr|exact Hsz8|lia|lia]).
  rstep ltac:(eapply GET_PREALLOC_ok; [exact Hhb|exact Hhdr|exact Hsz8]).
  apply SW_forget_alloc in HW.
  assert (Hhv : PACK sz (bit_pa (tail_pa true l1)) = hdr sz (tail_pa true l1) false).
  { rewrite pack_small by (trivial; destruct (tail_pa true l1); simpl; lia).
    unfold hdr. simpl. lia. }
  rewrite Hhv, (pack_small sz 0), Z.add_0_r by (trivial; lia).
  rstep ltac:(apply WRITE_ok; exact Hhb).
  assert (HW2 := SW_write_limbo s l1 l2 sz true fls h
                   (hdr sz (tail_pa true l1) false) HW
                   ltac:(fold h; lia) ltac:(fold h; lia)).
  set (s2 := set_mem s _) in *.
  assert (Hh2 : rd (mem s2) h = hdr sz (tail_pa true l1) false).
  { subst s2; norm. apply rd_wr_same_small. apply hdr_fits; lia. }
  rstep ltac:(eapply GET_FOOTER_hdr; [exact Hhb|exact Hh2|exact Hsz8|lia|lia]).
  rstep ltac:(apply WRITE_ok; unfold inb; subst s2; norm; unfold h, sfirst_hdr in *; lia).
  assert (HW3 := SW_write_limbo s2 l1 l2 sz true fls (h + sz - 4) sz HW2
                   ltac:(subst s2; norm; fold h; lia)
                   ltac:(subst s2; norm; fold h; lia)).
  set (s3 := set_mem s2 _) in *.
  destruct (smerge_spec s3 l1 l2 sz true fls HW3) as (r & s' & Hrun & Hm);
    trivial.
  { subst s3 s2; norm. fold h. rewrite rd_wr_other by lia.
    apply rd_wr_same_small. apply hdr_fits; lia. }
  { subst s3 s2; norm. fold h. apply rd_wr_same_small. unfold W32 in *; lia. }
  cbv zeta in Hrun.
  replace (sfirst_hdr s3) with (sfirst_hdr s) in Hrun by reflexivity.
  fold h in Hrun.
  rstep ltac:(exact Hrun).
  eexists. split; [reflexivity|].
  destruct Hm as (m' & fb' & bs' & fls' & -> & HRep & Htot & Hab & Hfr & _).
  replace (sfirst_hdr s3) with (sfirst_hdr s) in Hab, Hfr by reflexivity.
  fold h in Hab, Hfr.
  exists bs', fls'. split; [exact HRep|].
  split; [reflexivity|]. split; [reflexivity|]. split; [reflexivity|].
  norm. split.
  - rewrite Hab, alloc_blocks_mid_alloc. fold h. apply Permutation_middle.
  - intros y Hy. change (m' y = mem s y).
    assert (Hy' : in_payload (sfirst_hdr s) l1 y \/ in_payload (h + sz) l2 y).
    { apply in_payload_iff in Hy. rewrite Hab in Hy.
      destruct Hy as (q & n & Hin & Hq). apply in_app_or in Hin.
      destruct Hin; [left|right]; apply in_payload_iff; eauto. }
    rewrite Hfr by exact Hy'.
    assert (Hyr : y < h \/ h + sz + 4 <= y).
    { destruct Hy' as [Hy'|Hy']; apply in_payload_range in Hy'; trivial;
        unfold h in *; lia. }
    subst s3 s2; norm. rewrite !wr_other_byte by lia. reflexivity.
Qed.

Lemma sfree_null (s : state Seg.heads) : Seg.free NULL s = Done tt s.
Proof. reflexivity. Qed.

(** ** Client stores into a payload *)

Lemma sstore_spec (s : state Seg.heads) (bs : list block) (fls : list (list (Z * Z))) (y v : Z) :
  SRep s bs fls -> in_payload (sfirst_hdr s) bs y ->
  SRep (set_mem s (store_byte (mem s) y v)) bs fls.
Proof.
  intros (HW & Hnaf & Hnl) Hy. split; [|split; assumption].
  pose proof (SW_sizes _ _ _ HW) as Hs.
  apply SW_frame; trivial.
  - intros y' Hy'. apply store_byte_other. intros ->.
    exact (payload_not_meta _ _ _ Hs Hy Hy').
  - intros y' Hy'. apply store_byte_other. intros ->.
    exact (payload_not_links _ _ _ Hs Hy Hy').
  - intros y' Hy'. apply store_byte_other. intros ->.
    apply in_payload_range in Hy; trivial.
    destruct HW as ((_ & _ & Hend & _) & _). unfold sfirst_hdr in *. lia.
Qed.

(** * [realloc] and [calloc] of part_001 *)

(** Any change confined to payload bytes keeps the representation. *)
Lemma SRep_payload_change (s : state Seg.heads) (bs : list block) (fls : list (list (Z * Z)))
      (m' : memory) :
  SRep s bs fls ->
  (forall y, ~ in_payload (sfirst_hdr s) bs y -> m' y = mem s y) ->
  SRep (set_mem s m') bs fls.
Proof.
  intros (HW & Hnaf & Hnl) Hm. split; [|split; assumption].
  pose proof (SW_sizes _ _ _ HW) as Hs.
  apply SW_frame; trivial.
  - intros y Hy. apply Hm. intros Hp. exact (payload_not_meta _ _ _ Hs Hp Hy).
  - intros y Hy. apply Hm. intros Hp. exact (payload_not_links _ _ _ Hs Hp Hy).
  - intros y Hy. apply Hm. intros Hp. apply in_payload_range in Hp; trivial.
    destruct HW as ((_ & _ & Hend & _) & _). unfold sfirst_hdr in *. lia.
Qed.

(** The header of an allocated block of a represented heap. *)
Lemma SRep_alloc_header (s : state Seg.heads) (bs : list block) (fls : list (list (Z * Z))) (p n : Z) :
  SRep s bs fls -> In (p, n) (alloc_blocks (sfirst_hdr s) bs) ->
  inb s (p - 4) /\ p - 4 + n + 4 <= mem_brk s /\ mem_lo s + 24 <= p /\
  16 <= n /\ n mod 8 = 0 /\ n + 8 <= W32 /\
  exists pa, rd (mem s) (p - 4) = hdr n pa true.
Proof.
  intros (HW & _) Hin.
  pose proof (SW_sizes _ _ _ HW) as Hs.
  pose proof (SW_bounds _ _ _ HW) as (Ht0 & Htb & Ht32 & _).
  pose proof (alloc_blocks_bounds _ _ _ _ Hs Hin) as (H1 & H2 & H3 & H4 & _).
  apply alloc_blocks_at in Hin. destruct Hin as (l1 & l2 & E & ->).
  destruct HW as (_ & Hb & _). rewrite E in Hb.
  apply blocks_mid in Hb. destruct Hb as (_ & _ & Hh & _).
  unfold inb, sfirst_hdr in *.
  split; [lia|]. split; [lia|]. split; [lia|]. split; [lia|].
  split; [exact H4|]. split; [lia|].
  exists (tail_pa true l1).
  replace (mem_lo s + 20 + total l1 + 4 - 4) with (mem_lo s + 20 + total l1) by lia.
  exact Hh.
Qed.

Lemma SRep_GET_SIZE (s : state Seg.heads) (bs : list block) (fls : list (list (Z * Z))) (p n : Z) :
  SRep s bs fls -> In (p, n) (alloc_blocks (sfirst_hdr s) bs) ->
  GET_SIZE (GET_HEADER p) s = Done n s.
Proof.
  intros HRep Hin.
  destruct (SRep_alloc_header _ _ _ _ _ HRep Hin)
    as (Hb & _ & _ & H16 & H8 & H32 & pa & Hh).
  unfold GET_HEADER, WSIZE. eapply GET_SIZE_ok; try eassumption. lia.
Qed.

Lemma srealloc_spec (s : state Seg.heads) (bs : list block) (fls : list (list (Z * Z)))
      (fuel : nat) (p psz n : Z) :
  SRep s bs fls -> In (p, psz) (alloc_blocks (sfirst_hdr s) bs) ->
  (heap_fuel s <= fuel)%nat -> 0 < n < W64 ->
  (Seg.realloc fuel p n s = Fault /\ mem_max s < mem_brk s + Mm.adjust n) \/
  exists q s', Seg.realloc fuel p n s = Done q s' /\ sreallocated s bs p psz n q s'.
Proof.
  intros HRep Hin Hfuel Hn.
  pose proof W32_lt_W64 as HW.
  destruct (SRep_alloc_header _ _ _ _ _ HRep Hin)
    as (Hpb & Hpbrk & Hplo & Hp16 & Hp8 & Hp32 & _).
  pose proof HRep as (((Hlo & _) & _) & _).
  unfold Seg.realloc.
  replace (n =? 0) with false by (symmetry; apply Z.eqb_neq; lia).
  replace (p =? NULL) with false by (symmetry; apply Z.eqb_neq; unfold NULL; lia).
  destruct (smalloc_spec s bs fls fuel n HRep Hfuel Hn)
    as (q & s1 & Hrun1 & [(-> & -> & Hoom)|Hal]).
  - left. split; [|exact Hoom].
    rstep ltac:(exact Hrun1).
    rstep ltac:(eapply SRep_GET_SIZE; eassumption).
    unfold GET_HEADER, GET_SIZE, READ, NULL, WSIZE, bind, in_heap.
    replace (mem_lo s <=? 0 - 4) with false by (symmetry; apply Z.leb_gt; lia).
    reflexivity.
  - right. destruct Hal as (Hq & bs1 & fls1 & cap & HRep1 & Hlo1 & Hmax1 & Hcap
                            & HP1 & Hfr1).
    assert (Efh : sfirst_hdr s1 = sfirst_hdr s) by (unfold sfirst_hdr; lia).
    rewrite <- Efh in HP1.
    pose proof (SW_sizes _ _ _ (SRep_SW _ _ _ HRep1)) as Hs1.
    assert (Hin1 : In (p, psz) (alloc_blocks (sfirst_hdr s1) bs1)).
    { eapply Permutation_in; [apply Permutation_sym; exact HP1|].
      right. rewrite Efh. exact Hin. }
    assert (Hqin1 : In (q, cap) (alloc_blocks (sfirst_hdr s1) bs1)).
    { eapply Permutation_in; [apply Permutation_sym; exact HP1|]. left. reflexivity. }
    assert (Hqp : q <> p).
    { intros ->.
      pose proof (alloc_ptrs_NoDup (sfirst_hdr s1) bs1 Hs1) as Hnd.
      rewrite alloc_ptrs_blocks in Hnd.
      eapply Permutation_NoDup in Hnd; [|apply Permutation_map; exact HP1].
      simpl in Hnd. inversion Hnd as [|? ? Hni _]; subst. apply Hni.
      rewrite Efh. apply (in_map fst _ _ Hin). }
    destruct (SRep_alloc_header _ _ _ _ _ HRep1 Hqin1)
      as (Hqb & Hqbrk & Hqlo & Hq16 & Hq8 & Hq32 & _).
    destruct (SRep_alloc_header _ _ _ _ _ HRep1 Hin1) as (_ & Hpbrk1 & _).
    rstep ltac:(exact Hrun1).
    rstep ltac:(eapply SRep_GET_SIZE; eassumption).
    rstep ltac:(eapply SRep_GET_SIZE; eassumption).
    rewrite copy_length_eq by lia.
    set (len := Z.min (psz - 4) (cap - 4)).
    assert (Hlen : 12 <= len /\ len <= psz - 4 /\ len <= cap - 4) by (unfold len; lia).
    assert (Hdisj : p + len <= q \/ q + len <= p).
    { destruct (alloc_blocks_disjoint _ _ _ _ _ _ Hs1 Hin1 Hqin1) as [E|H];
        [congruence|lia]. }
    set (m2 := copy_bytes (Z.to_nat len) (mem s1) q p).
    assert (Hcpy : memcpy q p len s1 = Done tt (set_mem s1 m2)).
    { unfold memcpy.
      replace (len =? 0) with false by (symmetry; apply Z.eqb_neq; lia).
      rewrite !in_heap_true by lia. reflexivity. }
    rstep ltac:(exact Hcpy).
    assert (HRep2 : SRep (set_mem s1 m2) bs1 fls1).
    { apply SRep_payload_change; [exact HRep1|].
      intros y Hy. unfold m2. apply copy_bytes_other.
      rewrite Z2Nat.id by lia.
      destruct (Z_lt_dec y q); [left; assumption|].
      destruct (Z_le_dec (q + len) y); [right; assumption|].
      exfalso. apply Hy. apply in_payload_iff. exists q, cap.
      split; [exact Hqin1|lia]. }
    destruct (sfree_spec (set_mem s1 m2) bs1 fls1 p psz HRep2) as (s3 & Hrun3 & Hfreed).
    { apply alloc_blocks_at. exact Hin1. }
    rstep ltac:(exact Hrun3).
    eexists _, _. split; [reflexivity|].
    destruct Hfreed as (bs3 & fls3 & HRep3 & Hlo3 & Hmax3 & _ & HP3 & Hfr3).
    norm. rewrite ?first_hdr_set_mem in *.
    split; [exact Hq|]. split; [exact Hqp|].
    exists bs3, fls3, cap.
    split; [exact HRep3|]. split; [lia|]. split; [lia|]. split; [exact Hcap|].
    rewrite Efh in *.
    split; [eapply Permutation_trans; eassumption|].
    fold len. intros i Hi.
    assert (Hq3 : In (q, cap) (alloc_blocks (sfirst_hdr s) bs3)).
    { assert (H : In (q, cap) ((p, psz) :: alloc_blocks (sfirst_hdr s) bs3))
        by (eapply Permutation_in; [apply Permutation_sym; exact HP3|exact Hqin1]).
      destruct H as [E|H]; [inversion E; congruence|exact H]. }
    unfold byte_at. rewrite Hfr3
      by (apply in_payload_iff; exists q, cap; split; [exact Hq3|lia]).
    unfold m2. rewrite copy_bytes_at by (rewrite Z2Nat.id by lia; lia).
    unfold byte_at. rewrite Z.mod_mod by lia.
    rewrite Hfr1; [reflexivity|].
    apply in_payload_iff. exists p, psz. split; [exact Hin|lia].
Qed.

Lemma scalloc_spec (s : state Seg.heads) (bs : list block) (fls : list (list (Z * Z)))
      (fuel : nat) (nmemb size : Z) :
  let bytes := (nmemb * size) mod W64 in
  SRep s bs fls -> (heap_fuel s <= fuel)%nat ->
  Seg.calloc fuel nmemb size s = Fault \/
  (bytes = 0 /\ Seg.calloc fuel nmemb size s = Done NULL s) \/
  exists q s', Seg.calloc fuel nmemb size s = Done q s' /\
               szero_allocated s bs bytes q s'.
Proof.
  intros bytes HRep Hfuel. unfold Seg.calloc. fold bytes.
  pose proof (Z.mod_pos_bound (nmemb * size) W64 ltac:(unfold W64; lia)) as Hb.
  fold bytes in Hb.
  pose proof HRep as (((Hlo & _) & _) & _).
  destruct (Z.eq_dec bytes 0) as [E0|Hne].
  - right. left. split; [exact E0|]. rewrite E0. reflexivity.
  - destruct (smalloc_spec s bs fls fuel bytes HRep Hfuel ltac:(lia))
      as (q & s1 & Hrun1 & [(-> & -> & Hoom)|Hal]).
    + left. rstep ltac:(exact Hrun1).
      unfold memset, bind, in_heap, NULL.
      replace (bytes =? 0) with false by (symmetry; apply Z.eqb_neq; lia).
      replace (mem_lo s <=? 0) with false by (symmetry; apply Z.leb_gt; lia).
      reflexivity.
    + destruct Hal as (Hq & bs1 & fls1 & cap & HRep1 & Hlo1 & Hmax1 & Hcap
                       & HP1 & Hfr1).
      assert (Efh : sfirst_hdr s1 = sfirst_hdr s) by (unfold sfirst_hdr; lia).
      rewrite <- Efh in HP1.
      assert (Hqin1 : In (q, cap) (alloc_blocks (sfirst_hdr s1) bs1)).
      { eapply Permutation_in; [apply Permutation_sym; exact HP1|]. left. reflexivity. }
      destruct (SRep_alloc_header _ _ _ _ _ HRep1 Hqin1)
        as (Hqb & Hqbrk & Hqlo & Hq16 & Hq8 & Hq32 & _).
      rstep ltac:(exact Hrun1).
      destruct (Z_le_gt_dec bytes (cap - 4)) as [Hfit|Hbig].
      * right. right.
        set (m2 := fill_bytes (Z.to_nat bytes) (mem s1) q 0).
        assert (Hset : memset q 0 bytes s1 = Done tt (set_mem s1 m2)).
        { unfold memset.
          replace (bytes =? 0) with false by (symmetry; apply Z.eqb_neq; lia).
          rewrite in_heap_true by lia. reflexivity. }
        rstep ltac:(exact Hset).
        eexists _, _. split; [reflexivity|].
        split; [exact Hq|]. exists bs1, fls1, cap.
        split.
        { apply SRep_payload_change; [exact HRep1|].
          intros y Hy. unfold m2. apply fill_bytes_other.
          rewrite Z2Nat.id by lia.
          destruct (Z_lt_dec y q); [left; assumption|].
          destruct (Z_le_dec (q + bytes) y); [right; assumption|].
          exfalso. apply Hy. apply in_payload_iff. exists q, cap.
          split; [exact Hqin1|lia]. }
        norm. split; [lia|]. split; [lia|]. split; [exact Hcap|].
        split; [exact Hfit|]. rewrite <- Efh. split; [exact HP1|].
        intros i Hi. unfold byte_at, m2.
        rewrite fill_bytes_at by (rewrite Z2Nat.id by lia; lia). reflexivity.
      * left.
        destruct (adjust_facts bytes ltac:(lia)) as (_ & _ & _ & Hadj).
        assert (Hhuge : W64 <= bytes + 11) by lia.
        pose proof W32_lt_W64.
        pose proof HRep1 as (HW1 & _).
        pose proof (SW_bounds _ _ _ HW1) as (_ & Htb & Ht32 & _).
        unfold memset, bind, in_heap.
        replace (bytes =? 0) with false by (symmetry; apply Z.eqb_neq; lia).
        replace (q + bytes <=? mem_brk s1) with false
          by (symmetry; apply Z.leb_gt; unfold W64, W32 in *; lia).
        rewrite andb_false_r. reflexivity.
Qed.

Lemma smalloc_zero (fuel : nat) (s : state Seg.heads) : Seg.malloc fuel 0 s = Done NULL s.
Proof. reflexivity. Qed.

Lemma sheld_block (s : state Seg.heads) (bs : list block) (L : list Z) (p : Z) :
  Permutation L (alloc_ptrs (sfirst_hdr s) bs) -> In p L ->
  exists psz, In (p, psz) (alloc_blocks (sfirst_hdr s) bs).
Proof.
  intros HP Hin. eapply Permutation_in in Hin; [|exact HP].
  rewrite alloc_ptrs_blocks in Hin. apply in_map_iff in Hin.
  destruct Hin as ([p' psz] & E & Hin). simpl in E. subst p'.
  exists psz. exact Hin.
Qed.

Lemma sheap_inv_alloc (lo max : Z) (s s' : state Seg.heads) (bs bs' : list block)
      (fls' : list (list (Z * Z))) (L : list Z) (p cap : Z) :
  mem_lo s = lo -> mem_max s = max ->
  Permutation L (alloc_ptrs (sfirst_hdr s) bs) ->
  SRep s' bs' fls' -> mem_lo s' = mem_lo s -> mem_max s' = mem_max s ->
  Permutation (alloc_blocks (sfirst_hdr s) bs') ((p, cap) :: alloc_blocks (sfirst_hdr s) bs) ->
  sheap_inv lo max s' (p :: L).
Proof.
  intros Hlo Hmax HP HRep' Hlo' Hmax' HP'.
  exists bs', fls'. split; [exact HRep'|]. split; [|split; lia].
  assert (E : sfirst_hdr s' = sfirst_hdr s) by (unfold sfirst_hdr; lia).
  rewrite E, !alloc_ptrs_blocks.
  apply (Permutation_map fst) in HP'. simpl in HP'.
  rewrite HP'. apply perm_skip. rewrite <- alloc_ptrs_blocks. exact HP.
Qed.

Theorem sreachable_inv (lo max : Z) (s : state Seg.heads) (L : list Z) :
  sreachable lo max s L -> sheap_inv lo max s L.
Proof.
  induction 1 as [m s Hlo H32 Hrun
                 | s L fuel n p s' Hr IH Hfuel Hn Hrun
                 | s L p L' s' Hr IH HPL Hrun
                 | s L fuel p n L' q s' Hr IH HPL Hfuel Hn Hrun
                 | s L fuel nmemb size p s' Hr IH Hfuel Hm Hsz Hrun
                 | s L p sz y v Hr IH Hin Hsz Hy].
  - destruct (Z_lt_le_dec max (lo + 24)) as [Hsmall|Hbig].
    + destruct (smm_init_fail (Seg.boot m lo max)) as (s1 & E); simpl; trivial.
      rewrite E in Hrun. discriminate.
    + destruct (smm_init_spec (Seg.boot m lo max)) as (s1 & E & HRep & Hlo1 & Hmax1);
        simpl; trivial.
      rewrite E in Hrun. inversion Hrun; subst s1.
      exists [], (repeat [] (S Seg.max_level)). split; [exact HRep|]. simpl in *. repeat split; trivial.
  - destruct IH as (bs & fls & HRep & HP & Hlo & Hmax).
    destruct (Z.eq_dec n 0) as [->|Hn0].
    + rewrite smalloc_zero in Hrun. inversion Hrun; subst. simpl.
      exists bs, fls. split; [exact HRep|]. repeat split; trivial.
    +
      destruct (smalloc_spec s bs fls fuel n HRep ltac:(lia) ltac:(lia))
        as (p1 & s1 & E & Hpost).
      rewrite E in Hrun. inversion Hrun; subst p1 s1.
      destruct Hpost as [(-> & -> & _)|Hal].
      * simpl. exists bs, fls. split; [exact HRep|]. repeat split; trivial.
      * destruct Hal as (Hp & bs' & fls' & cap & HRep' & Hlo' & Hmax' & _ & HP' & _).
        replace (p =? NULL) with false by (symmetry; apply Z.eqb_neq; exact Hp).
        eapply sheap_inv_alloc; eassumption.
  - destruct IH as (bs & fls & HRep & HP & Hlo & Hmax).
    destruct (sheld_block s bs L p HP) as (psz & Hin).
    { eapply Permutation_in; [apply Permutation_sym; exact HPL|left; reflexivity]. }
    destruct (sfree_spec s bs fls p psz HRep) as (s1 & E & Hfr).
    { apply alloc_blocks_at. exact Hin. }
    rewrite E in Hrun. inversion Hrun; subst s1.
    destruct Hfr as (bs' & fls' & HRep' & Hlo' & Hmax' & _ & HP' & _).
    exists bs', fls'. split; [exact HRep'|]. split; [|split; lia].
    assert (Efh : sfirst_hdr s' = sfirst_hdr s) by (unfold sfirst_hdr; lia).
    rewrite Efh. apply (Permutation_map fst) in HP'. simpl in HP'.
    rewrite <- !alloc_ptrs_blocks in HP'.
    apply Permutation_cons_inv with (a := p).
    rewrite HP', <- HP. apply Permutation_sym. exact HPL.
  - destruct IH as (bs & fls & HRep & HP & Hlo & Hmax).
    destruct (sheld_block s bs L p HP) as (psz & Hin).
    { eapply Permutation_in; [apply Permutation_sym; exact HPL|left; reflexivity]. }
    destruct (srealloc_spec s bs fls fuel p psz n HRep Hin ltac:(lia) Hn)
      as [(E & _)|(q1 & s1 & E & Hpost)]; rewrite E in Hrun; [discriminate|].
    inversion Hrun; subst q1 s1.
    destruct Hpost as (_ & _ & bs' & fls' & cap & HRep' & Hlo' & Hmax' & _ & HP' & _).
    exists bs', fls'. split; [exact HRep'|]. split; [|split; lia].
    assert (Efh : sfirst_hdr s' = sfirst_hdr s) by (unfold sfirst_hdr; lia).
    rewrite Efh. apply (Permutation_map fst) in HP'. simpl in HP'.
    rewrite <- !alloc_ptrs_blocks in HP'.
    apply Permutation_cons_inv with (a := p).
    rewrite HP', <- HP, HPL. apply perm_swap.
  - destruct IH as (bs & fls & HRep & HP & Hlo & Hmax).
    destruct (scalloc_spec s bs fls fuel nmemb size HRep ltac:(lia))
      as [E|[(_ & E)|(q1 & s1 & E & Hpost)]]; rewrite E in Hrun;
      [discriminate| |].
    + inversion Hrun; subst. simpl. exists bs, fls. split; [exact HRep|]. repeat split; trivial.
    + inversion Hrun; subst q1 s1.
      destruct Hpost as (Hp & bs' & fls' & cap & HRep' & Hlo' & Hmax' & Hcap & _ & HP' & _).
      replace (p =? NULL) with false by (symmetry; apply Z.eqb_neq; exact Hp).
      eapply sheap_inv_alloc; eassumption.
  - destruct IH as (bs & fls & HRep & HP & Hlo & Hmax).
    destruct (sheld_block s bs L p HP Hin) as (psz & Hin').
    rewrite (SRep_GET_SIZE _ _ _ _ _ HRep Hin') in Hsz.
    inversion Hsz; subst sz.
    exists bs, fls. split; [|repeat split; trivial].
    apply sstore_spec; [exact HRep|].
    apply in_payload_iff. exists p, psz. split; [exact Hin'|unfold WSIZE in Hy; lia].
Qed.

Lemma sexec1_reachable (lo max : Z) (c : call) (s s' : state Seg.heads) (L L' : list Z) :
  sreachable lo max s L -> sexec1 c s L = Some (s', L') -> sreachable lo max s' L'.
Proof.
  intros Hr. destruct c as [n|p|p n|nmemb size|p i v]; simpl.
  - destruct (size_ok n) eqn:Hn; [|discriminate]. apply size_ok_range in Hn.
    destruct (Seg.malloc (heap_fuel s) n s) as [q s1| |] eqn:E; try discriminate.
    intros H; inversion H; subst. eapply SR_malloc; eauto.
  - destruct (remove1 p L) as [L1|] eqn:HL; [|discriminate].
    destruct (Seg.free p s) as [[] s1| |] eqn:E; try discriminate.
    intros H; inversion H; subst. eapply SR_free; eauto using remove1_perm.
  - destruct (size_ok n) eqn:Hn; [|discriminate]. apply size_ok_range in Hn.
    destruct (0 <? n) eqn:Hpos; [|discriminate]. apply Z.ltb_lt in Hpos. simpl.
    destruct (remove1 p L) as [L1|] eqn:HL; [|discriminate].
    destruct (Seg.realloc (heap_fuel s) p n s) as [q s1| |] eqn:E; try discriminate.
    intros H; inversion H; subst.
    eapply SR_realloc; eauto using remove1_perm. lia.
  - destruct (size_ok nmemb) eqn:Hm; [|discriminate]. apply size_ok_range in Hm.
    destruct (size_ok size) eqn:Hn; [|discriminate]. apply size_ok_range in Hn. simpl.
    destruct (Seg.calloc (heap_fuel s) nmemb size s) as [q s1| |] eqn:E; try discriminate.
    intros H; inversion H; subst. eapply SR_calloc; [exact Hr|reflexivity|exact Hm|exact Hn|exact E].
  - destruct (held p L) eqn:Hh; [|discriminate]. apply held_In in Hh.
    destruct (GET_SIZE (GET_HEADER p) s) as [sz s1| |] eqn:E; try discriminate.
    destruct ((0 <=? i) && (i <? sz - WSIZE)) eqn:Hi; [|discriminate].
    apply andb_true_iff in Hi. rewrite Z.leb_le, Z.ltb_lt in Hi.
    intros H; inversion H; subst.
    pose proof (GET_SIZE_state _ _ _ _ E). subst s1.
    eapply SR_store; eauto. lia.
Qed.

Lemma sexec_reachable (lo max : Z) (cs : list call) :
  forall s L s' L',
    sreachable lo max s L -> sexec cs s L = Some (s', L') -> sreachable lo max s' L'.
Proof.
  induction cs as [|c r IH]; intros s L s' L' Hr H; simpl in H.
  - inversion H; subst. exact Hr.
  - destruct (sexec1 c s L) as [[s1 L1]|] eqn:E; [|discriminate].
    eapply IH; [|exact H]. eapply sexec1_reachable; eauto.
Qed.

Lemma ssession_reachable (m : memory) (lo max : Z) (cs : list call) :
  scompletes (ssession m lo max cs) = true ->
  sreachable lo max (sstate_of (ssession m lo max cs)) (sheld_of (ssession m lo max cs)).
Proof.
  unfold ssession.
  destruct ((0 <? lo) && (max - lo <? W32)) eqn:Hc; [|discriminate].
  apply andb_true_iff in Hc. rewrite !Z.ltb_lt in Hc.
  destruct (Seg.mm_init (Seg.boot m lo max)) as [r s| |] eqn:E; try discriminate.
  destruct (Z.eqb_spec r 0) as [->|]; [|discriminate].
  destruct (sexec cs s []) as [[s' L']|] eqn:Ex; [|discriminate].
  intros _. simpl. eapply sexec_reachable; [|exact Ex].
  eapply SR_init; [| |exact E]; lia.
Qed.

(** C6 as stated fails: placing a request of 32 bytes in the free block
    of 104 bytes splits it, and [_build] overwrites the last word of the
    allocated part (payload pointer + 32 - DSIZE) with [PACK 32 1], in
    mm.c and in part_001 alike. *)
Lemma C6_counterexample :
  let s := c6_state in
  let s' := final (Mm._build 1048 32 s) s in
  let t := c6_seg_state in
  let t' := final (Seg._build 1048 32 t) t in
  (completes (session zero_mem 1024 8192 c6_calls) = true /\
   returns (Mm._allocate (heap_fuel s) 32 s) 1048 = true /\
   returns (GET_SIZE (GET_HEADER 1048) s) 104 = true /\
   ESIZE < 104 - 32 /\
   finishes (Mm._build 1048 32 s) = true /\
   GET_HEADER 1048 < 1048 + 32 - DSIZE /\
   1048 + 32 - DSIZE + WSIZE <= GET_HEADER 1048 + 32 /\
   rd (mem s) (1048 + 32 - DSIZE) = 255 /\
   rd (mem s') (1048 + 32 - DSIZE) = PACK 32 1) /\
  (finishes (seg_session zero_mem 1024 8192 c6_calls) = true /\
   returns (Seg._allocate (heap_fuel t) 32 t) 1048 = true /\
   returns (GET_SIZE (GET_HEADER 1048) t) 104 = true /\
   finishes (Seg._build 1048 32 t) = true /\
   rd (mem t) (1048 + 32 - DSIZE) = 255 /\
   rd (mem t') (1048 + 32 - DSIZE) = PACK 32 1).
Proof. vm_compute. repeat split; discriminate. Qed.

(** In a heap without two adjacent free blocks the split of a free block
    leaves a remainder of exactly the bytes the request does not take:
    the block after it is allocated, or it is the last one. *)
Lemma split_remainder (a : Z) (l1 l2 r2 : list block) (bsz size rsz : Z) :
  naf true (l1 ++ (bsz, Free) :: l2) -> no_limbo (l1 ++ (bsz, Free) :: l2) ->
  naf true (l1 ++ (size, Allocated) :: (rsz, Free) :: r2) ->
  no_limbo (l1 ++ (size, Allocated) :: (rsz, Free) :: r2) ->
  total (l1 ++ (size, Allocated) :: (rsz, Free) :: r2)
  = total l1 + bsz + total l2 ->
  alloc_blocks a (l1 ++ (size, Allocated) :: (rsz, Free) :: r2)
  = alloc_blocks a l1 ++ (a + total l1 + 4, size)
                      :: alloc_blocks (a + total l1 + bsz) l2 ->
  rsz = bsz - size.
Proof.
  intros Hnaf Hnl Hnaf' Hnl' Htot Hab.
  apply naf_app in Hnaf. destruct Hnaf as (_ & Hnaf).
  cbn [naf next_pa] in Hnaf. destruct Hnaf as (_ & Hnaf).
  apply no_limbo_app in Hnl. destruct Hnl as (_ & Hnl).
  apply no_limbo_cons in Hnl. destruct Hnl as (_ & Hnl).
  apply naf_app in Hnaf'. destruct Hnaf' as (_ & Hnaf').
  cbn [naf next_pa] in Hnaf'. destruct Hnaf' as (_ & _ & Hnaf').
  apply no_limbo_app in Hnl'. destruct Hnl' as (_ & Hnl').
  apply no_limbo_cons in Hnl'. destruct Hnl' as (_ & Hnl').
  apply no_limbo_cons in Hnl'. destruct Hnl' as (_ & Hnl').
  rewrite alloc_blocks_mid_alloc in Hab. apply app_inv_head in Hab.
  inversion Hab as [Hab']. clear Hab. cbn [alloc_blocks app] in Hab'.
  rewrite total_app in Htot. cbn [total] in Htot.
  assert (Hhead : forall (x : Z) (st : status) (r : list block),
             naf false ((x, st) :: r) -> no_limbo ((x, st) :: r) ->
             st = Allocated).
  { intros x st r (Hf & _) Hl. apply no_limbo_cons in Hl.
    destruct Hl as ([E|E] & _); [exact E|]. specialize (Hf E). discriminate. }
  destruct l2 as [|[x st] l2'], r2 as [|[y st'] r2'].
  - cbn [total] in Htot. lia.
  - rewrite (Hhead _ _ _ Hnaf' Hnl') in Hab'. discriminate.
  - rewrite (Hhead _ _ _ Hnaf Hnl) in Hab'. discriminate.
  - rewrite (Hhead _ _ _ Hnaf' Hnl'), (Hhead _ _ _ Hnaf Hnl) in Hab'.
    cbn [alloc_blocks app] in Hab'. inversion Hab'. lia.
Qed.

(** The header of a free block of part_001. *)
Lemma SRep_free_header (s : state Seg.heads) (bs : list block)
      (fls : list (list (Z * Z))) (l1 l2 : list block) (n : Z) :
  SRep s bs fls -> bs = l1 ++ (n, Free) :: l2 ->
  let h := sfirst_hdr s + total l1 in
  rd (mem s) h = hdr n (tail_pa true l1) false /\
  GET_SIZE (GET_HEADER (h + 4)) s = Done n s /\
  16 <= n /\ n mod 8 = 0 /\ n + 8 <= W32.
Proof.
  intros HRep -> h.
  pose proof (SRep_SW _ _ _ HRep) as HW.
  pose proof (SW_sizes _ _ _ HW) as Hs.
  pose proof (SW_bounds _ _ _ HW) as (Ht0 & Htb & Ht32 & _).
  rewrite total_mid in Ht0, Htb, Ht32.
  apply sizes_ok_mid in Hs. destruct Hs as (Hs1 & [Hn Hn8] & Hs2).
  pose proof (total_nonneg _ Hs1). pose proof (total_nonneg _ Hs2).
  pose proof HW as (_ & Hb & _). apply blocks_mid in Hb.
  destruct Hb as (_ & _ & [Hhdr _] & _).
  split; [exact Hhdr|].
  split; [|repeat split; lia].
  rewrite GET_HEADER_hdr.
  eapply GET_SIZE_ok; [|exact Hhdr|exact Hn8|lia|lia].
  unfold inb, h, sfirst_hdr. lia.
Qed.

(** The words of a split, from the block lists before and after it. *)
Lemma split_written_blocks (m m' : memory) (a : Z) (l1 l2 r2 : list block)
      (n size rsz : Z) :
  let h := a + total l1 in
  16 <= size -> size mod 8 = 0 -> ESIZE < n - size ->
  n mod 8 = 0 -> n + 8 <= W32 -> rsz = n - size ->
  rd m h = hdr n (tail_pa true l1) false ->
  rd m' h = hdr size (tail_pa true l1) true ->
  rd m' (h + size - 4) = PACK size 1 ->
  (forall y, h + 4 <= y < h + size - 4 -> m' y = m y) ->
  blocks m' a true (l1 ++ (size, Allocated) :: (rsz, Free) :: r2) ->
  split_written m m' (h + 4) size n.
Proof.
  intros h Hsz Hsz8 Hsplit Hn8 Hn32 -> Hh Hhd Hft Hown Hb'.
  unfold ESIZE, DSIZE in Hsplit.
  assert (Eh : GET_HEADER (h + 4) = h) by (unfold GET_HEADER, WSIZE; lia).
  unfold split_written. rewrite Eh, Hhd, Hh.
  apply blocks_mid in Hb'. cbv beta iota in Hb'.
  destruct Hb' as (_ & _ & _ & Hb').
  cbn [blocks next_pa] in Hb'. destruct Hb' as ([Hr16 Hr8] & [Hrh Hrf] & _).
  split; [|split; [|split; [|split]]].
  - split; [apply hdr_size; trivial; lia|].
    split; [rewrite hdr_alloc by exact Hsz8; reflexivity|].
    rewrite !hdr_prealloc by assumption. reflexivity.
  - rewrite <- Hft. f_equal. unfold DSIZE. lia.
  - intros y Hy. apply Hown. unfold DSIZE in Hy. lia.
  - rewrite pack_small by (trivial; lia).
    transitivity (rd m' (a + total l1 + size)); [f_equal; unfold h, WSIZE; lia|].
    rewrite Hrh. unfold hdr. simpl. lia.
  - rewrite pack_small by (trivial; lia).
    transitivity (rd m' (a + total l1 + size + (n - size) - 4));
      [f_equal; unfold h, DSIZE; lia|].
    rewrite Hrf. lia.
Qed.

(** C6, amended.  When the search of mm.c or of part_001 has chosen the
    free block [ptr] of [blksize] bytes and [blksize - size > ESIZE],
    [_build] writes the header of the allocated part (size [size],
    ALLOC = 1, PREV_ALLOC kept), it also writes [PACK size 1] into the
    last word of the allocated part, at [ptr + size - DSIZE], and it
    writes the header (PREV_ALLOC = 1, ALLOC = 0) and the footer of the
    free remainder, which has exactly [blksize - size] bytes.  The payload
    bytes before that last word are not changed. *)
Theorem C6_build_split_writes (lo max slo smax : Z) (s : state Z)
        (t : state Seg.heads) (L K : list Z) (fuel gas : nat)
        (size ptr blksize q tsz : Z) :
  16 <= size -> size mod 8 = 0 ->
  reachable lo max s L -> (heap_fuel s <= fuel)%nat ->
  Mm._allocate fuel size s = Done ptr s -> ptr <> NULL ->
  GET_SIZE (GET_HEADER ptr) s = Done blksize s ->
  ESIZE < blksize - size ->
  sreachable slo smax t K -> (heap_fuel t <= gas)%nat ->
  Seg._allocate gas size t = Done q t -> q <> NULL ->
  GET_SIZE (GET_HEADER q) t = Done tsz t ->
  ESIZE < tsz - size ->
  (exists s', Mm._build ptr size s = Done tt s' /\
              split_written (mem s) (mem s') ptr size blksize) /\
  (exists t', Seg._build q size t = Done tt t' /\
              split_written (mem t) (mem t') q size tsz).
Proof.
  intros Hsz Hsz8 Hr Hf Hal Hnn Hbs Hsplit Hr' Hf' Hal' Hnn' Hbs' Hsplit'.
  split.
  - destruct (reachable_inv _ _ _ _ Hr) as (bs & fl & HRep & _).
    pose proof (Rep_W _ _ _ HRep) as HW.
    pose proof (W_fuel _ _ _ HW) as Hfl.
    destruct (allocate_spec s bs fl fuel size HW ltac:(lia)) as (r & Hrun & Hres).
    rewrite Hrun in Hal. inversion Hal; subst r.
    destruct Hres as [E|(n & (l1 & l2 & Ebs & Eptr) & Hle)]; [contradiction|].
    destruct (Rep_free_header s bs fl l1 l2 n HRep Ebs)
      as (Hh & Hgs & Hn16 & Hn8 & Hn32).
    cbv zeta in Hh, Hgs. rewrite <- Eptr in Hgs.
    rewrite Hgs in Hbs. inversion Hbs; subst blksize.
    rewrite Ebs in HRep.
    destruct (build_spec s l1 l2 n size fl HRep Hsz Hsz8 Hle) as (s' & Hb & Hbuilt).
    rewrite <- Eptr in Hb. exists s'. split; [exact Hb|].
    unfold built in Hbuilt. cbv zeta in Hbuilt.
    destruct Hbuilt as (m' & fb' & bs' & fl' & -> & HRep' & Htot & Hab & _ & Hown
                        & Hhd & Hft & Hrem).
    unfold built_size in Hown, Hhd, Hft, Hab.
    replace (ESIZE <? n - size) with true in Hown, Hhd, Hft, Hab
      by (symmetry; apply Z.ltb_lt; exact Hsplit).
    destruct (Hrem Hsplit) as (rsz & r2 & Ebs' & _).
    destruct HRep as (_ & Hnaf & Hnl).
    pose proof HRep' as (HW' & Hnaf' & Hnl').
    pose proof HW' as (_ & Hb' & _). cbn [mem set_mem set_free_blks] in Hb'.
    rewrite first_hdr_set_free_blks, first_hdr_set_mem in Hb'.
    rewrite Ebs' in Hb', Hnaf', Hnl', Htot, Hab.
    cbn [mem set_mem set_free_blks]. rewrite Eptr.
    eapply split_written_blocks; try eassumption.
    eapply split_remainder; eassumption.
  - destruct (sreachable_inv _ _ _ _ Hr') as (bs & fls & HRep & _).
    pose proof (SRep_SW _ _ _ HRep) as HW.
    destruct (sallocate_spec t bs fls gas size HW Hf') as (r & Hrun & Hres).
    rewrite Hrun in Hal'. inversion Hal'; subst r.
    destruct Hres as [E|(n & (l1 & l2 & Ebs & Eptr) & Hle)]; [contradiction|].
    destruct (SRep_free_header t bs fls l1 l2 n HRep Ebs)
      as (Hh & Hgs & Hn16 & Hn8 & Hn32).
    cbv zeta in Hh, Hgs. rewrite <- Eptr in Hgs.
    rewrite Hgs in Hbs'. inversion Hbs'; subst tsz.
    rewrite Ebs in HRep.
    destruct (sbuild_spec t l1 l2 n size fls HRep Hsz Hsz8 Hle) as (t' & Hb & Hbuilt).
    rewrite <- Eptr in Hb. exists t'. split; [exact Hb|].
    unfold sbuilt in Hbuilt. cbv zeta in Hbuilt.
    destruct Hbuilt as (m' & fb' & bs' & fls' & -> & HRep' & Htot & Hab & _ & Hown
                        & Hhd & Hft & Hrem).
    unfold built_size in Hown, Hhd, Hft, Hab.
    replace (ESIZE <? n - size) with true in Hown, Hhd, Hft, Hab
      by (symmetry; apply Z.ltb_lt; exact Hsplit').
    destruct (Hrem Hsplit') as (rsz & r2 & Ebs' & _).
    destruct HRep as (_ & Hnaf & Hnl).
    pose proof HRep' as (HW' & Hnaf' & Hnl').
    pose proof HW' as (_ & Hb' & _). cbn [mem set_mem set_free_blks] in Hb'.
    rewrite sfirst_hdr_set_free_blks, sfirst_hdr_set_mem in Hb'.
    rewrite Ebs' in Hb', Hnaf', Hnl', Htot, Hab.
    cbn [mem set_mem set_free_blks]. rewrite Eptr.
    eapply split_written_blocks; try eassumption.
    eapply split_remainder; eassumption.
Qed.

Lemma C6_witness :
  (exists s', Mm._build 1048 32 c6_state = Done tt s' /\
              split_written (mem c6_state) (mem s') 1048 32 104) /\
  (exists t', Seg._build 1048 32 c6_seg_reached = Done tt t' /\
              split_written (mem c6_seg_reached) (mem t') 1048 32 104).
Proof.
  apply (C6_build_split_writes 1024 8192 1024 8192 c6_state c6_seg_reached
           (held_of (session zero_mem 1024 8192 c6_calls))
           (sheld_of (ssession zero_mem 1024 8192 c6_calls))
           (heap_fuel c6_state) (heap_fuel c6_seg_reached)
           32 1048 104 1048 104).
  - lia.
  - reflexivity.
  - apply session_reachable. vm_compute. reflexivity.
  - apply le_n.
  - rewrite (returns_Done (Mm._allocate (heap_fuel c6_state) 32 c6_state) 1048 c6_state)
      at 1 by (vm_compute; reflexivity).
    reflexivity.
  - discriminate.
  - apply returns_GET_SIZE. vm_compute. reflexivity.
  - vm_compute. reflexivity.
  - apply ssession_reachable. vm_compute. reflexivity.
  - apply le_n.
  - rewrite (returns_Done (Seg._allocate (heap_fuel c6_seg_reached) 32 c6_seg_reached)
               1048 c6_seg_reached) at 1 by (vm_compute; reflexivity).
    reflexivity.
  - discriminate.
  - apply returns_GET_SIZE. vm_compute. reflexivity.
  - vm_compute. reflexivity.
Defined.

(** The size of a held block, read from its header. *)
Lemma sheld_size (s : state Seg.heads) (bs : list block) (fls : list (list (Z * Z))) (L : list Z)
      (q qsz : Z) :
  SRep s bs fls -> Permutation L (alloc_ptrs (sfirst_hdr s) bs) -> In q L ->
  GET_SIZE (GET_HEADER q) s = Done qsz s ->
  In (q, qsz) (alloc_blocks (sfirst_hdr s) bs).
Proof.
  intros HRep HP Hin Hsz.
  destruct (sheld_block s bs L q HP Hin) as (psz & Hb).
  rewrite (SRep_GET_SIZE _ _ _ _ _ HRep Hb) in Hsz. inversion Hsz; subst.
  exact Hb.
Qed.

(** An allocated block that survives an operation keeps its size and, when
    the operation leaves its payload alone, its contents. *)
Lemma sblock_kept (s s' : state Seg.heads) (bs' : list block) (fls' : list (list (Z * Z)))
      (q qsz : Z) :
  SRep s' bs' fls' ->
  In (q, qsz) (alloc_blocks (sfirst_hdr s') bs') ->
  (forall y, q <= y < q + qsz - 4 -> mem s' y = mem s y) ->
  GET_SIZE (GET_HEADER q) s' = Done qsz s' /\
  forall i, 0 <= i < qsz - WSIZE ->
            byte_at (mem s') (q + i) = byte_at (mem s) (q + i).
Proof.
  intros HRep Hin Hfr. split; [eapply SRep_GET_SIZE; eassumption|].
  intros i Hi. unfold byte_at, WSIZE in *. rewrite Hfr by lia. reflexivity.
Qed.

(** X19.  [malloc] in a reachable state of part_001, for a request that
    the size adjustment does not wrap.  It returns: either NULL, with the state
    unchanged and the provider unable to supply the adjusted size; or a
    pointer the client did not hold, to a block with room for the request
    that overlaps no held block, every held block keeping its size and
    its payload bytes. *)
Theorem X19_seg_malloc_fresh_block (lo max : Z) (s : state Seg.heads) (L : list Z)
        (fuel : nat) (n : Z) :
  sreachable lo max s L -> (heap_fuel s <= fuel)%nat ->
  0 < n -> n + 11 < W64 ->
  exists p s',
    Seg.malloc fuel n s = Done p s' /\
    ((p = NULL /\ s' = s /\ mem_max s < mem_brk s + Mm.adjust n) \/
     (p <> NULL /\ ~ In p L /\
      exists cap,
        GET_SIZE (GET_HEADER p) s' = Done cap s' /\ n <= cap - WSIZE /\
        forall q qsz,
          In q L -> GET_SIZE (GET_HEADER q) s = Done qsz s ->
          GET_SIZE (GET_HEADER q) s' = Done qsz s' /\
          (p + cap <= q \/ q + qsz <= p) /\
          forall i, 0 <= i < qsz - WSIZE ->
                    byte_at (mem s') (q + i) = byte_at (mem s) (q + i))).
Proof.
  intros Hr Hf Hn Hn11.
  destruct (sreachable_inv _ _ _ _ Hr) as (bs & fls & HRep & HP & _).
  destruct (smalloc_spec s bs fls fuel n HRep ltac:(lia) ltac:(lia))
    as (p & s' & E & [H|Hal]).
  - exists p, s'. split; [exact E|left; exact H].
  - exists p, s'. split; [exact E|right].
    destruct Hal as (Hp & bs' & fls' & cap & HRep' & Hlo' & Hmax' & Hcap & HP' & Hfr).
    assert (Efh : sfirst_hdr s' = sfirst_hdr s) by (unfold sfirst_hdr; lia).
    pose proof (SW_sizes _ _ _ (SRep_SW _ _ _ HRep')) as Hs'.
    assert (Hpin : In (p, cap) (alloc_blocks (sfirst_hdr s') bs')).
    { rewrite Efh. eapply Permutation_in; [apply Permutation_sym; exact HP'|].
      left. reflexivity. }
    split; [exact Hp|].
    split; [eapply fresh_not_held; eassumption|].
    exists cap. split; [eapply SRep_GET_SIZE; eassumption|].
    destruct (adjust_facts n ltac:(lia)) as (_ & _ & _ & Hadj).
    specialize (Hadj Hn11). split; [unfold WSIZE; lia|].
    intros q qsz Hq Hqsz.
    pose proof (sheld_size _ _ _ _ _ _ HRep HP Hq Hqsz) as Hqin.
    assert (Hqin' : In (q, qsz) (alloc_blocks (sfirst_hdr s') bs')).
    { rewrite Efh. eapply Permutation_in; [apply Permutation_sym; exact HP'|].
      right. exact Hqin. }
    destruct (sblock_kept s s' bs' fls' q qsz HRep' Hqin') as (Hsz' & Hbytes).
    { intros y Hy. apply Hfr. apply in_payload_iff. eauto. }
    split; [exact Hsz'|]. split; [|exact Hbytes].
    destruct (alloc_blocks_disjoint _ _ _ _ _ _ Hs' Hpin Hqin') as [->|Hd]; [|lia].
    exfalso. eapply fresh_not_held; eassumption.
Qed.

Lemma X19_witness :
  exists p s',
    Seg.malloc (heap_fuel sx2_state) 100 sx2_state = Done p s' /\
    ((p = NULL /\ s' = sx2_state /\
      mem_max sx2_state < mem_brk sx2_state + Mm.adjust 100) \/
     (p <> NULL /\ ~ In p (sheld_of (ssession zero_mem 1024 8192 sx2_calls)) /\
      exists cap,
        GET_SIZE (GET_HEADER p) s' = Done cap s' /\ 100 <= cap - WSIZE /\
        forall q qsz,
          In q (sheld_of (ssession zero_mem 1024 8192 sx2_calls)) ->
          GET_SIZE (GET_HEADER q) sx2_state = Done qsz sx2_state ->
          GET_SIZE (GET_HEADER q) s' = Done qsz s' /\
          (p + cap <= q \/ q + qsz <= p) /\
          forall i, 0 <= i < qsz - WSIZE ->
                    byte_at (mem s') (q + i) = byte_at (mem sx2_state) (q + i))).
Proof.
  apply (X19_seg_malloc_fresh_block 1024 8192 sx2_state
           (sheld_of (ssession zero_mem 1024 8192 sx2_calls))
           (heap_fuel sx2_state) 100).
  - apply ssession_reachable. vm_compute. reflexivity.
  - apply le_n.
  - lia.
  - unfold W64. lia.
Defined.

(** X20.  [free] of a held pointer in a reachable state of part_001
    returns, neither grows nor shrinks the region, and leaves every other held block its
    size and its payload bytes. *)
Theorem X20_seg_free_keeps_other_blocks (lo max : Z) (s : state Seg.heads) (L L' : list Z)
        (p : Z) :
  sreachable lo max s L -> Permutation L (p :: L') ->
  exists s',
    Seg.free p s = Done tt s' /\
    sreachable lo max s' L' /\
    mem_brk s' = mem_brk s /\
    forall q qsz,
      In q L' -> GET_SIZE (GET_HEADER q) s = Done qsz s ->
      GET_SIZE (GET_HEADER q) s' = Done qsz s' /\
      forall i, 0 <= i < qsz - WSIZE ->
                byte_at (mem s') (q + i) = byte_at (mem s) (q + i).
Proof.
  intros Hr HPL.
  destruct (sreachable_inv _ _ _ _ Hr) as (bs & fls & HRep & HP & _).
  assert (Hpin : In p L)
    by (eapply Permutation_in; [apply Permutation_sym; exact HPL|left; reflexivity]).
  destruct (sheld_block s bs L p HP Hpin) as (psz & Hb).
  destruct (sfree_spec s bs fls p psz HRep) as (s' & E & Hfreed).
  { apply alloc_blocks_at. exact Hb. }
  exists s'. split; [exact E|].
  split; [eapply SR_free; eassumption|].
  destruct Hfreed as (bs' & fls' & HRep' & Hlo' & Hmax' & Hbrk' & HP' & Hfr).
  split; [exact Hbrk'|].
  assert (Efh : sfirst_hdr s' = sfirst_hdr s) by (unfold sfirst_hdr; lia).
  pose proof (SW_sizes _ _ _ (SRep_SW _ _ _ HRep)) as Hs.
  intros q qsz Hq Hqsz.
  assert (HqL : In q L)
    by (eapply Permutation_in; [apply Permutation_sym; exact HPL|right; exact Hq]).
  pose proof (sheld_size _ _ _ _ _ _ HRep HP HqL Hqsz) as Hqin.
  assert (Hqp : q <> p).
  { intros ->.
    pose proof (alloc_ptrs_NoDup (sfirst_hdr s) bs Hs) as Hnd.
    eapply Permutation_NoDup in Hnd; [|apply Permutation_sym; exact HP].
    eapply Permutation_NoDup in Hnd; [|exact HPL].
    inversion Hnd; subst. contradiction. }
  assert (Hqin' : In (q, qsz) (alloc_blocks (sfirst_hdr s') bs')).
  { rewrite Efh.
    assert (H : In (q, qsz) ((p, psz) :: alloc_blocks (sfirst_hdr s) bs'))
      by (eapply Permutation_in; [apply Permutation_sym; exact HP'|exact Hqin]).
    destruct H as [H|H]; [inversion H; congruence|exact H]. }
  apply (sblock_kept s s' bs' fls' q qsz HRep' Hqin').
  intros y Hy. apply Hfr. apply in_payload_iff. exists q, qsz.
  rewrite <- Efh. split; [exact Hqin'|exact Hy].
Qed.

Lemma X20_witness :
  exists s',
    Seg.free 1080 sx3_state = Done tt s' /\
    sreachable 1024 8192 s' [1096; 1048] /\
    mem_brk s' = mem_brk sx3_state /\
    forall q qsz,
      In q [1096; 1048] -> GET_SIZE (GET_HEADER q) sx3_state = Done qsz sx3_state ->
      GET_SIZE (GET_HEADER q) s' = Done qsz s' /\
      forall i, 0 <= i < qsz - WSIZE ->
                byte_at (mem s') (q + i) = byte_at (mem sx3_state) (q + i).
Proof.
  apply (X20_seg_free_keeps_other_blocks 1024 8192 sx3_state
           (sheld_of (ssession zero_mem 1024 8192 sx3_calls)) [1096; 1048] 1080).
  - apply ssession_reachable. vm_compute. reflexivity.
  - vm_compute sheld_of. apply perm_swap.
Defined.

(** [realloc] of a live block to a nonzero size, with what happens to the
    blocks it is not about. *)
Lemma srealloc_spec_frame (s : state Seg.heads) (bs : list block) (fls : list (list (Z * Z)))
      (fuel : nat) (p psz n : Z) :
  SRep s bs fls -> In (p, psz) (alloc_blocks (sfirst_hdr s) bs) ->
  (heap_fuel s <= fuel)%nat -> 0 < n < W64 ->
  (Seg.realloc fuel p n s = Fault /\ mem_max s < mem_brk s + Mm.adjust n) \/
  exists q s' bs' fls' cap,
    Seg.realloc fuel p n s = Done q s' /\
    SRep s' bs' fls' /\ sfirst_hdr s' = sfirst_hdr s /\
    ~ In q (alloc_ptrs (sfirst_hdr s) bs) /\
    Permutation ((p, psz) :: alloc_blocks (sfirst_hdr s) bs')
                ((q, cap) :: alloc_blocks (sfirst_hdr s) bs) /\
    forall r rsz, In (r, rsz) (alloc_blocks (sfirst_hdr s) bs) -> r <> p ->
                  forall y, r <= y < r + rsz - 4 -> mem s' y = mem s y.
Proof.
  intros HRep Hin Hfuel Hn.
  pose proof W32_lt_W64 as HW.
  destruct (SRep_alloc_header _ _ _ _ _ HRep Hin)
    as (Hpb & Hpbrk & Hplo & Hp16 & Hp8 & Hp32 & _).
  pose proof HRep as (((Hlo & _) & _) & _).
  unfold Seg.realloc.
  replace (n =? 0) with false by (symmetry; apply Z.eqb_neq; lia).
  replace (p =? NULL) with false by (symmetry; apply Z.eqb_neq; unfold NULL; lia).
  destruct (smalloc_spec s bs fls fuel n HRep Hfuel Hn)
    as (q & s1 & Hrun1 & [(-> & -> & Hoom)|Hal]).
  - left. split; [|exact Hoom].
    rstep ltac:(exact Hrun1).
    rstep ltac:(eapply SRep_GET_SIZE; eassumption).
    unfold GET_HEADER, GET_SIZE, READ, NULL, WSIZE, bind, in_heap.
    replace (mem_lo s <=? 0 - 4) with false by (symmetry; apply Z.leb_gt; lia).
    reflexivity.
  - right. destruct Hal as (Hq & bs1 & fls1 & cap & HRep1 & Hlo1 & Hmax1 & Hcap
                            & HP1 & Hfr1).
    assert (Efh : sfirst_hdr s1 = sfirst_hdr s) by (unfold sfirst_hdr; lia).
    pose proof (SW_sizes _ _ _ (SRep_SW _ _ _ HRep1)) as Hs1.
    assert (Hfresh : ~ In q (alloc_ptrs (sfirst_hdr s) bs))
      by (eapply fresh_not_held; [exact Hs1|reflexivity|exact HP1]).
    rewrite <- Efh in HP1.
    assert (Hin1 : In (p, psz) (alloc_blocks (sfirst_hdr s1) bs1)).
    { eapply Permutation_in; [apply Permutation_sym; exact HP1|].
      right. rewrite Efh. exact Hin. }
    assert (Hqin1 : In (q, cap) (alloc_blocks (sfirst_hdr s1) bs1)).
    { eapply Permutation_in; [apply Permutation_sym; exact HP1|]. left. reflexivity. }
    destruct (SRep_alloc_header _ _ _ _ _ HRep1 Hqin1)
      as (Hqb & Hqbrk & Hqlo & Hq16 & Hq8 & Hq32 & _).
    destruct (SRep_alloc_header _ _ _ _ _ HRep1 Hin1) as (_ & Hpbrk1 & _).
    rstep ltac:(exact Hrun1).
    rstep ltac:(eapply SRep_GET_SIZE; eassumption).
    rstep ltac:(eapply SRep_GET_SIZE; eassumption).
    rewrite copy_length_eq by lia.
    set (len := Z.min (psz - 4) (cap - 4)).
    assert (Hlen : 12 <= len /\ len <= psz - 4 /\ len <= cap - 4) by (unfold len; lia).
    set (m2 := copy_bytes (Z.to_nat len) (mem s1) q p).
    assert (Hcpy : memcpy q p len s1 = Done tt (set_mem s1 m2)).
    { unfold memcpy.
      replace (len =? 0) with false by (symmetry; apply Z.eqb_neq; lia).
      rewrite !in_heap_true by lia. reflexivity. }
    rstep ltac:(exact Hcpy).
    assert (HRep2 : SRep (set_mem s1 m2) bs1 fls1).
    { apply SRep_payload_change; [exact HRep1|].
      intros y Hy. unfold m2. apply copy_bytes_other.
      rewrite Z2Nat.id by lia.
      destruct (Z_lt_dec y q); [left; assumption|].
      destruct (Z_le_dec (q + len) y); [right; assumption|].
      exfalso. apply Hy. apply in_payload_iff. exists q, cap.
      split; [exact Hqin1|lia]. }
    destruct (sfree_spec (set_mem s1 m2) bs1 fls1 p psz HRep2) as (s3 & Hrun3 & Hfreed).
    { apply alloc_blocks_at. exact Hin1. }
    rstep ltac:(exact Hrun3).
    destruct Hfreed as (bs3 & fls3 & HRep3 & Hlo3 & Hmax3 & _ & HP3 & Hfr3).
    norm. rewrite ?sfirst_hdr_set_mem in *.
    exists q, s3, bs3, fls3, cap. split; [reflexivity|].
    split; [exact HRep3|].
    assert (Efh3 : sfirst_hdr s3 = sfirst_hdr s) by (unfold sfirst_hdr in *; lia).
    split; [exact Efh3|].
    split; [exact Hfresh|].
    rewrite Efh in *.
    split; [eapply Permutation_trans; eassumption|].
    intros r rsz Hr Hrp y Hy.
    assert (Hr1 : In (r, rsz) (alloc_blocks (sfirst_hdr s) bs1)).
    { eapply Permutation_in; [apply Permutation_sym; exact HP1|right; exact Hr]. }
    assert (Hr3 : In (r, rsz) (alloc_blocks (sfirst_hdr s) bs3)).
    { assert (H : In (r, rsz) ((p, psz) :: alloc_blocks (sfirst_hdr s) bs3))
        by (eapply Permutation_in; [apply Permutation_sym; exact HP3|exact Hr1]).
      destruct H as [E|H]; [inversion E; congruence|exact H]. }
    rewrite Hfr3 by (apply in_payload_iff; exists r, rsz; split; assumption).
    norm. unfold m2. rewrite copy_bytes_other.
    + apply Hfr1. apply in_payload_iff. exists r, rsz. split; assumption.
    + rewrite Z2Nat.id by lia.
      destruct (alloc_blocks_disjoint _ _ _ _ _ _ Hs1 Hr1 Hqin1) as [->|Hd]; [|lia].
      exfalso. apply Hfresh. rewrite alloc_ptrs_blocks.
      apply (in_map fst _ _ Hr).
Qed.

(** X21.  In a reachable state of part_001 a [realloc] of a held pointer
    to a nonzero size, when it returns, hands out a pointer the client
    did not hold and leaves every other held block its size and its
    payload bytes. *)
Theorem X21_seg_realloc_keeps_other_blocks (lo max : Z) (s : state Seg.heads)
        (L L' : list Z) (fuel : nat) (p n : Z) :
  sreachable lo max s L -> Permutation L (p :: L') ->
  (heap_fuel s <= fuel)%nat -> 0 < n < W64 ->
  (Seg.realloc fuel p n s = Fault /\ mem_max s < mem_brk s + Mm.adjust n) \/
  exists q s',
    Seg.realloc fuel p n s = Done q s' /\
    sreachable lo max s' (q :: L') /\ ~ In q L /\
    forall r rsz,
      In r L' -> GET_SIZE (GET_HEADER r) s = Done rsz s ->
      GET_SIZE (GET_HEADER r) s' = Done rsz s' /\
      forall i, 0 <= i < rsz - WSIZE ->
                byte_at (mem s') (r + i) = byte_at (mem s) (r + i).
Proof.
  intros Hr HPL Hf Hn.
  destruct (sreachable_inv _ _ _ _ Hr) as (bs & fls & HRep & HP & _).
  assert (Hpin : In p L)
    by (eapply Permutation_in; [apply Permutation_sym; exact HPL|left; reflexivity]).
  destruct (sheld_block s bs L p HP Hpin) as (psz & Hb).
  pose proof (SW_sizes _ _ _ (SRep_SW _ _ _ HRep)) as Hs.
  destruct (srealloc_spec_frame s bs fls fuel p psz n HRep Hb ltac:(lia) Hn)
    as [H|(q & s' & bs' & fls' & cap & E & HRep' & Efh & Hfresh & HP' & Hfr)];
    [left; exact H|right].
  exists q, s'. split; [exact E|].
  split; [eapply SR_realloc; eassumption|].
  split; [intros Hq; apply Hfresh; eapply Permutation_in; eassumption|].
  intros r rsz Hr' Hrsz.
  assert (HrL : In r L)
    by (eapply Permutation_in; [apply Permutation_sym; exact HPL|right; exact Hr']).
  pose proof (sheld_size _ _ _ _ _ _ HRep HP HrL Hrsz) as Hrin.
  assert (Hrp : r <> p).
  { intros ->.
    pose proof (alloc_ptrs_NoDup (sfirst_hdr s) bs Hs) as Hnd.
    eapply Permutation_NoDup in Hnd; [|apply Permutation_sym; exact HP].
    eapply Permutation_NoDup in Hnd; [|exact HPL].
    inversion Hnd; subst. contradiction. }
  assert (Hrin' : In (r, rsz) (alloc_blocks (sfirst_hdr s') bs')).
  { rewrite Efh.
    assert (H : In (r, rsz) ((p, psz) :: alloc_blocks (sfirst_hdr s) bs')).
    { eapply Permutation_in; [apply Permutation_sym; exact HP'|].
      right. exact Hrin. }
    destruct H as [H|H]; [inversion H; congruence|exact H]. }
  apply (sblock_kept s s' bs' fls' r rsz HRep' Hrin').
  intros y Hy. eapply Hfr; eassumption.
Qed.

Lemma X21_witness :
  exists q s',
    Seg.realloc (heap_fuel sx3_state) 1080 40 sx3_state = Done q s' /\
    sreachable 1024 8192 s' [q; 1096; 1048] /\
    ~ In q (sheld_of (ssession zero_mem 1024 8192 sx3_calls)) /\
    forall r rsz,
      In r [1096; 1048] -> GET_SIZE (GET_HEADER r) sx3_state = Done rsz sx3_state ->
      GET_SIZE (GET_HEADER r) s' = Done rsz s' /\
      forall i, 0 <= i < rsz - WSIZE ->
                byte_at (mem s') (r + i) = byte_at (mem sx3_state) (r + i).
Proof.
  destruct (X21_seg_realloc_keeps_other_blocks 1024 8192 sx3_state
              (sheld_of (ssession zero_mem 1024 8192 sx3_calls)) [1096; 1048]
              (heap_fuel sx3_state) 1080 40) as [(E & _)|H].
  - apply ssession_reachable. vm_compute. reflexivity.
  - vm_compute sheld_of. apply perm_swap.
  - apply le_n.
  - unfold W64. lia.
  - exfalso.
    assert (Hf : faults (Seg.realloc (heap_fuel sx3_state) 1080 40 sx3_state) = false)
      by (vm_compute; reflexivity).
    rewrite E in Hf. discriminate Hf.
  - exact H.
Defined.

(** X22.  [calloc] in a reachable state of part_001, for a product that is
    not 0 modulo [2^64] and that the size adjustment does not wrap.  It faults when the
    provider cannot supply the block (the fill is applied to the NULL that
    [malloc] returned); otherwise it returns a pointer the client did not
    hold, the first [bytes] bytes behind it are 0, and every held block
    keeps its size and its payload bytes. *)
Theorem X22_seg_calloc_zeroes_block (lo max : Z) (s : state Seg.heads) (L : list Z)
        (fuel : nat) (nmemb size bytes : Z) :
  sreachable lo max s L -> (heap_fuel s <= fuel)%nat ->
  bytes = (nmemb * size) mod W64 -> 0 < bytes -> bytes + 11 < W64 ->
  (Seg.calloc fuel nmemb size s = Fault /\
   mem_max s < mem_brk s + Mm.adjust bytes) \/
  exists q s',
    Seg.calloc fuel nmemb size s = Done q s' /\
    q <> NULL /\ ~ In q L /\
    (forall i, 0 <= i < bytes -> byte_at (mem s') (q + i) = 0) /\
    forall r rsz,
      In r L -> GET_SIZE (GET_HEADER r) s = Done rsz s ->
      GET_SIZE (GET_HEADER r) s' = Done rsz s' /\
      forall i, 0 <= i < rsz - WSIZE ->
                byte_at (mem s') (r + i) = byte_at (mem s) (r + i).
Proof.
  intros Hr Hf Eb Hb0 Hb11.
  destruct (sreachable_inv _ _ _ _ Hr) as (bs & fls & HRep & HP & _).
  pose proof HRep as (((Hlo & _) & _) & _).
  unfold Seg.calloc. rewrite <- Eb.
  destruct (smalloc_spec s bs fls fuel bytes HRep ltac:(lia) ltac:(lia))
    as (q & s1 & Hrun1 & [(-> & -> & Hoom)|Hal]).
  - left. split; [|exact Hoom]. rstep ltac:(exact Hrun1).
    unfold memset, bind, in_heap, NULL.
    replace (bytes =? 0) with false by (symmetry; apply Z.eqb_neq; lia).
    replace (mem_lo s <=? 0) with false by (symmetry; apply Z.leb_gt; lia).
    reflexivity.
  - right.
    destruct Hal as (Hq & bs1 & fls1 & cap & HRep1 & Hlo1 & Hmax1 & Hcap
                     & HP1 & Hfr1).
    assert (Efh : sfirst_hdr s1 = sfirst_hdr s) by (unfold sfirst_hdr; lia).
    pose proof (SW_sizes _ _ _ (SRep_SW _ _ _ HRep1)) as Hs1.
    assert (Hfresh : ~ In q L) by (eapply fresh_not_held; eassumption).
    rewrite <- Efh in HP1.
    assert (Hqin1 : In (q, cap) (alloc_blocks (sfirst_hdr s1) bs1)).
    { eapply Permutation_in; [apply Permutation_sym; exact HP1|]. left. reflexivity. }
    destruct (SRep_alloc_header _ _ _ _ _ HRep1 Hqin1)
      as (Hqb & Hqbrk & Hqlo & Hq16 & Hq8 & Hq32 & _).
    destruct (adjust_facts bytes ltac:(lia)) as (_ & _ & _ & Hadj).
    specialize (Hadj Hb11).
    rstep ltac:(exact Hrun1).
    set (m2 := fill_bytes (Z.to_nat bytes) (mem s1) q 0).
    assert (Hset : memset q 0 bytes s1 = Done tt (set_mem s1 m2)).
    { unfold memset.
      replace (bytes =? 0) with false by (symmetry; apply Z.eqb_neq; lia).
      rewrite in_heap_true by lia. reflexivity. }
    rstep ltac:(exact Hset).
    eexists _, _. split; [reflexivity|].
    split; [exact Hq|]. split; [exact Hfresh|].
    assert (HRep2 : SRep (set_mem s1 m2) bs1 fls1).
    { apply SRep_payload_change; [exact HRep1|].
      intros y Hy. unfold m2. apply fill_bytes_other.
      rewrite Z2Nat.id by lia.
      destruct (Z_lt_dec y q); [left; assumption|].
      destruct (Z_le_dec (q + bytes) y); [right; assumption|].
      exfalso. apply Hy. apply in_payload_iff. exists q, cap.
      split; [exact Hqin1|lia]. }
    split.
    + intros i Hi. unfold byte_at, m2. norm.
      rewrite fill_bytes_at by (rewrite Z2Nat.id by lia; lia). reflexivity.
    + intros r rsz Hr' Hrsz.
      pose proof (sheld_size _ _ _ _ _ _ HRep HP Hr' Hrsz) as Hrin.
      assert (Hrin1 : In (r, rsz) (alloc_blocks (sfirst_hdr s1) bs1)).
      { eapply Permutation_in; [apply Permutation_sym; exact HP1|].
        right. rewrite Efh. exact Hrin. }
      apply (sblock_kept s (set_mem s1 m2) bs1 fls1 r rsz HRep2 Hrin1).
      intros y Hy. norm. unfold m2. rewrite fill_bytes_other.
      * apply Hfr1. apply in_payload_iff. exists r, rsz. split; assumption.
      * rewrite Z2Nat.id by lia.
        destruct (alloc_blocks_disjoint _ _ _ _ _ _ Hs1 Hrin1 Hqin1) as [->|Hd];
          [|lia].
        exfalso. exact (Hfresh Hr').
Qed.

Lemma X22_witness :
  exists q s',
    Seg.calloc (heap_fuel sx5_state) 3 7 sx5_state = Done q s' /\
    q <> NULL /\ ~ In q (sheld_of (ssession zero_mem 1024 8192 sx5_calls)) /\
    (forall i, 0 <= i < 21 -> byte_at (mem s') (q + i) = 0) /\
    forall r rsz,
      In r (sheld_of (ssession zero_mem 1024 8192 sx5_calls)) ->
      GET_SIZE (GET_HEADER r) sx5_state = Done rsz sx5_state ->
      GET_SIZE (GET_HEADER r) s' = Done rsz s' /\
      forall i, 0 <= i < rsz - WSIZE ->
                byte_at (mem s') (r + i) = byte_at (mem sx5_state) (r + i).
Proof.
  destruct (X22_seg_calloc_zeroes_block 1024 8192 sx5_state
              (sheld_of (ssession zero_mem 1024 8192 sx5_calls))
              (heap_fuel sx5_state) 3 7 21) as [(E & _)|H].
  - apply ssession_reachable. vm_compute. reflexivity.
  - apply le_n.
  - reflexivity.
  - lia.
  - unfold W64. lia.
  - exfalso.
    assert (Hf : faults (Seg.calloc (heap_fuel sx5_state) 3 7 sx5_state) = false)
      by (vm_compute; reflexivity).
    rewrite E in Hf. discriminate Hf.
  - exact H.
Defined.

Lemma get_level_from_spec (n : nat) (size : Z) :
  forall i, (i + n = Seg.max_level)%nat ->
    let k := Seg._get_level_from n i size in
    (i <= k <= Seg.max_level)%nat /\
    ((k < Seg.max_level)%nat -> size <= nth k Seg.threshold 0) /\
    (forall j, (i <= j < k)%nat -> nth j Seg.threshold 0 < size).
Proof.
  induction n as [|n IH]; intros i Hi; cbn [Seg._get_level_from].
  - split; [lia|]. split; [intros H; lia|]. intros j Hj. lia.
  - destruct (Z.leb_spec size (nth i Seg.threshold 0)) as [Hle|Hgt].
    + split; [lia|]. split; [intros _; exact Hle|]. intros j Hj. lia.
    + destruct (IH (S i) ltac:(lia)) as (Hk & Hthr & Hlow).
      split; [lia|]. split; [exact Hthr|].
      intros j Hj. destruct (Nat.eq_dec j i) as [->|Hne]; [exact Hgt|].
      apply Hlow. lia.
Qed.

Lemma get_level_spec (size : Z) :
  let k := Seg._get_level size in
  (k <= Seg.max_level)%nat /\
  ((k < Seg.max_level)%nat -> size <= nth k Seg.threshold 0) /\
  (forall j, (j < k)%nat -> nth j Seg.threshold 0 < size).
Proof.
  pose proof (get_level_from_spec Seg.max_level size 0%nat ltac:(lia)) as H.
  cbv zeta in H. fold (Seg._get_level size) in H.
  destruct H as (Hk & Hthr & Hlow). cbv zeta.
  split; [lia|]. split; [exact Hthr|]. intros j Hj. apply Hlow. lia.
Qed.

Lemma get_level_mono (size size' : Z) :
  size <= size' -> (Seg._get_level size <= Seg._get_level size')%nat.
Proof.
  intros Hle.
  pose proof (get_level_spec size) as H. cbv zeta in H.
  destruct H as (_ & _ & Hlow).
  pose proof (get_level_spec size') as H'. cbv zeta in H'.
  destruct H' as (_ & Hthr' & _).
  destruct (Nat.le_gt_cases (Seg._get_level size) (Seg._get_level size'))
    as [H|H]; [exact H|exfalso].
  specialize (Hlow _ H).
  pose proof (Seg_get_level_le size) as Hk.
  specialize (Hthr' ltac:(lia)). lia.
Qed.

(** The walk over the headers of a represented heap of part_001. *)
Lemma SRep_heap_walk (s : state Seg.heads) (bs : list block)
      (fls : list (list (Z * Z))) :
  SRep s bs fls ->
  heap_walk (heap_fuel s) (mem s) (sfirst_hdr s) = Some (map view bs).
Proof.
  intros (HW & _ & Hnl).
  pose proof (SW_sizes _ _ _ HW) as Hs.
  pose proof (SW_bounds _ _ _ HW) as (Ht0 & Htb & Ht32 & _).
  pose proof HW as ((_ & _ & Hend & _) & Hb & Hep & _).
  pose proof (blocks_count _ Hs) as Hcnt.
  eapply heap_walk_blocks; try eassumption; try lia.
  - unfold sfirst_hdr. rewrite <- Hend, Hep.
    apply hdr_size; [reflexivity|lia|unfold W32; lia].
  - unfold heap_fuel. lia.
Qed.

(** The header of a free block of a represented heap. *)
Lemma SW_free_header (s : state Seg.heads) (bs : list block)
      (fls : list (list (Z * Z))) (q n : Z) :
  SW s bs fls -> block_at (sfirst_hdr s) bs q n Free ->
  GET_SIZE (GET_HEADER q) s = Done n s /\
  GET_ALLOC (GET_HEADER q) s = Done 0 s.
Proof.
  intros HW Hat.
  pose proof (SW_sizes _ _ _ HW) as Hs.
  pose proof (SW_bounds _ _ _ HW) as (Ht0 & Htb & Ht32 & _).
  destruct Hat as (l1 & l2 & Ebs & Ep).
  destruct HW as (_ & Hb & _). rewrite Ebs in Hb, Hs, Ht0, Htb, Ht32.
  rewrite total_mid in Ht0, Htb, Ht32.
  apply sizes_ok_mid in Hs. destruct Hs as (Hs1 & [Hn Hn8] & Hs2).
  pose proof (total_nonneg _ Hs1). pose proof (total_nonneg _ Hs2).
  apply blocks_mid in Hb. destruct Hb as (_ & _ & [Hhd _] & _).
  rewrite Ep, GET_HEADER_hdr.
  assert (Hb' : inb s (sfirst_hdr s + total l1))
    by (unfold inb, sfirst_hdr; lia).
  split.
  - eapply GET_SIZE_ok; [exact Hb'|exact Hhd|exact Hn8|lia|lia].
  - change 0 with (bit_al false).
    eapply GET_ALLOC_ok; [exact Hb'|exact Hhd|exact Hn8].
Qed.

(** X17.  The size class of [_get_level]: it is at most [max_level]; a
    class below [max_level] is the first threshold that bounds the size,
    so the size is at most that threshold and above every earlier one;
    class [max_level] is that of the sizes above the last threshold, and
    class 0 that of the sizes up to 32; a larger size never gets a lower
    class. *)
Theorem X17_seg_get_level_class (size : Z) :
  let k := Seg._get_level size in
  (k <= Seg.max_level)%nat /\
  ((k < Seg.max_level)%nat -> size <= nth k Seg.threshold 0) /\
  (forall j, (j < k)%nat -> nth j Seg.threshold 0 < size) /\
  (k = Seg.max_level <-> 1048576 < size) /\
  (k = 0%nat <-> size <= 32) /\
  (forall size', size <= size' -> (k <= Seg._get_level size')%nat).
Proof.
  pose proof (get_level_spec size) as H. cbv zeta in H.
  destruct H as (Hk & Hthr & Hlow).
  cbv zeta. split; [exact Hk|]. split; [exact Hthr|]. split; [exact Hlow|].
  split; [|split].
  - split.
    + intros E. rewrite E in Hlow. exact (Hlow 16%nat ltac:(unfold Seg.max_level; lia)).
    + intros Hbig.
      destruct (Nat.eq_dec (Seg._get_level size) Seg.max_level) as [E|Hne];
        [exact E|exfalso].
      assert (Hlt : (Seg._get_level size < Seg.max_level)%nat) by lia.
      specialize (Hthr Hlt). unfold Seg.max_level in Hlt.
      assert (Hb : nth (Seg._get_level size) Seg.threshold 0 <= 1048576).
      { revert Hlt. generalize (Seg._get_level size). intros k Hlt.
        do 17 (destruct k as [|k]; [vm_compute; discriminate|]). lia. }
      lia.
  - split.
    + intros E. rewrite E in Hthr.
      exact (Hthr ltac:(unfold Seg.max_level; lia)).
    + intros Hsmall.
      destruct (Seg._get_level size) as [|k] eqn:E; [reflexivity|exfalso].
      specialize (Hlow 0%nat ltac:(lia)). simpl in Hlow. lia.
  - intros size' Hle. apply get_level_mono. exact Hle.
Qed.

(** X18.  [mm_init] of part_001 on a fresh image.  With room for six words
    it returns 0 and leaves an empty heap: the region has 24 bytes, the
    prologue block and the epilogue word are written, no block lies
    between them and every class list is empty.  Without that room it
    returns -1 and takes nothing from the provider. *)
Theorem X18_seg_mm_init_empty_heap (m : memory) (lo max : Z) :
  0 < lo -> max - lo < W32 ->
  (lo + 24 <= max ->
   exists s,
     Seg.mm_init (Seg.boot m lo max) = Done 0 s /\
     sreachable lo max s [] /\
     mem_brk s = lo + 24 /\ heap_ptr s = lo + 16 /\ heap_end s = lo + 20 /\
     (forall k, (k <= Seg.max_level)%nat -> Seg.head_at (free_blks s) k = NULL) /\
     rd (mem s) (lo + 4) = PACK 16 1 /\ rd (mem s) (lo + 16) = PACK 16 1 /\
     rd (mem s) (lo + 20) = PACK 0 3 /\
     heap_walk (heap_fuel s) (mem s) (heap_ptr s + WSIZE) = Some []) /\
  (max < lo + 24 ->
   exists s,
     Seg.mm_init (Seg.boot m lo max) = Done (-1) s /\
     mem_brk s = lo /\ mem s = m).
Proof.
  intros Hlo H32. split.
  - intros Hroom.
    destruct (smm_init_spec (Seg.boot m lo max)) as (s & E & HRep & Hlo1 & Hmax1);
      simpl; trivial.
    exists s. split; [exact E|].
    assert (Hr : sreachable lo max s []) by (eapply SR_init; eassumption).
    split; [exact Hr|].
    pose proof (SRep_heap_walk _ _ _ HRep) as Hwalk.
    pose proof HRep as (HW & _).
    pose proof HW as ((_ & Hhp & Hend & Hbrk & _) & _ & _ & (_ & _ & Hd) & _).
    cbn [total] in Hend. simpl in Hlo1.
    split; [lia|]. split; [lia|]. split; [lia|].
    split.
    { intros k Hk. destruct (Hd k Hk) as (_ & Hh). rewrite Hh, nth_repeat_nil.
      reflexivity. }
    replace (heap_ptr s + WSIZE) with (sfirst_hdr s)
      by (unfold sfirst_hdr, WSIZE; lia).
    split; [|split; [|split; [|exact Hwalk]]];
      revert E; unfold Seg.mm_init, WSIZE, ESIZE, DSIZE;
      (assert (Hsbrk : mem_sbrk (6 * 4) (Seg.boot m lo max)
                       = Done lo (set_brk (Seg.boot m lo max) (lo + 24)));
       [unfold mem_sbrk, Seg.boot; norm;
        replace (lo + 6 * 4 <=? max) with true by (symmetry; apply Z.leb_le; lia);
        reflexivity|]);
      rstep ltac:(exact Hsbrk);
      rstep ltac:(reflexivity);
      replace (lo =? SBRK_FAIL) with false
        by (symmetry; apply Z.eqb_neq; unfold SBRK_FAIL; lia);
      do 6 rstep ltac:(apply WRITE_ok; unfold inb, Seg.boot; norm; lia);
      do 4 rstep ltac:(reflexivity);
      intros E; inversion E; subst s; norm.
    + rewrite !rd_wr_other by lia.
      replace (lo + 1 * 4) with (lo + 4) by lia.
      apply rd_wr_same_small. vm_compute. split; [discriminate|reflexivity].
    + rewrite rd_wr_other by lia.
      replace (lo + 4 * 4) with (lo + 16) by lia.
      apply rd_wr_same_small. vm_compute. split; [discriminate|reflexivity].
    + replace (lo + 5 * 4) with (lo + 20) by lia.
      apply rd_wr_same_small. vm_compute. split; [discriminate|reflexivity].
  - intros Hsmall. unfold Seg.mm_init, WSIZE, bind, mem_sbrk, Seg.boot. norm.
    replace (lo + 6 * 4 <=? max) with false by (symmetry; apply Z.leb_gt; lia).
    rewrite andb_false_r. simpl. eexists. split; [reflexivity|].
    split; reflexivity.
Qed.

Lemma X18_witness :
  (exists s,
     Seg.mm_init (Seg.boot zero_mem 1024 8192) = Done 0 s /\
     sreachable 1024 8192 s [] /\
     mem_brk s = 1024 + 24 /\ heap_ptr s = 1024 + 16 /\ heap_end s = 1024 + 20 /\
     (forall k, (k <= Seg.max_level)%nat -> Seg.head_at (free_blks s) k = NULL) /\
     rd (mem s) (1024 + 4) = PACK 16 1 /\ rd (mem s) (1024 + 16) = PACK 16 1 /\
     rd (mem s) (1024 + 20) = PACK 0 3 /\
     heap_walk (heap_fuel s) (mem s) (heap_ptr s + WSIZE) = Some []) /\
  (exists s,
     Seg.mm_init (Seg.boot zero_mem 1024 1040) = Done (-1) s /\
     mem_brk s = 1024 /\ mem s = zero_mem).
Proof.
  split.
  - apply (X18_seg_mm_init_empty_heap zero_mem 1024 8192); [lia|unfold W32; lia|lia].
  - apply (X18_seg_mm_init_empty_heap zero_mem 1024 1040); [lia|unfold W32; lia|lia].
Defined.

(** X23.  In every reachable state of part_001 the headers are consistent:
    from the first header to the break every block has a size of at least
    16, its PREV_ALLOC bit is the ALLOC bit of the block before it (set for
    the first block), a free block follows an allocated one and carries
    its size in its last word, and the walk ends at the epilogue header,
    which has size 0, ALLOC set and lies in the last word of the heap. *)
Theorem X23_seg_headers_consistent (lo max : Z) (s : state Seg.heads)
        (L : list Z) :
  sreachable lo max s L ->
  heap_check (heap_fuel s) (mem s) (heap_ptr s + WSIZE) 2 (mem_brk s) = true.
Proof.
  intros Hr.
  destruct (sreachable_inv _ _ _ _ Hr) as (bs & fls & HRep & _).
  pose proof HRep as (HW & Hnaf & Hnl).
  pose proof (SW_sizes _ _ _ HW) as Hs.
  pose proof (SW_bounds _ _ _ HW) as (Ht0 & Htb & Ht32 & _).
  pose proof HW as ((_ & Hhp & Hend & Hbrk & _) & Hb & Hep & _).
  pose proof (blocks_count _ Hs) as Hcnt.
  replace (heap_ptr s + WSIZE) with (sfirst_hdr s)
    by (unfold sfirst_hdr, WSIZE; lia).
  change 2 with (bit_pa true).
  eapply heap_check_blocks; try eassumption; try lia.
  - unfold sfirst_hdr. rewrite <- Hend. exact Hep.
  - unfold sfirst_hdr. lia.
  - unfold heap_fuel. lia.
Qed.

Lemma X23_witness :
  heap_check (heap_fuel sx7_state) (mem sx7_state) (heap_ptr sx7_state + WSIZE) 2
             (mem_brk sx7_state) = true.
Proof.
  apply (X23_seg_headers_consistent 1024 8192 sx7_state
           (sheld_of (ssession zero_mem 1024 8192 sx7_calls))).
  apply ssession_reachable. vm_compute. reflexivity.
Defined.

Lemma class_walks_chains (s : state Seg.heads) (bs : list block)
      (fls : list (list (Z * Z))) :
  SW s bs fls ->
  forall n i, (i + n = S Seg.max_level)%nat ->
    class_walks (heap_fuel s) (mem s) (heap_ptr s) (free_blks s) n i
    = Some (map (map fst) (skipn i fls)).
Proof.
  intros HW. pose proof HW as (_ & _ & _ & (Hlen & _) & _).
  induction n as [|n IH]; intros i Hi.
  - rewrite skipn_all_nil by lia. reflexivity.
  - rewrite (skipn_nth [] fls i) by lia. cbn [class_walks map].
    rewrite (chain_list_walk s (nth i fls []) (heap_fuel s)
               (Seg.head_at (free_blks s) i)).
    + rewrite (IH (S i)) by lia. reflexivity.
    + apply (SW_class_chain s bs fls i HW). lia.
    + apply SW_fuel with (bs := bs). exact HW.
Qed.

Lemma nth_map_map_fst (fls : list (list (Z * Z))) (k : nat) :
  nth k (map (map fst) fls) [] = map fst (nth k fls []).
Proof. apply (map_nth (map fst) fls [] k). Qed.

(** X24.  In every reachable state of part_001 the class lists hold
    exactly the free blocks of the heap, each in the list of its size:
    the walks from the 18 heads end at NULL; together they visit, without
    repetition, the payload pointers of the blocks whose header has
    ALLOC = 0 in the walk over the headers; a node of list [k] has a size
    of class [k]; in each list a node's predecessor link names the node
    before it; and no node is a pointer the client holds. *)
Theorem X24_seg_lists_by_size_class (lo max : Z) (s : state Seg.heads)
        (L : list Z) :
  sreachable lo max s L ->
  exists ls w,
    class_walks (heap_fuel s) (mem s) (heap_ptr s) (free_blks s)
                (S Seg.max_level) 0 = Some ls /\
    heap_walk (heap_fuel s) (mem s) (heap_ptr s + WSIZE) = Some w /\
    Permutation (concat ls) (free_of (heap_ptr s + WSIZE) w) /\
    NoDup (concat ls) /\
    (forall k q, In q (nth k ls []) ->
                 exists n, GET_SIZE (GET_HEADER q) s = Done n s /\
                           GET_ALLOC (GET_HEADER q) s = Done 0 s /\
                           Seg._get_level n = k) /\
    (forall k, back_links (mem s) (heap_ptr s) NULL (nth k ls []) = true) /\
    forall q, In q (concat ls) -> ~ In q L.
Proof.
  intros Hr.
  destruct (sreachable_inv _ _ _ _ Hr) as (bs & fls & HRep & HP & _).
  pose proof HRep as (HW & _ & Hnl).
  pose proof (SW_sizes _ _ _ HW) as Hs.
  pose proof (SW_nodes _ _ _ HW) as (Hall & Hfar).
  pose proof (SW_ptrs _ _ _ HW) as HPf.
  pose proof HW as ((_ & Hhp & _) & _ & _ & (Hlen & _ & Hd) & Hlv & _).
  assert (Efh : heap_ptr s + WSIZE = sfirst_hdr s)
    by (unfold sfirst_hdr, WSIZE; lia).
  rewrite Efh.
  assert (Ec : concat (map (map fst) fls) = map fst (concat fls))
    by (symmetry; apply concat_map).
  exists (map (map fst) fls), (map view bs).
  split; [exact (class_walks_chains s bs fls HW (S Seg.max_level) 0 eq_refl)|].
  split; [exact (SRep_heap_walk s bs fls HRep)|].
  rewrite Ec.
  split; [rewrite free_of_view by exact Hnl; exact HPf|].
  split; [apply far_apart_NoDup; exact Hfar|].
  split; [|split].
  - intros k q Hq. rewrite nth_map_map_fst in Hq.
    apply in_map_iff in Hq. destruct Hq as ([q' n] & E & Hq). simpl in E. subst q'.
    exists n.
    destruct (SW_free_header s bs fls q n HW (SW_free_at s bs fls k q n HW Hq))
      as (Hsz & Hal).
    split; [exact Hsz|]. split; [exact Hal|]. exact (Hlv k q n Hq).
  - intros k. rewrite nth_map_map_fst.
    destruct (Nat.le_gt_cases k Seg.max_level) as [Hk|Hk].
    + destruct (Hd k Hk) as (Hdk & _).
      destruct (SW_cls_nodes s bs fls k HW ltac:(lia)) as ((Hnk & _) & _).
      apply (dllseg_back_links (proj k s) _ 0 0 Hdk); [left; reflexivity|exact Hnk].
    + rewrite nth_overflow by lia. reflexivity.
  - intros q Hq HqL.
    eapply Permutation_in in Hq; [|exact HPf].
    eapply Permutation_in in HqL; [|exact HP].
    destruct (block_at_free _ _ _ Hq) as (n1 & H1).
    destruct (block_at_alloc _ _ _ HqL) as (n2 & H2).
    destruct (block_at_fun _ _ _ _ _ _ _ Hs H1 H2) as [_ E]. discriminate.
Qed.

Lemma X24_witness :
  exists ls w,
    class_walks (heap_fuel sx7_state) (mem sx7_state) (heap_ptr sx7_state)
                (free_blks sx7_state) (S Seg.max_level) 0 = Some ls /\
    heap_walk (heap_fuel sx7_state) (mem sx7_state) (heap_ptr sx7_state + WSIZE)
    = Some w /\
    Permutation (concat ls) (free_of (heap_ptr sx7_state + WSIZE) w) /\
    NoDup (concat ls) /\
    (forall k q, In q (nth k ls []) ->
                 exists n, GET_SIZE (GET_HEADER q) sx7_state = Done n sx7_state /\
                           GET_ALLOC (GET_HEADER q) sx7_state = Done 0 sx7_state /\
                           Seg._get_level n = k) /\
    (forall k, back_links (mem sx7_state) (heap_ptr sx7_state) NULL (nth k ls [])
               = true) /\
    forall q, In q (concat ls) ->
              ~ In q (sheld_of (ssession zero_mem 1024 8192 sx7_calls)).
Proof.
  apply (X24_seg_lists_by_size_class 1024 8192 sx7_state
           (sheld_of (ssession zero_mem 1024 8192 sx7_calls))).
  apply ssession_reachable. vm_compute. reflexivity.
Defined.

(** X25.  With an 8-byte aligned heap base every pointer a client of
    part_001 holds is 8-byte aligned, and its block lies between the
    prologue and the epilogue. *)
Theorem X25_seg_payload_pointers_aligned (lo max : Z) (s : state Seg.heads)
        (L : list Z) (p sz : Z) :
  sreachable lo max s L -> lo mod 8 = 0 -> In p L ->
  GET_SIZE (GET_HEADER p) s = Done sz s ->
  p mod 8 = 0 /\ lo + 24 <= p /\ p - WSIZE + sz + WSIZE <= mem_brk s /\
  16 <= sz /\ sz mod 8 = 0.
Proof.
  intros Hr Hlo Hin Hsz.
  destruct (sreachable_inv _ _ _ _ Hr) as (bs & fls & HRep & HP & Hlo' & _).
  pose proof (sheld_size _ _ _ _ _ _ HRep HP Hin Hsz) as Hb.
  pose proof (SW_sizes _ _ _ (SRep_SW _ _ _ HRep)) as Hs.
  pose proof (SW_bounds _ _ _ (SRep_SW _ _ _ HRep)) as (_ & Htb & _).
  pose proof (alloc_blocks_bounds _ _ _ _ Hs Hb) as (H1 & H2 & H3 & H4 & Hal).
  unfold sfirst_hdr, WSIZE in *. rewrite Hlo' in *.
  split; [|repeat split; lia].
  apply Z.mod_divide in Hlo; [|lia]. apply Z.mod_divide in Hal; [|lia].
  apply Z.mod_divide; [lia|].
  destruct Hlo as (a & Ea). destruct Hal as (b & Eb).
  exists (a + b + 3). lia.
Qed.

Lemma X25_witness :
  1080 mod 8 = 0 /\ 1024 + 24 <= 1080 /\
  1080 - WSIZE + 16 + WSIZE <= mem_brk sx7_state /\
  16 <= 16 /\ 16 mod 8 = 0.
Proof.
  apply (X25_seg_payload_pointers_aligned 1024 8192 sx7_state
           (sheld_of (ssession zero_mem 1024 8192 sx7_calls)) 1080 16).
  - apply ssession_reachable. vm_compute. reflexivity.
  - reflexivity.
  - vm_compute. right. left. reflexivity.
  - vm_compute. reflexivity.
Defined.

(** ** The search of part_001 over the classes *)

Lemma first_fit_class_none (size : Z) (cls : list (list (Z * Z))) :
  filter (fits size) (first_fit_class size cls) = [] ->
  forall l x, In l cls -> In x l -> fits size x = false.
Proof.
  induction cls as [|c r IH]; intros E l x Hl Hx; [contradiction|].
  cbn [first_fit_class] in E.
  destruct (existsb (fits size) c) eqn:Ec.
  - exfalso. apply existsb_exists in Ec. destruct Ec as (y & Hy & Hf).
    assert (H : In y (filter (fits size) c)) by (apply filter_In; split; assumption).
    rewrite E in H. exact H.
  - destruct Hl as [->|Hl].
    + destruct (fits size x) eqn:Ef; [|reflexivity].
      assert (H : existsb (fits size) l = true)
        by (apply existsb_exists; exists x; split; assumption).
      congruence.
    + eapply IH; eassumption.
Qed.

Lemma first_fit_class_first (size : Z) (cls : list (list (Z * Z))) (x : Z * Z) :
  In x (first_fit_class size cls) ->
  exists j, In x (nth j cls []) /\
            forall j' y, (j' < j)%nat -> In y (nth j' cls []) ->
                         fits size y = false.
Proof.
  induction cls as [|c r IH]; intros Hx; [contradiction|].
  cbn [first_fit_class] in Hx.
  destruct (existsb (fits size) c) eqn:Ec.
  - exists 0%nat. split; [exact Hx|]. intros j' y Hj. lia.
  - destruct (IH Hx) as (j & Hin & Hlow). exists (S j). split; [exact Hin|].
    intros j' y Hj Hy. destruct j' as [|j'].
    + simpl in Hy. destruct (fits size y) eqn:Ef; [|reflexivity].
      assert (H : existsb (fits size) c = true)
        by (apply existsb_exists; exists y; split; assumption).
      congruence.
    + apply (Hlow j' y); [lia|exact Hy].
Qed.

(** A node of a class list, with its size and its class. *)
Lemma SW_node_class (s : state Seg.heads) (bs : list block)
      (fls : list (list (Z * Z))) (q n : Z) :
  SW s bs fls -> In q (concat (map (map fst) fls)) ->
  GET_SIZE (GET_HEADER q) s = Done n s ->
  In (q, n) (nth (Seg._get_level n) fls []).
Proof.
  intros HW Hq Hsz.
  pose proof HW as (_ & _ & _ & _ & Hlv & _).
  rewrite <- concat_map in Hq. apply in_map_iff in Hq.
  destruct Hq as ([q' m] & E & Hq). simpl in E. subst q'.
  apply in_concat_nth in Hq. destruct Hq as (k & _ & Hq).
  destruct (SW_free_header s bs fls q m HW (SW_free_at s bs fls k q m HW Hq))
    as (Hsz' & _).
  rewrite Hsz in Hsz'. inversion Hsz'; subst m.
  rewrite (Hlv k q n Hq). exact Hq.
Qed.

(** The result of [_allocate] of part_001 on a represented heap, in terms
    of the class lists: NULL only when no free block covers the request,
    else a block that covers it from the lowest class that has one. *)
Lemma sallocate_classes (s : state Seg.heads) (bs : list block)
      (fls : list (list (Z * Z))) (fuel : nat) (size : Z) :
  SW s bs fls -> (heap_fuel s <= fuel)%nat ->
  exists r,
    Seg._allocate fuel size s = Done r s /\
    ((r = NULL /\ forall k q n, In (q, n) (nth k fls []) -> n < size) \/
     (r <> NULL /\
      exists n, In (r, n) (nth (Seg._get_level n) fls []) /\ size <= n /\
                forall k q n', In (q, n') (nth k fls []) -> size <= n' ->
                               (Seg._get_level n <= k)%nat)).
Proof.
  intros HW Hf.
  pose proof (SW_sizes _ _ _ HW) as Hs.
  pose proof HW as (Hsc & _ & _ & (Hlen & _) & Hlv & _).
  set (i := Seg._get_level size).
  pose proof (Seg_get_level_le size) as Hi. fold i in Hi.
  assert (Hin : forall l, In l (skipn i fls) -> exists k, l = nth k fls []).
  { intros l Hl. apply skipn_in in Hl.
    destruct (In_nth _ _ [] Hl) as (k & _ & E). exists k. symmetry. exact E. }
  assert (Hrun := Seg_allocate_spec s size fuel (skipn i fls)
                    (SW_class_chains s bs fls HW (S Seg.max_level - i) i ltac:(lia))).
  fold i in Hrun. rewrite skipn_len, Hlen in Hrun. specialize (Hrun eq_refl).
  rewrite Hrun.
  2:{ apply Forall_forall. intros l Hl. destruct (Hin l Hl) as (k & ->).
      pose proof (SW_fuel s bs fls k HW). lia. }
  eexists. split; [reflexivity|].
  (* a block that covers the request is in a class the search visits *)
  assert (Hvis : forall k q n', In (q, n') (nth k fls []) -> size <= n' ->
                   exists j, k = (i + j)%nat /\
                             In (q, n') (nth j (skipn i fls) [])).
  { intros k q n' Hq Hle.
    pose proof (Hlv k q n' Hq) as Ek.
    pose proof (get_level_mono size n' Hle) as Hm. fold i in Hm.
    exists (k - i)%nat. split; [lia|].
    rewrite nth_skipn. replace (i + (k - i))%nat with k by lia. exact Hq. }
  assert (Hnn : forall k q n, In (q, n) (nth k fls []) -> q <> NULL).
  { intros k q n Hk.
    destruct (SW_free_at s bs fls k q n HW Hk) as (l1 & l2 & Ebs & ->).
    rewrite Ebs in Hs.
    apply sizes_ok_mid in Hs. destruct Hs as (Hs1 & _).
    pose proof (total_nonneg _ Hs1). destruct Hsc as (Hlo & _).
    unfold NULL, sfirst_hdr. lia. }
  destruct (filter (fits size) (first_fit_class size (skipn i fls)))
    as [|b C'] eqn:EC.
  - left. split; [reflexivity|].
    intros k q n' Hq.
    destruct (Z.lt_ge_cases n' size) as [Hlt|Hge]; [exact Hlt|exfalso].
    destruct (Hvis k q n' Hq Hge) as (j & _ & Hj).
    assert (Hno := first_fit_class_none size (skipn i fls) EC
                     (nth j (skipn i fls) []) (q, n')).
    assert (Hjl : (j < length (skipn i fls))%nat).
    { destruct (Nat.lt_ge_cases j (length (skipn i fls))) as [H|H]; [exact H|].
      rewrite nth_overflow in Hj by exact H. contradiction. }
    specialize (Hno (nth_In _ _ Hjl) Hj).
    unfold fits in Hno. simpl in Hno. apply Z.leb_gt in Hno. lia.
  - right.
    set (F := firstn 42 (b :: C')).
    assert (HF : forall q n, In (q, n) F ->
                   In (q, n) (first_fit_class size (skipn i fls)) /\ size <= n).
    { intros q n Hq. apply firstn_incl in Hq. rewrite <- EC in Hq.
      apply filter_In in Hq. destruct Hq as [Hq Hfit].
      unfold fits in Hfit. simpl in Hfit. apply Z.leb_le in Hfit.
      split; assumption. }
    assert (Hat : forall q n, In (q, n) F ->
                    exists k, In (q, n) (nth k fls [])).
    { intros q n Hq. destruct (HF q n Hq) as (Hc & _).
      apply first_fit_class_in in Hc. destruct Hc as (l & Hl & Hc).
      destruct (Hin l Hl) as (k & ->). exists k. exact Hc. }
    destruct (best_of_min F) as (n & Hn & _); [|discriminate|].
    { apply Forall_forall. intros [q n] Hq. simpl.
      destruct (Hat q n Hq) as (k & Hk). exact (Hnn k q n Hk). }
    destruct (HF _ _ Hn) as (Hc & Hle).
    destruct (Hat _ _ Hn) as (k & Hk).
    split; [exact (Hnn k _ n Hk)|].
    exists n. rewrite (Hlv k _ n Hk). split; [exact Hk|]. split; [exact Hle|].
    intros k' q n' Hq Hle'.
    destruct (Hvis k' q n' Hq Hle') as (j' & Ej' & Hj').
    destruct (first_fit_class_first size (skipn i fls) _ Hc) as (j & Hj & Hlow).
    rewrite nth_skipn in Hj. pose proof (Hlv _ _ _ Hj) as Ej.
    rewrite (Hlv k _ n Hk) in Ej. subst k.
    destruct (Nat.le_gt_cases j j') as [H|H]; [lia|exfalso].
    specialize (Hlow j' (q, n') H Hj').
    unfold fits in Hlow. simpl in Hlow. apply Z.leb_gt in Hlow. lia.
Qed.

(** X26.  [_allocate] of part_001 in a reachable state reads the class
    lists and changes nothing.  It returns NULL only when every free
    block is smaller than the request; otherwise it returns the payload
    pointer of a free block that covers the request, that the client does
    not hold, and that is on the list of the lowest size class holding a
    block that covers the request. *)
Theorem X26_seg_allocate_lowest_class (lo max : Z) (s : state Seg.heads)
        (L : list Z) (fuel : nat) (size : Z) :
  sreachable lo max s L -> (heap_fuel s <= fuel)%nat ->
  exists r ls,
    Seg._allocate fuel size s = Done r s /\
    class_walks (heap_fuel s) (mem s) (heap_ptr s) (free_blks s)
                (S Seg.max_level) 0 = Some ls /\
    ((r = NULL /\
      forall q n, In q (concat ls) ->
                  GET_SIZE (GET_HEADER q) s = Done n s -> n < size) \/
     (r <> NULL /\ ~ In r L /\
      exists n,
        GET_SIZE (GET_HEADER r) s = Done n s /\
        GET_ALLOC (GET_HEADER r) s = Done 0 s /\ size <= n /\
        In r (nth (Seg._get_level n) ls []) /\
        forall q n', In q (concat ls) ->
                     GET_SIZE (GET_HEADER q) s = Done n' s -> size <= n' ->
                     (Seg._get_level n <= Seg._get_level n')%nat)).
Proof.
  intros Hr Hf.
  destruct (sreachable_inv _ _ _ _ Hr) as (bs & fls & HRep & HP & _).
  pose proof (SRep_SW _ _ _ HRep) as HW.
  pose proof (SW_sizes _ _ _ HW) as Hs.
  destruct (sallocate_classes s bs fls fuel size HW Hf)
    as (r & Hrun & [(-> & Hnone)|(Hne & n & Hin & Hle & Hlow)]).
  - exists NULL, (map (map fst) fls). split; [exact Hrun|].
    split; [exact (class_walks_chains s bs fls HW (S Seg.max_level) 0 eq_refl)|].
    left. split; [reflexivity|].
    intros q n Hq Hsz.
    exact (Hnone _ q n (SW_node_class s bs fls q n HW Hq Hsz)).
  - exists r, (map (map fst) fls). split; [exact Hrun|].
    split; [exact (class_walks_chains s bs fls HW (S Seg.max_level) 0 eq_refl)|].
    right. split; [exact Hne|].
    pose proof (SW_free_at s bs fls _ r n HW Hin) as Hblk.
    destruct (SW_free_header s bs fls r n HW Hblk) as (Hsz & Hal).
    split.
    { intros HinL. eapply Permutation_in in HinL; [|exact HP].
      destruct (block_at_alloc _ _ _ HinL) as (n2 & Hat2).
      destruct (block_at_fun _ _ _ _ _ _ _ Hs Hblk Hat2) as [_ E].
      discriminate. }
    exists n. split; [exact Hsz|]. split; [exact Hal|]. split; [exact Hle|].
    split.
    { rewrite nth_map_map_fst. apply (in_map fst _ _ Hin). }
    intros q n' Hq Hsz' Hle'.
    exact (Hlow _ q n' (SW_node_class s bs fls q n' HW Hq Hsz') Hle').
Qed.

Lemma X26_witness :
  exists r ls,
    Seg._allocate (heap_fuel sx7_state) 40 sx7_state = Done r sx7_state /\
    class_walks (heap_fuel sx7_state) (mem sx7_state) (heap_ptr sx7_state)
                (free_blks sx7_state) (S Seg.max_level) 0 = Some ls /\
    ((r = NULL /\
      forall q n, In q (concat ls) ->
                  GET_SIZE (GET_HEADER q) sx7_state = Done n sx7_state -> n < 40) \/
     (r <> NULL /\
      ~ In r (sheld_of (ssession zero_mem 1024 8192 sx7_calls)) /\
      exists n,
        GET_SIZE (GET_HEADER r) sx7_state = Done n sx7_state /\
        GET_ALLOC (GET_HEADER r) sx7_state = Done 0 sx7_state /\ 40 <= n /\
        In r (nth (Seg._get_level n) ls []) /\
        forall q n', In q (concat ls) ->
                     GET_SIZE (GET_HEADER q) sx7_state = Done n' sx7_state ->
                     40 <= n' ->
                     (Seg._get_level n <= Seg._get_level n')%nat)).
Proof.
  apply (X26_seg_allocate_lowest_class 1024 8192 sx7_state
           (sheld_of (ssession zero_mem 1024 8192 sx7_calls))
           (heap_fuel sx7_state) 40).
  - apply ssession_reachable. vm_compute. reflexivity.
  - apply le_n.
Defined.

(** * When [malloc] asks the provider for memory *)

(** ** mm.c *)

(** [malloc] with a block from the search: the block is built in place and
    the break stays. *)
Lemma malloc_fit (s : state Z) (bs : list block) (fl : list Z) (fuel : nat)
      (n r nq : Z) :
  Rep s bs fl -> 0 < n < W64 ->
  Mm._allocate fuel (Mm.adjust n) s = Done r s ->
  block_at (first_hdr s) bs r nq Free -> Mm.adjust n <= nq ->
  exists s', Mm.malloc fuel n s = Done r s' /\ mem_brk s' = mem_brk s.
Proof.
  intros HRep Hn Hrun (l1 & l2 & -> & ->) Hle.
  destruct (adjust_facts n ltac:(lia)) as (H16 & H8 & H64 & _).
  unfold Mm.malloc.
  replace (n =? 0) with false by (symmetry; apply Z.eqb_neq; lia).
  cbv zeta. rstep ltac:(exact Hrun).
  destruct (build_allocated s l1 l2 nq (Mm.adjust n) fl HRep H16 H8 Hle)
    as (_ & _ & (Hp & _)).
  destruct (build_spec s l1 l2 nq (Mm.adjust n) fl HRep H16 H8 Hle)
    as (s2 & Hrun2 & (m' & fb' & bs' & fl' & -> & _)).
  replace (negb (first_hdr s + total l1 + 4 =? NULL)) with true
    by (symmetry; apply negb_true_iff, Z.eqb_neq; exact Hp).
  rstep ltac:(exact Hrun2).
  eexists. split; reflexivity.
Qed.

(** [malloc] without a block from the search: the provider is asked for
    the adjusted size. *)
Lemma malloc_nofit (s : state Z) (bs : list block) (fl : list Z) (fuel : nat)
      (n : Z) :
  Rep s bs fl -> 0 < n < W64 ->
  Mm._allocate fuel (Mm.adjust n) s = Done NULL s ->
  (mem_max s < mem_brk s + Mm.adjust n /\ Mm.malloc fuel n s = Done NULL s) \/
  (exists p s', Mm.malloc fuel n s = Done p s' /\ p <> NULL /\
                mem_brk s' = mem_brk s + Mm.adjust n).
Proof.
  intros HRep Hn Hrun.
  destruct (adjust_facts n ltac:(lia)) as (H16 & H8 & H64 & _).
  unfold Mm.malloc.
  replace (n =? 0) with false by (symmetry; apply Z.eqb_neq; lia).
  cbv zeta. rstep ltac:(exact Hrun).
  change (negb (NULL =? NULL)) with false. cbv iota.
  destruct (Z_le_gt_dec (mem_brk s + Mm.adjust n) (mem_max s)) as [Hroom|Hfull].
  - right.
    destruct (extend_spec s bs fl (Mm.adjust n / WSIZE) HRep) as (r & s1 & Hrun1 & Hext);
      rewrite ?extend_bytes_adjust by lia; trivial.
    rewrite extend_bytes_adjust in Hext by lia.
    rstep ltac:(exact Hrun1).
    destruct Hext as (bs1 & fl1 & HRep1 & Hlo1 & Hmax1 & Hbrk1 & Htot1 & Hab1
                      & Hfr1 & r1 & rsz & r2 & -> & -> & Hrsz).
    assert (Efh : first_hdr s1 = first_hdr s) by (unfold first_hdr; lia).
    rewrite <- Efh.
    destruct (build_allocated s1 r1 r2 rsz (Mm.adjust n) fl1 HRep1 H16 H8 Hrsz)
      as (_ & _ & (Hp & _)).
    destruct (build_spec s1 r1 r2 rsz (Mm.adjust n) fl1 HRep1 H16 H8 Hrsz)
      as (s2 & Hrun2 & (m' & fb' & bs' & fl' & -> & _)).
    replace (first_hdr s1 + total r1 + 4 =? NULL) with false
      by (symmetry; apply Z.eqb_neq; exact Hp).
    rstep ltac:(exact Hrun2).
    eexists _, _. split; [reflexivity|]. split; [exact Hp|]. exact Hbrk1.
  - left. split; [lia|].
    rstep ltac:(apply extend_fail; rewrite extend_bytes_adjust by lia; lia).
    reflexivity.
Qed.

(** X27.  [malloc] of mm.c in a reachable state takes memory from the
    provider only when no block on the free list covers the adjusted
    request.  If one does, the pointer returned is that of a block on the
    list that covers the request, and the break stays where it was.  If
    none does, the call returns NULL and changes nothing when the provider
    lacks the adjusted size, and otherwise moves the break by exactly the
    adjusted size. *)
Theorem X27_malloc_reuses_free_blocks (lo max : Z) (s : state Z) (L : list Z)
        (fuel : nat) (n : Z) :
  reachable lo max s L -> (heap_fuel s <= fuel)%nat -> 0 < n < W64 ->
  exists p s' l,
    Mm.malloc fuel n s = Done p s' /\
    chain s (free_blks s) l /\
    (((exists q m, In (q, m) l /\ Mm.adjust n <= m) /\
      (exists m, In (p, m) l /\ Mm.adjust n <= m) /\
      mem_brk s' = mem_brk s) \/
     ((forall q m, In (q, m) l -> m < Mm.adjust n) /\
      ((p = NULL /\ s' = s /\ mem_max s < mem_brk s + Mm.adjust n) \/
       (p <> NULL /\ mem_brk s' = mem_brk s + Mm.adjust n)))).
Proof.
  intros Hr Hf Hn.
  destruct (reachable_inv _ _ _ _ Hr) as (bs & fl & HRep & HP & _).
  pose proof (Rep_W _ _ _ HRep) as HW.
  pose proof (W_fuel _ _ _ HW) as Hfl.
  destruct (W_chain _ _ _ HW) as (l & Hc & Hm & Hl).
  pose proof (chain_nonnull s l _ Hc) as Hnn.
  set (size := Mm.adjust n).
  assert (Hrun : Mm._allocate fuel size s = Done (scan size l NULL 0 0 0) s).
  { unfold Mm._allocate. rstep ltac:(reflexivity).
    apply allocate_loop_scan; [exact Hc|].
    rewrite <- Hm, length_map in Hfl. lia. }
  destruct (scan_result size l NULL 0 0 0) as [E|(m & Hin & Hle)].
  - rewrite E in Hrun.
    pose proof (scan_null size l Hnn 0 0 E) as Hsmall.
    destruct (malloc_nofit s bs fl fuel n HRep Hn Hrun)
      as [(Hfull & Hrun')|(p & s' & Hrun' & Hp & Hbrk)].
    + exists NULL, s, l. split; [exact Hrun'|]. split; [exact Hc|].
      right. split; [exact Hsmall|]. left. repeat split. exact Hfull.
    + exists p, s', l. split; [exact Hrun'|]. split; [exact Hc|].
      right. split; [exact Hsmall|]. right. split; assumption.
  - destruct (malloc_fit s bs fl fuel n _ m HRep Hn Hrun (Hl _ _ Hin) Hle)
      as (s' & Hrun' & Hbrk).
    exists (scan size l NULL 0 0 0), s', l.
    split; [exact Hrun'|]. split; [exact Hc|].
    left. split; [exists (scan size l NULL 0 0 0), m; split; assumption|].
    split; [exists m; split; assumption|exact Hbrk].
Qed.

Lemma X27_witness :
  exists p s' l,
    Mm.malloc (heap_fuel c3_state) 40 c3_state = Done p s' /\
    chain c3_state (free_blks c3_state) l /\
    (((exists q m, In (q, m) l /\ Mm.adjust 40 <= m) /\
      (exists m, In (p, m) l /\ Mm.adjust 40 <= m) /\
      mem_brk s' = mem_brk c3_state) \/
     ((forall q m, In (q, m) l -> m < Mm.adjust 40) /\
      ((p = NULL /\ s' = c3_state /\
        mem_max c3_state < mem_brk c3_state + Mm.adjust 40) \/
       (p <> NULL /\ mem_brk s' = mem_brk c3_state + Mm.adjust 40)))).
Proof.
  apply (X27_malloc_reuses_free_blocks 1024 8192 c3_state
           (held_of (session zero_mem 1024 8192 c3_calls))
           (heap_fuel c3_state) 40).
  - apply session_reachable. vm_compute. reflexivity.
  - apply le_n.
  - unfold W64. lia.
Defined.

(** ** part_000 *)

Lemma bmalloc_fit (s : state Z) (bs : list block) (fl : list Z) (fuel : nat)
      (n r nq : Z) :
  BRep s bs fl -> 0 < n -> n + 15 < W64 ->
  Basic._allocate fuel (Basic.adjust n) s = Done r s ->
  block_at (first_hdr s) bs r nq Free -> Basic.adjust n <= nq ->
  exists s', Basic.malloc fuel n s = Done r s' /\ mem_brk s' = mem_brk s.
Proof.
  intros HRep Hn Hn64 Hrun (l1 & l2 & -> & ->) Hle.
  destruct (badjust_facts n Hn Hn64) as (H16 & H8 & H64 & _).
  unfold Basic.malloc.
  replace (n =? 0) with false by (symmetry; apply Z.eqb_neq; lia).
  cbv zeta. rstep ltac:(exact Hrun).
  destruct (bbuild_allocated s l1 l2 nq (Basic.adjust n) fl HRep H16 H8 Hle)
    as (_ & _ & (Hp & _)).
  destruct (bbuild_spec s l1 l2 nq (Basic.adjust n) fl HRep H16 H8 Hle)
    as (s2 & Hrun2 & (m' & fb' & bs' & fl' & -> & _)).
  replace (negb (first_hdr s + total l1 + 4 =? NULL)) with true
    by (symmetry; apply negb_true_iff, Z.eqb_neq; exact Hp).
  rstep ltac:(exact Hrun2).
  eexists. split; reflexivity.
Qed.

Lemma bmalloc_nofit (s : state Z) (bs : list block) (fl : list Z) (fuel : nat)
      (n : Z) :
  BRep s bs fl -> 0 < n -> n + 15 < W64 ->
  Basic._allocate fuel (Basic.adjust n) s = Done NULL s ->
  let bytes := Z.max (Basic.adjust n) 4096 in
  (mem_max s < mem_brk s + bytes /\ Basic.malloc fuel n s = Done NULL s) \/
  (exists p s', Basic.malloc fuel n s = Done p s' /\ p <> NULL /\
                mem_brk s' = mem_brk s + bytes).
Proof.
  intros HRep Hn Hn64 Hrun bytes.
  destruct (badjust_facts n Hn Hn64) as (H16 & H8 & H64 & _).
  unfold Basic.malloc.
  replace (n =? 0) with false by (symmetry; apply Z.eqb_neq; lia).
  cbv zeta. rstep ltac:(exact Hrun).
  pose proof (bextend_bytes_max (Basic.adjust n) ltac:(lia) H8) as Ebytes.
  change (negb (NULL =? NULL)) with false. cbv iota.
  fold bytes in Ebytes.
  assert (Hb8 : bytes mod 8 = 0).
  { unfold bytes.
    destruct (Z.max_spec (Basic.adjust n) 4096) as [[_ ->]|[_ ->]]; trivial. }
  destruct (Z_le_gt_dec (mem_brk s + bytes) (mem_max s)) as [Hroom|Hfull].
  - right.
    destruct (bextend_spec s bs fl (MAX (Basic.adjust n) Basic.CHUNKSIZE / WSIZE) HRep)
      as (r & s1 & Hrun1 & Hext); rewrite ?Ebytes; trivial; [unfold bytes; lia|].
    rewrite Ebytes in Hext.
    rstep ltac:(exact Hrun1).
    destruct Hext as (bs1 & fl1 & HRep1 & Hlo1 & Hmax1 & Hbrk1 & Htot1 & Hab1
                      & Hfr1 & r1 & rsz & r2 & -> & -> & Hrsz).
    assert (Efh : first_hdr s1 = first_hdr s) by (unfold first_hdr; lia).
    rewrite <- Efh.
    destruct (bbuild_allocated s1 r1 r2 rsz (Basic.adjust n) fl1 HRep1 H16 H8
                ltac:(unfold bytes in *; lia))
      as (_ & _ & (Hp & _)).
    destruct (bbuild_spec s1 r1 r2 rsz (Basic.adjust n) fl1 HRep1 H16 H8
                ltac:(unfold bytes in *; lia))
      as (s2 & Hrun2 & (m' & fb' & bs' & fl' & -> & _)).
    replace (first_hdr s1 + total r1 + 4 =? NULL) with false
      by (symmetry; apply Z.eqb_neq; exact Hp).
    rstep ltac:(exact Hrun2).
    eexists _, _. split; [reflexivity|]. split; [exact Hp|]. exact Hbrk1.
  - left. split; [lia|].
    rstep ltac:(apply bextend_fail; rewrite Ebytes; lia).
    reflexivity.
Qed.

(** X28.  [malloc] of part_000, in a state reached with requests below
    [2^64 - 15] and for a request below that bound, takes memory from the
    provider only when no block on the free list covers the adjusted
    request.  If one does, the pointer returned is that of a block on the
    list that covers the request, and the break stays where it was.  If
    none does, the call returns NULL and changes nothing when the provider
    lacks the larger of the adjusted size and 4096 bytes, and otherwise
    moves the break by exactly that amount. *)
Theorem X28_basic_malloc_reuses_free_blocks (lo max : Z) (s : state Z)
        (L : list Z) (fuel : nat) (n : Z) :
  breachable (W64 - 15) lo max s L -> (heap_fuel s <= fuel)%nat ->
  0 < n -> n + 15 < W64 ->
  exists p s' l,
    Basic.malloc fuel n s = Done p s' /\
    chain s (free_blks s) l /\
    (((exists q m, In (q, m) l /\ Basic.adjust n <= m) /\
      (exists m, In (p, m) l /\ Basic.adjust n <= m) /\
      mem_brk s' = mem_brk s) \/
     ((forall q m, In (q, m) l -> m < Basic.adjust n) /\
      ((p = NULL /\ s' = s /\
        mem_max s < mem_brk s + Z.max (Basic.adjust n) 4096) \/
       (p <> NULL /\
        mem_brk s' = mem_brk s + Z.max (Basic.adjust n) 4096)))).
Proof.
  intros Hr Hf Hn Hn64.
  destruct (breachable_inv _ _ _ _ Hr) as (bs & fl & HRep & HP & _).
  pose proof (BRep_BW _ _ _ HRep) as HW.
  pose proof (BW_fuel _ _ _ HW) as Hfl.
  destruct (BW_chain _ _ _ HW) as (l & Hc & Hm & Hl).
  pose proof (chain_nonnull s l _ Hc) as Hnn.
  set (size := Basic.adjust n).
  set (fs := firstn 42 (filter (fits size) l)).
  assert (Hrun : Basic._allocate fuel size s = Done (best_of fs) s).
  { apply Basic_allocate_spec; [exact Hc|].
    rewrite <- Hm, length_map in Hfl. lia. }
  assert (Hfs : forall q m, In (q, m) fs -> In (q, m) l /\ size <= m).
  { intros q m Hin. apply firstn_incl in Hin. apply filter_In in Hin.
    destruct Hin as [Hin Hfit]. split; [exact Hin|].
    unfold fits in Hfit. simpl in Hfit. apply Z.leb_le. exact Hfit. }
  destruct fs as [|b fs'] eqn:E.
  - assert (Hsmall : forall q m, In (q, m) l -> m < size).
    { intros q m Hin.
      destruct (Z.lt_ge_cases m size) as [Hlt|Hge]; [exact Hlt|exfalso].
      assert (H : In (q, m) (filter (fits size) l)).
      { apply filter_In. split; [exact Hin|]. unfold fits. simpl.
        apply Z.leb_le. lia. }
      unfold fs in E. destruct (filter (fits size) l); [exact H|discriminate]. }
    rewrite best_of_nil in Hrun.
    destruct (bmalloc_nofit s bs fl fuel n HRep Hn Hn64 Hrun)
      as [(Hfull & Hrun')|(p & s' & Hrun' & Hp & Hbrk)].
    + exists NULL, s, l. split; [exact Hrun'|]. split; [exact Hc|].
      right. split; [exact Hsmall|]. left. repeat split. exact Hfull.
    + exists p, s', l. split; [exact Hrun'|]. split; [exact Hc|].
      right. split; [exact Hsmall|]. right. split; assumption.
  - destruct (best_of_min (b :: fs')) as (m & Hin & _); [|discriminate|].
    { apply Forall_forall. intros x Hx. rewrite Forall_forall in Hnn.
      destruct x as [q m]. apply Hnn. apply (Hfs q m Hx). }
    destruct (Hfs _ _ Hin) as (Hinl & Hle).
    destruct (bmalloc_fit s bs fl fuel n _ m HRep Hn Hn64 Hrun (Hl _ _ Hinl) Hle)
      as (s' & Hrun' & Hbrk).
    exists (best_of (b :: fs')), s', l.
    split; [exact Hrun'|]. split; [exact Hc|].
    left. split; [exists (best_of (b :: fs')), m; split; assumption|].
    split; [exists m; split; assumption|exact Hbrk].
Qed.

Lemma X28_witness :
  exists p s' l,
    Basic.malloc (heap_fuel xb_state) 40 xb_state = Done p s' /\
    chain xb_state (free_blks xb_state) l /\
    (((exists q m, In (q, m) l /\ Basic.adjust 40 <= m) /\
      (exists m, In (p, m) l /\ Basic.adjust 40 <= m) /\
      mem_brk s' = mem_brk xb_state) \/
     ((forall q m, In (q, m) l -> m < Basic.adjust 40) /\
      ((p = NULL /\ s' = xb_state /\
        mem_max xb_state < mem_brk xb_state + Z.max (Basic.adjust 40) 4096) \/
       (p <> NULL /\
        mem_brk s' = mem_brk xb_state + Z.max (Basic.adjust 40) 4096)))).
Proof.
  apply (X28_basic_malloc_reuses_free_blocks 1024 8192 xb_state
           (held_of (bsession zero_mem 1024 8192 xb_calls))
           (heap_fuel xb_state) 40).
  - apply bsession_reachable. vm_compute. reflexivity.
  - apply le_n.
  - lia.
  - unfold W64. lia.
Defined.

(** ** part_001 *)

Lemma smalloc_fit (s : state Seg.heads) (bs : list block)
      (fls : list (list (Z * Z))) (fuel : nat) (n r nq : Z) :
  SRep s bs fls -> 0 < n < W64 ->
  Seg._allocate fuel (Mm.adjust n) s = Done r s ->
  block_at (sfirst_hdr s) bs r nq Free -> Mm.adjust n <= nq ->
  exists s', Seg.malloc fuel n s = Done r s' /\ mem_brk s' = mem_brk s.
Proof.
  intros HRep Hn Hrun (l1 & l2 & -> & ->) Hle.
  destruct (adjust_facts n ltac:(lia)) as (H16 & H8 & H64 & _).
  unfold Seg.malloc.
  replace (n =? 0) with false by (symmetry; apply Z.eqb_neq; lia).
  cbv zeta. rstep ltac:(exact Hrun).
  destruct (sbuild_allocated s l1 l2 nq (Mm.adjust n) fls HRep H16 H8 Hle)
    as (_ & _ & (Hp & _)).
  destruct (sbuild_spec s l1 l2 nq (Mm.adjust n) fls HRep H16 H8 Hle)
    as (s2 & Hrun2 & (m' & fb' & bs' & fls' & -> & _)).
  replace (negb (sfirst_hdr s + total l1 + 4 =? NULL)) with true
    by (symmetry; apply negb_true_iff, Z.eqb_neq; exact Hp).
  rstep ltac:(exact Hrun2).
  eexists. split; reflexivity.
Qed.

Lemma smalloc_nofit (s : state Seg.heads) (bs : list block)
      (fls : list (list (Z * Z))) (fuel : nat) (n : Z) :
  SRep s bs fls -> 0 < n < W64 ->
  Seg._allocate fuel (Mm.adjust n) s = Done NULL s ->
  (mem_max s < mem_brk s + Mm.adjust n /\ Seg.malloc fuel n s = Done NULL s) \/
  (exists p s', Seg.malloc fuel n s = Done p s' /\ p <> NULL /\
                mem_brk s' = mem_brk s + Mm.adjust n).
Proof.
  intros HRep Hn Hrun.
  destruct (adjust_facts n ltac:(lia)) as (H16 & H8 & H64 & _).
  unfold Seg.malloc.
  replace (n =? 0) with false by (symmetry; apply Z.eqb_neq; lia).
  cbv zeta. rstep ltac:(exact Hrun).
  change (negb (NULL =? NULL)) with false. cbv iota.
  destruct (Z_le_gt_dec (mem_brk s + Mm.adjust n) (mem_max s)) as [Hroom|Hfull].
  - right.
    destruct (sextend_spec s bs fls (Mm.adjust n / WSIZE) HRep) as (r & s1 & Hrun1 & Hext);
      rewrite ?extend_bytes_adjust by lia; trivial.
    rewrite extend_bytes_adjust in Hext by lia.
    rstep ltac:(exact Hrun1).
    destruct Hext as (bs1 & fls1 & HRep1 & Hlo1 & Hmax1 & Hbrk1 & Htot1 & Hab1
                      & Hfr1 & r1 & rsz & r2 & -> & -> & Hrsz).
    assert (Efh : sfirst_hdr s1 = sfirst_hdr s) by (unfold sfirst_hdr; lia).
    rewrite <- Efh.
    destruct (sbuild_allocated s1 r1 r2 rsz (Mm.adjust n) fls1 HRep1 H16 H8 Hrsz)
      as (_ & _ & (Hp & _)).
    destruct (sbuild_spec s1 r1 r2 rsz (Mm.adjust n) fls1 HRep1 H16 H8 Hrsz)
      as (s2 & Hrun2 & (m' & fb' & bs' & fls' & -> & _)).
    replace (sfirst_hdr s1 + total r1 + 4 =? NULL) with false
      by (symmetry; apply Z.eqb_neq; exact Hp).
    rstep ltac:(exact Hrun2).
    eexists _, _. split; [reflexivity|]. split; [exact Hp|]. exact Hbrk1.
  - left. split; [lia|].
    rstep ltac:(apply sextend_fail; rewrite extend_bytes_adjust by lia; lia).
    reflexivity.
Qed.

(** X29.  [malloc] of part_001 in a reachable state takes memory from the
    provider only when no block on the class lists covers the adjusted
    request.  If one does, the pointer returned is that of a listed block
    that covers the request, and the break stays where it was.  If none
    does, the call returns NULL and changes nothing when the provider
    lacks the adjusted size, and otherwise moves the break by exactly the
    adjusted size. *)
Theorem X29_seg_malloc_reuses_free_blocks (lo max : Z) (s : state Seg.heads)
        (L : list Z) (fuel : nat) (n : Z) :
  sreachable lo max s L -> (heap_fuel s <= fuel)%nat -> 0 < n < W64 ->
  exists p s' ls,
    Seg.malloc fuel n s = Done p s' /\
    class_walks (heap_fuel s) (mem s) (heap_ptr s) (free_blks s)
                (S Seg.max_level) 0 = Some ls /\
    ((In p (concat ls) /\
      (exists m, GET_SIZE (GET_HEADER p) s = Done m s /\ Mm.adjust n <= m) /\
      mem_brk s' = mem_brk s) \/
     ((forall q m, In q (concat ls) ->
                   GET_SIZE (GET_HEADER q) s = Done m s -> m < Mm.adjust n) /\
      ((p = NULL /\ s' = s /\ mem_max s < mem_brk s + Mm.adjust n) \/
       (p <> NULL /\ mem_brk s' = mem_brk s + Mm.adjust n)))).
Proof.
  intros Hr Hf Hn.
  destruct (sreachable_inv _ _ _ _ Hr) as (bs & fls & HRep & HP & _).
  pose proof (SRep_SW _ _ _ HRep) as HW.
  pose proof (class_walks_chains s bs fls HW (S Seg.max_level) 0 eq_refl) as Hwalk.
  destruct (sallocate_classes s bs fls fuel (Mm.adjust n) HW Hf)
    as (r & Hrun & [(-> & Hnone)|(Hne & m & Hin & Hle & _)]).
  - assert (Hsmall : forall q m, In q (concat (map (map fst) fls)) ->
                       GET_SIZE (GET_HEADER q) s = Done m s -> m < Mm.adjust n).
    { intros q m Hq Hsz.
      exact (Hnone _ q m (SW_node_class s bs fls q m HW Hq Hsz)). }
    destruct (smalloc_nofit s bs fls fuel n HRep Hn Hrun)
      as [(Hfull & Hrun')|(p & s' & Hrun' & Hp & Hbrk)].
    + exists NULL, s, (map (map fst) fls).
      split; [exact Hrun'|]. split; [exact Hwalk|].
      right. split; [exact Hsmall|]. left. repeat split. exact Hfull.
    + exists p, s', (map (map fst) fls).
      split; [exact Hrun'|]. split; [exact Hwalk|].
      right. split; [exact Hsmall|]. right. split; assumption.
  - pose proof (SW_free_at s bs fls _ r m HW Hin) as Hblk.
    destruct (SW_free_header s bs fls r m HW Hblk) as (Hsz & _).
    destruct (smalloc_fit s bs fls fuel n r m HRep Hn Hrun Hblk Hle)
      as (s' & Hrun' & Hbrk).
    exists r, s', (map (map fst) fls).
    split; [exact Hrun'|]. split; [exact Hwalk|].
    left. split.
    { rewrite <- concat_map. apply (in_map fst _ (r, m)).
      eapply nth_in_concat. exact Hin. }
    split; [exists m; split; assumption|exact Hbrk].
Qed.

Lemma X29_witness :
  exists p s' ls,
    Seg.malloc (heap_fuel sx7_state) 40 sx7_state = Done p s' /\
    class_walks (heap_fuel sx7_state) (mem sx7_state) (heap_ptr sx7_state)
                (free_blks sx7_state) (S Seg.max_level) 0 = Some ls /\
    ((In p (concat ls) /\
      (exists m, GET_SIZE (GET_HEADER p) sx7_state = Done m sx7_state /\
                 Mm.adjust 40 <= m) /\
      mem_brk s' = mem_brk sx7_state) \/
     ((forall q m, In q (concat ls) ->
                   GET_SIZE (GET_HEADER q) sx7_state = Done m sx7_state ->
                   m < Mm.adjust 40) /\
      ((p = NULL /\ s' = sx7_state /\
        mem_max sx7_state < mem_brk sx7_state + Mm.adjust 40) \/
       (p <> NULL /\ mem_brk s' = mem_brk sx7_state + Mm.adjust 40)))).
Proof.
  apply (X29_seg_malloc_reuses_free_blocks 1024 8192 sx7_state
           (sheld_of (ssession zero_mem 1024 8192 sx7_calls))
           (heap_fuel sx7_state) 40).
  - apply ssession_reachable. vm_compute. reflexivity.
  - apply le_n.
  - unfold W64. lia.
Defined.

(** * Null pointers and zero sizes in mm.c *)

(** [free] of a held pointer and the blocks it is not about. *)
Lemma free_keeps_others (lo max : Z) (s : state Z) (L L' : list Z)
        (p : Z) :
  reachable lo max s L -> Permutation L (p :: L') ->
  exists s',
    Mm.free p s = Done tt s' /\
    reachable lo max s' L' /\
    mem_brk s' = mem_brk s /\
    forall q qsz,
      In q L' -> GET_SIZE (GET_HEADER q) s = Done qsz s ->
      GET_SIZE (GET_HEADER q) s' = Done qsz s' /\
      forall i, 0 <= i < qsz - WSIZE ->
                byte_at (mem s') (q + i) = byte_at (mem s) (q + i).
Proof.
  intros Hr HPL.
  destruct (reachable_inv _ _ _ _ Hr) as (bs & fl & HRep & HP & _).
  assert (Hpin : In p L)
    by (eapply Permutation_in; [apply Permutation_sym; exact HPL|left; reflexivity]).
  destruct (held_block s bs L p HP Hpin) as (psz & Hb).
  destruct (free_spec s bs fl p psz HRep) as (s' & E & Hfreed).
  { apply alloc_blocks_at. exact Hb. }
  exists s'. split; [exact E|].
  split; [eapply R_free; eassumption|].
  destruct Hfreed as (bs' & fl' & HRep' & Hlo' & Hmax' & Hbrk' & HP' & Hfr).
  split; [exact Hbrk'|].
  assert (Efh : first_hdr s' = first_hdr s) by (unfold first_hdr; lia).
  pose proof (W_sizes _ _ _ (Rep_W _ _ _ HRep)) as Hs.
  intros q qsz Hq Hqsz.
  assert (HqL : In q L)
    by (eapply Permutation_in; [apply Permutation_sym; exact HPL|right; exact Hq]).
  pose proof (held_size _ _ _ _ _ _ HRep HP HqL Hqsz) as Hqin.
  assert (Hqp : q <> p).
  { intros ->.
    pose proof (alloc_ptrs_NoDup (first_hdr s) bs Hs) as Hnd.
    eapply Permutation_NoDup in Hnd; [|apply Permutation_sym; exact HP].
    eapply Permutation_NoDup in Hnd; [|exact HPL].
    inversion Hnd; subst. contradiction. }
  assert (Hqin' : In (q, qsz) (alloc_blocks (first_hdr s') bs')).
  { rewrite Efh.
    assert (H : In (q, qsz) ((p, psz) :: alloc_blocks (first_hdr s) bs'))
      by (eapply Permutation_in; [apply Permutation_sym; exact HP'|exact Hqin]).
    destruct H as [H|H]; [inversion H; congruence|exact H]. }
  apply (block_kept s s' bs' fl' q qsz HRep' Hqin').
  intros y Hy. apply Hfr. apply in_payload_iff. exists q, qsz.
  rewrite <- Efh. split; [exact Hqin'|exact Hy].
Qed.

(** X30.  The edge cases of the interface of mm.c in a reachable state:
    [malloc(0)] returns NULL and [free(NULL)] returns, both without
    changing anything; [calloc] whose product is 0 modulo [2^64] returns
    NULL without changing anything; [realloc(NULL, n)] is [malloc(n)];
    and [realloc(p, 0)] of any held pointer frees [p]: it returns NULL,
    leaves the state that [free(p)] leaves, the break where it was, the
    client holding the other pointers, whose blocks keep their sizes and
    their payload bytes. *)
Theorem X30_null_and_zero_size_calls (lo max : Z) (s : state Z)
        (L : list Z) (fuel : nat) :
  reachable lo max s L ->
  Mm.malloc fuel 0 s = Done NULL s /\
  Mm.free NULL s = Done tt s /\
  (forall nmemb size, (nmemb * size) mod W64 = 0 ->
                      Mm.calloc fuel nmemb size s = Done NULL s) /\
  (forall n, n <> 0 -> Mm.realloc fuel NULL n s = Mm.malloc fuel n s) /\
  (forall p L',
      Permutation L (p :: L') ->
      exists s',
        Mm.realloc fuel p 0 s = Done 0 s' /\ Mm.free p s = Done tt s' /\
        reachable lo max s' L' /\ mem_brk s' = mem_brk s /\
        forall q qsz,
          In q L' -> GET_SIZE (GET_HEADER q) s = Done qsz s ->
          GET_SIZE (GET_HEADER q) s' = Done qsz s' /\
          forall i, 0 <= i < qsz - WSIZE ->
                    byte_at (mem s') (q + i) = byte_at (mem s) (q + i)).
Proof.
  intros Hr.
  split; [reflexivity|]. split; [reflexivity|].
  split.
  { intros nmemb size E. unfold Mm.calloc. rewrite E. reflexivity. }
  split.
  { intros n Hn. unfold Mm.realloc.
    replace (n =? 0) with false by (symmetry; apply Z.eqb_neq; exact Hn).
    reflexivity. }
  intros p L' HPL.
  destruct (free_keeps_others lo max s L L' p Hr HPL)
    as (s' & E & Hr' & Hbrk & Hkept).
  exists s'. split.
  { unfold Mm.realloc. change (0 =? 0) with true. cbv iota.
    rstep ltac:(exact E). reflexivity. }
  split; [exact E|]. split; [exact Hr'|]. split; [exact Hbrk|exact Hkept].
Qed.

Lemma X30_witness :
  Mm.malloc (heap_fuel x3_state) 0 x3_state = Done NULL x3_state /\
  Mm.free NULL x3_state = Done tt x3_state /\
  (forall nmemb size, (nmemb * size) mod W64 = 0 ->
                      Mm.calloc (heap_fuel x3_state) nmemb size x3_state
                      = Done NULL x3_state) /\
  (forall n, n <> 0 -> Mm.realloc (heap_fuel x3_state) NULL n x3_state
                       = Mm.malloc (heap_fuel x3_state) n x3_state) /\
  (forall p L',
      Permutation (held_of (session zero_mem 1024 8192 x3_calls)) (p :: L') ->
      exists s',
        Mm.realloc (heap_fuel x3_state) p 0 x3_state = Done 0 s' /\
        Mm.free p x3_state = Done tt s' /\
        reachable 1024 8192 s' L' /\ mem_brk s' = mem_brk x3_state /\
        forall q qsz,
          In q L' -> GET_SIZE (GET_HEADER q) x3_state = Done qsz x3_state ->
          GET_SIZE (GET_HEADER q) s' = Done qsz s' /\
          forall i, 0 <= i < qsz - WSIZE ->
                    byte_at (mem s') (q + i) = byte_at (mem x3_state) (q + i)).
Proof.
  apply (X30_null_and_zero_size_calls 1024 8192 x3_state
           (held_of (session zero_mem 1024 8192 x3_calls)) (heap_fuel x3_state)).
  apply session_reachable. vm_compute. reflexivity.
Defined.
